(* ===== verification/_CoqProject ===== *)
-Q . S2P
Prelude.v
GoLib.v
GoTime.v
GoDuration.v
Json.v
Ocpp.v
Errors.v
GoDurationText.v
GoRegexp.v
GoSort.v
GoUtf8.v
GoNet.v
GoBase64.v
GoHttp.v
GoHttpServe.v
GoHttpFacts.v
GoPath.v
Config.v
Validate.v
ConfigProps.v
ConfigLoad.v
Ocpi.v
OcpiInv.v
OcpiProps.v
State.v
Bus.v
StateProps.v
StateLock.v
SocketListen.v
World.v
Core.v
Persist.v
Reservations.v
Transactions.v
Load.v
CoreFacts.v
CoreInv.v
CoreOps.v
CoreTx.v
CoreReach.v
Samples.v
CoreEvents.v
CoreCounters.v
Restart.v
CoreProps.v
Edges.v
Acts.v
ReservationFacts.v
Lifecycle.v
Frame.v
Conn.v
V16Status.v
V16Messages.v
V16Handler.v
V16ChargePoint.v
V16Props.v
Simulator.v
SimulatorProps.v
Csms.v
Control.v
ControlProps.v
ControlSystem.v
Socket.v
Cli.v
SocketProps.v
CliReport.v
CliProbe.v
CliCommands.v
CliProps.v
CliRun.v
BuildInfo.v
SocketServe.v
CsmsShutdown.v
SimulatorRun.v
ConnPair.v
SimulatorClose.v
FakeClock.v
TestClient.v
OcpiShutdown.v
StoreMemory.v
