(* ===== verification/Prelude.v ===== *)
(** * A verification development of cpms (headless-csms)

    cpms is a headless OCPP central system: one station connects to it over a
    WebSocket and reports, operators and an OCPI server act on the station
    through it, and it keeps reservations and sessions across restarts.  This
    library models its core logic from the Go sources under src/internal/ and
    proves what makes it correct.

    ** The parts, and the files that model them

    - core/ is the domain state: [service], statuses, events, reservations,
      transactions.  World.v has its records and the world an operation runs in;
      Bus.v status.go and event.go; Core.v service.go; Reservations.v
      reservations.go; Transactions.v transactions.go; Persist.v and Load.v the
      two halves of persist.go, and New.  Lifecycle.v has its abstract
      specification as a book of reservations.
    - state/ is state.json and its store: State.v, a write of the file a system
      call at a time on a directory that can hold torn files; StoreMemory.v has the store
      with its slices and pointers, which State.v has as values; StateLock.v has
      the lock of lock_unix.go, with the processes that compete for it.
    - config/ is the configuration: Config.v config.go's data, defaults and
      lookups; Validate.v validate.go, enums.go and errors.go; ConfigLoad.v
      load.go; GoDuration.v the texts of duration.go.
    - ocpp/ is the version-neutral vocabulary and the interface of a station:
      Ocpp.v for ocpp.go and probe.go, and the class [V16ChargePoint.ChargePoint]
      for chargepoint.go.
    - ocpp/ocppj/ is the message framing and one connection: Frame.v frame.go,
      Conn.v conn.go, ConnPair.v two ends of it talking to each other.
    - ocpp/v16/ translates OCPP 1.6: V16Status.v status.go and the constants,
      V16Messages.v messages.go and commands.go, V16Handler.v handler.go (what a
      station's message does to core), V16ChargePoint.v chargepoint.go and
      probe.go (what core's command is on the wire).
    - ocpp/csms/ accepts stations: Csms.v for server.go; CsmsShutdown.v for its
      listener, the handshakes under way, and Shutdown.
    - control/ acts on the station: Control.v for control.go and errors.go;
      ControlSystem.v has its goroutines.
    - control/socket/ carries a command's request and its outcome to the
      operator: Socket.v; SocketListen.v has the claim of the socket's path, and
      SocketServe.v the goroutines that serve it and Close.
    - ocpi/ is the HTTP surface for roaming partners: Ocpi.v; OcpiShutdown.v for
      its listener, the requests in flight, and Shutdown.
    - cli/ is what the operator runs: Cli.v for exit.go; CliReport.v for what the
      commands share and print (root.go, config.go, summary.go, simulate.go, and
      main.go); CliProbe.v for the verdict of probe.go; CliCommands.v for the
      one-shot commands of station.go and probe.go and their client; CliRun.v for
      the order in which run.go takes and gives back what it holds, and for the
      commands and flags all of them declare; BuildInfo.v for version.go and
      buildinfo/.
    - simulator/ is a station to test against: Simulator.v; SimulatorRun.v has how
      it comes online, SimulatorClose.v its goroutines until they are over.
    - The packages the tests stand on: FakeClock.v for clocktest/, the end
      of StateProps.v for statetest/, TestClient.v for ocpptest/.
    - Errors.v has the error values of all packages with errors.Is and errors.As.
      GoLib.v, GoTime.v, GoDuration.v, GoDurationText.v, GoRegexp.v, GoSort.v,
      GoUtf8.v, GoNet.v, GoBase64.v, GoHttp.v, GoHttpServe.v, GoHttpFacts.v,
      GoPath.v and Json.v are what they use of Go's standard library: durations'
      texts, anchored regular expressions, sorting, hosts and ports, Base64,
      paths, ServeMux with its patterns and redirects, response writers.

    Calls go csms -> v16 handler -> core -> store and bus, and cli -> socket ->
    control -> core and the station; core never calls out.  The definitions keep
    the source's names, with the packages' clashes told apart by their files.

    ** State and operations

    An operation of core is an action of the state monad [World.M]: it reads and
    writes a [World.World] (the service's fields, the store, the subscribers, the
    armed timers and the expiry callbacks that have started).  What the source
    does under one hold of Service.mu is one [_locked] definition or one update;
    the operation is their composition with the writes and events outside the
    lock.  The clock and the disk are a class, [World.Env]: the n-th reading of
    the clock, and what the n-th write does.  The order of a range over a map is
    a class too, [MapOrder] below, of which only that it visits each key once
    is known.

    Concurrency is a step relation where it matters: [CoreReach.action] is one
    operation of core (or a timer that fires, or its callback that runs), and
    [reachable] any sequence of them; [ControlSystem] interleaves any number of
    Reserve calls, their background cancels, Close and foreign actions;
    [Csms] and [CsmsShutdown] the connections' goroutines, the registry and a call
    of Shutdown; [Conn] the goroutines of one connection, [ConnPair] those of its
    two ends, [SocketServe] those of the control socket, [SimulatorClose] those
    of a simulated station, [OcpiShutdown] those of the OCPI server, [TestClient]
    and [FakeClock] those of a test, a channel operation per step; [StateLock] and
    [SocketListen] any number of processes, a system call per step.  Where sharing
    could matter memory is explicit: a fake clock's timers are cells that its
    slice, its callers and an Advance share, and [StoreMemory] gives everybody
    the addresses Get and Update let out.  While a
    station call waits, arbitrary core actions run: the calls are actions on the
    world, and the hypotheses [minds] and [careful] say only that they are such
    actions and that no other thread decides about this thread's reservation.

    Integers wrap at 64 bits ([GoLib.wrap_int]); that the counters have ids left
    is a hypothesis ([has_ids]) where it is needed.  Strings are byte strings.  A
    Go pair (value, ok) is an option, (value, error) a sum.  Validation is the
    list of its problems in the order of the checks; an HTTP handler changes the
    response writer it is given; a simulated station's side effect threads the
    station through the world of the central system it calls; a command's output
    is a list of lines, tables and JSON values, tagged by stream; [run] is the
    trace of what it starts and stops.

    ** What is taken as given

    Code that is not in the repository is a class, whose instances a theorem
    ranges over: [URLs] (net/url's Parse), [Digest] (SHA-256), [HttpTexts] (the
    body of a redirect and a panic's text), [Host] (the temporary directory and
    absolute paths), [LocalClock] (the clock and the time zone of a report),
    [FloatText] (a float's shortest text), [JsonText] (the text of a JSON error)
    and [Caller] or [Commander] (whoever is at the other end of a connection).
    What the YAML decoder makes of a file is a value of type [YAML], and the
    stamps of a build an argument of [Get].

    ** What is shown

    - CoreFacts, CoreInv, CoreOps, CoreTx, CoreReach: the invariants of the
      domain state, for each critical section, each operation, and every
      reachable state; with CoreEvents (a subscriber that folds the status events
      knows every status), CoreCounters (ids never go back, and what a charge
      point has said is what the service holds of it) and Restart (what is
      written and read back).  CoreProps states the results: honest statuses,
      complete events, one reservation per EVSE, expiry, fresh ids, redemption,
      the outcomes of each reservation operation, and that a restart restores
      what was there.  Lifecycle: every run of core is a run of the reservation
      book, and so a reservation's life has the stages it should have.
    - StateProps: the file says what the memory says, also when a write fails or is
      cut off after any of its system calls; a file that cannot be read refuses to
      open; and a slow subscriber costs bounded memory.  StoreMemory: the store
      with its pointers refines the one of values.  StateLock:
      one process holds a state file's lock, and nobody waits for it for ever.
      SocketListen: what Listen replaces and what it refuses, and the race
      between two processes that find the same stale socket.
    - ConfigProps: Validate reports nothing exactly for the configurations an
      independent definition calls valid.  ConfigLoad: what loads is valid and
      usable, and what does not says why.
    - Conn and Frame: every call gets its own answer or an error, nothing leaks,
      calls are handled in order, frames round-trip, and a malformed call is
      answered where its id can be read.  ConnPair: put together, a call at one end
      is one call of the other end's handler, and no call is stuck.
    - V16Props: a station's message changes that station only, and only through
      core; a CALLERROR changes nothing; transaction ids survive the wire; what a
      probe supports is what the station's profiles say.
    - Csms: the handshake's refusals, that the registry names the newest
      connection, and that one replaced while it served never reports the station
      offline.  CsmsShutdown: what a Shutdown that succeeds has waited for,
      that the goroutines it waits for end, and the race it can lose.
    - SocketServe: Close leaves no request without its answer and lets none in
      after it, and the goroutines it waits for end.
    - ControlProps and ControlSystem: Reserve's outcomes under interleaving, that
      no record without a confirmation is left without an owner, that Close
      waits for the background cancels, and that a reservation whose ReserveNow
      timed out holds its EVSE until the cancel is through.
    - SocketProps: requests and errors round-trip, a bad request changes nothing,
      and the exit code tells what happened.  CliProps: each command is the
      control operation of its name, through request, socket and answer; the
      probe's verdict is the station's word; the summary's URL reaches the
      server; the default socket path can be bound.  CliRun: whatever fails, what
      was taken is let go of in order, and only a server whose Shutdown ran out of
      time may be left; every command can be run, and reads only flags it has.
    - OcpiInv, OcpiProps: what is advertised is served to whom the
      module says, whoever has no token learns only which routes there are,
      registering is all or nothing as to the modules listed, refusals are OCPI
      envelopes, and a server for a good base URL starts.  OcpiShutdown: what is
      served is settled when it starts, and a Shutdown that succeeds is the end.
    - SimulatorProps: the two ends understand each other's messages, and a
      session the station runs is the session core runs.  SimulatorRun: a new
      station boots and is known for what it is, and `cpms simulate charger` finds
      `cpms run`.  SimulatorClose: when Run has returned nothing goes on, and it
      does return once the connection is lost.
    - FakeClock: the tests' clock is one of those core is proved against.
      TestClient: it reads the wire as ocppj does, and each call gets its own
      answer.  StateProps: a failure that is switched on is one of a disk.
    - GoDurationText, GoSort, GoUtf8, GoNet, GoBase64, GoHttpFacts, GoPath: what
      these need of the library (round trips, stability, the mux's choice).
    - Edges: runs evaluated at the edges, where the behaviour differs from what
      a comment or a document says.

    ReservationFacts, Acts, ControlProps and CoreTx hold the lemmas these share;
    Samples is the concrete station the theorems are instantiated with.

    ** Fuel

    One definition takes fuel: the loop of time.ParseDuration in GoDuration.v,
    whose fuel is the length of the text; each turn consumes a character, and
    [parse_components_fuel] shows that more changes nothing.  Every other loop of
    the source is structural recursion, or a step relation with no bound.

    ** What is not modelled

    Sockets, files, the WebSocket library and the text of JSON (a message
    starts as the JSON value it denotes, or as the error its text gave); deadlines
    and pings, which appear as the Close or the timeout they lead to; contexts,
    beyond the error a call ends with; logging.  Of the repository's own code: the
    reading of a command line, which is cobra's and pflag's, and the alignment of
    tables, which is tabwriter's; the length of the simulator's pauses; the log's
    format; and the locking and directory syncing of Windows, which do nothing.

    This file itself holds what all the others share: the order of map iteration,
    notations, tactics and lemmas on lists and options. *)

From Stdlib Require Export Ascii.
From stdpp Require Export base tactics list gmap strings sorting.
From Stdlib Require Export ZArith Lia.

Declare Scope cpms_scope.
Delimit Scope cpms_scope with cpms.
Open Scope Z_scope.

(** ** Ranging over a Go map

    A Go [for k, v := range m] visits the entries of [m] in an order the
    language leaves open.  Every definition of the development that ranges over
    a map takes the order from this interface, whose law says the only thing the
    language promises: each entry is visited exactly once. *)
Class MapOrder := {
  range : forall {K : Type} `{Countable K} {A : Type}, gmap K A -> list (K * A);
  range_perm : forall {K : Type} `{Countable K} {A : Type} (m : gmap K A),
    range m ≡ₚ map_to_list m
}.

(** One admissible order, for evaluating the definitions on concrete inputs. *)
Definition key_order : MapOrder := {|
  range := fun K _ _ A m => map_to_list m;
  range_perm := fun K _ _ A m => Permutation_refl (map_to_list m)
|}.

Section range_facts.
Context `{MapOrder} {K : Type} `{Countable K} {A : Type}.
Implicit Types (m : gmap K A).

Lemma elem_of_range m k a : (k, a) ∈ range m <-> m !! k = Some a.
Proof. rewrite range_perm. apply elem_of_map_to_list. Qed.

Lemma NoDup_range m : NoDup (range m).
Proof. rewrite range_perm. apply NoDup_map_to_list. Qed.

Lemma length_range m : length (range m) = size m.
Proof. rewrite range_perm. by rewrite length_map_to_list. Qed.
End range_facts.

(** The first entry of a list that satisfies a test: a loop that returns from
    its body. *)
Definition first_such {A : Type} (p : A -> bool) (l : list A) : option A :=
  snd <$> list_find p l.

Section first_such_facts.
Context {A : Type} (p : A -> bool).
Implicit Types (l : list A).

Lemma first_such_Some l x : first_such p l = Some x -> x ∈ l /\ p x = true.
Proof.
  unfold first_such. intros Hf.
  destruct (list_find p l) as [[i y]|] eqn:Hl; simplify_eq/=.
  apply list_find_Some in Hl as (Hi & Hp & _).
  split; [by eapply list_elem_of_lookup_2 | by apply Is_true_true].
Qed.

Lemma first_such_None l : first_such p l = None <-> forall x, x ∈ l -> p x = false.
Proof.
  unfold first_such. rewrite fmap_None, list_find_None, Forall_forall.
  split; intros Hx x Hin; specialize (Hx x Hin).
  - destruct (p x); [by destruct Hx | done].
  - rewrite Hx. by intros [].
Qed.

Lemma first_such_is_Some l x : x ∈ l -> p x = true -> is_Some (first_such p l).
Proof.
  intros Hin Hp. destruct (first_such p l) eqn:E; [by eexists|].
  rewrite first_such_None in E. specialize (E x Hin). congruence.
Qed.

Lemma first_such_cons x l : first_such p (x :: l) = if p x then Some x else first_such p l.
Proof.
  unfold first_such. simpl. case_decide as Hp; destruct (p x); try done.
  by destruct (list_find p l) as [[]|].
Qed.

(** When at most one element passes the test, its position is irrelevant. *)
Lemma first_such_unique l x :
  x ∈ l -> p x = true -> (forall y, y ∈ l -> p y = true -> y = x) ->
  first_such p l = Some x.
Proof.
  intros Hin Hp Hu. destruct (first_such_is_Some l x Hin Hp) as [y Hy].
  rewrite Hy. f_equal. apply first_such_Some in Hy as [Hy1 Hy2]. by apply Hu.
Qed.
End first_such_facts.

(** ** Order and filtering *)

Lemma to_front {A} (l1 l2 : list A) x : l1 ++ x :: l2 ≡ₚ x :: l1 ++ l2.
Proof. symmetry. apply Permutation_middle. Qed.

Lemma filter_none {A : Type} (P : A -> Prop) `{!forall x, Decision (P x)} (l : list A) :
  (forall x, x ∈ l -> ~ P x) -> filter P l = [].
Proof.
  induction l as [|x l IH]; intros Hn; [done|].
  rewrite filter_cons, decide_False by (apply Hn; left).
  apply IH. intros y Hy. apply Hn. by right.
Qed.

Lemma filter_all {A : Type} (P : A -> Prop) `{!forall x, Decision (P x)} (l : list A) :
  (forall x, x ∈ l -> P x) -> filter P l = l.
Proof.
  induction l as [|x l IH]; intros Ha; [done|].
  rewrite filter_cons, decide_True by (apply Ha; left).
  f_equal. apply IH. intros y Hy. apply Ha. by right.
Qed.

Lemma NoDup_fmap_inj_in {A B} (f : A -> B) (l : list A) x y :
  NoDup (f <$> l) -> x ∈ l -> y ∈ l -> f x = f y -> x = y.
Proof.
  intros Hnd Hx Hy Hf. apply list_elem_of_lookup in Hx as [i Hi].
  apply list_elem_of_lookup in Hy as [j Hj].
  assert (i = j) as ->; [|congruence].
  eapply NoDup_lookup; [exact Hnd | by rewrite list_lookup_fmap, Hi |].
  by rewrite list_lookup_fmap, Hj, Hf.
Qed.

(** ** Sorting by an integer key: [sort.Slice] with [a.key < b.key] *)
Definition sort_by {A : Type} (key : A -> Z) : list A -> list A :=
  @merge_sort A (fun a b => key a <= key b) (fun a b => decide (key a <= key b)).

Section sort_by_facts.
Context {A : Type} (key : A -> Z).
Implicit Types (l : list A).

Lemma sort_by_perm l : sort_by key l ≡ₚ l.
Proof. apply merge_sort_Permutation. Qed.

Lemma sort_by_sorted l : StronglySorted (fun a b => key a <= key b) (sort_by key l).
Proof.
  apply StronglySorted_merge_sort; [|].
  - intros a b c. lia.
  - intros a b. destruct (Z.le_ge_cases (key a) (key b)); [by left | by right].
Qed.

Lemma elem_of_sort_by l x : x ∈ sort_by key l <-> x ∈ l.
Proof. by rewrite sort_by_perm. Qed.

(** With distinct keys the sorted list does not depend on the input order. *)
Lemma sort_by_perm_eq l1 l2 :
  l1 ≡ₚ l2 -> (forall a b, a ∈ l1 -> b ∈ l1 -> key a = key b -> a = b) ->
  sort_by key l1 = sort_by key l2.
Proof.
  intros Hp Hinj.
  assert (Hpp : sort_by key l1 ≡ₚ sort_by key l2) by by rewrite !sort_by_perm.
  assert (Hin : forall a b, a ∈ sort_by key l1 -> b ∈ sort_by key l1 ->
            key a = key b -> a = b).
  { intros a b Ha Hb. apply Hinj; by apply elem_of_sort_by. }
  pose proof (sort_by_sorted l1) as S1. pose proof (sort_by_sorted l2) as S2.
  revert Hpp Hin S1 S2.
  generalize (sort_by key l1), (sort_by key l2). clear l1 l2 Hp Hinj.
  intros l1. induction l1 as [|a l1 IH]; intros l2 Hpp Hin S1 S2.
  { by apply Permutation_nil_l in Hpp. }
  destruct l2 as [|b l2]; [by apply Permutation_nil_r in Hpp|].
  inversion S1 as [|? ? S1' F1]; inversion S2 as [|? ? S2' F2]; subst.
  rewrite Forall_forall in F1, F2.
  assert (a = b) as ->.
  { assert (Hb : b ∈ a :: l1) by (rewrite Hpp; left).
    assert (Ha : a ∈ b :: l2) by (rewrite <- Hpp; left).
    apply elem_of_cons in Hb as [->|Hb]; [done|].
    apply elem_of_cons in Ha as [->|Ha]; [done|].
    apply Hin; [left | by right |]. specialize (F1 b Hb); specialize (F2 a Ha). lia. }
  f_equal. apply IH; [by apply Permutation_cons_inv in Hpp | | done | done].
  intros x y Hx Hy. apply Hin; by right.
Qed.
End sort_by_facts.

(** ** Runs that end *)

Section bounded_runs.
Context {A : Type} (R : relation A) (P : A -> Prop) (work : A -> nat).
Hypothesis step_works : forall s s', P s -> R s s' -> P s' /\ (work s' < work s)%nat.

(** A run takes no more steps than there is work at its start. *)
Lemma nsteps_work n s s' : P s -> nsteps R n s s' -> P s' /\ (n + work s' <= work s)%nat.
Proof.
  intros Hs Hr. induction Hr as [s|n s s1 s' Hs1 _ IH]; [split; [done|lia]|].
  destruct (step_works s s1 Hs Hs1) as [H1 Hw]. destruct (IH H1) as [H2 Hn]. split; [done|lia].
Qed.

Lemma rtc_keeps s s' : P s -> rtc R s s' -> P s'.
Proof. intros Hs (n & Hr)%rtc_nsteps. by eapply nsteps_work. Qed.
End bounded_runs.

(** ** Tactics *)

(** Splits on the condition of every [if] and the scrutinee of every [match] of
    the goal or a hypothesis, keeping the equations. *)
Ltac case_all :=
  repeat (case_match; simplify_eq/=; try done).

Ltac split_and_all := repeat match goal with |- _ /\ _ => split end.

Create HintDb cpms discriminated.
#[export] Hint Resolve elem_of_range NoDup_range : cpms.
