(* ===== verification/GoLib.v ===== *)
(** * The parts of Go and its standard library that cpms relies on

    64-bit integers and their wrap-around, [strconv.Itoa] and [strconv.Atoi],
    UTF-8 strings with [strings.EqualFold], [strings.TrimSpace],
    [strings.Split] and [strings.Join].  Strings are byte strings, as in Go.

    [EqualFold] folds ASCII letters and the two non-ASCII runes whose folding
    orbit reaches an ASCII letter (U+017F and U+212A), so it is exact whenever
    one of the two sides is ASCII; other non-ASCII letters compare exactly. *)

From Stdlib Require Import DecimalString DecimalZ DecimalPos.
From S2P Require Import Prelude.

(** ** Integers *)

Definition int_max : Z := 9223372036854775807.
Definition int_min : Z := -9223372036854775808.

(** Two's complement wrap-around of a 64-bit [int]. *)
Definition wrap_int (z : Z) : Z := (z + 2 ^ 63) mod 2 ^ 64 - 2 ^ 63.
Definition wrap_uint64 (z : Z) : Z := z mod 2 ^ 64.

Definition int_ok (z : Z) : Prop := int_min <= z <= int_max.

Lemma wrap_int_id z : int_ok z -> wrap_int z = z.
Proof.
  unfold int_ok, int_min, int_max, wrap_int. intros [H1 H2].
  rewrite Z.mod_small; lia.
Qed.

Lemma wrap_int_ok z : int_ok (wrap_int z).
Proof.
  unfold int_ok, int_min, int_max, wrap_int.
  pose proof (Z.mod_pos_bound (z + 2 ^ 63) (2 ^ 64)). lia.
Qed.

Lemma wrap_int_succ z : 0 <= z < int_max -> wrap_int (z + 1) = z + 1.
Proof. intros H. apply wrap_int_id. unfold int_ok, int_min, int_max in *. lia. Qed.

(** ** Decimal conversion *)

(** [strconv.Itoa]. *)
Definition Itoa (z : Z) : string := NilZero.string_of_int (Z.to_int z).

(** The digits of an unsigned decimal literal; at least one is required. *)
Definition parse_digits (s : string) : option Z :=
  match s with
  | EmptyString => None
  | _ => Z.of_uint <$> NilEmpty.uint_of_string s
  end.

(** The value [strconv.Atoi] reads before its range check: an optional sign,
    then digits only. *)
Definition parse_signed (s : string) : option Z :=
  match s with
  | String "-"%char r => Z.opp <$> parse_digits r
  | String "+"%char r => parse_digits r
  | _ => parse_digits s
  end.

(** [strconv.Atoi]; [None] is a syntax or range error. *)
Definition Atoi (s : string) : option Z :=
  z ← parse_signed s;
  if bool_decide (int_min <= z <= int_max) then Some z else None.

Lemma parse_digits_string_of_uint d :
  d <> Decimal.Nil -> parse_digits (NilZero.string_of_uint d) = Some (Z.of_uint d).
Proof.
  intros Hd. pose proof (NilEmpty.usu d) as Hu. unfold NilZero.string_of_uint.
  destruct d; [done|..]; unfold parse_digits; simpl in *; by rewrite Hu.
Qed.

Lemma string_of_uint_sign d r :
  NilZero.string_of_uint d <> String "-"%char r /\ NilZero.string_of_uint d <> String "+"%char r.
Proof. by destruct d. Qed.

Lemma parse_signed_unsigned s :
  (forall r, s <> String "-"%char r) -> (forall r, s <> String "+"%char r) ->
  parse_signed s = parse_digits s.
Proof.
  intros H1 H2. destruct s as [|a r]; [done|].
  specialize (H1 r); specialize (H2 r).
  destruct a as [[] [] [] [] [] [] [] []]; done.
Qed.

Lemma to_int_nonnil z :
  (forall p, Z.to_int z = Decimal.Pos p -> p <> Decimal.Nil) /\
  (forall p, Z.to_int z = Decimal.Neg p -> p <> Decimal.Nil).
Proof.
  destruct z as [|q|q]; split; intros p Hp; simpl in Hp; simplify_eq;
    try done; apply Unsigned.to_uint_nonnil.
Qed.

Lemma parse_signed_Itoa z : parse_signed (Itoa z) = Some z.
Proof.
  unfold Itoa. destruct (to_int_nonnil z) as [Hp Hn].
  pose proof (DecimalZ.of_to z) as Hz. destruct (Z.to_int z) as [d|d] eqn:E; simpl in *.
  - rewrite parse_signed_unsigned by apply string_of_uint_sign.
    rewrite parse_digits_string_of_uint by auto. by rewrite <- Hz.
  - rewrite parse_digits_string_of_uint by auto. simpl. by rewrite <- Hz.
Qed.

(** [Atoi] reads back every id [Itoa] printed. *)
Lemma Atoi_Itoa z : int_ok z -> Atoi (Itoa z) = Some z.
Proof.
  intros H. unfold Atoi. rewrite parse_signed_Itoa. simpl.
  by rewrite bool_decide_eq_true_2.
Qed.

Lemma Itoa_inj a b : Itoa a = Itoa b -> a = b.
Proof.
  intros H. pose proof (parse_signed_Itoa a) as Ha. rewrite H in Ha.
  rewrite parse_signed_Itoa in Ha. congruence.
Qed.

Lemma Atoi_ok s z : Atoi s = Some z -> int_ok z.
Proof.
  unfold Atoi. intros (n & _ & Hn)%bind_Some. case_bool_decide; by simplify_eq.
Qed.

(** ** UTF-8 *)

Definition byte_val (a : ascii) : Z := Z.of_N (Ascii.N_of_ascii a).

Definition in_range (lo hi z : Z) : bool := (lo <=? z) && (z <=? hi).

(** The rune [utf8.DecodeRune] gives for an invalid byte. *)
Definition rune_error : Z := 65533.

Definition lead2 (x y : Z) : bool := in_range 194 223 x && in_range 128 191 y.
Definition lead3 (x y z : Z) : bool :=
  in_range 224 239 x &&
  in_range (if x =? 224 then 160 else 128) (if x =? 237 then 159 else 191) y &&
  in_range 128 191 z.
Definition lead4 (x y z v : Z) : bool :=
  in_range 240 244 x &&
  in_range (if x =? 240 then 144 else 128) (if x =? 244 then 143 else 191) y &&
  in_range 128 191 z && in_range 128 191 v.

Definition rune2 (x y : Z) : Z := (x - 192) * 64 + (y - 128).
Definition rune3 (x y z : Z) : Z := (x - 224) * 4096 + (y - 128) * 64 + (z - 128).
Definition rune4 (x y z v : Z) : Z :=
  (x - 240) * 262144 + (y - 128) * 4096 + (z - 128) * 64 + (v - 128).

(** [for _, r := range s]: the runes of [s], each with the bytes it stands on. *)
Fixpoint runes (s : string) : list (Z * string) :=
  match s with
  | EmptyString => []
  | String a s1 =>
    if byte_val a <? 128 then (byte_val a, String a EmptyString) :: runes s1
    else match s1 with
    | EmptyString => (rune_error, String a EmptyString) :: runes s1
    | String b s2 =>
      if lead2 (byte_val a) (byte_val b)
      then (rune2 (byte_val a) (byte_val b), String a (String b EmptyString)) :: runes s2
      else match s2 with
      | EmptyString => (rune_error, String a EmptyString) :: runes s1
      | String c s3 =>
        if lead3 (byte_val a) (byte_val b) (byte_val c)
        then (rune3 (byte_val a) (byte_val b) (byte_val c),
              String a (String b (String c EmptyString))) :: runes s3
        else match s3 with
        | EmptyString => (rune_error, String a EmptyString) :: runes s1
        | String d s4 =>
          if lead4 (byte_val a) (byte_val b) (byte_val c) (byte_val d)
          then (rune4 (byte_val a) (byte_val b) (byte_val c) (byte_val d),
                String a (String b (String c (String d EmptyString)))) :: runes s4
          else (rune_error, String a EmptyString) :: runes s1
        end
      end
    end
  end.

Definition rune_values (s : string) : list Z := (runes s).*1.

(** The representative of a rune's case-folding orbit. *)
Definition fold_rune (r : Z) : Z :=
  if in_range 65 90 r then r + 32
  else if r =? 383 then 115 (* U+017F, the long s *)
  else if r =? 8490 then 107 (* U+212A, the Kelvin sign *)
  else r.

(** [strings.EqualFold]. *)
Definition EqualFold (s t : string) : bool :=
  bool_decide (fold_rune <$> rune_values s = fold_rune <$> rune_values t).

Lemma EqualFold_refl s : EqualFold s s = true.
Proof. by apply bool_decide_eq_true_2. Qed.

Lemma EqualFold_sym s t : EqualFold s t = EqualFold t s.
Proof. apply bool_decide_ext. split; congruence. Qed.

Lemma EqualFold_trans s t u :
  EqualFold s t = true -> EqualFold t u = true -> EqualFold s u = true.
Proof. unfold EqualFold. rewrite !bool_decide_eq_true. congruence. Qed.

(** ** String helpers *)

Lemma append_cons a s t : String a s +:+ t = String a (s +:+ t).
Proof. done. Qed.

Lemma append_assoc a b c : (a +:+ b) +:+ c = a +:+ (b +:+ c).
Proof. induction a as [|x a IH]; [done|]. by rewrite !append_cons, IH.
Qed.

Lemma append_nil s : s +:+ EmptyString = s.
Proof.
  induction s as [|a s IH]; [done|]. by rewrite append_cons, IH.
Qed.

Definition concat_strings (l : list string) : string := foldr String.append EmptyString l.

Lemma append_length s t : String.length (s +:+ t) = (String.length s + String.length t)%nat.
Proof. induction s as [|a s IH]; [done|]. rewrite append_cons. cbn [String.length]. by rewrite IH. Qed.

(** [strings.Join]. *)
Fixpoint Join (sep : string) (l : list string) : string :=
  match l with
  | [] => EmptyString
  | [x] => x
  | x :: l' => x +:+ sep +:+ Join sep l'
  end.

(** [unicode.IsSpace]. *)
Definition is_space (r : Z) : bool :=
  in_range 9 13 r || (r =? 32) || (r =? 133) || (r =? 160) || (r =? 5760) ||
  in_range 8192 8202 r || (r =? 8232) || (r =? 8233) || (r =? 8239) ||
  (r =? 8287) || (r =? 12288).

Fixpoint drop_spaces (l : list (Z * string)) : list (Z * string) :=
  match l with
  | (r, bs) :: l' => if is_space r then drop_spaces l' else l
  | [] => []
  end.

(** [strings.TrimSpace]. *)
Definition TrimSpace (s : string) : string :=
  concat_strings (reverse (drop_spaces (reverse (drop_spaces (runes s))))).*2.

(** [strings.Split] with a one-byte separator. *)
Fixpoint Split (s : string) (sep : ascii) : list string :=
  match s with
  | EmptyString => [EmptyString]
  | String a r =>
    if bool_decide (a = sep) then EmptyString :: Split r sep
    else match Split r sep with
         | w :: ws => String a w :: ws
         | [] => [String a EmptyString]
         end
  end.

(** The double quote, which the text of a literal here cannot hold. *)
Definition dquote : string := String (Ascii.ascii_of_nat 34) EmptyString.
Definition newline : string := String (Ascii.ascii_of_nat 10) EmptyString.

Definition hex_digit (z : Z) : ascii :=
  Ascii.ascii_of_N (Z.to_N (if z <? 10 then 48 + z else 87 + z)).
Definition hex_byte (z : Z) : string :=
  String (hex_digit (z / 16)) (String (hex_digit (z mod 16)) EmptyString).

Definition backslash : ascii := Ascii.ascii_of_nat 92.
Definition escaped (a : ascii) : string := String backslash (String a EmptyString).

(** One rune of [strconv.Quote].  A valid non-ASCII rune is taken to be
    printable. *)
Definition quote_rune (r : Z * string) : string :=
  let '(v, bs) := r in
  if v =? 34 then escaped (Ascii.ascii_of_nat 34)
  else if v =? 92 then escaped backslash
  else if v =? 7 then escaped "a"%char
  else if v =? 8 then escaped "b"%char
  else if v =? 12 then escaped "f"%char
  else if v =? 10 then escaped "n"%char
  else if v =? 13 then escaped "r"%char
  else if v =? 9 then escaped "t"%char
  else if v =? 11 then escaped "v"%char
  else if (v <? 32) || (v =? 127) then String backslash (String "x"%char (hex_byte v))
  else match bs with
       | String a EmptyString =>
         if byte_val a <? 128 then bs
         else String backslash (String "x"%char (hex_byte (byte_val a)))
       | _ => bs
       end.

(** [strconv.Quote], the [%q] verb. *)
Definition Quote (s : string) : string :=
  dquote +:+ concat_strings (quote_rune <$> runes s) +:+ dquote.

(** Left padding with zeros to a width. *)
Fixpoint repeat_char (n : nat) (a : ascii) : string :=
  match n with O => EmptyString | S n' => String a (repeat_char n' a) end.
Definition pad_zero (w : nat) (z : Z) : string :=
  let s := Itoa z in repeat_char (w - String.length s) "0"%char +:+ s.

Example Atoi_samples :
  Atoi "42" = Some 42 /\ Atoi "-7" = Some (-7) /\ Atoi "+5" = Some 5 /\
  Atoi "" = None /\ Atoi "-" = None /\ Atoi "1x" = None /\ Atoi "007" = Some 7 /\
  Atoi "9223372036854775808" = None.
Proof. vm_compute. done. Qed.

Example EqualFold_samples :
  EqualFold "04A1b2" "04a1B2" = true /\ EqualFold "K" "K" = true /\
  EqualFold "a" "b" = false /\ EqualFold "ab" "abc" = false.
Proof. vm_compute. done. Qed.

Example Trim_Split_samples :
  TrimSpace "  a b	 " = "a b" /\ TrimSpace " " = "" /\
  Split "Core, Reservation" ","%char = ["Core"; " Reservation"] /\ Split "" ","%char = [""].
Proof. vm_compute. done. Qed.
