(* ===== verification/GoTime.v ===== *)
(** * time.Time and time.Duration

    An instant is a number of nanoseconds since Go's zero time, January 1 of
    year 1 UTC, and carries the offset of its location; [UTC] changes the
    offset and nothing else, and [Equal] and [After] compare instants only.
    Monotonic clock readings are not modelled: the wall clock is taken to
    advance like the monotonic one.

    [FormatRFC3339] is [t.UTC().Format(time.RFC3339)] and [ParseRFC3339] is
    [time.Parse(time.RFC3339, s)], with Go's leniency (a one-digit hour, a
    fraction the layout does not mention). *)

From S2P Require Import Prelude GoLib.

(** A duration is its number of nanoseconds. *)
Definition nanosecond : Z := 1.
Definition millisecond : Z := 1000000.
Definition second : Z := 1000000000.
Definition minute : Z := 60 * second.
Definition hour : Z := 60 * minute.

Record Time := mkTime { instant : Z; zone : Z }.

#[export] Instance Time_eq_dec : EqDecision Time.
Proof. solve_decision. Defined.

(** The zero value of [time.Time]. *)
Definition zeroTime : Time := mkTime 0 0.

Definition IsZero (t : Time) : bool := instant t =? 0.
Definition UTC (t : Time) : Time := mkTime (instant t) 0.
Definition TimeAdd (t : Time) (d : Z) : Time := mkTime (instant t + d) (zone t).
Definition After (t u : Time) : bool := instant u <? instant t.
Definition TimeEqual (t u : Time) : bool := instant t =? instant u.

(** [t.Sub(u)] saturates at the ends of the int64 range. *)
Definition TimeSub (t u : Time) : Z :=
  Z.max int_min (Z.min int_max (instant t - instant u)).

Lemma UTC_idemp t : UTC (UTC t) = UTC t.
Proof. done. Qed.
Lemma IsZero_UTC t : IsZero (UTC t) = IsZero t.
Proof. done. Qed.

(** ** The calendar *)

(** Days since 1 March of year 0, the start of a 400-year era. *)
Definition era_days : Z := 146097.
Definition epoch_shift : Z := 306.

Record Date := mkDate { year : Z; month : Z; day : Z }.

Definition year_of_era (doe : Z) : Z :=
  (doe - doe / 1460 + doe / 36524 - doe / 146096) / 365.
Definition day_of_year (doe : Z) : Z :=
  let yoe := year_of_era doe in doe - (365 * yoe + yoe / 4 - yoe / 100).

(** The date of a day counted from January 1 of year 1. *)
Definition date_of_days (n : Z) : Date :=
  let z := n + epoch_shift in
  let era := z / era_days in
  let doe := z mod era_days in
  let doy := day_of_year doe in
  let mp := (5 * doy + 2) / 153 in
  let m := if mp <? 10 then mp + 3 else mp - 9 in
  mkDate (year_of_era doe + era * 400 + (if m <=? 2 then 1 else 0)) m
         (doy - (153 * mp + 2) / 5 + 1).

Definition days_of_date (d : Date) : Z :=
  let y := if month d <=? 2 then year d - 1 else year d in
  let yoe := y mod 400 in
  let mp := if 2 <? month d then month d - 3 else month d + 9 in
  let doy := (153 * mp + 2) / 5 + day d - 1 in
  y / 400 * era_days + (yoe * 365 + yoe / 4 - yoe / 100 + doy) - epoch_shift.

Definition leap_year (y : Z) : bool :=
  (y mod 4 =? 0) && (negb (y mod 100 =? 0) || (y mod 400 =? 0)).

Definition days_in (m y : Z) : Z :=
  if m =? 2 then (if leap_year y then 29 else 28)
  else if (m =? 4) || (m =? 6) || (m =? 9) || (m =? 11) then 30 else 31.

(** ** Formatting *)

Definition seconds_per_day : Z := 86400.

Definition unix_sec (t : Time) : Z := instant t / second.

Definition FormatRFC3339 (t : Time) : string :=
  let s := unix_sec t in
  let d := date_of_days (s / seconds_per_day) in
  let r := s mod seconds_per_day in
  pad_zero 4 (year d) +:+ "-" +:+ pad_zero 2 (month d) +:+ "-" +:+ pad_zero 2 (day d) +:+
  "T" +:+ pad_zero 2 (r / 3600) +:+ ":" +:+ pad_zero 2 (r mod 3600 / 60) +:+ ":" +:+
  pad_zero 2 (r mod 60) +:+ "Z".

(** ** Parsing *)

Definition digit_val (a : ascii) : option Z :=
  if in_range 48 57 (byte_val a) then Some (byte_val a - 48) else None.

(** Go's [getnum]: two digits, or one when [fixed] is false. *)
Definition getnum (s : string) (fixed : bool) : option (Z * string) :=
  match s with
  | EmptyString => None
  | String a r =>
    x ← digit_val a;
    match r with
    | String b r' =>
      match digit_val b with
      | Some y => Some (10 * x + y, r')
      | None => if fixed then None else Some (x, r)
      end
    | EmptyString => if fixed then None else Some (x, r)
    end
  end.

Definition getyear (s : string) : option (Z * string) :=
  '(hi, r) ← getnum s true; '(lo, r') ← getnum r true; Some (100 * hi + lo, r').

Definition skip (c : ascii) (s : string) : option string :=
  match s with
  | String a r => if bool_decide (a = c) then Some r else None
  | EmptyString => None
  end.

Definition check_range (lo hi : Z) (v : Z * string) : option (Z * string) :=
  if in_range lo hi v.1 then Some v else None.

(** The digits of a fraction: each but the first nine is dropped. *)
Fixpoint fraction (s : string) (scale : Z) (acc : Z) : Z * string :=
  match s with
  | String a r =>
    match digit_val a with
    | Some x => fraction r (scale / 10) (acc + x * scale)
    | None => (acc, s)
    end
  | EmptyString => (acc, s)
  end.

Definition getfraction (s : string) : Z * string :=
  match s with
  | String p (String d _ as r) =>
    if (bool_decide (p = "."%char) || bool_decide (p = ","%char)) &&
       bool_decide (is_Some (digit_val d))
    then fraction r 100000000 0 else (0, s)
  | _ => (0, s)
  end.

(** The zone: [Z], or a sign and [hh:mm], in seconds east of UTC. *)
Definition getzone (s : string) : option (Z * string) :=
  match s with
  | String "Z"%char r => Some (0, r)
  | String sg r =>
    '(hr, r1) ← getnum r true;
    r2 ← skip ":"%char r1;
    '(mm, r3) ← getnum r2 true;
    if (hr <=? 24) && (mm <=? 60) then
      if bool_decide (sg = "+"%char) then Some ((hr * 60 + mm) * 60, r3)
      else if bool_decide (sg = "-"%char) then Some (- ((hr * 60 + mm) * 60), r3)
      else None
    else None
  | EmptyString => None
  end.

Definition ParseRFC3339 (s : string) : option Time :=
  '(y, r) ← getyear s;
  r ← skip "-"%char r;
  '(mo, r) ← getnum r true ≫= check_range 1 12;
  r ← skip "-"%char r;
  '(d, r) ← getnum r true;
  r ← skip "T"%char r;
  '(h, r) ← getnum r false ≫= check_range 0 23;
  r ← skip ":"%char r;
  '(mi, r) ← getnum r true ≫= check_range 0 59;
  r ← skip ":"%char r;
  '(sec, r) ← getnum r true ≫= check_range 0 59;
  let '(nsec, r) := getfraction r in
  '(off, r) ← getzone r;
  if bool_decide (r = EmptyString) && in_range 1 (days_in mo y) d then
    Some (mkTime
      ((days_of_date (mkDate y mo d) * seconds_per_day + h * 3600 + mi * 60 + sec - off) *
         second + nsec) off)
  else None.

Example Format_samples :
  FormatRFC3339 zeroTime = "0001-01-01T00:00:00Z" /\
  FormatRFC3339 (mkTime ((719162 * 86400 + 1) * second + 5) 3600) = "1970-01-01T00:00:01Z".
Proof. vm_compute. done. Qed.

Example Parse_samples :
  ParseRFC3339 "1970-01-01T00:00:01Z" = Some (mkTime ((719162 * 86400 + 1) * second) 0) /\
  ParseRFC3339 "1970-01-01T02:00:01.5+02:00" =
    Some (mkTime ((719162 * 86400 + 1) * second + 500000000) 7200) /\
  ParseRFC3339 "2023-02-29T00:00:00Z" = None /\ ParseRFC3339 "yesterday" = None.
Proof. vm_compute. done. Qed.
