(* ===== verification/GoDuration.v ===== *)
(** * [time.ParseDuration]

    A Go duration: a sign, then decimal numbers with a unit each, added up in
    nanoseconds with the library's overflow checks.  A fraction is computed
    exactly here; the library's float64 arithmetic agrees with it whenever the
    fraction has no more digits than the unit has decimal places. *)

From S2P Require Import Prelude GoLib GoTime.

Definition max_uint63 : Z := 2 ^ 63.

Definition digit_of (a : ascii) : option Z :=
  let n := Z.of_N (N_of_ascii a) in if (48 <=? n) && (n <=? 57) then Some (n - 48) else None.

(** [leadingInt]: the value and the rest; [None] on overflow. *)
Fixpoint leadingInt (s : string) (x : Z) : option (Z * string) :=
  match s with
  | EmptyString => Some (x, s)
  | String a r =>
    match digit_of a with
    | None => Some (x, s)
    | Some d =>
      if max_uint63 / 10 <? x then None
      else let x := x * 10 + d in
           if max_uint63 <? x then None else leadingInt r x
    end
  end.

(** [leadingFraction]: digits beyond the precision are skipped. *)
Fixpoint leadingFraction (s : string) (x scale : Z) (overflow : bool) : Z * Z * string :=
  match s with
  | EmptyString => (x, scale, s)
  | String a r =>
    match digit_of a with
    | None => (x, scale, s)
    | Some d =>
      if overflow || ((max_uint63 - 1) / 10 <? x) then leadingFraction r x scale true
      else let y := x * 10 + d in
           if max_uint63 <? y then leadingFraction r x scale true else leadingFraction r y (scale * 10) false
    end
  end.

(** The unit: everything up to the next digit or point. *)
Fixpoint span_unit (s : string) : string * string :=
  match s with
  | EmptyString => (EmptyString, EmptyString)
  | String a r =>
    if bool_decide (a = "."%char) || bool_decide (is_Some (digit_of a)) then (EmptyString, s)
    else let '(u, r') := span_unit r in (String a u, r')
  end.

Definition unitMap : list (string * Z) := [
  ("ns", 1); ("us", 1000); ("µs", 1000); ("μs", 1000);
  ("ms", 1000000); ("s", second); ("m", minute); ("h", hour)].

Definition unit_value (u : string) : option Z := snd <$> first_such (fun p => bool_decide (p.1 = u)) unitMap.

(** What follows the whole part: the fraction and its scale, the rest, and
    whether the point had digits. *)
Definition fraction_part (r : string) : Z * Z * string * bool :=
  match r with
  | String "."%char q =>
    let '(f, scale, q') := leadingFraction q 0 1 false in (f, scale, q', negb (bool_decide (q' = q)))
  | _ => (0, 1, r, false)
  end.

(** One number with its unit: its nanoseconds and the rest. *)
Definition parse_component (s : string) : option (Z * string) :=
  vr ← leadingInt s 0;
  let '(v, r) := vr in
  let pre := negb (bool_decide (r = s)) in
  let '(f, scale, r', post) := fraction_part r in
  if negb (pre || post) then None
  else
    let '(u, rest) := span_unit r' in
    unit ← unit_value u;
    if max_uint63 / unit <? v then None
    else
      let v := v * unit in
      if f =? 0 then Some (v, rest)
      else let v := v + f * unit / scale in
           if max_uint63 <? v then None else Some (v, rest).

(** The loop; each turn consumes at least a digit and a unit. *)
Fixpoint parse_components (fuel : nat) (s : string) (d : Z) : option Z :=
  match s with
  | EmptyString => Some d
  | _ =>
    match fuel with
    | O => None
    | S fuel =>
      vr ← parse_component s;
      let d := d + vr.1 in
      if max_uint63 <? d then None else parse_components fuel vr.2 d
    end
  end.

Definition ParseDuration (s : string) : option Z :=
  let '(neg, r) :=
    match s with
    | String "-"%char r => (true, r)
    | String "+"%char r => (false, r)
    | _ => (false, s)
    end in
  if bool_decide (r = "0") then Some 0
  else if bool_decide (r = "") then None
  else
    d ← parse_components (String.length r) r 0;
    if neg then Some (- d)
    else if max_uint63 - 1 <? d then None else Some d.

Example parse_duration_samples :
  ParseDuration "15m" = Some (15 * minute) /\ ParseDuration "1h30m" = Some (90 * minute) /\
  ParseDuration "1.5h" = Some (90 * minute) /\ ParseDuration "-10s" = Some (-10 * second) /\
  ParseDuration ".5s" = Some (500000000) /\ ParseDuration "0" = Some 0 /\
  ParseDuration "" = None /\ ParseDuration "15" = None /\ ParseDuration "." = None /\
  ParseDuration "9223372036854775807ns" = Some (2 ^ 63 - 1) /\
  ParseDuration "9223372036854775808ns" = None /\ ParseDuration "1 m" = None.
Proof. vm_compute. repeat split. Qed.

(** A duration that parses is a Go duration. *)
Lemma leadingInt_nonneg s : forall x v r, 0 <= x -> leadingInt s x = Some (v, r) -> 0 <= v.
Proof.
  induction s as [|a s IH]; intros x v r Hx; simpl; [by intros [= <- _]|].
  destruct (digit_of a) as [d|] eqn:Ed; [|by intros [= <- _]].
  assert (0 <= d) by (unfold digit_of in Ed; destruct (_ && _) eqn:E; simplify_eq; lia).
  destruct (_ <? _); [done|]. destruct (_ <? _); [done|]. apply IH. lia.
Qed.

Lemma leadingFraction_nonneg s : forall x scale o f sc r,
  0 <= x -> 0 < scale -> leadingFraction s x scale o = (f, sc, r) -> 0 <= f /\ 0 < sc.
Proof.
  induction s as [|a s IH]; intros x scale o f sc r Hx Hs; simpl; [by intros [= <- <- _]|].
  destruct (digit_of a) as [d|] eqn:Ed; [|by intros [= <- <- _]].
  assert (0 <= d) by (unfold digit_of in Ed; destruct (_ && _) eqn:E; simplify_eq; lia).
  destruct (_ || _); [by apply IH|]. destruct (_ <? _); [by apply IH|]. apply IH; lia.
Qed.

Lemma unit_value_pos u n : unit_value u = Some n -> 0 < n.
Proof.
  unfold unit_value. intros ([k v] & Hf & ->)%fmap_Some. apply first_such_Some in Hf as [Hin _].
  unfold unitMap in Hin. cbn.
  repeat (apply elem_of_cons in Hin as [[= -> ->]|Hin]; [done|]). by apply not_elem_of_nil in Hin.
Qed.

Lemma parse_component_nonneg s v r : parse_component s = Some (v, r) -> 0 <= v.
Proof.
  unfold parse_component. intros ([v0 r0] & Hi & Hp)%bind_Some. apply leadingInt_nonneg in Hi; [|lia].
  destruct (fraction_part r0) as [[[f scale] r'] post] eqn:Ef. unfold fraction_part in Ef.
  assert (Hf : 0 <= f /\ 0 < scale).
  { destruct r0 as [|a q]; [injection Ef as <- <- _ _; lia|].
    destruct a as [[] [] [] [] [] [] [] []]; try (injection Ef as <- <- _ _; lia).
    destruct (leadingFraction q 0 1 false) as [[f' sc'] q'] eqn:El.
    injection Ef as <- <- _ _. by apply leadingFraction_nonneg in El. }
  destruct (negb _); [done|]. destruct (span_unit r') as [u rest].
  apply bind_Some in Hp as (n & Hn & Hp). apply unit_value_pos in Hn.
  destruct (_ <? _); [done|]. destruct (f =? 0); [injection Hp as <- _; lia|].
  destruct (_ <? _); [done|]. injection Hp as <- _.
  assert (0 <= f * n / scale) by (apply Z.div_pos; nia). nia.
Qed.

Lemma parse_components_bounds fuel : forall s d n,
  0 <= d <= max_uint63 -> parse_components fuel s d = Some n -> 0 <= n <= max_uint63.
Proof.
  induction fuel as [|fuel IH]; intros [|a s] d n Hd; cbn [parse_components]; try by intros [= <-].
  intros ([v r] & Hc & Hp)%bind_Some. apply parse_component_nonneg in Hc. cbn [fst snd] in Hp.
  destruct (max_uint63 <? d + v) eqn:E; [done|]. apply Z.ltb_ge in E. apply IH in Hp; [done|lia].
Qed.

Lemma ParseDuration_int s d : ParseDuration s = Some d -> int_ok d.
Proof.
  unfold ParseDuration, int_ok, int_min, int_max. destruct (match s with String "-"%char r => _ | _ => _ end) as [neg r].
  case_bool_decide; [by intros [= <-]|]. case_bool_decide; [done|].
  intros (n & Hn & Hd)%bind_Some. apply parse_components_bounds in Hn; [|unfold max_uint63; lia].
  unfold max_uint63 in *. destruct neg; [injection Hd as <-; lia|].
  destruct (_ <? _) eqn:E; [done|]. apply Z.ltb_ge in E. injection Hd as <-. lia.
Qed.

(** ** The text's length is fuel enough *)

Lemma leadingInt_shorter s : forall x v r,
  leadingInt s x = Some (v, r) -> (String.length r <= String.length s)%nat.
Proof.
  induction s as [|a s IH]; intros x v r; simpl; [by intros [= _ <-]|].
  destruct (digit_of a); [|by intros [= _ <-]].
  destruct (_ <? _); [done|]. destruct (_ <? _); [done|]. intros Hl. apply IH in Hl. lia.
Qed.

Lemma leadingFraction_shorter s : forall x scale o f sc r,
  leadingFraction s x scale o = (f, sc, r) -> (String.length r <= String.length s)%nat.
Proof.
  induction s as [|a s IH]; intros x scale o f sc r; simpl; [by intros [= _ _ <-]|].
  destruct (digit_of a); [|by intros [= _ _ <-]].
  destruct (_ || _); [|destruct (_ <? _)]; intros Hl; apply IH in Hl; lia.
Qed.

Lemma span_unit_length s u r :
  span_unit s = (u, r) -> (String.length u + String.length r = String.length s)%nat.
Proof.
  revert u r. induction s as [|a s IH]; intros u r; simpl; [by intros [= <- <-]|].
  destruct (_ || _); [by intros [= <- <-]|].
  destruct (span_unit s) as [u' r']. intros [= <- <-]. cbn. by rewrite <-(IH u' r').
Qed.

Lemma parse_component_shorter s v r :
  parse_component s = Some (v, r) -> (String.length r < String.length s)%nat.
Proof.
  unfold parse_component. intros ([v0 r0] & Hi & Hp)%bind_Some. apply leadingInt_shorter in Hi.
  destruct (fraction_part r0) as [[[f scale] r'] post] eqn:Ef. unfold fraction_part in Ef.
  assert (Hf : (String.length r' <= String.length r0)%nat).
  { destruct r0 as [|a q]; [by injection Ef as _ _ <- _|].
    destruct a as [[] [] [] [] [] [] [] []]; try by injection Ef as _ _ <- _.
    destruct (leadingFraction q 0 1 false) as [[f' sc'] q'] eqn:El.
    injection Ef as _ _ <- _. apply leadingFraction_shorter in El. cbn. lia. }
  destruct (negb _); [done|]. destruct (span_unit r') as [u rest] eqn:Eu.
  apply span_unit_length in Eu. apply bind_Some in Hp as (n & Hn & Hp).
  destruct u as [|a u]; [done|]. cbn in Eu.
  destruct (_ <? _); [done|]. destruct (f =? 0); [injection Hp as _ <-; lia|].
  destruct (_ <? _); [done|]. injection Hp as _ <-. lia.
Qed.

(** More fuel changes nothing: no text is refused for want of it. *)
Lemma parse_components_fuel fuel : forall s d more,
  (String.length s <= fuel)%nat -> parse_components (fuel + more) s d = parse_components fuel s d.
Proof.
  induction fuel as [|fuel IH]; intros [|a s] d more Hs; [by destruct more|cbn [String.length] in Hs; lia|done|].
  cbn [Nat.add parse_components].
  destruct (parse_component (String a s)) as [[v r]|] eqn:Ec; [|done]. cbn.
  apply parse_component_shorter in Ec. cbn [String.length] in Ec, Hs.
  destruct (_ <? _); [done|]. apply IH. lia.
Qed.
