(* ===== verification/Json.v ===== *)
(** * JSON values and encoding/json's rules for decoding them

    The text of a message is read and written by encoding/json; the model
    starts from the value the text denotes, with numbers kept as their literal.
    A decoder takes the value and the Go variable's previous contents and gives
    its new contents, or [None] where [json.Unmarshal] returns an error.  As in
    Go, [null] leaves a scalar or a struct untouched, unknown keys are skipped, a
    key matches a field exactly or else up to case, and of several keys for one
    field the last wins. *)

From S2P Require Import Prelude GoLib.

Inductive json :=
| JNull
| JBool (b : bool)
| JNum (literal : string)
| JStr (s : string)
| JArr (l : list json)
| JObj (kvs : list (string * json)).

Definition JInt (z : Z) : json := JNum (Itoa z).

(** A struct field with [omitempty]: left out when it holds its zero value. *)
Definition omit_empty (k : string) (s : string) : list (string * json) :=
  if bool_decide (s = EmptyString) then [] else [(k, JStr s)].

Definition decoder (A : Type) := json -> A -> option A.

Definition dec_string : decoder string := fun j prev =>
  match j with JNull => Some prev | JStr s => Some s | _ => None end.

Definition dec_bool : decoder bool := fun j prev =>
  match j with JNull => Some prev | JBool b => Some b | _ => None end.

(** Only an integer literal in the range of [int] is accepted. *)
Definition dec_int : decoder Z := fun j prev =>
  match j with JNull => Some prev | JNum l => Atoi l | _ => None end.

Definition dec_ptr {A} (d : decoder A) (zero : A) : decoder (option A) := fun j prev =>
  match j with JNull => Some None | _ => Some <$> d j (default zero prev) end.

Definition dec_slice {A} (d : decoder A) (zero : A) : decoder (list A) := fun j _ =>
  match j with
  | JNull => Some []
  | JArr l => mapM (fun x => d x zero) l
  | _ => None
  end.

(** A struct's fields: each JSON name with how its value updates the struct. *)
Definition struct_fields (A : Type) := list (string * decoder A).

Definition field_for {A} (fs : struct_fields A) (k : string) : option (decoder A) :=
  match first_such (fun f => bool_decide (f.1 = k)) fs with
  | Some f => Some f.2
  | None => snd <$> first_such (fun f => EqualFold f.1 k) fs
  end.

Definition dec_key {A} (fs : struct_fields A) (acc : option A) (kv : string * json) : option A :=
  a ← acc;
  match field_for fs kv.1 with
  | Some d => d kv.2 a
  | None => Some a
  end.

Definition dec_struct {A} (fs : struct_fields A) : decoder A := fun j prev =>
  match j with
  | JNull => Some prev
  | JObj kvs => foldl (dec_key fs) (Some prev) kvs
  | _ => None
  end.

(** A decoder for one field, from the field's own decoder, getter and setter. *)
Definition at_field {A B} (get : A -> B) (set : B -> A -> A) (d : decoder B) : decoder A :=
  fun j a => (fun b => set b a) <$> d j (get a).

(** [json.Unmarshal(raw, &v)] for an array of raw messages. *)
Definition dec_raw_array (j : json) : option (list json) :=
  match j with JNull => Some [] | JArr l => Some l | _ => None end.

Lemma dec_key_None {A} (fs : struct_fields A) kvs : foldl (dec_key fs) None kvs = None.
Proof. by induction kvs. Qed.

Lemma dec_int_JInt z prev : int_ok z -> dec_int (JInt z) prev = Some z.
Proof. intros Hz. simpl. by apply Atoi_Itoa. Qed.

#[export] Hint Resolve dec_int_JInt : cpms.

(** The text of [json.Unmarshal]'s error, for a value that does not fit its
    type: the library's, and never looked at. *)
Class JsonText := { unmarshal_error : json -> string }.

(** [json.Unmarshal] into a fresh zero value. *)
Definition Unmarshal {A} (fs : struct_fields A) (zero : A) (j : json) : option A := dec_struct fs j zero.

Lemma Unmarshal_obj {A} (fs : struct_fields A) zero kvs :
  Unmarshal fs zero (JObj kvs) = foldl (dec_key fs) (Some zero) kvs.
Proof. done. Qed.

Lemma dec_key_field {A} (fs : struct_fields A) a k j d :
  field_for fs k = Some d -> dec_key fs (Some a) (k, j) = d j a.
Proof. intros H. unfold dec_key. simpl. by rewrite H. Qed.
