(* ===== verification/Ocpp.v ===== *)
(** * The version-agnostic OCPP vocabulary (internal/ocpp)

    Protocol versions, the CALLERROR codes, command answers, the requests of
    the [ocpp.ChargePoint] interface, and the probe report. *)

From S2P Require Import Prelude GoLib GoTime Json.

(** ** ocpp.go *)

Inductive Version := Version16 | Version201.

#[export] Instance Version_eq_dec : EqDecision Version.
Proof. solve_decision. Defined.

Definition version_string (v : Version) : string :=
  match v with Version16 => "1.6" | Version201 => "2.0.1" end.

Definition Subprotocol (v : Version) : string := "ocpp" +:+ version_string v.

Definition VersionFromSubprotocol (s : string) : option Version :=
  first_such (fun v => bool_decide (Subprotocol v = s)) [Version16; Version201].

(** A CALLERROR code: any string can arrive, these are the ones OCPP-J 1.6 defines. *)
Definition ErrorCode := string.
Definition ErrRpcFrameworkError : ErrorCode := "RpcFrameworkError".
Definition ErrNotImplemented : ErrorCode := "NotImplemented".
Definition ErrNotSupported : ErrorCode := "NotSupported".
Definition ErrInternalError : ErrorCode := "InternalError".
Definition ErrProtocolError : ErrorCode := "ProtocolError".
Definition ErrSecurityError : ErrorCode := "SecurityError".
Definition ErrFormationViolation : ErrorCode := "FormationViolation".
Definition ErrPropertyConstraintViolation : ErrorCode := "PropertyConstraintViolation".
Definition ErrOccurrenceConstraintViolation : ErrorCode := "OccurenceConstraintViolation".
Definition ErrTypeConstraintViolation : ErrorCode := "TypeConstraintViolation".
Definition ErrGenericError : ErrorCode := "GenericError".

Record RPCError := mkRPCError {
  Code : ErrorCode;
  Description : string;
  Details : option (list (string * json))
}.

Definition Errorf (code : ErrorCode) (description : string) : RPCError :=
  mkRPCError code description None.

Definition RPCError_Error (e : RPCError) : string :=
  if bool_decide (Description e = EmptyString) then Code e
  else Code e +:+ ": " +:+ Description e.

(** ** chargepoint.go *)

Inductive CommandStatus :=
| CommandAccepted | CommandRejected | CommandOccupied | CommandFaulted
| CommandUnavailable | CommandUnlocked | CommandUnlockFailed
| CommandNotSupported | CommandNotImplemented | CommandUnknown.

#[export] Instance CommandStatus_eq_dec : EqDecision CommandStatus.
Proof. solve_decision. Defined.

Record Result := mkResult { Status : CommandStatus; Raw : string }.

Record ReserveRequest := mkReserveRequest {
  rq_ReservationID : Z;
  rq_EVSEUID : string;
  rq_IDTag : string;
  rq_ExpiresAt : Time
}.

Record RemoteStartRequest := mkRemoteStartRequest {
  rs_RemoteStartID : Z;
  rs_EVSEUID : string;
  rs_IDTag : string
}.

(** ** probe.go *)

Inductive Capability := CapRemoteStartStop | CapUnlock | CapReservation | CapTriggerStatus.

#[export] Instance Capability_eq_dec : EqDecision Capability.
Proof. solve_decision. Defined.

Definition AllCapabilities : list Capability :=
  [CapRemoteStartStop; CapUnlock; CapReservation; CapTriggerStatus].

Definition capability_string (c : Capability) : string :=
  match c with
  | CapRemoteStartStop => "remote_start_stop"
  | CapUnlock => "unlock"
  | CapReservation => "reservation"
  | CapTriggerStatus => "trigger_status"
  end.

Inductive Support := SupportYes | SupportNo | SupportUnknown.

#[export] Instance Support_eq_dec : EqDecision Support.
Proof. solve_decision. Defined.

Definition support_string (s : Support) : string :=
  match s with SupportYes => "yes" | SupportNo => "no" | SupportUnknown => "unknown" end.

Record Feature := mkFeature {
  FeatureName : string;
  FeatureSupport : Support;
  Grants : list Capability;
  Assumed : bool
}.

Record Setting := mkSetting {
  SettingName : string;
  SettingValue : string;
  Reported : bool;
  Meaning : string
}.

Record RawSetting := mkRawSetting { RawKey : string; RawValue : string; Readonly : bool }.

Record ProbeReport := mkProbeReport {
  pr_Version : Version;
  Features : list Feature;
  Settings : list Setting;
  Connectors : option Z;
  HeartbeatInterval : option Z;
  pr_Raw : list RawSetting
}.

Record Capabilities := mkCapabilities { Reservation_support : Support; RemoteTrigger_support : Support }.

(** One grant of one feature in [ProbeReport.Support]'s nested loop: [inl] is
    the early return, [inr] the flags (granted, unknown) so far. *)
Definition support_step (c : Capability) (s : Support) (acc : Support + bool * bool)
    (g : Capability) : Support + bool * bool :=
  match acc with
  | inl r => inl r
  | inr (granted, unknown) =>
    if bool_decide (g = c) then
      match s with
      | SupportYes => inl SupportYes
      | SupportNo => inr (true, unknown)
      | SupportUnknown => inr (true, true)
      end
    else acc
  end.

Definition support_feature (c : Capability) (acc : Support + bool * bool) (f : Feature)
    : Support + bool * bool :=
  foldl (support_step c (FeatureSupport f)) acc (Grants f).

(** [ProbeReport.Support]. *)
Definition report_support (r : ProbeReport) (c : Capability) : Support :=
  match foldl (support_feature c) (inr (false, false)) (Features r) with
  | inl s => s
  | inr (granted, unknown) =>
    if negb granted || unknown then SupportUnknown else SupportNo
  end.

(** *** What the report says about a capability *)

Definition grants (c : Capability) (f : Feature) : bool := bool_decide (c ∈ Grants f).

Section report_support_facts.
Context (c : Capability).

Lemma support_feature_inl s f : support_feature c (inl s) f = inl s.
Proof. unfold support_feature. by induction (Grants f). Qed.

Lemma support_features_inl s fs : foldl (support_feature c) (inl s) fs = inl s.
Proof. induction fs as [|f fs IH]; [done|]. simpl. by rewrite support_feature_inl. Qed.

Lemma support_step_fold_inl s x gs : foldl (support_step c s) (inl x) gs = inl x.
Proof. by induction gs. Qed.

(** A whole feature in one step. *)
Lemma support_feature_inr granted unknown f :
  support_feature c (inr (granted, unknown)) f =
  if grants c f then
    match FeatureSupport f with
    | SupportYes => inl SupportYes
    | SupportNo => inr (true, unknown)
    | SupportUnknown => inr (true, true)
    end
  else inr (granted, unknown).
Proof.
  unfold support_feature, grants. revert granted unknown.
  induction (Grants f) as [|g gs IH]; intros granted unknown; [done|]. simpl.
  destruct (decide (g = c)) as [->|Hne].
  - rewrite !bool_decide_eq_true_2 by (done || left).
    destruct (FeatureSupport f) eqn:E; simpl.
    + apply support_step_fold_inl.
    + rewrite IH. by case_bool_decide.
    + rewrite IH. by case_bool_decide.
  - rewrite (bool_decide_eq_false_2 (g = c)) by done. rewrite IH.
    assert (c ∈ g :: gs <-> c ∈ gs) as Hiff by (rewrite elem_of_cons; naive_solver).
    by rewrite (bool_decide_ext _ _ Hiff).
Qed.

(** Whether some feature grants the capability with one of the given answers. *)
Definition granted_with (ok : Support -> bool) (fs : list Feature) : bool :=
  existsb (fun f => grants c f && ok (FeatureSupport f)) fs.

Lemma report_support_fold fs granted unknown :
  foldl (support_feature c) (inr (granted, unknown)) fs =
  if granted_with (fun s => bool_decide (s = SupportYes)) fs then inl SupportYes
  else inr (granted || granted_with (fun _ => true) fs,
            unknown || granted_with (fun s => bool_decide (s = SupportUnknown)) fs).
Proof.
  revert granted unknown. induction fs as [|f fs IH]; intros granted unknown.
  { simpl. by rewrite !orb_false_r. }
  simpl. rewrite support_feature_inr. destruct (grants c f); simpl; [|apply IH].
  destruct (FeatureSupport f); simpl; [apply support_features_inl | rewrite IH ..];
    unfold granted_with; destruct (existsb _ _); try done; simpl;
    by rewrite ?orb_true_r.
Qed.
End report_support_facts.
