(* ===== verification/Errors.v ===== *)
(** * Go's error values

    The sentinels of every package, the typed errors that travel through
    [control], and [fmt.Errorf] with one [%w].  [errors_is] and the [as_]
    functions are [errors.Is] and [errors.As] on them: they unwrap, and they
    honour the [Is] methods of ocppj's two error types. *)

From S2P Require Import Prelude GoLib GoTime Ocpp.

(** ** [time.Duration.String] *)

(** The last [prec] digits of [v] as a fraction, its trailing zeros dropped. *)
Fixpoint fraction_digits (prec : nat) (v : Z) (printed : bool) : string :=
  match prec with
  | O => EmptyString
  | S p =>
    let d := v mod 10 in
    let printed' := printed || negb (d =? 0) in
    fraction_digits p (v / 10) printed' +:+ (if printed' then Itoa d else EmptyString)
  end.

Definition with_fraction (prec : nat) (v : Z) : string :=
  let unit := 10 ^ Z.of_nat prec in
  let f := fraction_digits prec v false in
  Itoa (v / unit) +:+ (if bool_decide (f = EmptyString) then EmptyString else "." +:+ f).

Definition duration_abs (u : Z) : string :=
  if u =? 0 then "0s"
  else if u <? 1000 then Itoa u +:+ "ns"
  else if u <? millisecond then with_fraction 3 u +:+ "µs"
  else if u <? second then with_fraction 6 u +:+ "ms"
  else
    let sec := with_fraction 9 (u mod minute) +:+ "s" in
    if u <? minute then sec
    else if u <? hour then Itoa (u / minute) +:+ "m" +:+ sec
    else Itoa (u / hour) +:+ "h" +:+ Itoa (u mod hour / minute) +:+ "m" +:+ sec.

Definition duration_string (d : Z) : string :=
  if d <? 0 then "-" +:+ duration_abs (- d) else duration_abs d.

Example duration_samples :
  duration_string (30 * second) = "30s" /\ duration_string (90 * second) = "1m30s" /\
  duration_string (500 * millisecond) = "500ms" /\ duration_string 1500 = "1.5µs" /\
  duration_string (2 * hour + 1500 * millisecond) = "2h0m1.5s" /\ duration_string 0 = "0s".
Proof. vm_compute. done. Qed.

(** ** Sentinels *)

Inductive Sentinel :=
| ErrTimeout | ErrNotConnected | ErrUnknownEVSE     (* ocpp *)
| ErrAlreadyReserved                                (* core *)
| ErrNoReservation | ErrShuttingDown | ErrNoActiveTransaction  (* control *)
| ErrNotRunning | ErrAlreadyRunning                 (* control/socket *)
| Canceled | DeadlineExceeded.                      (* context *)

#[export] Instance Sentinel_eq_dec : EqDecision Sentinel.
Proof. solve_decision. Defined.

Definition sentinel_text (s : Sentinel) : string :=
  match s with
  | ErrTimeout => "ocpp: call timed out"
  | ErrNotConnected => "ocpp: charge point not connected"
  | ErrUnknownEVSE => "ocpp: unknown EVSE"
  | ErrAlreadyReserved => "EVSE already has a reservation"
  | ErrNoReservation => "no active reservation"
  | ErrShuttingDown => "shutting down"
  | ErrNoActiveTransaction => "no active transaction"
  | ErrNotRunning => "cpms run is not reachable"
  | ErrAlreadyRunning => "another cpms is already running"
  | Canceled => "context canceled"
  | DeadlineExceeded => "context deadline exceeded"
  end.

(** ** control/errors.go: refusals *)

Inductive Op := OpReserve | OpCancel | OpStart | OpStop | OpUnlock | OpTriggerStatus.

#[export] Instance Op_eq_dec : EqDecision Op.
Proof. solve_decision. Defined.

Definition op_string (o : Op) : string :=
  match o with
  | OpReserve => "reserve" | OpCancel => "cancel" | OpStart => "start"
  | OpStop => "stop" | OpUnlock => "unlock" | OpTriggerStatus => "trigger status"
  end.

Record RefusedError := mkRefusedError {
  re_Op : Op;
  re_EVSEUID : string;
  re_Status : CommandStatus;
  re_Raw : string
}.

Definition RefusedError_Error (e : RefusedError) : string :=
  op_string (re_Op e) +:+ " " +:+ re_EVSEUID e +:+ ": the station refused (" +:+ re_Raw e +:+ ")".

(** ** Error values *)

Inductive error :=
| EText (msg : string)
| ESentinel (s : Sentinel)
| EWrap (before : string) (e : error) (after : string)
| ERefused (e : RefusedError)
| ERPC (e : RPCError)
| ETimeoutError (action : string) (after : Z)
| EConnClosed.

Fixpoint Error (e : error) : string :=
  match e with
  | EText m => m
  | ESentinel s => sentinel_text s
  | EWrap b e' a => b +:+ Error e' +:+ a
  | ERefused r => RefusedError_Error r
  | ERPC r => RPCError_Error r
  | ETimeoutError action after => action +:+ ": no answer within " +:+ duration_string after
  | EConnClosed => "ocpp: connection closed"
  end.

(** [connClosedError.Is] and [timeoutError.Is]. *)
Definition connClosedError_Is (target : Sentinel) : bool := bool_decide (target = ErrNotConnected).
Definition timeoutError_Is (target : Sentinel) : bool := bool_decide (target = ErrTimeout).

(** [errors.Is(err, target)] for a sentinel target. *)
Fixpoint errors_is (e : error) (target : Sentinel) : bool :=
  match e with
  | ESentinel s => bool_decide (s = target)
  | EWrap _ e' _ => errors_is e' target
  | ETimeoutError _ _ => timeoutError_Is target
  | EConnClosed => connClosedError_Is target
  | _ => false
  end.

(** [errors.As] for the two typed errors. *)
Fixpoint as_refused (e : error) : option RefusedError :=
  match e with
  | ERefused r => Some r
  | EWrap _ e' _ => as_refused e'
  | _ => None
  end.

Fixpoint as_rpc (e : error) : option RPCError :=
  match e with
  | ERPC r => Some r
  | EWrap _ e' _ => as_rpc e'
  | _ => None
  end.

Definition refused (op : Op) (evseUID : string) (res : Result) : error :=
  ERefused (mkRefusedError op evseUID (Status res) (Raw res)).

(** [fmt.Errorf("%s: %w", s, err)]. *)
Definition wrap_colon (s : string) (e : error) : error := EWrap (s +:+ ": ") e EmptyString.

(** An error chain ends in one cause, so two sentinels are never both matched. *)
Lemma errors_is_unique e s1 s2 :
  errors_is e s1 = true -> errors_is e s2 = true -> s1 = s2.
Proof.
  induction e; simpl; unfold timeoutError_Is, connClosedError_Is;
    rewrite ?bool_decide_eq_true; try done; congruence.
Qed.

Lemma errors_is_not_typed e s :
  errors_is e s = true -> as_refused e = None /\ as_rpc e = None.
Proof. by induction e. Qed.

Lemma refused_not_rpc e r : as_refused e = Some r -> as_rpc e = None.
Proof. by induction e. Qed.

Lemma errors_is_wrap b e a s : errors_is (EWrap b e a) s = errors_is e s.
Proof. done. Qed.
