(* ===== verification/GoDurationText.v ===== *)
(** * [time.Duration]'s text reads back

    [ParseDuration (duration_string d)] is [d], for every 64-bit duration: digits
    and fractions are read back as they are written, component by component. *)

From Stdlib Require Import DecimalString DecimalPos.
From S2P Require Import Prelude GoLib GoTime GoDuration Errors.

(** ** Whole numbers *)

(** A text that goes on with no digit. *)
Definition no_digit (s : string) : Prop :=
  match s with EmptyString => True | String a _ => digit_of a = None end.

Lemma leadingInt_stops s x : no_digit s -> leadingInt s x = Some (x, s).
Proof. destruct s as [|a s]; [done|]. cbn. by intros ->. Qed.

Lemma leadingInt_digit a d s x :
  digit_of a = Some d -> 0 <= x -> 0 <= d -> x * 10 + d <= max_uint63 ->
  leadingInt (String a s) x = leadingInt s (x * 10 + d).
Proof.
  intros Hd Hx H0 Hm. cbn. rewrite Hd.
  destruct (max_uint63 / 10 <? x) eqn:E1.
  { apply Z.ltb_lt in E1. unfold max_uint63 in *.
    pose proof (Z.div_le_lower_bound (2 ^ 63) 10 x ltac:(lia) ltac:(lia)). lia. }
  destruct (max_uint63 <? x * 10 + d) eqn:E2; [lia|done].
Qed.

Lemma of_uint_acc_ge u : forall p, Z.pos p <= Z.pos (Pos.of_uint_acc u p).
Proof.
  induction u as [|u IH|u IH|u IH|u IH|u IH|u IH|u IH|u IH|u IH|u IH]; intros p; cbn [Pos.of_uint_acc];
    [lia|..]; (etransitivity; [|apply IH]); lia.
Qed.

Lemma leadingInt_acc u t : no_digit t ->
  forall p, Z.pos (Pos.of_uint_acc u p) <= max_uint63 ->
  leadingInt (NilEmpty.string_of_uint u +:+ t) (Z.pos p) = Some (Z.pos (Pos.of_uint_acc u p), t).
Proof.
  intros Ht. induction u as [|u IH|u IH|u IH|u IH|u IH|u IH|u IH|u IH|u IH|u IH]; intros p Hm;
    [by apply leadingInt_stops|..]; cbn [NilEmpty.string_of_uint]; rewrite append_cons;
    cbn [Pos.of_uint_acc] in Hm |- *; (erewrite leadingInt_digit; [|vm_compute; reflexivity|lia|lia|]);
    first [ pose proof (of_uint_acc_ge u (10 * p)); lia
          | match type of Hm with Z.pos (Pos.of_uint_acc _ ?q) <= _ => pose proof (of_uint_acc_ge u q); lia end
          | match type of Hm with Z.pos (Pos.of_uint_acc _ ?q) <= _ =>
              match goal with |- leadingInt _ ?x = _ => replace x with (Z.pos q) by lia end end; by apply IH ].
Qed.

Lemma leadingInt_uint u t : no_digit t -> Z.of_uint u <= max_uint63 ->
  leadingInt (NilEmpty.string_of_uint u +:+ t) 0 = Some (Z.of_uint u, t).
Proof.
  intros Ht. induction u as [|u IH|u _|u _|u _|u _|u _|u _|u _|u _|u _]; intros Hm;
    [by apply leadingInt_stops|..]; cbn [NilEmpty.string_of_uint]; rewrite append_cons;
    (erewrite leadingInt_digit; [|vm_compute; reflexivity|lia|lia|unfold max_uint63; lia]).
  { by apply IH. }
  all: by apply (leadingInt_acc u t Ht _ Hm).
Qed.

(** [Itoa] of a natural number writes its digits. *)
Lemma Itoa_digits n : 0 <= n -> exists u, Z.of_uint u = n /\ Itoa n = NilZero.string_of_uint u /\ u <> Decimal.Nil.
Proof.
  intros Hn. unfold Itoa. destruct n as [|p|p]; [|..|lia].
  - by exists (Decimal.D0 Decimal.Nil).
  - exists (Pos.to_uint p). cbn [Z.to_int NilZero.string_of_int]. split; [|split; [done|]].
    + unfold Z.of_uint. by rewrite DecimalPos.Unsigned.of_to.
    + apply DecimalPos.Unsigned.to_uint_nonnil.
Qed.

Lemma string_of_uint_nonnil u : u <> Decimal.Nil -> NilZero.string_of_uint u = NilEmpty.string_of_uint u.
Proof. by destruct u. Qed.

Lemma leadingInt_Itoa n t : no_digit t -> 0 <= n <= max_uint63 ->
  leadingInt (Itoa n +:+ t) 0 = Some (n, t).
Proof.
  intros Ht [H0 Hm]. destruct (Itoa_digits n H0) as (u & <- & -> & Hu). rewrite string_of_uint_nonnil by done.
  by apply leadingInt_uint.
Qed.

(** It starts with a digit. *)
Lemma Itoa_head n : 0 <= n -> exists a d s, Itoa n = String a s /\ digit_of a = Some d.
Proof.
  intros Hn. destruct (Itoa_digits n Hn) as (u & _ & -> & Hu). rewrite string_of_uint_nonnil by done.
  destruct u; [done|..]; cbn; eexists _, _, _; split; reflexivity.
Qed.

(** ** Fractions *)

Lemma leadingFraction_digit a d s x scale :
  digit_of a = Some d -> 0 <= x <= 10 ^ 15 -> 0 <= d < 10 ->
  leadingFraction (String a s) x scale false = leadingFraction s (x * 10 + d) (scale * 10) false.
Proof.
  intros Hd Hx H0. cbn. rewrite Hd. unfold max_uint63.
  destruct ((2 ^ 63 - 1) / 10 <? x) eqn:E1.
  { apply Z.ltb_lt in E1. pose proof (Z.div_le_lower_bound (2 ^ 63 - 1) 10 x ltac:(lia) ltac:(lia)). lia. }
  cbn [orb]. destruct (2 ^ 63 <? x * 10 + d) eqn:E2; [lia|done].
Qed.

Lemma Itoa_digit d : 0 <= d < 10 -> exists a, Itoa d = String a EmptyString /\ digit_of a = Some d.
Proof.
  intros Hd. assert (H : d = 0 \/ d = 1 \/ d = 2 \/ d = 3 \/ d = 4 \/ d = 5 \/ d = 6 \/ d = 7 \/ d = 8 \/ d = 9) by lia.
  repeat (destruct H as [->|H]); [..|subst d]; eexists; split; vm_compute; reflexivity.
Qed.

Lemma mod_step v k : 0 <= k -> v mod 10 ^ (k + 1) = (v / 10) mod 10 ^ k * 10 + v mod 10.
Proof.
  intros Hk. rewrite Z.add_comm, Z.pow_add_r, Z.pow_1_r by lia.
  rewrite Z.rem_mul_r by (try lia; apply Z.pow_pos_nonneg; lia). lia.
Qed.

(** All the digits of a fraction, read onto [x]. *)
Lemma leadingFraction_digits k : forall v x scale t,
  0 <= x -> (x + 1) * 10 ^ Z.of_nat k <= 10 ^ 15 ->
  leadingFraction (fraction_digits k v true +:+ t) x scale false =
  leadingFraction t (x * 10 ^ Z.of_nat k + v mod 10 ^ Z.of_nat k) (scale * 10 ^ Z.of_nat k) false.
Proof.
  induction k as [|k IH]; intros v x scale t Hx Hb.
  { cbn [fraction_digits]. change (EmptyString +:+ t) with t. rewrite Z.pow_0_r, Z.mod_1_r. f_equal; lia. }
  cbn [fraction_digits orb]. rewrite Nat2Z.inj_succ, <- Z.add_1_r in Hb |- *.
  rewrite Z.pow_add_r, Z.pow_1_r in Hb by lia.
  pose proof (Z.pow_pos_nonneg 10 (Z.of_nat k) ltac:(lia) ltac:(lia)) as Hp.
  pose proof (Z.mod_pos_bound (v / 10) (10 ^ Z.of_nat k) Hp) as Hm.
  pose proof (Z.mod_pos_bound v 10 ltac:(lia)) as Hd.
  rewrite append_assoc, IH by nia. destruct (Itoa_digit (v mod 10) Hd) as (a & -> & Ha). rewrite append_cons.
  change (EmptyString +:+ t) with t. rewrite (leadingFraction_digit a _ t _ _ Ha) by nia.
  rewrite mod_step, Z.pow_add_r, Z.pow_1_r by lia. f_equal; nia.
Qed.

(** The zeros a fraction ends with are left out. *)
Lemma fraction_digits_strip k : forall v,
  exists j, (j <= k)%nat /\ fraction_digits k v false = fraction_digits (k - j) (v / 10 ^ Z.of_nat j) true /\
    v mod 10 ^ Z.of_nat j = 0.
Proof.
  induction k as [|k IH]; intros v; [by exists 0%nat; rewrite Z.pow_0_r, Z.mod_1_r|].
  cbn [fraction_digits orb]. destruct (v mod 10 =? 0) eqn:E; cbn [negb].
  - apply Z.eqb_eq in E. destruct (IH (v / 10)) as (j & Hj & -> & Hm). exists (S j). split; [lia|].
    rewrite append_nil, Nat2Z.inj_succ, <- Z.add_1_r. split.
    + rewrite Z.add_comm, Z.pow_add_r, Z.pow_1_r, Zdiv_Zdiv by lia. done.
    + rewrite mod_step by lia. lia.
  - exists 0%nat. split; [lia|]. rewrite Z.pow_0_r, Z.div_1_r, Z.mod_1_r. by rewrite Nat.sub_0_r.
Qed.

(** A fraction of [prec] digits is worth what was cut off. *)
Lemma fraction_value prec v t : 0 <= v -> (prec <= 9)%nat -> no_digit t -> fraction_digits prec v false <> EmptyString ->
  exists f scale, leadingFraction (fraction_digits prec v false +:+ t) 0 1 false = (f, scale, t) /\
    f * 10 ^ Z.of_nat prec / scale = v mod 10 ^ Z.of_nat prec.
Proof.
  intros Hv Hprec Ht _. destruct (fraction_digits_strip prec v) as (j & Hj & -> & Hm).
  set (k := (prec - j)%nat). assert (Ek : prec = (j + k)%nat) by lia.
  pose proof (Z.pow_pos_nonneg 10 (Z.of_nat k) ltac:(lia) ltac:(lia)) as Hk.
  pose proof (Z.pow_pos_nonneg 10 (Z.of_nat j) ltac:(lia) ltac:(lia)) as Hjp.
  rewrite leadingFraction_digits; [|lia|].
  2: { assert (10 ^ Z.of_nat k <= 10 ^ 9) by (apply Z.pow_le_mono_r; lia). lia. }
  eexists _, _. split.
  { assert (Hs : forall x s, leadingFraction t x s false = (x, s, t)).
    { intros x s. destruct t as [|a t]; [done|]. cbn in Ht |- *. by rewrite Ht. }
    apply Hs. }
  rewrite !Z.mul_0_l, Z.add_0_l, Z.mul_1_l, Ek, Nat2Z.inj_add, Z.pow_add_r by lia.
  rewrite Z.mul_assoc, Z.div_mul, Z.rem_mul_r, Hm by lia. lia.
Qed.

(** ** Components *)

(** The text after a unit: nothing, or the next number. *)
Definition next_number (t : string) : Prop :=
  match t with EmptyString => True | String a _ => is_Some (digit_of a) end.

(** A unit as it is written before [t]. *)
Record unit_before (u t : string) (n : Z) : Prop := {
  ub_span : span_unit (u +:+ t) = (u, t);
  ub_value : unit_value u = Some n;
  ub_start : exists a s, u +:+ t = String a s /\ digit_of a = None /\ a <> "."%char
}.

Lemma unit_before_of u t n :
  u ∈ ["ns"; "µs"; "ms"; "s"; "m"; "h"] -> unit_value u = Some n -> next_number t -> unit_before u t n.
Proof.
  intros Hu Hn Ht. assert (Hs : span_unit t = (EmptyString, t)).
  { destruct t as [|a t]; [done|]. cbn in Ht |- *. rewrite (bool_decide_eq_true_2 _ Ht). by rewrite orb_true_r. }
  repeat (apply elem_of_cons in Hu as [->|Hu]); try by apply not_elem_of_nil in Hu.
  all: split; [|done|by eexists _, _].
  all: rewrite ?append_cons; change (EmptyString +:+ t) with t; cbn -[span_unit].
  all: repeat (cbn [span_unit]; match goal with
    | |- context [if ?b then _ else _] =>
        match b with orb _ _ => change b with false; cbn iota end end).
  all: by rewrite Hs.
Qed.

Lemma fraction_part_none a s : a <> "."%char -> fraction_part (String a s) = (0, 1, String a s, false).
Proof. destruct a as [[] [] [] [] [] [] [] []]; done. Qed.

Lemma append_longer a s t : bool_decide (t = String a s +:+ t) = false.
Proof.
  apply bool_decide_eq_false_2. intros H. apply (f_equal String.length) in H.
  rewrite append_length in H. cbn [String.length] in H. lia.
Qed.

(** A whole number of units. *)
Lemma parse_whole n u t unit : unit_before u t unit -> 0 <= n -> 0 < unit -> n * unit <= max_uint63 ->
  parse_component (Itoa n +:+ u +:+ t) = Some (n * unit, t).
Proof.
  intros [Hs Hu (a & s & Ea & Ha & Hd)] Hn H0 Hm. unfold parse_component.
  rewrite Ea in Hs |- *. rewrite leadingInt_Itoa by (done || nia). cbn [mbind option_bind].
  rewrite (fraction_part_none a s Hd). destruct (Itoa_head n Hn) as (b & d & r & -> & _). rewrite append_longer.
  cbn [negb orb]. rewrite Hs. cbn [mbind option_bind]. rewrite Hu. cbn [mbind option_bind].
  destruct (max_uint63 / unit <? n) eqn:E; [|done]. apply Z.ltb_lt in E.
  pose proof (Z.div_le_lower_bound max_uint63 unit n H0 ltac:(lia)). lia.
Qed.

(** A number with a fraction, of a unit that is a power of ten. *)
Lemma parse_fraction prec v u t : (prec <= 9)%nat -> unit_before u t (10 ^ Z.of_nat prec) ->
  0 <= v <= max_uint63 -> parse_component (with_fraction prec v +:+ u +:+ t) = Some (v, t).
Proof.
  intros Hprec Hub Hv. pose proof (Z.pow_pos_nonneg 10 (Z.of_nat prec) ltac:(lia) ltac:(lia)) as Hp.
  set (unit := 10 ^ Z.of_nat prec) in *.
  assert (Hq : 0 <= v / unit) by (apply Z.div_pos; lia).
  pose proof (Z.div_mod v unit ltac:(lia)) as Hdm. pose proof (Z.mod_pos_bound v unit Hp) as Hmod.
  unfold with_fraction. fold unit. case_bool_decide as Hf.
  - rewrite append_nil. rewrite (parse_whole _ u t unit Hub) by nia. do 2 f_equal.
    destruct (fraction_digits_strip prec v) as (j & Hj & Hs & Hm).
    assert (j = prec) as ->.
    { destruct (decide (j = prec)); [done|]. rewrite Hs in Hf.
      assert (exists k, (prec - j = S k)%nat) as [k Ek] by (exists (prec - j - 1)%nat; lia). rewrite Ek in Hf.
      cbn [fraction_digits orb] in Hf. apply (f_equal String.length) in Hf. rewrite append_length in Hf.
      destruct (Itoa_digit ((v / 10 ^ Z.of_nat j) mod 10) ltac:(apply Z.mod_pos_bound; lia)) as (a & Ha & _).
      rewrite Ha in Hf. cbn [String.length] in Hf. lia. }
    fold unit in Hm. lia.
  - destruct Hub as [Hs Hu (a & s & Ea & Ha & Hd)].
    rewrite !append_assoc, append_cons. change (EmptyString +:+ ?x) with x.
    destruct (fraction_value prec v (u +:+ t) ltac:(lia) Hprec ltac:(by rewrite Ea) Hf) as (f & scale & Hl & Hval).
    fold unit in Hval. unfold parse_component.
    rewrite leadingInt_Itoa; [|done|split; [done|]]; [|nia]. cbn [mbind option_bind].
    cbn [fraction_part]. rewrite Hl, Hs. destruct (Itoa_head _ Hq) as (b & d & r & -> & _). rewrite append_longer.
    cbn [negb orb mbind option_bind]. rewrite Hu. cbn [mbind option_bind].
    destruct (max_uint63 / unit <? v / unit) eqn:E.
    { apply Z.ltb_lt in E. pose proof (Z.div_le_mono v max_uint63 unit Hp ltac:(lia)). lia. }
    destruct (f =? 0) eqn:Ef.
    { apply Z.eqb_eq in Ef as ->. rewrite Z.mul_0_l in Hval. rewrite Zdiv_0_l in Hval.
      do 2 f_equal. lia. }
    rewrite Hval. destruct (max_uint63 <? _) eqn:E2; [lia|]. do 2 f_equal. lia.
Qed.

(** ** The whole text *)

(** [s] is worth [v], read on its own. *)
Definition worth (s : string) (v : Z) : Prop :=
  forall d, 0 <= d -> d + v <= max_uint63 -> parse_components (String.length s) s d = Some (d + v).

Lemma worth_nil : worth EmptyString 0.
Proof. intros d _ _. cbn. by rewrite Z.add_0_r. Qed.

Lemma worth_component s t v w :
  parse_component s = Some (v, t) -> worth t w -> 0 <= w -> worth s (v + w).
Proof.
  intros Hc Ht Hw d Hd Hm. pose proof (parse_component_nonneg _ _ _ Hc) as Hv.
  pose proof (parse_component_shorter _ _ _ Hc) as Hlen. destruct s as [|a s]; [done|].
  cbn [String.length parse_components] in Hlen |- *. rewrite Hc. cbn [mbind option_bind fst snd].
  destruct (max_uint63 <? d + v) eqn:E; [lia|].
  replace (String.length s) with (String.length t + (String.length s - String.length t))%nat by lia.
  rewrite parse_components_fuel, Ht by lia. f_equal. lia.
Qed.

(** One last component, with nothing after it. *)
Lemma worth_last s v : parse_component s = Some (v, EmptyString) -> worth s v.
Proof. intros Hc. rewrite <- (Z.add_0_r v). by eapply worth_component; [done|apply worth_nil|]. Qed.

Lemma worth_fraction prec v u : (prec <= 9)%nat -> u ∈ ["ns"; "µs"; "ms"; "s"; "m"; "h"] ->
  unit_value u = Some (10 ^ Z.of_nat prec) -> 0 <= v <= max_uint63 -> worth (with_fraction prec v +:+ u) v.
Proof.
  intros Hprec Hu Hn Hv. apply worth_last. rewrite <- (append_nil u).
  by apply parse_fraction; [done|apply unit_before_of|].
Qed.

Lemma worth_whole n u t unit w : u ∈ ["ns"; "µs"; "ms"; "s"; "m"; "h"] -> unit_value u = Some unit ->
  next_number t -> 0 <= n -> n * unit <= max_uint63 -> worth t w -> 0 <= w ->
  worth (Itoa n +:+ u +:+ t) (n * unit + w).
Proof.
  intros Hu Hn Ht H0 Hm Hw H1. eapply worth_component; [|done..].
  apply parse_whole; [by apply unit_before_of|done|by eapply unit_value_pos|done].
Qed.

Lemma next_Itoa n t : 0 <= n -> next_number (Itoa n +:+ t).
Proof. intros Hn. destruct (Itoa_head n Hn) as (a & d & s & -> & Hd). rewrite append_cons. by exists d. Qed.

Lemma next_fraction prec v t : 0 <= v -> next_number (with_fraction prec v +:+ t).
Proof.
  intros Hv. unfold with_fraction. rewrite append_assoc. apply next_Itoa.
  apply Z.div_pos; [done|]. apply Z.pow_pos_nonneg; lia.
Qed.

Lemma worth_eq s v v' : worth s v' -> v' = v -> worth s v.
Proof. by intros ? <-. Qed.

Lemma duration_abs_worth u : 0 < u <= max_uint63 -> worth (duration_abs u) u.
Proof.
  intros Hu. unfold duration_abs, max_uint63, hour, minute, second, millisecond in *.
  destruct (u =? 0) eqn:E0; [lia|].
  destruct (u <? 1000) eqn:E1.
  { eapply worth_eq; [apply (worth_whole u "ns" EmptyString 1 0)|lia];
      [set_solver|done|done|lia|unfold max_uint63; lia|apply worth_nil|done]. }
  destruct (u <? 1000000) eqn:E2; [apply (worth_fraction 3); [lia|set_solver|done|unfold max_uint63; lia]|].
  destruct (u <? 1000000000) eqn:E3; [apply (worth_fraction 6); [lia|set_solver|done|unfold max_uint63; lia]|].
  set (m := 60 * 1000000000). set (h := 60 * m).
  pose proof (Z.mod_pos_bound u m ltac:(lia)) as Hs. pose proof (Z.div_mod u m ltac:(lia)) as Hdm.
  assert (Hsec : worth (with_fraction 9 (u mod m) +:+ "s") (u mod m)).
  { apply (worth_fraction 9); [lia|set_solver|done|unfold max_uint63; lia]. }
  assert (Hnext := next_fraction 9 (u mod m) "s" ltac:(lia)).
  destruct (u <? m) eqn:E4; [by rewrite Z.mod_small in * by lia|].
  destruct (u <? h) eqn:E5.
  { eapply worth_eq; [apply (worth_whole (u / m) "m" _ m (u mod m))|lia];
      [set_solver|done|done|apply Z.div_pos; lia|unfold max_uint63; lia|done|lia]. }
  pose proof (Z.div_mod u h ltac:(lia)) as Hdh. pose proof (Z.mod_pos_bound u h ltac:(lia)) as Hh.
  set (r := u mod h) in *.
  assert (Hr : r mod m = u mod m).
  { apply Z.mod_mod_divide. by exists 60. }
  pose proof (Z.div_mod r m ltac:(lia)) as Hdr. pose proof (Z.div_pos r m ltac:(lia) ltac:(lia)) as Hrp.
  pose proof (Z.div_pos u h ltac:(lia) ltac:(lia)) as Hup.
  eapply worth_eq; [apply (worth_whole (u / h) "h" _ h (r / m * m + u mod m))|lia];
    [set_solver|done|by apply next_Itoa|done|unfold max_uint63; lia| |lia].
  apply worth_whole; [set_solver|done|done|done|unfold max_uint63; lia|done|lia].
Qed.

(** The text starts with a digit, so no sign is read from it; nor is it bare. *)
Lemma duration_abs_number u : 0 < u ->
  exists a d s, duration_abs u = String a s /\ digit_of a = Some d /\ s <> EmptyString.
Proof.
  intros Hu. assert (Hn : forall n t, 0 <= n -> t <> EmptyString ->
    exists a d s, Itoa n +:+ t = String a s /\ digit_of a = Some d /\ s <> EmptyString).
  { intros n t H0 Ht. destruct (Itoa_head n H0) as (a & d & s & -> & Hd). exists a, d, (s +:+ t).
    split; [done|]. split; [done|]. by destruct s. }
  unfold duration_abs, with_fraction, hour, minute, second, millisecond.
  destruct (u =? 0) eqn:E0; [lia|]. rewrite !append_assoc.
  repeat (match goal with |- context [if ?b then _ else _] =>
            lazymatch b with bool_decide _ => fail | _ => destruct b eqn:? end end);
    (apply Hn; [try lia; apply Z.div_pos; try lia; try (apply Z.mod_pos_bound; lia)|]);
    try done; try (by case_bool_decide); (case_bool_decide; [by destruct (_ : string)|done]).
Qed.

(** A duration reads back from its text. *)
Lemma ParseDuration_string d : int_ok d -> ParseDuration (duration_string d) = Some d.
Proof.
  unfold int_ok, int_min, int_max. intros Hd. destruct (decide (d = 0)) as [->|Hz]; [by vm_compute|].
  assert (Hw := duration_abs_worth (Z.abs d) ltac:(unfold max_uint63; lia)).
  destruct (duration_abs_number (Z.abs d) ltac:(lia)) as (a & n & s & Ea & Ha & Hs).
  specialize (Hw 0 ltac:(lia) ltac:(unfold max_uint63; lia)). rewrite Ea in Hw.
  unfold duration_string, ParseDuration. destruct (d <? 0) eqn:E.
  - replace (- d) with (Z.abs d) by lia. rewrite Ea. cbn [String.append].
    change ("-" +:+ String a s) with (String "-"%char (String a s)). cbn iota beta.
    rewrite !bool_decide_eq_false_2 by congruence. rewrite Hw. cbn. f_equal. lia.
  - replace d with (Z.abs d) by lia. rewrite Ea.
    assert (Hsign : match String a s with
                    | String "-"%char r => (true, r) | String "+"%char r => (false, r) | _ => (false, String a s)
                    end = (false, String a s)) by (revert Ha; by destruct a as [[] [] [] [] [] [] [] []]).
    rewrite Hsign, !bool_decide_eq_false_2 by congruence. rewrite Hw. cbn [mbind option_bind].
    destruct (max_uint63 - 1 <? 0 + Z.abs d) eqn:E2; [unfold max_uint63 in *; lia|]. by f_equal.
Qed.
