(* ===== verification/GoRegexp.v ===== *)
(** * Anchored regular expressions ([regexp.MustCompile], [MatchString],
    [FindStringSubmatch])

    Every pattern of the repository is anchored at both ends and is a sequence of
    pieces, each a character class repeated between two bounds.  Matching is
    greedy with backtracking, piece by piece, as the library's leftmost-first
    semantics prescribes.  The classes are sets of bytes: those of ASCII
    characters, and complements of ASCII sets, which take every byte of a longer
    rune. *)

From S2P Require Import Prelude GoLib.

(** A class with its bounds; [None] is no upper bound. *)
Record piece := mkPiece { pc_class : ascii -> bool; pc_min : nat; pc_max : option nat }.

Definition pattern : Type := list piece.

(** ** Classes *)

Definition between (lo hi : Z) (a : ascii) : bool := in_range lo hi (byte_val a).
Definition is_lower : ascii -> bool := between 97 122.
Definition is_upper : ascii -> bool := between 65 90.
Definition is_digit : ascii -> bool := between 48 57.
Definition is_alnum (a : ascii) : bool := is_lower a || is_upper a || is_digit a.
Definition one_of (s : string) (a : ascii) : bool :=
  existsb (fun b => bool_decide (a = b)) (String.list_ascii_of_string s).

Definition once (c : ascii -> bool) : piece := mkPiece c 1 (Some 1%nat).
Definition exactly (n : nat) (c : ascii -> bool) : piece := mkPiece c n (Some n).
Definition optional (c : ascii -> bool) : piece := mkPiece c 0 (Some 1%nat).
Definition repeated (lo hi : nat) (c : ascii -> bool) : piece := mkPiece c lo (Some hi).
Definition many (lo : nat) (c : ascii -> bool) : piece := mkPiece c lo None.
(** A literal: each of its bytes once. *)
Definition literal (s : string) : pattern :=
  (fun a => once (fun b => bool_decide (b = a))) <$> String.list_ascii_of_string s.

(** ** Matching *)

Definition may_take (hi : option nat) : bool := match hi with Some O => false | _ => true end.

Section run_piece.
Context (c : ascii -> bool) (k : string -> option (list string)).

(** What the piece takes, then what [k] makes of the rest: as many characters as
    possible first. *)
Fixpoint run_piece (lo : nat) (hi : option nat) (s : string) : option (list string) :=
  let stop := match lo with O => (cons EmptyString) <$> k s | S _ => None end in
  match s with
  | String a r =>
    if c a && may_take hi then
      match run_piece (pred lo) (pred <$> hi) r with
      | Some (w :: ws) => Some (String a w :: ws)
      | _ => stop
      end
    else stop
  | EmptyString => stop
  end.
End run_piece.

(** The text each piece took. *)
Fixpoint submatches (p : pattern) (s : string) : option (list string) :=
  match p with
  | [] => match s with EmptyString => Some [] | _ => None end
  | x :: p => run_piece (pc_class x) (submatches p) (pc_min x) (pc_max x) s
  end.

Definition MatchString (p : pattern) (s : string) : bool :=
  match submatches p s with Some _ => true | None => false end.

(** ** What a pattern means *)

Fixpoint all_in (c : ascii -> bool) (w : string) : bool :=
  match w with EmptyString => true | String a w => c a && all_in c w end.

Definition within (lo : nat) (hi : option nat) (n : nat) : Prop :=
  (lo <= n)%nat /\ match hi with Some m => (n <= m)%nat | None => True end.

Definition fits (x : piece) (w : string) : Prop :=
  all_in (pc_class x) w = true /\ within (pc_min x) (pc_max x) (String.length w).

(** A split of [s] into one segment per piece. *)
Definition splits (p : pattern) (s : string) (ws : list string) : Prop :=
  Forall2 fits p ws /\ concat_strings ws = s.

Section run_facts.
Context (c : ascii -> bool) (k : string -> option (list string)).

Lemma run_piece_sound s : forall lo hi ws,
  run_piece c k lo hi s = Some ws ->
  exists w ws' s', ws = w :: ws' /\ all_in c w = true /\ within lo hi (String.length w) /\
    s = w +:+ s' /\ k s' = Some ws'.
Proof.
  assert (Hstop : forall lo hi s ws, match lo with O => cons EmptyString <$> k s | S _ => None end = Some ws ->
    exists w ws' s', ws = w :: ws' /\ all_in c w = true /\ within lo hi (String.length w) /\
      s = w +:+ s' /\ k s' = Some ws').
  { intros [|lo] hi s' ws; [|done]. intros (ws' & Hk & ->)%fmap_Some. exists EmptyString, ws', s'.
    repeat split; try done. by destruct hi; cbn; lia. }
  induction s as [|a s IH]; intros lo hi ws; cbn [run_piece]; [by apply Hstop|].
  destruct (c a && may_take hi) eqn:Ec; [|by apply Hstop].
  destruct (run_piece c k (pred lo) (pred <$> hi) s) as [[|w ws']|] eqn:Er; try by apply Hstop.
  intros [= <-]. apply IH in Er as (w0 & ws0 & s' & [= -> ->] & Hw & Hn & -> & Hk).
  exists (String a w0), ws0, s'. apply andb_prop in Ec as [Ec Em].
  repeat split; try done; cbn.
  - by rewrite Ec.
  - destruct Hn. lia.
  - destruct hi as [[|m]|]; [done| |done]. destruct Hn as [_ Hn]. cbn in Hn. lia.
Qed.

Lemma run_piece_complete w : forall lo hi s',
  all_in c w = true -> within lo hi (String.length w) -> is_Some (k s') ->
  is_Some (run_piece c k lo hi (w +:+ s')).
Proof.
  induction w as [|a w IH]; intros lo hi s' Hw [Hlo Hhi] Hk.
  - change (EmptyString +:+ s') with s'. cbn in Hlo. replace lo with O by lia. destruct Hk as [ws Hk].
    assert (Hstop : is_Some (cons EmptyString <$> k s')) by (rewrite Hk; by eexists).
    destruct s' as [|a s']; cbn [run_piece]; [exact Hstop|].
    destruct (c a && may_take hi); [|exact Hstop].
    destruct (run_piece _ _ _ _ s') as [[|? ?]|]; [exact Hstop|by eexists|exact Hstop].
  - cbn in Hw. apply andb_prop in Hw as [Ha Hw].
    change (is_Some (run_piece c k lo hi (String a (w +:+ s')))). cbn [run_piece].
    assert (may_take hi = true) as -> by (destruct hi as [[|m]|]; cbn in Hhi; [lia|done|done]).
    rewrite Ha. cbn [andb].
    destruct (IH (pred lo) (pred <$> hi) s' Hw) as [ws Hws]; [|done|].
    { split; [cbn in Hlo; lia|]. destruct hi as [m|]; cbn in *; [lia|done]. }
    destruct (run_piece_sound _ _ _ _ Hws) as (w1 & ws1 & ? & -> & _). rewrite Hws. by eexists.
Qed.
End run_facts.

Lemma submatches_sound p : forall s ws, submatches p s = Some ws -> splits p s ws.
Proof.
  induction p as [|x p IH]; intros s ws; cbn.
  - destruct s; [|done]. intros [= <-]. by split; [constructor|].
  - intros (w & ws' & s' & -> & Hw & Hn & -> & [Hf Hc]%IH)%run_piece_sound.
    split; [by constructor|]. cbn. unfold concat_strings in Hc. by rewrite Hc.
Qed.

(** The matcher decides exactly whether the text splits into the pieces. *)
Lemma MatchString_spec p s : MatchString p s = true <-> exists ws, splits p s ws.
Proof.
  unfold MatchString. split.
  - destruct (submatches p s) as [ws|] eqn:E; [|done]. intros _. exists ws. by apply submatches_sound.
  - intros (ws & Hf & <-). cut (is_Some (submatches p (concat_strings ws))); [by intros [? ->]|].
    induction Hf as [|x w p ws [Hw Hn] Hf IH]; [by eexists|].
    change (concat_strings (w :: ws)) with (w +:+ concat_strings ws). cbn. by apply run_piece_complete.
Qed.

Lemma all_in_app c s t : all_in c (s +:+ t) = all_in c s && all_in c t.
Proof. induction s as [|a s IH]; [done|]. cbn. by rewrite <-andb_assoc, <-IH. Qed.

Lemma concat_length ws : String.length (concat_strings ws) = sum_list (String.length <$> ws).
Proof.
  induction ws as [|w ws IH]; [done|]. change (concat_strings (w :: ws)) with (w +:+ concat_strings ws).
  rewrite append_length, IH. done.
Qed.

(** A pattern of one piece. *)
Lemma MatchString_one x s : MatchString [x] s = true <-> fits x s.
Proof.
  rewrite MatchString_spec. split.
  - intros (ws & Hf & <-). apply Forall2_cons_inv_l in Hf as (w & ws' & Hw & ->%Forall2_nil_inv_l & ->).
    change (fits x (w +:+ EmptyString)). by rewrite append_nil.
  - intros Hs. exists [s]. split; [by constructor; [|constructor]|]. exact (append_nil s).
Qed.

Example regexp_samples :
  MatchString [repeated 1 3 is_alnum] "ab1" = true /\ MatchString [repeated 1 3 is_alnum] "" = false /\
  MatchString [repeated 1 3 is_alnum] "ab12" = false /\
  submatches [optional (one_of "-"); repeated 1 2 is_digit; once (one_of "."); many 1 is_digit] "-12.50" =
    Some ["-"; "12"; "."; "50"] /\
  submatches [many 0 is_alnum; exactly 1 is_alnum] "abc" = Some ["ab"; "c"].
Proof. vm_compute. done. Qed.
