(* ===== verification/GoSort.v ===== *)
(** * [sort.Strings] and [sort.SliceStable]

    Byte-wise order on strings, and a stable insertion sort by a key that has a
    total order: the sorted list is a permutation, ascending, and keeps the order
    of equal keys, which determines it. *)

From S2P Require Import Prelude GoLib.

(** ** The order on strings *)

Fixpoint string_leb (s t : string) : bool :=
  match s, t with
  | EmptyString, _ => true
  | String _ _, EmptyString => false
  | String a s, String b t =>
    (byte_val a <? byte_val b) || ((byte_val a =? byte_val b) && string_leb s t)
  end.

Lemma byte_val_inj a b : byte_val a = byte_val b -> a = b.
Proof.
  unfold byte_val. intros Hab. apply N2Z.inj in Hab.
  rewrite <- (Ascii.ascii_N_embedding a), <- (Ascii.ascii_N_embedding b). by rewrite Hab.
Qed.

Lemma string_leb_refl s : string_leb s s = true.
Proof. induction s as [|a s IH]; [done|]. cbn. by rewrite Z.eqb_refl, IH, orb_true_r. Qed.

Lemma string_leb_total s t : string_leb s t = true \/ string_leb t s = true.
Proof.
  revert t. induction s as [|a s IH]; intros [|b t]; [by left|by left|by right|]. cbn.
  destruct (Z.lt_trichotomy (byte_val a) (byte_val b)) as [?|[->|?]]; [left; lia| |right; lia].
  rewrite Z.eqb_refl, Z.ltb_irrefl. apply IH.
Qed.

Lemma string_leb_trans s t u :
  string_leb s t = true -> string_leb t u = true -> string_leb s u = true.
Proof.
  revert t u. induction s as [|a s IH]; intros [|b t] [|c u]; cbn; try done.
  rewrite !orb_true_iff, !andb_true_iff, !Z.ltb_lt, !Z.eqb_eq.
  intros [?|[? Hs]] [?|[? Ht]]; [left; lia..|]. right. split; [lia|by apply (IH t u)].
Qed.

Lemma string_leb_antisym s t : string_leb s t = true -> string_leb t s = true -> s = t.
Proof.
  revert t. induction s as [|a s IH]; intros [|b t]; cbn; try done.
  rewrite !orb_true_iff, !andb_true_iff, !Z.ltb_lt, !Z.eqb_eq.
  intros [?|[Hab Hs]] [?|[? Ht]]; try lia. f_equal; [by apply byte_val_inj|by apply IH].
Qed.

(** ** Stable insertion sort *)

(** What a key is compared by. *)
Class SortKey (K : Type) := {
  key_leb : K -> K -> bool;
  key_leb_refl k : key_leb k k = true;
  key_leb_total j k : key_leb j k = true \/ key_leb k j = true;
  key_leb_trans i j k : key_leb i j = true -> key_leb j k = true -> key_leb i k = true
}.

#[export] Instance string_sort_key : SortKey string := {|
  key_leb := string_leb;
  key_leb_refl := string_leb_refl;
  key_leb_total := string_leb_total;
  key_leb_trans := string_leb_trans
|}.

#[export] Program Instance Z_sort_key : SortKey Z := {| key_leb := Z.leb |}.
Next Obligation. intros k. apply Z.leb_refl. Qed.
Next Obligation. intros j k. rewrite !Z.leb_le. lia. Qed.
Next Obligation. intros i j k. cbn. rewrite !Z.leb_le. lia. Qed.

Section sorting.
Context {A K : Type} `{SortKey K} (key : A -> K).
Implicit Types (l : list A).

Fixpoint insert_sorted (x : A) (l : list A) : list A :=
  match l with
  | [] => [x]
  | y :: l' => if key_leb (key x) (key y) then x :: l else y :: insert_sorted x l'
  end.

Definition SliceStable (l : list A) : list A := foldr insert_sorted [] l.

Definition ascending (a b : A) : Prop := key_leb (key a) (key b) = true.

Lemma insert_sorted_perm x l : insert_sorted x l ≡ₚ x :: l.
Proof.
  induction l as [|y l IH]; [done|]. cbn. destruct (key_leb _ _); [done|].
  rewrite IH. apply Permutation_swap.
Qed.

Lemma SliceStable_perm l : SliceStable l ≡ₚ l.
Proof. induction l as [|x l IH]; [done|]. cbn. by rewrite insert_sorted_perm, IH. Qed.

Lemma insert_sorted_sorted x l :
  StronglySorted ascending l -> StronglySorted ascending (insert_sorted x l).
Proof.
  induction 1 as [|y l Hl IH Hy]; cbn; [by constructor; [constructor|]|].
  destruct (key_leb (key x) (key y)) eqn:E.
  - constructor; [by constructor|]. constructor; [done|].
    eapply Forall_impl; [exact Hy|]. intros z Hz. by apply (key_leb_trans _ (key y)).
  - constructor; [done|]. rewrite insert_sorted_perm. constructor; [|done].
    destruct (key_leb_total (key x) (key y)); [congruence|done].
Qed.

Lemma SliceStable_sorted l : StronglySorted ascending (SliceStable l).
Proof. induction l as [|x l IH]; [constructor|]. by apply insert_sorted_sorted. Qed.

(** Elements with the same key keep their order. *)
Lemma SliceStable_stable `{EqDecision K} k l :
  filter (fun x => key x = k) (SliceStable l) = filter (fun x => key x = k) l.
Proof.
  assert (Hins : forall x l', filter (fun x => key x = k) (insert_sorted x l') =
                              filter (fun x => key x = k) (x :: l')).
  { intros x l'. induction l' as [|y l' IH]; [done|]. cbn [insert_sorted].
    destruct (key_leb (key x) (key y)) eqn:E; [done|].
    rewrite filter_cons, IH, !filter_cons.
    destruct (decide (key y = k)) as [<-|]; [|done]. destruct (decide (key x = key y)) as [Heq|]; [|done].
    by rewrite Heq, key_leb_refl in E. }
  induction l as [|x l IH]; [done|]. cbn [SliceStable foldr]. rewrite Hins, !filter_cons.
  change (foldr insert_sorted [] l) with (SliceStable l). by rewrite IH.
Qed.

(** Elements with keys in no strict order keep whatever order they came in. *)
Lemma SliceStable_keeps (R : A -> A -> Prop) l :
  StronglySorted R l -> StronglySorted (fun a b => ascending a b /\ (ascending b a -> R a b)) (SliceStable l).
Proof.
  induction 1 as [|x l Hl IH Hx]; [constructor|]. cbn [SliceStable foldr]. change (foldr insert_sorted [] l) with (SliceStable l).
  assert (Hx' : Forall (R x) (SliceStable l)) by by rewrite SliceStable_perm.
  clear Hl Hx. revert IH Hx'. generalize (SliceStable l) as l'. clear l. intros l.
  induction 1 as [|y l Hl IH Hy]; intros Hx; cbn [insert_sorted]; [by constructor; [constructor|]|].
  apply Forall_cons in Hx as [Hxy Hx]. destruct (key_leb (key x) (key y)) eqn:E.
  - constructor; [by constructor|]. constructor; [done|]. rewrite Forall_forall in Hx, Hy |- *. intros z Hz.
    split; [|intros _; by apply Hx]. apply (key_leb_trans _ (key y)); [done|]. by apply Hy.
  - constructor; [by apply IH|]. rewrite insert_sorted_perm. constructor; [|done].
    split; [destruct (key_leb_total (key x) (key y)); [congruence|done]|]. unfold ascending. congruence.
Qed.

Lemma SliceStable_nil l : SliceStable l = [] <-> l = [].
Proof.
  split; [|by intros ->]. intros Hl. pose proof (SliceStable_perm l) as Hp. rewrite Hl in Hp.
  by apply Permutation_nil_l in Hp.
Qed.

Lemma elem_of_SliceStable l x : x ∈ SliceStable l <-> x ∈ l.
Proof. by rewrite SliceStable_perm. Qed.
End sorting.

(** [sort.Strings]. *)
Definition Strings (l : list string) : list string := SliceStable id l.

#[export] Instance ascending_antisym : AntiSymm eq (ascending (@id string)).
Proof. intros s t. apply string_leb_antisym. Qed.

(** The result does not depend on the order the strings came in. *)
Lemma Strings_perm l1 l2 : l1 ≡ₚ l2 -> Strings l1 = Strings l2.
Proof.
  intros Hp. assert (Hpp : Strings l1 ≡ₚ Strings l2)
    by (unfold Strings; by rewrite !(SliceStable_perm id)).
  by apply (StronglySorted_unique (ascending id)); [apply (SliceStable_sorted id)..|].
Qed.

Example sort_samples :
  Strings ["b"; "a"; "ab"; ""] = [""; "a"; "ab"; "b"] /\
  SliceStable fst [("b", 1); ("a", 2); ("b", 0); ("a", 1)] = [("a", 2); ("a", 1); ("b", 1); ("b", 0)].
Proof. vm_compute. done. Qed.
