(* ===== verification/GoUtf8.v ===== *)
(** * Decoding part of a string

    The runes of a run of another string's runes are those runes, so trimming
    is idempotent.  A malformed byte stays malformed when what follows it is cut
    off. *)

From S2P Require Import Prelude GoLib GoRegexp.

(** The longer encodings [runes] tries after a byte that is not ASCII. *)
Definition multi (a : ascii) (s : string) : option (Z * string * string) :=
  match s with
  | EmptyString => None
  | String b s2 =>
    if lead2 (byte_val a) (byte_val b)
    then Some (rune2 (byte_val a) (byte_val b), String a (String b EmptyString), s2)
    else match s2 with
    | EmptyString => None
    | String c s3 =>
      if lead3 (byte_val a) (byte_val b) (byte_val c)
      then Some (rune3 (byte_val a) (byte_val b) (byte_val c), String a (String b (String c EmptyString)), s3)
      else match s3 with
      | EmptyString => None
      | String d s4 =>
        if lead4 (byte_val a) (byte_val b) (byte_val c) (byte_val d)
        then Some (rune4 (byte_val a) (byte_val b) (byte_val c) (byte_val d),
                   String a (String b (String c (String d EmptyString))), s4)
        else None
      end
    end
  end.

(** The first rune of a non-empty string, its bytes, and the rest. *)
Definition first_rune (a : ascii) (s : string) : Z * string * string :=
  if byte_val a <? 128 then (byte_val a, String a EmptyString, s)
  else default (rune_error, String a EmptyString, s) (multi a s).

Lemma runes_first a s :
  runes (String a s) = let '(r, bs, rest) := first_rune a s in (r, bs) :: runes rest.
Proof.
  unfold first_rune, multi. cbn [runes]. destruct (byte_val a <? 128); [done|].
  destruct s as [|b s]; [done|]. destruct (lead2 _ _); [done|].
  destruct s as [|c s]; [done|]. destruct (lead3 _ _ _); [done|].
  destruct s as [|d s]; [done|]. by destruct (lead4 _ _ _ _).
Qed.

Lemma multi_bytes a s r bs rest : multi a s = Some (r, bs, rest) -> String a s = bs +:+ rest.
Proof.
  unfold multi. destruct s as [|b s]; [done|]. destruct (lead2 _ _); [by intros [= _ <- <-]|].
  destruct s as [|c s]; [done|]. destruct (lead3 _ _ _); [by intros [= _ <- <-]|].
  destruct s as [|d s]; [done|]. destruct (lead4 _ _ _ _); [by intros [= _ <- <-]|done].
Qed.

Lemma first_rune_bytes a s r bs rest : first_rune a s = (r, bs, rest) -> String a s = bs +:+ rest.
Proof.
  unfold first_rune. destruct (_ <? _); [by intros [= _ <- <-]|].
  destruct (multi a s) as [[[? ?] ?]|] eqn:E; [|by intros [= _ <- <-]].
  intros [= -> -> ->]. by apply multi_bytes in E.
Qed.

(** More bytes after a complete encoding do not change it. *)
Lemma multi_prefix a s u r bs rest :
  multi a s = Some (r, bs, rest) -> multi a (s +:+ u) = Some (r, bs, rest +:+ u).
Proof.
  unfold multi. destruct s as [|b s]; [done|]. rewrite append_cons.
  destruct (lead2 _ _); [by intros [= <- <- <-]|].
  destruct s as [|c s]; [done|]. rewrite append_cons. destruct (lead3 _ _ _); [by intros [= <- <- <-]|].
  destruct s as [|d s]; [done|]. rewrite append_cons. destruct (lead4 _ _ _ _); [by intros [= <- <- <-]|done].
Qed.

(** The first rune needs no more than its own bytes. *)
Lemma first_rune_cut a s r bs rest t u :
  first_rune a s = (r, bs, rest) -> rest = t +:+ u ->
  exists s', bs +:+ t = String a s' /\ first_rune a s' = (r, bs, t).
Proof.
  unfold first_rune. destruct (byte_val a <? 128).
  { intros [= <- <- <-] _. by exists t. }
  destruct (multi a s) as [[[r' bs'] rest']|] eqn:Em; cbn.
  - intros [= -> -> ->] ->. assert (Hm : exists s', bs +:+ t = String a s' /\ multi a s' = Some (r, bs, t)).
    { revert Em. unfold multi. destruct s as [|b s]; [done|]. destruct (lead2 _ _) eqn:E2.
      { intros [= <- <- _]. exists (String b t). split; [done|]. by rewrite E2. }
      destruct s as [|c s]; [done|]. destruct (lead3 _ _ _) eqn:E3.
      { intros [= <- <- _]. exists (String b (String c t)). split; [done|]. by rewrite E2, E3. }
      destruct s as [|d s]; [done|]. destruct (lead4 _ _ _ _) eqn:E4; [|done].
      intros [= <- <- _]. exists (String b (String c (String d t))). split; [done|].
      by rewrite E2, E3, E4. }
    destruct Hm as (s' & Hs & Hm). exists s'. split; [done|]. by rewrite Hm.
  - intros [= <- <- ->] ->. exists t. split; [done|]. destruct (multi a t) as [[[r' bs'] rest']|] eqn:Et; [|done].
    by rewrite (multi_prefix _ _ u _ _ _ Et) in Em.
Qed.

(** Induction on a string, a rune at a time. *)
Lemma rune_ind (P : string -> Prop) :
  P EmptyString ->
  (forall a s r bs rest, first_rune a s = (r, bs, rest) -> P rest -> P (String a s)) ->
  forall s, P s.
Proof.
  intros H0 Hs s. remember (String.length s) as k eqn:Hk. revert s Hk.
  induction k as [k IH] using lt_wf_ind. intros [|a s] ->; [done|].
  destruct (first_rune a s) as [[r bs] rest] eqn:E. apply (Hs a s r bs rest E).
  apply (IH (String.length rest)); [|done]. pose proof (first_rune_bytes _ _ _ _ _ E) as Hb.
  destruct bs as [|x bs].
  - unfold first_rune in E. destruct (_ <? _); [done|].
    destruct (multi a s) as [[[? ?] ?]|] eqn:Em; [|done]. cbn in E. injection E as -> -> ->.
    revert Em. unfold multi. repeat (case_match; try done).
  - rewrite Hb, append_length. cbn [String.length]. lia.
Qed.

Lemma runes_bytes s : concat_strings (runes s).*2 = s.
Proof.
  induction s as [|a s r bs rest E IH] using rune_ind; [done|]. rewrite runes_first, E.
  change (bs +:+ concat_strings (runes rest).*2 = String a s). rewrite IH.
  symmetry. by apply first_rune_bytes in E.
Qed.

Lemma concat_strings_app l l' : concat_strings (l ++ l') = concat_strings l +:+ concat_strings l'.
Proof.
  induction l as [|x l IH]; [done|].
  change (x +:+ concat_strings (l ++ l') = (x +:+ concat_strings l) +:+ concat_strings l').
  by rewrite IH, append_assoc.
Qed.

(** The text a prefix of the runes stands on has just those runes. *)
Lemma runes_take s l l' : runes s = l ++ l' -> runes (concat_strings l.*2) = l.
Proof.
  revert l. induction s as [|a s r bs rest E IH] using rune_ind; intros l Hl; [by destruct l|].
  rewrite runes_first, E in Hl. destruct l as [|x l]; [done|]. cbn [app] in Hl. injection Hl as <- Hl.
  change (runes (bs +:+ concat_strings l.*2) = (r, bs) :: l).
  destruct (first_rune_cut _ _ _ _ _ (concat_strings l.*2) (concat_strings l'.*2) E) as (s' & -> & Es').
  { by rewrite <- concat_strings_app, <- fmap_app, <- Hl, runes_bytes. }
  rewrite runes_first, Es'. by rewrite (IH l).
Qed.

Lemma runes_drop s l l' : runes s = l ++ l' -> runes (concat_strings l'.*2) = l'.
Proof.
  revert l. induction s as [|a s r bs rest E IH] using rune_ind; intros l Hl.
  - by destruct l, l'.
  - destruct l as [|x l]; [change ([] ++ l') with l' in Hl; by rewrite <- Hl, runes_bytes|].
    rewrite runes_first, E in Hl. injection Hl as _ Hl. by apply (IH l).
Qed.

(** ** [strings.TrimSpace] *)

Lemma drop_spaces_suffix l : exists l0, l = l0 ++ drop_spaces l.
Proof.
  induction l as [|[r bs] l [l0 IH]]; [by exists []|]. cbn. destruct (is_space r); [|by exists []].
  exists ((r, bs) :: l0). cbn. by rewrite <- IH.
Qed.

Lemma drop_spaces_idemp l : drop_spaces (drop_spaces l) = drop_spaces l.
Proof.
  induction l as [|[r bs] l IH]; [done|]. cbn. destruct (is_space r) eqn:E; [done|]. cbn. by rewrite E.
Qed.

(** A list that starts without a space still does when its end is trimmed. *)
Lemma drop_spaces_front l l' :
  drop_spaces (l ++ l') = l ++ l' -> drop_spaces l = l.
Proof.
  destruct l as [|[r bs] l]; [done|]. cbn. destruct (is_space r); [|done].
  intros Hd. destruct (drop_spaces_suffix (l ++ l')) as [l0 Hl]. rewrite Hd in Hl.
  apply (f_equal length) in Hl. rewrite (length_app l0) in Hl. cbn [length] in Hl. lia.
Qed.

(** The runes left after trimming. *)
Definition trimmed (l : list (Z * string)) : list (Z * string) :=
  reverse (drop_spaces (reverse (drop_spaces l))).

Lemma trimmed_idemp l : trimmed (trimmed l) = trimmed l.
Proof.
  unfold trimmed. set (m := drop_spaces l).
  destruct (drop_spaces_suffix (reverse m)) as [l0 Hl]. set (n := drop_spaces (reverse m)) in *.
  assert (Hm : m = reverse n ++ reverse l0) by (rewrite <- reverse_app, <- Hl; by rewrite reverse_involutive).
  assert (drop_spaces (reverse n) = reverse n) as ->.
  { apply (drop_spaces_front _ (reverse l0)). rewrite <- Hm. apply drop_spaces_idemp. }
  rewrite reverse_involutive. f_equal. apply drop_spaces_idemp.
Qed.

Lemma runes_TrimSpace s : runes (TrimSpace s) = trimmed (runes s).
Proof.
  unfold TrimSpace. fold (trimmed (runes s)). unfold trimmed.
  destruct (drop_spaces_suffix (runes s)) as [l0 H0]. set (m := drop_spaces (runes s)) in *.
  destruct (drop_spaces_suffix (reverse m)) as [l1 H1]. set (n := drop_spaces (reverse m)) in *.
  assert (Hm : m = reverse n ++ reverse l1) by (rewrite <- reverse_app, <- H1; by rewrite reverse_involutive).
  apply runes_drop in H0. rewrite Hm in H0 at 2. by apply runes_take in H0.
Qed.

Lemma TrimSpace_idemp s : TrimSpace (TrimSpace s) = TrimSpace s.
Proof.
  unfold TrimSpace at 1. rewrite runes_TrimSpace. fold (trimmed (trimmed (runes s))).
  by rewrite trimmed_idemp.
Qed.

(** ASCII without spaces is left alone. *)
Definition solid (a : ascii) : bool := (byte_val a <? 128) && negb (is_space (byte_val a)).

Lemma drop_spaces_solid l : Forall (fun r : Z * string => is_space r.1 = false) l -> drop_spaces l = l.
Proof. destruct l as [|[r bs] l]; [done|]. intros [Hr _]%Forall_cons. cbn in Hr |- *. by rewrite Hr. Qed.

Lemma TrimSpace_solid s : forallb solid (String.list_ascii_of_string s) = true -> TrimSpace s = s.
Proof.
  intros Hs. assert (H : Forall (fun r : Z * string => is_space r.1 = false) (runes s)).
  { induction s as [|a s IH]; [by constructor|]. cbn in Hs. apply andb_prop in Hs as [[Ha Hsp]%andb_prop Hs].
    cbn [runes]. rewrite Ha. constructor; [by apply negb_true_iff|]. by apply IH. }
  unfold TrimSpace. rewrite (drop_spaces_solid (runes s)) by done.
  rewrite drop_spaces_solid by (by apply Forall_reverse). rewrite reverse_involutive. apply runes_bytes.
Qed.
