(* ===== verification/GoNet.v ===== *)
(** * [net.ParseIP], [net.SplitHostPort] and the string functions they need

    Addresses are checked, not computed: the program only asks whether a text is
    an address. *)

From S2P Require Import Prelude GoLib GoRegexp.

(** ** Cutting strings *)

Fixpoint has_byte (c : ascii) (s : string) : bool :=
  match s with EmptyString => false | String a r => bool_decide (a = c) || has_byte c r end.

(** [strings.Cut] with a one-byte separator: at its first occurrence. *)
Fixpoint Cut (c : ascii) (s : string) : option (string * string) :=
  match s with
  | EmptyString => None
  | String a r =>
    if bool_decide (a = c) then Some (EmptyString, r)
    else '(x, y) ← Cut c r; Some (String a x, y)
  end.

(** At its last occurrence, as [strings.LastIndex] finds it. *)
Fixpoint cut_last (c : ascii) (s : string) : option (string * string) :=
  match s with
  | EmptyString => None
  | String a r =>
    match cut_last c r with
    | Some (x, y) => Some (String a x, y)
    | None => if bool_decide (a = c) then Some (EmptyString, r) else None
    end
  end.

Fixpoint span (p : ascii -> bool) (s : string) : string * string :=
  match s with
  | EmptyString => (EmptyString, EmptyString)
  | String a r => if p a then let '(x, y) := span p r in (String a x, y) else (EmptyString, s)
  end.

(** ** IP addresses *)

(** A decimal octet without leading zeros. *)
Definition octet (s : string) : bool :=
  match s with
  | EmptyString => false
  | String "0"%char EmptyString => true
  | String "0"%char _ => false
  | _ => all_in is_digit s && (String.length s <=? 3)%nat &&
         match parse_digits s with Some n => n <=? 255 | None => false end
  end.

Definition parseIPv4 (s : string) : bool :=
  let parts := Split s "."%char in
  bool_decide (length parts = 4%nat) && forallb octet parts.

Definition is_hex (a : ascii) : bool := is_digit a || between 97 102 a || between 65 70 a.

(** [room] two-byte groups are left to fill, or to be the ellipsis. *)
Definition filled (room : nat) (ellipsis : bool) : bool :=
  match room with O => negb ellipsis | S _ => ellipsis end.

Fixpoint ipv6_groups (room : nat) (ellipsis : bool) (s : string) : bool :=
  match room with
  | O => bool_decide (s = EmptyString) && negb ellipsis
  | S room' =>
    let '(h, r) := span is_hex s in
    if bool_decide (h = EmptyString) || (4 <? String.length h)%nat then false
    else match r with
    | EmptyString => filled room' ellipsis
    | String "."%char _ =>
      (ellipsis || (room =? 2)%nat) && (2 <=? room)%nat && parseIPv4 s && filled (room - 2) ellipsis
    | String ":"%char EmptyString => false
    | String ":"%char (String ":"%char q) =>
      if ellipsis then false
      else if bool_decide (q = EmptyString) then filled room' true
      else ipv6_groups room' true q
    | String ":"%char q => ipv6_groups room' ellipsis q
    | _ => false
    end
  end.

Definition parseIPv6 (s : string) : bool :=
  match s with
  | String ":"%char (String ":"%char EmptyString) => true
  | String ":"%char (String ":"%char q) => ipv6_groups 8 true q
  | _ => ipv6_groups 8 false s
  end.

(** Which family the first separator announces; an address with a zone has a
    [%], which no group holds. *)
Fixpoint ip_family (s : string) : option ascii :=
  match s with
  | EmptyString => None
  | String a r => if one_of ".:%" a then Some a else ip_family r
  end.

(** [net.ParseIP(s) != nil]. *)
Definition ParseIP (s : string) : bool :=
  match ip_family s with
  | Some "."%char => parseIPv4 s
  | Some ":"%char => parseIPv6 s
  | _ => false
  end.

(** ** Host and port *)

(** [net.SplitHostPort]; [None] is any of its errors. *)
Definition SplitHostPort (hostport : string) : option (string * string) :=
  match hostport with
  | String "["%char r =>
    '(host, rest) ← Cut "]"%char r;
    match rest with
    | String ":"%char port =>
      if has_byte ":"%char port || has_byte "["%char (host +:+ port) || has_byte "]"%char port then None
      else Some (host, port)
    | _ => None
    end
  | _ =>
    '(host, port) ← cut_last ":"%char hostport;
    if has_byte ":"%char host || has_byte "["%char hostport || has_byte "]"%char hostport then None
    else Some (host, port)
  end.

(** ** [net/url]

    A parsed URL is opaque: the parts the program reads, the URL with another
    path (and no raw path), and its text. *)
Class URLs := {
  URL : Type;
  url_Parse : string -> URL + string;
  u_Scheme : URL -> string;
  u_Host : URL -> string;
  u_Path : URL -> string;
  u_RawQuery : URL -> string;
  u_Fragment : URL -> string;
  u_with_path : string -> URL -> URL;
  u_String : URL -> string
}.

(** An instance for concrete runs: [http://host/path]. *)
Definition sample_urls : URLs := {|
  URL := string * string;
  url_Parse := fun s =>
    if String.prefix "http://" s then
      let rest := String.substring 7 (String.length s - 7) s in
      inl match Cut "/"%char rest with
          | Some (host, path) => (host, String "/"%char path)
          | None => (rest, EmptyString)
          end
    else inr "not a URL";
  u_Scheme := fun _ => "http";
  u_Host := fst;
  u_Path := snd;
  u_RawQuery := fun _ => EmptyString;
  u_Fragment := fun _ => EmptyString;
  u_with_path := fun p u => (u.1, p);
  u_String := fun u => "http://" +:+ u.1 +:+ u.2
|}.

Example ParseIP_samples :
  ParseIP "192.168.1.20" = true /\ ParseIP "192.168.1" = false /\ ParseIP "1.2.3.256" = false /\
  ParseIP "01.2.3.4" = false /\ ParseIP "0.0.0.0" = true /\ ParseIP "1.2.3.4." = false /\
  ParseIP "::" = true /\ ParseIP "::1" = true /\ ParseIP "fe80::1" = true /\ ParseIP "fe80::1%eth0" = false /\
  ParseIP "1:2:3:4:5:6:7:8" = true /\ ParseIP "1:2:3:4:5:6:7" = false /\ ParseIP "1:2:3:4:5:6:7::" = true /\
  ParseIP "::ffff:1.2.3.4" = true /\ ParseIP "1:2:3:4:5:6:1.2.3.4" = true /\
  ParseIP "1:2:3:4:5:6:7:1.2.3.4" = false /\ ParseIP "1::2::3" = false /\ ParseIP "12345::" = false /\
  ParseIP "1:2:3:4:5:6:7:8::" = false /\ ParseIP "host" = false.
Proof. vm_compute. done. Qed.

Example SplitHostPort_samples :
  SplitHostPort "0.0.0.0:9000" = Some ("0.0.0.0", "9000") /\ SplitHostPort ":80" = Some ("", "80") /\
  SplitHostPort "[::1]:80" = Some ("::1", "80") /\ SplitHostPort "::1:80" = None /\
  SplitHostPort "host" = None /\ SplitHostPort "[::1]" = None /\ SplitHostPort "[::1]80" = None /\
  SplitHostPort "[a]b]:80" = None /\ SplitHostPort "a:" = Some ("a", "").
Proof. vm_compute. done. Qed.
