(* ===== verification/GoBase64.v ===== *)
(** * [base64.StdEncoding.Strict()] (RFC 4648, section 4, padded)

    Decoding skips carriage returns and newlines, takes groups of four
    characters, and is strict: the bits a padded group does not use are zero.
    The two theorems say that a text decodes to at most one string and that each
    string has exactly one text without line breaks. *)

From S2P Require Import Prelude GoLib GoRegexp.

Definition byte_of (z : Z) : ascii := Ascii.ascii_of_N (Z.to_N z).

Lemma byte_val_of z : 0 <= z < 256 -> byte_val (byte_of z) = z.
Proof. intros H. unfold byte_val, byte_of. rewrite Ascii.N_ascii_embedding by lia. lia. Qed.

Lemma byte_of_val a : byte_of (byte_val a) = a.
Proof. unfold byte_val, byte_of. rewrite N2Z.id. apply Ascii.ascii_N_embedding. Qed.

Lemma byte_val_range a : 0 <= byte_val a < 256.
Proof. unfold byte_val. pose proof (Ascii.N_ascii_bounded a). lia. Qed.

(** ** The alphabet *)

Definition sextet_char (z : Z) : ascii :=
  if z <? 26 then byte_of (z + 65)
  else if z <? 52 then byte_of (z + 71)
  else if z <? 62 then byte_of (z - 4)
  else if z =? 62 then "+"%char else "/"%char.

Definition char_sextet (a : ascii) : option Z :=
  let v := byte_val a in
  if is_upper a then Some (v - 65)
  else if is_lower a then Some (v - 71)
  else if is_digit a then Some (v + 4)
  else if v =? 43 then Some 62
  else if v =? 47 then Some 63
  else None.

Definition is_pad (a : ascii) : bool := byte_val a =? 61.

(** Every character, for the facts that are checked one by one. *)
Definition all_chars : list ascii := byte_of <$> (Z.of_nat <$> seq 0 256).

Lemma elem_of_all_chars a : a ∈ all_chars.
Proof.
  unfold all_chars. rewrite <- (byte_of_val a). apply list_elem_of_fmap_2.
  pose proof (byte_val_range a). apply list_elem_of_fmap. exists (Z.to_nat (byte_val a)).
  rewrite elem_of_seq. lia.
Qed.

Lemma every_char (P : ascii -> Prop) `{!forall a, Decision (P a)} :
  Forall P all_chars -> forall a, P a.
Proof. intros Hall a. rewrite Forall_forall in Hall. apply Hall, elem_of_all_chars. Qed.

Lemma char_sextet_char z : 0 <= z < 64 -> char_sextet (sextet_char z) = Some z.
Proof.
  intros Hz. assert (H : Forall (fun n => char_sextet (sextet_char (Z.of_nat n)) = Some (Z.of_nat n)) (seq 0 64))
    by (apply (bool_decide_unpack _); vm_compute; done).
  rewrite Forall_forall in H. specialize (H (Z.to_nat z)). rewrite Z2Nat.id in H by lia.
  apply H, elem_of_seq. lia.
Qed.

Lemma sextet_char_sextet a z : char_sextet a = Some z -> 0 <= z < 64 /\ sextet_char z = a.
Proof.
  revert a z. assert (H : forall a, match char_sextet a with
      Some z => bool_decide (0 <= z < 64 /\ sextet_char z = a) | None => true end = true).
  { refine (every_char _ _). apply (bool_decide_unpack _). vm_compute. done. }
  intros a z E. specialize (H a). rewrite E in H. by apply bool_decide_eq_true in H.
Qed.

Lemma sextet_not_pad z : 0 <= z < 64 -> is_pad (sextet_char z) = false.
Proof.
  intros Hz. pose proof (char_sextet_char z Hz) as E. destruct (is_pad (sextet_char z)) eqn:P; [|done].
  unfold is_pad in P. apply Z.eqb_eq in P. rewrite <- (byte_of_val (sextet_char z)), P in E. by vm_compute in E.
Qed.

Lemma pad_no_sextet a : is_pad a = true -> char_sextet a = None.
Proof.
  intros P. unfold is_pad in P. apply Z.eqb_eq in P. rewrite <- (byte_of_val a), P. by vm_compute.
Qed.

(** ** Encoding and decoding *)

Definition is_break (a : ascii) : bool := (byte_val a =? 10) || (byte_val a =? 13).

Fixpoint strip_breaks (s : string) : string :=
  match s with
  | EmptyString => EmptyString
  | String a r => if is_break a then strip_breaks r else String a (strip_breaks r)
  end.

Definition pad : ascii := "="%char.

Fixpoint StdEncode (s : string) : string :=
  match s with
  | EmptyString => EmptyString
  | String a EmptyString =>
    let a := byte_val a in
    String (sextet_char (a / 4)) (String (sextet_char (a mod 4 * 16)) (String pad (String pad EmptyString)))
  | String a (String b EmptyString) =>
    let a := byte_val a in let b := byte_val b in
    String (sextet_char (a / 4)) (String (sextet_char (a mod 4 * 16 + b / 16))
      (String (sextet_char (b mod 16 * 4)) (String pad EmptyString)))
  | String a (String b (String c r)) =>
    let a := byte_val a in let b := byte_val b in let c := byte_val c in
    String (sextet_char (a / 4)) (String (sextet_char (a mod 4 * 16 + b / 16))
      (String (sextet_char (b mod 16 * 4 + c / 64)) (String (sextet_char (c mod 64)) (StdEncode r))))
  end.

(** The last two characters of a group, and what follows it. *)
Definition decode_padded (x y : Z) (c d : ascii) (r : string) : option string :=
  if bool_decide (r = EmptyString) && is_pad d then
    if is_pad c then
      if y mod 16 =? 0 then Some (String (byte_of (x * 4 + y / 16)) EmptyString) else None
    else
      z ← char_sextet c;
      if z mod 4 =? 0 then
        Some (String (byte_of (x * 4 + y / 16)) (String (byte_of (y mod 16 * 16 + z / 4)) EmptyString))
      else None
  else None.

Fixpoint decode_groups (s : string) : option string :=
  match s with
  | EmptyString => Some EmptyString
  | String a (String b (String c (String d r))) =>
    x ← char_sextet a; y ← char_sextet b;
    match char_sextet c, char_sextet d with
    | Some z, Some w =>
      t ← decode_groups r;
      Some (String (byte_of (x * 4 + y / 16)) (String (byte_of (y mod 16 * 16 + z / 4))
             (String (byte_of (z mod 4 * 64 + w)) t)))
    | _, _ => decode_padded x y c d r
    end
  | _ => None
  end.

Definition StrictDecode (s : string) : option string := decode_groups (strip_breaks s).

(** ** Both directions *)

Lemma byte_of_eq z a : z = byte_val a -> byte_of z = a.
Proof. intros ->. apply byte_of_val. Qed.

Lemma string_ind3 (P : string -> Prop) :
  P EmptyString -> (forall a, P (String a EmptyString)) -> (forall a b, P (String a (String b EmptyString))) ->
  (forall a b c r, P r -> P (String a (String b (String c r)))) -> forall s, P s.
Proof.
  intros H0 H1 H2 H3. assert (H : forall n s, (String.length s <= n)%nat -> P s).
  { induction n as [|n IH]; intros [|a [|b [|c r]]] Hn; cbn in Hn; auto with lia. }
  intros s. by apply (H (String.length s)).
Qed.

(** The sextets of an encoded group are sextets. *)
Ltac bytes_in_range :=
  repeat match goal with
  | a : ascii |- _ =>
    lazymatch goal with
    | _ : 0 <= byte_val a < 256 |- _ => fail
    | _ => pose proof (byte_val_range a)
    end
  end.

Ltac by_bytes := bytes_in_range; Z.div_mod_to_equations; lia.

Ltac read_sextets := repeat (rewrite char_sextet_char by by_bytes); cbn [mbind option_bind].

Lemma decode_groups_encode s : decode_groups (StdEncode s) = Some s.
Proof.
  induction s as [|a|a b|a b c r IH] using string_ind3; [done| | |]; cbn [StdEncode decode_groups].
  - read_sextets. rewrite (pad_no_sextet pad) by done. unfold decode_padded.
    rewrite bool_decide_eq_true_2 by done. change (is_pad pad) with true. cbn [andb].
    rewrite (proj2 (Z.eqb_eq _ 0)) by by_bytes. rewrite (byte_of_eq _ a) by by_bytes. done.
  - read_sextets. rewrite (pad_no_sextet pad) by done. unfold decode_padded.
    rewrite bool_decide_eq_true_2 by done. change (is_pad pad) with true. cbn [andb].
    rewrite sextet_not_pad by by_bytes. read_sextets.
    rewrite (proj2 (Z.eqb_eq _ 0)) by by_bytes.
    rewrite (byte_of_eq _ a), (byte_of_eq _ b) by by_bytes. done.
  - read_sextets. rewrite IH. cbn [mbind option_bind].
    rewrite (byte_of_eq _ a), (byte_of_eq _ b), (byte_of_eq _ c) by by_bytes. done.
Qed.

Lemma is_pad_eq a : is_pad a = true -> a = pad.
Proof. unfold is_pad. intros E%Z.eqb_eq. rewrite <- (byte_of_val a), E. done. Qed.

(** A group's characters, from the sextets they decode to. *)
Ltac known_sextets :=
  repeat match goal with
  | E : char_sextet ?a = Some ?z |- _ =>
    lazymatch goal with
    | _ : 0 <= z < 64 /\ _ |- _ => fail
    | _ => pose proof (sextet_char_sextet a z E)
    end
  end;
  repeat match goal with H : 0 <= _ < 64 /\ sextet_char _ = _ |- _ => destruct H as [? <-] end.

Lemma decode_padded_encode x y c d r t a b :
  char_sextet a = Some x -> char_sextet b = Some y -> decode_padded x y c d r = Some t ->
  StdEncode t = String a (String b (String c (String d r))).
Proof.
  intros Ea Eb. unfold decode_padded.
  destruct (bool_decide (r = EmptyString)) eqn:Er; [apply bool_decide_eq_true in Er; subst r|done]. cbn [andb].
  destruct (is_pad d) eqn:Ed; [apply is_pad_eq in Ed; subst d|done].
  destruct (is_pad c) eqn:Ec.
  - apply is_pad_eq in Ec. subst c. destruct (y mod 16 =? 0) eqn:Ey; [|done]. intros [= <-]. known_sextets.
    apply Z.eqb_eq in Ey. cbn [StdEncode]. rewrite byte_val_of by by_bytes.
    do 2 f_equal; [f_equal; by_bytes|]. f_equal. f_equal. by_bytes.
  - destruct (char_sextet c) as [z|] eqn:Ez; [|done]. cbn [mbind option_bind].
    destruct (z mod 4 =? 0) eqn:Em; [|done]. intros [= <-]. known_sextets. apply Z.eqb_eq in Em.
    cbn [StdEncode]. rewrite !byte_val_of by by_bytes.
    f_equal; [f_equal; by_bytes|]. f_equal; [f_equal; by_bytes|]. f_equal. f_equal. by_bytes.
Qed.

Lemma string_ind4 (P : string -> Prop) :
  P EmptyString -> (forall a, P (String a EmptyString)) -> (forall a b, P (String a (String b EmptyString))) ->
  (forall a b c, P (String a (String b (String c EmptyString)))) ->
  (forall a b c d r, P r -> P (String a (String b (String c (String d r))))) -> forall s, P s.
Proof.
  intros H0 H1 H2 H3 H4. assert (H : forall n s, (String.length s <= n)%nat -> P s).
  { induction n as [|n IH]; intros [|a [|b [|c [|d r]]]] Hn; cbn in Hn; auto with lia. }
  intros s. by apply (H (String.length s)).
Qed.

Lemma encode_decode_groups s : forall t, decode_groups s = Some t -> StdEncode t = s.
Proof.
  induction s as [|a|a b|a b c|a b c d r IH] using string_ind4; intros t; cbn [decode_groups]; try done.
  { by intros [= <-]. }
  destruct (char_sextet a) as [x|] eqn:Ea; [|done]. destruct (char_sextet b) as [y|] eqn:Eb; [|done].
  cbn [mbind option_bind].
  destruct (char_sextet c) as [z|] eqn:Ec; [destruct (char_sextet d) as [w|] eqn:Ed|];
    [|by apply decode_padded_encode..].
  destruct (decode_groups r) as [t'|]; [|done]. cbn [mbind option_bind]. intros [= <-].
  cbn [StdEncode]. rewrite (IH t' eq_refl). clear IH. known_sextets. rewrite !byte_val_of by by_bytes.
  f_equal; [f_equal; by_bytes|]. f_equal; [f_equal; by_bytes|]. f_equal; [f_equal; by_bytes|].
  f_equal. f_equal. by_bytes.
Qed.

Lemma is_break_sextet z : 0 <= z < 64 -> is_break (sextet_char z) = false.
Proof.
  intros Hz. pose proof (char_sextet_char z Hz) as E. destruct (is_break (sextet_char z)) eqn:P; [|done].
  unfold is_break in P. apply orb_true_iff in P as [P|P]; apply Z.eqb_eq in P;
    rewrite <- (byte_of_val (sextet_char z)), P in E; by vm_compute in E.
Qed.

Lemma strip_StdEncode s : strip_breaks (StdEncode s) = StdEncode s.
Proof.
  induction s as [|a|a b|a b c r IH] using string_ind3; [done| | |]; cbn [StdEncode strip_breaks];
    rewrite ?is_break_sextet by by_bytes; [done..|]. by rewrite IH.
Qed.

(** What is encoded decodes to itself. *)
Lemma StrictDecode_StdEncode s : StrictDecode (StdEncode s) = Some s.
Proof. unfold StrictDecode. rewrite strip_StdEncode. apply decode_groups_encode. Qed.

(** And only its own encoding decodes to a string, line breaks aside. *)
Lemma StrictDecode_canonical e s : StrictDecode e = Some s -> strip_breaks e = StdEncode s.
Proof. intros E. symmetry. by apply encode_decode_groups. Qed.

(** Its characters are all printable. *)
Definition base64_char (a : ascii) : bool := bool_decide (is_Some (char_sextet a)) || is_pad a.

Lemma StdEncode_chars s : forallb base64_char (String.list_ascii_of_string (StdEncode s)) = true.
Proof.
  assert (Hc : forall z, 0 <= z < 64 -> base64_char (sextet_char z) = true)
    by (intros z Hz; unfold base64_char; by rewrite char_sextet_char).
  induction s as [|a|a b|a b c r IH] using string_ind3; [done| | |];
    cbn [StdEncode String.list_ascii_of_string forallb]; rewrite ?Hc by by_bytes; done.
Qed.

Example StrictDecode_samples :
  StdEncode "Man" = "TWFu" /\ StdEncode "Ma" = "TWE=" /\ StdEncode "M" = "TQ==" /\
  StrictDecode "TWFu" = Some "Man" /\ StrictDecode "TQ" = None /\ StrictDecode "TR==" = None /\
  StrictDecode "TQ=x" = None /\ StrictDecode "TQ==TQ==" = None /\ StrictDecode "T-E=" = None /\
  StrictDecode (String (byte_of 10) "TQ==") = Some "M" /\ StrictDecode "" = Some "".
Proof. vm_compute. done. Qed.
