(* ===== verification/GoHttp.v ===== *)
(** * What ocpi uses of [net/http] and [path]: paths, ServeMux, responses

    The mux's patterns are parsed, compared and matched as Go 1.24 does.  Its
    routing tree is kept as the list of registered patterns, of which a step into
    the tree keeps those that go on that way; nothing depends on the order
    they were registered in.  A request is in origin form: its path starts with a
    slash. *)

From S2P Require Import Prelude GoLib GoRegexp GoNet GoBase64.

(** ** [path.Clean] of a rooted path, and the mux's [cleanPath] *)

Definition push_component (acc : list string) (c : string) : list string :=
  if bool_decide (c = "" \/ c = ".") then acc
  else if bool_decide (c = "..") then tail acc
  else c :: acc.

(** The components that are left, in order. *)
Definition clean_components (p : string) : list string :=
  reverse (foldl push_component [] (Split p "/"%char)).

Definition Clean (p : string) : string := String "/"%char (Join "/" (clean_components p)).

Definition ends_with (c : ascii) (s : string) : bool :=
  bool_decide (String.get (pred (String.length s)) s = Some c).

Definition cleanPath (p : string) : string :=
  match p with
  | EmptyString => "/"
  | String a _ =>
    let p := if bool_decide (a = "/"%char) then p else String "/"%char p in
    let np := Clean p in
    if ends_with "/"%char p && negb (bool_decide (np = "/")) then np +:+ "/" else np
  end.

(** [strings.Trim(s, cut)] with a one-byte cutset. *)
Fixpoint drop_front (c : ascii) (s : string) : string :=
  match s with String a r => if bool_decide (a = c) then drop_front c r else s | EmptyString => s end.
Fixpoint drop_back (c : ascii) (s : string) : string :=
  match s with
  | EmptyString => EmptyString
  | String a r =>
    match drop_back c r with
    | EmptyString => if bool_decide (a = c) then EmptyString else String a EmptyString
    | r' => String a r'
    end
  end.
Definition Trim (c : ascii) (s : string) : string := drop_back c (drop_front c s).

(** ** Escapes *)

Definition hex_val (a : ascii) : option Z :=
  let v := byte_val a in
  if is_digit a then Some (v - 48)
  else if between 97 102 a then Some (v - 87)
  else if between 65 70 a then Some (v - 55)
  else None.

Fixpoint percent_decode (s : string) : option string :=
  match s with
  | EmptyString => Some EmptyString
  | String a r =>
    if bool_decide (a = "%"%char) then
      match r with
      | String h (String l r) =>
        x ← hex_val h; y ← hex_val l; t ← percent_decode r; Some (String (byte_of (x * 16 + y)) t)
      | _ => None
      end
    else String a <$> percent_decode r
  end.

(** net/http's own: the text itself when it does not decode. *)
Definition pathUnescape (s : string) : string := default s (percent_decode s).

(** ** Patterns *)

Inductive segment := Lit (s : string) | Wild (name : string) | Multi (name : string).

#[export] Instance segment_eq : EqDecision segment.
Proof. solve_decision. Defined.

Record mux_pattern := mkPattern {
  mp_str : string; mp_method : string; mp_host : string; mp_segments : list segment }.

Definition is_tchar (a : ascii) : bool := is_alnum a || one_of "!#$%&'*+-.^_`|~" a.
Definition validMethod (m : string) : bool := negb (bool_decide (m = "")) && all_in is_tchar m.

(** A Go identifier, in ASCII. *)
Definition isValidWildcardName (s : string) : bool :=
  match s with
  | EmptyString => false
  | String a r => (is_lower a || is_upper a || one_of "_" a) && all_in (fun a => is_alnum a || one_of "_" a) r
  end.

(** [strings.CutSuffix(name, "...")]. *)
Definition cut_dots (s : string) : string * bool :=
  let n := (String.length s - 3)%nat in
  if (3 <=? String.length s)%nat && bool_decide (String.substring n 3 s = "...")
  then (String.substring 0 n s, true) else (s, false).

(** The segment [seg] of a pattern, [last] when nothing follows it, and the
    names used so far; [None] is a parse error. *)
Definition parse_segment (last : bool) (names : list string) (seg : string) : option (segment * list string) :=
  if negb (has_byte "{"%char seg) then Some (Lit (pathUnescape seg), names)
  else match seg with
  | String "{"%char r =>
    if negb (ends_with "}"%char seg) then None
    else
      let name := String.substring 0 (String.length r - 1) r in
      if bool_decide (name = "$") then if last then Some (Lit "/", names) else None
      else
        let '(name, multi) := cut_dots name in
        if multi && negb last then None
        else if negb (isValidWildcardName name) || bool_decide (name ∈ names) then None
        else Some (if multi then Multi name else Wild name, name :: names)
  | _ => None
  end.

(** The segments between slashes; the empty one after a final slash is a
    nameless multi wildcard. *)
Fixpoint parse_segments (names : list string) (segs : list string) : option (list segment) :=
  match segs with
  | [] => Some []
  | [EmptyString] => Some [Multi ""]
  | seg :: segs =>
    '(x, names) ← parse_segment (bool_decide (segs = [])) names seg;
    xs ← parse_segments names segs; Some (x :: xs)
  end.

(** Past the first byte. *)
Definition tail_string (s : string) : string :=
  match s with EmptyString => EmptyString | String _ r => r end.

Definition is_blank_byte (a : ascii) : bool := one_of " " a || (byte_val a =? 9).

Definition drop_blanks (s : string) : string := (span is_blank_byte s).2.

Definition parsePattern (s : string) : option mux_pattern :=
  let '(m, r) := span (fun a => negb (is_blank_byte a)) s in
  let '(method, rest) := if bool_decide (r = "") then ("", s) else (m, drop_blanks r) in
  if negb (bool_decide (method = "")) && negb (validMethod method) then None
  else
    let '(host, rest) := span (fun a => negb (bool_decide (a = "/"%char))) rest in
    if bool_decide (rest = "") || has_byte "{"%char host then None
    else if negb (bool_decide (method = "")) && negb (bool_decide (method = "CONNECT")) &&
            negb (bool_decide (rest = cleanPath rest)) then None
    else mkPattern s method host <$> parse_segments [] (Split (tail_string rest) "/"%char).

(** ** Conflicts *)

Inductive relationship := equivalent | moreGeneral | moreSpecific | disjoint | overlaps.

#[export] Instance relationship_eq : EqDecision relationship.
Proof. solve_decision. Defined.

Definition inverseRelationship (r : relationship) : relationship :=
  match r with moreSpecific => moreGeneral | moreGeneral => moreSpecific | r => r end.

Definition combineRelationships (r1 r2 : relationship) : relationship :=
  match r1 with
  | equivalent => r2
  | disjoint => disjoint
  | overlaps => match r2 with disjoint => disjoint | _ => overlaps end
  | _ => match r2 with
         | equivalent => r1
         | _ => if bool_decide (r2 = inverseRelationship r1) then overlaps else r2
         end
  end.

Definition compareSegments (s1 s2 : segment) : relationship :=
  match s1, s2 with
  | Multi _, Multi _ => equivalent
  | Multi _, _ => moreGeneral
  | _, Multi _ => moreSpecific
  | Wild _, Wild _ => equivalent
  | Wild _, Lit s => if bool_decide (s = "/") then disjoint else moreGeneral
  | Lit s, Wild _ => if bool_decide (s = "/") then disjoint else moreSpecific
  | Lit s, Lit t => if bool_decide (s = t) then equivalent else disjoint
  end.

Definition ends_multi (l : list segment) : bool := match last l with Some (Multi _) => true | _ => false end.

Fixpoint compare_along (rel : relationship) (multi1 multi2 : bool) (l1 l2 : list segment) : relationship :=
  match l1, l2 with
  | [], [] => rel
  | [], _ => if multi1 then combineRelationships rel moreGeneral else disjoint
  | _, [] => if multi2 then combineRelationships rel moreSpecific else disjoint
  | s1 :: l1, s2 :: l2 => compare_along (combineRelationships rel (compareSegments s1 s2)) multi1 multi2 l1 l2
  end.

Definition comparePaths (l1 l2 : list segment) : relationship :=
  if negb (bool_decide (length l1 = length l2)) && negb (ends_multi l1) && negb (ends_multi l2) then disjoint
  else compare_along equivalent (ends_multi l1) (ends_multi l2) l1 l2.

Definition compareMethods (m1 m2 : string) : relationship :=
  if bool_decide (m1 = m2) then equivalent
  else if bool_decide (m1 = "") then moreGeneral
  else if bool_decide (m2 = "") then moreSpecific
  else if bool_decide (m1 = "GET" /\ m2 = "HEAD") then moreGeneral
  else if bool_decide (m2 = "GET" /\ m1 = "HEAD") then moreSpecific
  else disjoint.

Definition conflictsWith (p1 p2 : mux_pattern) : bool :=
  bool_decide (mp_host p1 = mp_host p2) &&
  let rel := combineRelationships (compareMethods (mp_method p1) (mp_method p2))
               (comparePaths (mp_segments p1) (mp_segments p2)) in
  bool_decide (rel = equivalent \/ rel = overlaps).

(** ** The mux *)

Section mux.
Context {A : Type}.

Abbreviation entry := (mux_pattern * A)%type.

(** [registerErr]: [None] where [Handle] panics. *)
Definition Handle (patstr : string) (h : A) (mux : list entry) : option (list entry) :=
  p ← parsePattern patstr;
  if existsb (fun e => conflictsWith p e.1) mux then None else Some (mux ++ [(p, h)]).

(** The routing tree's child a segment leads to: [None] for a multi wildcard. *)
Definition segment_key (s : segment) : option string :=
  match s with Lit s => Some s | Wild _ => Some "" | Multi _ => None end.

(** The patterns that go on through the child [key], past it. *)
Definition step (key : option string) (cands : list (list segment * A)) : list (list segment * A) :=
  omap (fun c : list segment * A => match c.1 with
                  | x :: xs => if bool_decide (segment_key x = key) then Some (xs, c.2) else None
                  | [] => None
                  end) cands.

Definition leaf (cands : list (list segment * A)) : option A :=
  snd <$> first_such (fun c => bool_decide (c.1 = [])) cands.

(** [matchPath]: a literal before a wildcard before a multi wildcard. *)
Fixpoint matchPath (cands : list (list segment * A)) (path : list string) : option A :=
  match path with
  | [] => leaf cands
  | s :: path =>
    match matchPath (step (Some s) cands) path with
    | Some a => Some a
    | None =>
      match (if bool_decide (s = "/") then None else matchPath (step (Some "") cands) path) with
      | Some a => Some a
      | None => leaf (step None cands)
      end
    end
  end.

Definition with_method (host method : string) (mux : list entry) : list (list segment * entry) :=
  (fun e : entry => (mp_segments e.1, e)) <$>
  filter (fun e : entry => mp_host e.1 = host /\ mp_method e.1 = method) mux.
End mux.

(** [firstSegment], until the path is used up. *)
Fixpoint last_slash (l : list string) : list string :=
  match l with
  | [] => []
  | [EmptyString] => ["/"]
  | s :: l => pathUnescape s :: last_slash l
  end.

Definition path_segments (path : string) : list string :=
  match path with EmptyString => [] | String _ r => last_slash (Split r "/"%char) end.

Section find.
Context {A : Type}.
Implicit Types mux : list (mux_pattern * A).

(** [x || y], of lookups. *)
Definition or_else {B} (x y : option B) : option B := match x with Some b => Some b | None => y end.

Definition matchPath_in (host method : string) (path : list string) mux : option (mux_pattern * A) :=
  matchPath (with_method host method mux) path.

Definition matchMethodAndPath (host method : string) (path : list string) mux : option (mux_pattern * A) :=
  or_else (matchPath_in host method path mux)
    (or_else (if bool_decide (method = "HEAD") then matchPath_in host "GET" path mux else None)
       (matchPath_in host "" path mux)).

Definition match_route (host method : string) (path : list string) mux : option (mux_pattern * A) :=
  or_else (if bool_decide (host = "") then None else matchMethodAndPath host method path mux)
    (matchMethodAndPath "" method path mux).

(** The methods that some pattern takes this path with. *)
Definition methods_on (host : string) (path : list string) mux : gset string :=
  list_to_set (filter (fun m => m <> "" /\ is_Some (matchPath_in host m path mux)) ((fun e => mp_method e.1) <$> mux)).

Definition tree_methods (host path : string) mux (ms : gset string) : gset string :=
  let ms := ms ∪ (if bool_decide (host = "") then ∅ else methods_on host (path_segments path) mux) ∪
            methods_on "" (path_segments path) mux in
  if bool_decide ("GET" ∈ ms) then ms ∪ {["HEAD"]} else ms.

Definition matchingMethods (host path : string) mux : gset string :=
  let ms := tree_methods host path mux ∅ in
  if ends_with "/"%char path then ms else tree_methods host (path +:+ "/") mux ms.

(** How many slashes: [strings.Count(path, "/")]. *)
Definition slashes (path : string) : nat := pred (length (Split path "/"%char)).

Definition exactMatch (n : option (mux_pattern * A)) (path : string) : bool :=
  match n with
  | None => false
  | Some (p, _) =>
    if negb (ends_multi (mp_segments p)) then true
    else if negb (ends_with "/"%char path) then false
    else bool_decide (length (mp_segments p) = slashes path)
  end.
End find.
