(* ===== verification/GoHttpServe.v ===== *)
(** * Requests, responses and the mux's handler for a request

    The response writer the HTTP server hands out takes the first status, with
    the headers set by then.  What the mux itself answers (not found, method not
    allowed, a redirect) is a [Reply], which any kind of writer can be given. *)

From S2P Require Import Prelude GoLib GoRegexp GoSort GoNet GoBase64 GoHttp Json.

(** ** Requests *)

(** Headers are kept under their canonical names. *)
Abbreviation Header := (gmap string string).

(** [textproto.CanonicalMIMEHeaderKey]: upper case at the start and after a
    hyphen, lower case elsewhere. *)
Definition to_lower (a : ascii) : ascii := if is_upper a then byte_of (byte_val a + 32) else a.
Definition to_upper (a : ascii) : ascii := if is_lower a then byte_of (byte_val a - 32) else a.
Fixpoint canonical_from (upper : bool) (s : string) : string :=
  match s with
  | EmptyString => EmptyString
  | String a r =>
    String (if upper then to_upper a else to_lower a) (canonical_from (bool_decide (a = "-"%char)) r)
  end.
Definition canonical (s : string) : string := canonical_from true s.

(** [h.Get(k)] and [h.Set(k, v)]. *)
Definition Get (k : string) (h : Header) : string := default EmptyString (h !! canonical k).
Definition Set_ (k v : string) (h : Header) : Header := <[canonical k := v]> h.

#[global] Arguments Get : simpl never.
#[global] Arguments Set_ : simpl never.
#[global] Arguments canonical : simpl never.

(** What the JSON decoder finds in a body: the first value, or its error; and
    then the next token, the end, or an error.  An error may be the body's
    limit. *)
Inductive NextToken := TokEOF | TokMore | TokError (too_big : bool).
Record Body := mkBody { first_value : json + bool; next_token : NextToken }.

Record Request := mkRequest {
  rq_Method : string;
  rq_Host : string;
  rq_Path : string;       (* escaped, starting with a slash *)
  rq_RawQuery : string;
  rq_Header : Header;
  rq_Body : Body
}.

(** ** Responses *)

(** What is written of a body: a JSON text with a newline, or another text. *)
Inductive chunk := CJson (j : json) | CText (s : string).

(** [http.ResponseWriter]; its header is changed in place. *)
Class ResponseWriter (W : Type) := {
  header_of : W -> Header;
  with_header : (Header -> Header) -> W -> W;
  WriteHeader : Z -> W -> W;
  Write : chunk -> W -> W
}.

(** The server's own. *)
Record Writer := mkWriter { w_header : Header; w_sent : option (Z * Header); w_body : list chunk }.

Definition fresh_writer : Writer := mkWriter ∅ None [].

(** Only the first status counts. *)
Definition Writer_WriteHeader (code : Z) (w : Writer) : Writer :=
  match w_sent w with
  | Some _ => w
  | None => mkWriter (w_header w) (Some (code, w_header w)) (w_body w)
  end.

Definition Writer_Write (c : chunk) (w : Writer) : Writer :=
  let w := Writer_WriteHeader 200 w in mkWriter (w_header w) (w_sent w) (w_body w ++ [c]).

#[export] Instance Writer_ResponseWriter : ResponseWriter Writer := {
  header_of := w_header;
  with_header := fun f w => mkWriter (f (w_header w)) (w_sent w) (w_body w);
  WriteHeader := Writer_WriteHeader;
  Write := Writer_Write
}.

(** ** The mux's own answers *)

Record Reply := mkReply { rp_headers : list (string * string); rp_code : Z; rp_body : list chunk }.

Definition StatusText (code : Z) : string :=
  if code =? 200 then "OK"
  else if code =? 301 then "Moved Permanently"
  else if code =? 400 then "Bad Request"
  else if code =? 401 then "Unauthorized"
  else if code =? 404 then "Not Found"
  else if code =? 405 then "Method Not Allowed"
  else if code =? 413 then "Request Entity Too Large"
  else if code =? 500 then "Internal Server Error"
  else if code =? 501 then "Not Implemented"
  else EmptyString.

(** [http.Error]. *)
Definition Error_reply (headers : list (string * string)) (text : string) (code : Z) : Reply :=
  mkReply (headers ++ [("Content-Type", "text/plain; charset=utf-8"); ("X-Content-Type-Options", "nosniff")])
    code [CText (text +:+ newline)].

Definition NotFound_reply : Reply := Error_reply [] "404 page not found" 404.

Definition MethodNotAllowed_reply (methods : list string) : Reply :=
  Error_reply [("Allow", Join ", " methods)] (StatusText 405) 405.

(** A reply, given to a writer. *)
Definition serve_reply {W} `{ResponseWriter W} (rp : Reply) (w : W) : W :=
  foldl (fun w c => Write c w)
    (WriteHeader (rp_code rp) (foldl (fun w kv => with_header (Set_ kv.1 kv.2) w) w (rp_headers rp))) (rp_body rp).

(** Texts of the library that nothing here reads: a redirect's location, from the
    path and the query, its page, and what [Handle] panics with. *)
Class HttpTexts := {
  redirect_location : string -> string -> string;
  redirect_page : string -> string;
  panic_text : list mux_pattern -> string -> string
}.

Definition Redirect_reply `{HttpTexts} (path : string) (r : Request) : Reply :=
  let loc := redirect_location path (rq_RawQuery r) in
  let get := bool_decide (rq_Method r = "GET") in
  mkReply
    (("Location", loc) ::
     (if get || bool_decide (rq_Method r = "HEAD") then [("Content-Type", "text/html; charset=utf-8")] else []))
    301 (if get then [CText (redirect_page loc)] else []).

(** What the mux does with a request: a registered handler, or its own reply;
    with the pattern, empty when none matches. *)
Inductive Routed (A : Type) := Matched (a : A) (pattern : string) | Own (r : Reply) (pattern : string).
Arguments Matched {_} _ _.
Arguments Own {_} _ _.

Definition routed_pattern {A} (x : Routed A) : string := match x with Matched _ p | Own _ p => p end.

Definition stripHostPort (h : string) : string :=
  if has_byte ":"%char h then match SplitHostPort h with Some (host, _) => host | None => h end else h.

Section route.
Context `{HttpTexts} {A : Type}.
Implicit Types mux : list (mux_pattern * A).

(** [matchOrRedirect]: whether to redirect to the path with a slash. *)
Definition slash_redirect (host method path : string) mux : bool :=
  negb (exactMatch (match_route host method (path_segments path) mux) path) && negb (ends_with "/"%char path) &&
  exactMatch (match_route host method (path_segments (path +:+ "/")) mux) (path +:+ "/").

(** No handler: 405 when other methods have one, else 404. *)
Definition unrouted (host path : string) mux : Routed A :=
  let methods := matchingMethods host path mux in
  if bool_decide (methods = ∅) then Own NotFound_reply EmptyString
  else Own (MethodNotAllowed_reply (Strings (elements methods))) EmptyString.

Definition routed_to (n : option (mux_pattern * A)) (host path : string) mux : Routed A :=
  match n with
  | Some (p, h) => Matched h (mp_str p)
  | None => unrouted host path mux
  end.

(** Where it redirects to then: the decoded path, cleaned, with a slash. *)
Definition slashed_path (r : Request) : string := cleanPath (pathUnescape (rq_Path r)) +:+ "/".

(** [mux.Handler(r)]. *)
Definition Mux_Handler mux (r : Request) : Routed A :=
  if bool_decide (rq_Method r = "CONNECT") then
    let path := rq_Path r in
    let slashed := slashed_path r in
    if slash_redirect "" (rq_Method r) path mux then Own (Redirect_reply slashed r) slashed
    else routed_to (match_route (rq_Host r) (rq_Method r) (path_segments path) mux) "" path mux
  else
    let host := stripHostPort (rq_Host r) in
    let path := cleanPath (rq_Path r) in
    let slashed := slashed_path r in
    if slash_redirect host (rq_Method r) path mux then Own (Redirect_reply slashed r) slashed
    else
      let n := match_route host (rq_Method r) (path_segments path) mux in
      if negb (bool_decide (path = rq_Path r)) then
        Own (Redirect_reply path r) (match n with Some (p, _) => mp_str p | None => EmptyString end)
      else routed_to n host path mux.
End route.

