(* ===== verification/GoHttpFacts.v ===== *)
(** * Facts about the mux

    What it finds is registered and goes with the path; the handlers behind the
    patterns do not influence what is found; and a path that is some pattern's
    text is found under it. *)

From S2P Require Import Prelude GoLib GoRegexp GoSort GoNet GoBase64 GoHttp Json GoHttpServe.

(** ** What is found is registered *)

Section found.
Context {A : Type}.
Implicit Types cands : list (list segment * A).

Lemma elem_of_step key cands xs a :
  (xs, a) ∈ step key cands <-> exists x, segment_key x = key /\ (x :: xs, a) ∈ cands.
Proof.
  unfold step. rewrite list_elem_of_omap. split.
  - intros ([segs a'] & Hin & E). cbn in E. destruct segs as [|x segs]; [done|].
    case_bool_decide as Hk; [|done]. injection E as -> ->. by exists x.
  - intros (x & Hk & Hin). exists (x :: xs, a). split; [done|]. cbn. by rewrite bool_decide_eq_true_2.
Qed.

Lemma leaf_Some cands a : leaf cands = Some a -> ([], a) ∈ cands.
Proof.
  unfold leaf. intros ([segs a'] & Hf & ->)%fmap_Some. apply first_such_Some in Hf as [Hin E].
  cbn in E |- *. apply bool_decide_eq_true in E. by subst.
Qed.

Lemma matchPath_elem path : forall cands a, matchPath cands path = Some a -> exists segs, (segs, a) ∈ cands.
Proof.
  assert (Hstep : forall key cands segs a, (segs, a) ∈ step key cands -> exists segs', (segs', a) ∈ cands)
    by (intros key cands segs a (x & _ & Hin)%elem_of_step; by eexists).
  induction path as [|s path IH]; intros cands a; cbn [matchPath].
  { intros Hl%leaf_Some. by eexists. }
  destruct (matchPath (step (Some s) cands) path) as [b|] eqn:E1.
  { intros [= <-]. destruct (IH _ _ E1) as [segs Hin]. by eapply Hstep. }
  destruct (if bool_decide (s = "/") then None else _) as [b|] eqn:E2.
  { intros [= <-]. case_bool_decide; [done|]. destruct (IH _ _ E2) as [segs Hin]. by eapply Hstep. }
  intros Hl%leaf_Some. by eapply Hstep.
Qed.

End found.

Section found_in_mux.
Context {A : Type}.
Implicit Types mux : list (mux_pattern * A).

Lemma matchPath_in_elem host method path mux e :
  matchPath_in host method path mux = Some e -> e ∈ mux /\ mp_host e.1 = host /\ mp_method e.1 = method.
Proof.
  unfold matchPath_in, with_method. intros (segs & Hin)%matchPath_elem.
  apply list_elem_of_fmap in Hin as (e' & [= _ ->] & Hf). apply list_elem_of_filter in Hf. tauto.
Qed.

Lemma or_else_Some {B} (x y : option B) b : or_else x y = Some b -> x = Some b \/ y = Some b.
Proof. destruct x; cbn; auto. Qed.

Lemma match_route_elem host method path mux e : match_route host method path mux = Some e -> e ∈ mux.
Proof.
  assert (Hm : forall h, matchMethodAndPath h method path mux = Some e -> e ∈ mux).
  { unfold matchMethodAndPath. intros h [E|[E|E]%or_else_Some]%or_else_Some.
    - by apply matchPath_in_elem in E as [? _].
    - case_bool_decide; [|done]. by apply matchPath_in_elem in E as [? _].
    - by apply matchPath_in_elem in E as [? _]. }
  unfold match_route. intros [E|E]%or_else_Some; [|by eapply Hm].
  case_bool_decide; [done|by eapply Hm].
Qed.
End found_in_mux.

(** ** The handlers do not matter *)

Definition rename {A B} (f : A -> B) (mux : list (mux_pattern * A)) : list (mux_pattern * B) :=
  (fun e => (e.1, f e.2)) <$> mux.

Definition map_routed {A B} (f : A -> B) (x : Routed A) : Routed B :=
  match x with Matched a p => Matched (f a) p | Own r p => Own r p end.

Section rename.
Context {A B : Type} (f : A -> B).

Lemma step_map {C D} (g : C -> D) key (cands : list (list segment * C)) :
  step key ((fun c => (c.1, g c.2)) <$> cands) = (fun c => (c.1, g c.2)) <$> step key cands.
Proof.
  unfold step. induction cands as [|[segs c] cands IH]; [done|]. cbn. destruct segs as [|x segs]; [done|].
  case_bool_decide; [|done]. cbn. by f_equal.
Qed.

Lemma leaf_map {C D} (g : C -> D) (cands : list (list segment * C)) :
  leaf ((fun c => (c.1, g c.2)) <$> cands) = g <$> leaf cands.
Proof.
  unfold leaf. induction cands as [|[segs c] cands IH]; [done|]. cbn [fmap list_fmap fst snd].
  rewrite !first_such_cons. cbn [fst snd]. by case_bool_decide.
Qed.

Lemma matchPath_map {C D} (g : C -> D) path : forall cands : list (list segment * C),
  matchPath ((fun c => (c.1, g c.2)) <$> cands) path = g <$> matchPath cands path.
Proof.
  induction path as [|s path IH]; intros cands; cbn [matchPath]; [apply leaf_map|].
  rewrite !step_map, !IH, leaf_map. destruct (matchPath (step (Some s) cands) path); [done|]. cbn.
  case_bool_decide; [done|]. by destruct (matchPath (step (Some "") cands) path).
Qed.

Lemma matchPath_in_rename host method path (mux : list (mux_pattern * A)) :
  matchPath_in host method path (rename f mux) = (fun e => (e.1, f e.2)) <$> matchPath_in host method path mux.
Proof.
  unfold matchPath_in. rewrite <- (matchPath_map (fun e => (e.1, f e.2))). f_equal. unfold with_method, rename.
  induction mux as [|[p a] mux IH]; [done|]. cbn [fmap list_fmap fst snd]. rewrite !filter_cons. cbn [fst snd].
  case_decide; [|done]. cbn [fmap list_fmap fst snd]. by f_equal.
Qed.

Lemma match_route_rename host method path (mux : list (mux_pattern * A)) :
  match_route host method path (rename f mux) = (fun e => (e.1, f e.2)) <$> match_route host method path mux.
Proof.
  assert (Ho : forall x y : option (mux_pattern * A),
    or_else ((fun e => (e.1, f e.2)) <$> x) ((fun e => (e.1, f e.2)) <$> y) = (fun e => (e.1, f e.2)) <$> or_else x y)
    by (by intros [] ?).
  assert (Hm : forall h, matchMethodAndPath h method path (rename f mux) =
                         (fun e => (e.1, f e.2)) <$> matchMethodAndPath h method path mux).
  { intros h. unfold matchMethodAndPath. rewrite !matchPath_in_rename, <- !Ho. f_equal. f_equal. by case_bool_decide. }
  unfold match_route. rewrite !Hm, <- Ho. f_equal. by case_bool_decide.
Qed.

Lemma methods_on_rename host path (mux : list (mux_pattern * A)) :
  methods_on host path (rename f mux) = methods_on host path mux.
Proof.
  assert (E : (fun e => mp_method e.1) <$> rename f mux = (fun e => mp_method e.1) <$> mux)
    by (unfold rename; by rewrite <- list_fmap_compose).
  unfold methods_on. rewrite E. f_equal. apply list_filter_iff. intros m. rewrite matchPath_in_rename, fmap_is_Some. done.
Qed.

Lemma matchingMethods_rename host path (mux : list (mux_pattern * A)) :
  matchingMethods host path (rename f mux) = matchingMethods host path mux.
Proof.
  assert (Ht : forall p ms, tree_methods host p (rename f mux) ms = tree_methods host p mux ms)
    by (intros p ms; unfold tree_methods; by rewrite !methods_on_rename).
  unfold matchingMethods. by rewrite !Ht.
Qed.

Lemma exactMatch_rename host method segs path (mux : list (mux_pattern * A)) :
  exactMatch (match_route host method segs (rename f mux)) path = exactMatch (match_route host method segs mux) path.
Proof. rewrite match_route_rename. by destruct (match_route host method segs mux) as [[p a]|]. Qed.

Lemma Mux_Handler_rename `{HttpTexts} (mux : list (mux_pattern * A)) r :
  Mux_Handler (rename f mux) r = map_routed f (Mux_Handler mux r).
Proof.
  assert (Hu : forall host path, unrouted host path (rename f mux) = map_routed f (unrouted host path mux))
    by (intros; unfold unrouted; rewrite matchingMethods_rename; by case_bool_decide).
  assert (Hr : forall h m p host path, routed_to (match_route h m p (rename f mux)) host path (rename f mux) =
      map_routed f (routed_to (match_route h m p mux) host path mux))
    by (intros h m p host path; unfold routed_to; rewrite match_route_rename, Hu;
        by destruct (match_route h m p mux) as [[]|]).
  unfold Mux_Handler, slash_redirect. rewrite !exactMatch_rename. case_bool_decide.
  - rewrite Hr. by destruct (_ && _).
  - rewrite Hr, match_route_rename. destruct (_ && _); [done|]. destruct (negb _); [|done].
    by destruct (match_route _ _ _ mux) as [[]|].
Qed.
End rename.

(** ** Conflicts *)

Lemma compareSegments_refl s : compareSegments s s = equivalent.
Proof. destruct s; cbn; [by rewrite bool_decide_eq_true_2|done..]. Qed.

Lemma comparePaths_refl l : comparePaths l l = equivalent.
Proof.
  unfold comparePaths. rewrite bool_decide_eq_true_2 by done. cbn [negb andb].
  generalize (ends_multi l). intros b. induction l as [|s l IH]; [done|]. cbn. by rewrite compareSegments_refl.
Qed.

(** Two patterns that are the same but for their text conflict. *)
Definition route_key (p : mux_pattern) : string * string * list segment :=
  (mp_method p, mp_host p, mp_segments p).

Lemma same_key_conflicts p1 p2 : route_key p1 = route_key p2 -> conflictsWith p1 p2 = true.
Proof.
  unfold route_key. intros [= Hm Hh Hs]. unfold conflictsWith. rewrite Hm, Hh, Hs, comparePaths_refl.
  unfold compareMethods. rewrite (bool_decide_eq_true_2 (mp_host p2 = mp_host p2)) by done.
  rewrite (bool_decide_eq_true_2 (mp_method p2 = mp_method p2)) by done. done.
Qed.

Section table.
Context {A : Type}.
Implicit Types mux : list (mux_pattern * A).

(** What registration keeps: no two patterns say the same. *)
Definition distinct_routes mux : Prop := NoDup ((fun e => route_key e.1) <$> mux).

Lemma Handle_Some patstr h mux mux' :
  Handle patstr h mux = Some mux' -> exists p, parsePattern patstr = Some p /\ mux' = mux ++ [(p, h)] /\
    (distinct_routes mux -> distinct_routes mux').
Proof.
  unfold Handle. destruct (parsePattern patstr) as [p|]; [|done]. cbn [mbind option_bind].
  destruct (existsb _ mux) eqn:E; [done|]. intros [= <-]. exists p. split_and!; [done..|].
  unfold distinct_routes. intros Hd. rewrite fmap_app, NoDup_app. split_and!; [done| |apply NoDup_singleton].
  intros k Hk Hk'. apply list_elem_of_singleton in Hk'. subst k.
  apply list_elem_of_fmap in Hk as (e & Hk & Hin).
  assert (existsb (fun e => conflictsWith p e.1) mux = true); [|congruence].
  apply existsb_exists. exists e. split; [by apply list_elem_of_In|]. by apply same_key_conflicts.
Qed.

Lemma distinct_routes_eq mux p h p' h' :
  distinct_routes mux -> (p, h) ∈ mux -> (p', h') ∈ mux -> route_key p = route_key p' -> (p, h) = (p', h').
Proof.
  unfold distinct_routes. intros Hd [i Hi]%list_elem_of_lookup [j Hj]%list_elem_of_lookup Hk.
  assert (i = j).
  { eapply NoDup_lookup; [exact Hd|rewrite list_lookup_fmap, Hi; done|].
    rewrite list_lookup_fmap, Hj. cbn. by rewrite Hk. }
  subst. congruence.
Qed.
End table.

(** ** A path that is a pattern's own *)

Lemma elem_of_leaf {A} (cands : list (list segment * A)) a :
  ([], a) ∈ cands -> exists a', leaf cands = Some a' /\ ([], a') ∈ cands.
Proof.
  intros Hin. destruct (first_such_is_Some (fun c : list segment * A => bool_decide (c.1 = [])) cands ([], a))
    as [c Hc]; [done|by rewrite bool_decide_eq_true_2|].
  exists c.2. assert (leaf cands = Some c.2) as E by (unfold leaf; by rewrite Hc). split; [done|].
  by apply leaf_Some.
Qed.

(** A literal is preferred at every step, so a literal pattern is found by its
    own path. *)
Lemma matchPath_literal {A} ss : forall (cands : list (list segment * A)) a,
  (Lit <$> ss, a) ∈ cands -> Forall (fun s => s <> EmptyString) ss ->
  exists a', matchPath cands ss = Some a' /\ (Lit <$> ss, a') ∈ cands.
Proof.
  induction ss as [|s ss IH]; intros cands a Hin Hne; [by eapply elem_of_leaf|].
  apply Forall_cons in Hne as [Hs Hne].
  destruct (IH (step (Some s) cands) a) as (a' & Hm & Ha'); [|done|].
  { apply elem_of_step. by exists (Lit s). }
  exists a'. cbn [matchPath]. rewrite Hm. split; [done|].
  apply elem_of_step in Ha' as (x & Hk & Hx). destruct x; by simplify_eq/=.
Qed.

(** Every pattern is for any host. *)
Definition hostless {A} (mux : list (mux_pattern * A)) : Prop := Forall (fun e => mp_host e.1 = EmptyString) mux.

Lemma match_route_literal {A} (mux : list (mux_pattern * A)) host m ss p h :
  distinct_routes mux -> hostless mux -> (p, h) ∈ mux ->
  route_key p = (m, EmptyString, Lit <$> ss) -> Forall (fun s => s <> EmptyString) ss -> m <> "" ->
  match_route host m ss mux = Some (p, h).
Proof.
  intros Hd Hh Hin Hk Hne Hm0. pose proof Hk as Hk'. unfold route_key in Hk. injection Hk as Hm Hp Hs.
  assert (Hfind : matchPath_in "" m ss mux = Some (p, h)).
  { unfold matchPath_in, with_method. destruct (matchPath_literal ss
      ((fun e : mux_pattern * A => (mp_segments e.1, e)) <$>
       filter (fun e : mux_pattern * A => mp_host e.1 = "" /\ mp_method e.1 = m) mux) (p, h))
      as ([p' h'] & -> & Hin'); [|done|].
    { apply list_elem_of_fmap. exists (p, h). split; [cbn; by rewrite Hs|]. apply list_elem_of_filter. done. }
    apply list_elem_of_fmap in Hin' as (e & [= Hs' <-] & Hf). apply list_elem_of_filter in Hf as ([He1 He2] & Hin').
    f_equal. eapply distinct_routes_eq; [exact Hd|done..|]. rewrite Hk'. unfold route_key. cbn in *. congruence. }
  assert (Hnone : forall m', host <> "" -> matchPath_in host m' ss mux = None).
  { intros m' Hhost. destruct (matchPath_in host m' ss mux) as [e|] eqn:E; [|done].
    apply matchPath_in_elem in E as (Hin' & He & _). unfold hostless in Hh. rewrite Forall_forall in Hh.
    apply Hh in Hin'. congruence. }
  unfold match_route, matchMethodAndPath. rewrite Hfind. cbn [or_else].
  case_bool_decide as Hhost; [done|]. rewrite !Hnone by done. cbn [or_else].
  by destruct (bool_decide (m = "HEAD")).
Qed.
