(* ===== verification/GoPath.v ===== *)
(** * Clean paths and the patterns they are

    Facts about splitting at slashes: a clean path is its components, none of
    them empty, and the pattern of a method and a clean path without braces takes
    exactly that path, and its twin with a slash the path with a slash. *)

From S2P Require Import Prelude GoLib GoRegexp GoNet GoBase64 GoHttp Json GoHttpServe GoHttpFacts.

(** ** Splitting and joining *)

Lemma append_empty s : EmptyString +:+ s = s.
Proof. done. Qed.

Lemma append_nonempty s t : t <> EmptyString -> s +:+ t <> EmptyString.
Proof. destruct s; [done|]. by rewrite append_cons. Qed.

Lemma Split_nonempty s sep : Split s sep <> [].
Proof. destruct s; cbn; [done|]. case_bool_decide; [done|]. by destruct (Split s sep). Qed.

Lemma Split_app s t sep : Split (s +:+ String sep t) sep = Split s sep ++ Split t sep.
Proof.
  induction s as [|a s IH]; cbn [Split].
  - rewrite append_empty. cbn [Split]. by rewrite bool_decide_eq_true_2.
  - rewrite append_cons. cbn [Split]. rewrite IH. case_bool_decide; [done|].
    destruct (Split s sep) eqn:E; [by destruct (Split_nonempty s sep)|done].
Qed.

Lemma Split_no_sep s sep : Forall (fun w => has_byte sep w = false) (Split s sep).
Proof.
  induction s as [|a s IH]; cbn [Split]; [by repeat constructor|].
  case_bool_decide; [by constructor|]. destruct (Split s sep) as [|w ws].
  - repeat constructor. cbn. by rewrite bool_decide_eq_false_2.
  - apply Forall_cons in IH as [Hw Hws]. constructor; [|done]. cbn. by rewrite bool_decide_eq_false_2.
Qed.

Lemma Split_word w sep : has_byte sep w = false -> Split w sep = [w].
Proof.
  induction w as [|a w IH]; [done|]. cbn. intros [Ha Hw]%orb_false_iff.
  apply bool_decide_eq_false in Ha. rewrite bool_decide_eq_false_2 by done. by rewrite IH.
Qed.

Lemma Split_Join l : l <> [] -> Forall (fun w => has_byte "/"%char w = false) l -> Split (Join "/" l) "/"%char = l.
Proof.
  induction l as [|w l IH]; [done|]. intros _ [Hw Hl]%Forall_cons. destruct l as [|w' l].
  - by apply Split_word.
  - change (Join "/" (w :: w' :: l)) with (w +:+ String "/"%char (EmptyString +:+ Join "/" (w' :: l))).
    rewrite append_empty, Split_app, (Split_word w) by done. by rewrite IH.
Qed.

(** ** Clean paths *)

Definition plain (c : string) : Prop := c <> EmptyString /\ has_byte "/"%char c = false.

Lemma clean_components_plain p : Forall plain (clean_components p).
Proof.
  unfold clean_components. apply Forall_reverse.
  assert (H : forall l acc, Forall (fun w => has_byte "/"%char w = false) l -> Forall plain acc ->
                            Forall plain (foldl push_component acc l)).
  { induction l as [|c l IH]; intros acc Hl Ha; [done|]. apply Forall_cons in Hl as [Hc Hl]. cbn. apply IH; [done|].
    unfold push_component. case_bool_decide as H1; [done|]. case_bool_decide; [by apply Forall_tail|].
    constructor; [|done]. split; [naive_solver|done]. }
  apply H; [apply Split_no_sep|by constructor].
Qed.

(** A rooted path that is its own cleaning, and more than the root. *)
Definition clean_path (p : string) : Prop := Clean p = p /\ p <> "/".

Lemma clean_path_split p : clean_path p -> exists r, p = String "/"%char r /\ r <> EmptyString /\
  Split r "/"%char = clean_components p.
Proof.
  intros [Hc Hr]. unfold Clean in Hc. exists (Join "/" (clean_components p)).
  assert (Hj : Join "/" (clean_components p) <> EmptyString) by (intros E; rewrite E in Hc; by rewrite <- Hc in Hr).
  split_and!; [done|done|]. apply Split_Join.
  - intros E. by rewrite E in Hj.
  - eapply Forall_impl; [apply clean_components_plain|]. by intros c [_ ?].
Qed.

(** A component that cleaning keeps. *)
Definition kept (c : string) : Prop := plain c /\ c <> "." /\ c <> "..".

Lemma clean_components_kept p : Forall kept (clean_components p).
Proof.
  unfold clean_components. apply Forall_reverse.
  assert (H : forall l acc, Forall (fun w => has_byte "/"%char w = false) l -> Forall kept acc ->
                            Forall kept (foldl push_component acc l)).
  { induction l as [|c l IH]; intros acc Hl Ha; [done|]. apply Forall_cons in Hl as [Hc Hl]. cbn. apply IH; [done|].
    unfold push_component. case_bool_decide as H1; [done|]. case_bool_decide; [by apply Forall_tail|].
    constructor; [|done]. split; [split; [naive_solver|done]|naive_solver]. }
  apply H; [apply Split_no_sep|by constructor].
Qed.

Lemma push_kept l : forall acc, Forall kept l -> foldl push_component acc l = reverse l ++ acc.
Proof.
  induction l as [|c l IH]; intros acc; [done|]. intros [((Hc & _) & Hd & Hdd) Hl]%Forall_cons. cbn [foldl].
  rewrite reverse_cons, <- app_assoc. unfold push_component.
  rewrite (bool_decide_eq_false_2 (c = "" \/ c = ".")) by naive_solver.
  rewrite (bool_decide_eq_false_2 (c = "..")) by done. by apply IH.
Qed.

(** The path of such components is clean, and made of them. *)
Lemma clean_components_join l : Forall kept l -> clean_components (String "/"%char (Join "/" l)) = l.
Proof.
  intros Hl. unfold clean_components. cbn [Split]. rewrite bool_decide_eq_true_2 by done.
  destruct l as [|c l]; [done|]. rewrite Split_Join; [|done|].
  - change (foldl push_component [] (EmptyString :: c :: l)) with (foldl push_component [] (c :: l)).
    rewrite push_kept by done. by rewrite app_nil_r, reverse_involutive.
  - eapply Forall_impl; [exact Hl|]. by intros x ((_ & ?) & _).
Qed.

Lemma clean_path_join l : l <> [] -> Forall kept l -> clean_path (String "/"%char (Join "/" l)).
Proof.
  intros Hn Hl. split.
  - unfold Clean. by rewrite clean_components_join.
  - destruct l as [|c l]; [done|]. apply Forall_cons in Hl as [((Hc & _) & _) _].
    intros [= E]. destruct l; cbn in E; [done|]. by destruct c.
Qed.

Lemma Clean_clean p : Clean p <> "/" -> clean_path (Clean p).
Proof.
  intros Hp. unfold Clean in *. apply clean_path_join; [|apply clean_components_kept].
  intros E. by rewrite E in Hp.
Qed.

Lemma Join_snoc l c : l <> [] -> Join "/" (l ++ [c]) = Join "/" l +:+ String "/"%char c.
Proof.
  induction l as [|x l IH]; [done|]. intros _. destruct l as [|y l]; [done|].
  change (Join "/" ((x :: y :: l) ++ [c])) with (x +:+ "/" +:+ Join "/" ((y :: l) ++ [c])).
  rewrite IH by done. change (Join "/" (x :: y :: l)) with (x +:+ "/" +:+ Join "/" (y :: l)).
  by rewrite !append_assoc.
Qed.

(** Going down by one component. *)
Lemma clean_path_push p c : p = EmptyString \/ clean_path p -> kept c -> clean_path (p +:+ String "/"%char c).
Proof.
  intros [->|Hp] Hc.
  - rewrite append_empty. apply (clean_path_join [c]); [done|by apply Forall_singleton].
  - destruct Hp as [Hp Hr]. rewrite <- Hp. unfold Clean. rewrite append_cons, <- Join_snoc.
    + apply clean_path_join; [by destruct (clean_components p)|]. apply Forall_app. split; [apply clean_components_kept|by apply Forall_singleton].
    + intros E. unfold Clean in Hp. rewrite E in Hp. by rewrite <- Hp in Hr.
Qed.

(** ** The last byte *)

Lemma ends_with_cons c a s : s <> EmptyString -> ends_with c (String a s) = ends_with c s.
Proof. unfold ends_with. destruct s; [done|]. intros _. cbn [String.length pred]. done. Qed.

Lemma ends_with_app c s t : t <> EmptyString -> ends_with c (s +:+ t) = ends_with c t.
Proof.
  intros Ht. induction s as [|a s IH]; [done|]. rewrite append_cons, ends_with_cons; [done|].
  destruct s; [done|]. by rewrite append_cons.
Qed.

Lemma ends_with_true c s : ends_with c s = true -> exists s', s = s' +:+ String c EmptyString.
Proof.
  induction s as [|a s IH]; [by unfold ends_with; cbn; intros ?%bool_decide_eq_true|].
  destruct s as [|b s].
  - unfold ends_with. cbn. intros [= ->]%bool_decide_eq_true. by exists EmptyString.
  - rewrite ends_with_cons by done. intros [s' ->]%IH. exists (String a s'). by rewrite append_cons.
Qed.

Lemma ends_with_drop_back c s : ends_with c (drop_back c s) = false.
Proof.
  induction s as [|a s IH]; [done|]. cbn [drop_back]. destruct (drop_back c s) as [|b r] eqn:E.
  - case_bool_decide; [done|]. unfold ends_with. cbn. apply bool_decide_eq_false. by intros [= ->].
  - by rewrite ends_with_cons.
Qed.

Lemma clean_path_last p : clean_path p -> ends_with "/"%char p = false.
Proof.
  intros (r & -> & Hr & Hs)%clean_path_split. rewrite ends_with_cons by done.
  destruct (ends_with "/"%char r) eqn:E; [|done]. apply ends_with_true in E as [s' ->].
  rewrite Split_app in Hs. pose proof (clean_components_plain (String "/"%char (s' +:+ "/"))) as Hp.
  rewrite <- Hs, Forall_app in Hp. destruct Hp as [_ Hp]. cbn in Hp. apply Forall_cons in Hp as [[[] _] _]. done.
Qed.

Lemma cleanPath_clean p : clean_path p -> cleanPath p = p.
Proof.
  intros Hc. pose proof (clean_path_last p Hc) as Hl. destruct (clean_path_split p Hc) as (r & -> & _).
  destruct Hc as [Hc _]. unfold cleanPath. rewrite bool_decide_eq_true_2 by done. by rewrite Hl.
Qed.

Lemma cleanPath_slash p : clean_path p -> cleanPath (p +:+ "/") = p +:+ "/".
Proof.
  intros Hc. destruct (clean_path_split p Hc) as (r & Hp & _). destruct Hc as [Hc Hr].
  assert (Hcs : Clean (p +:+ "/") = p).
  { rewrite <- Hc at 2. unfold Clean, clean_components. change "/" with (String "/"%char EmptyString).
    rewrite Split_app, foldl_app. done. }
  rewrite Hp at 1. rewrite append_cons. unfold cleanPath. rewrite bool_decide_eq_true_2 by done.
  rewrite <- append_cons, <- Hp, Hcs, ends_with_app by done. by rewrite bool_decide_eq_false_2.
Qed.

(** A path the mux takes as clean, not ending in a slash. *)
Lemma clean_path_intro r : cleanPath (String "/"%char r) = String "/"%char r ->
  ends_with "/"%char (String "/"%char r) = false -> clean_path (String "/"%char r).
Proof.
  unfold cleanPath. rewrite bool_decide_eq_true_2 by done. intros Hc He. rewrite He in Hc. cbn [andb] in Hc.
  split; [done|]. intros E. by rewrite E in He.
Qed.

(** ** The segments of a request's path *)

Lemma last_slash_plain l : Forall plain l -> last_slash l = pathUnescape <$> l.
Proof.
  induction l as [|c l IH]; [done|]. intros [[Hc _] Hl]%Forall_cons. cbn [last_slash fmap list_fmap].
  rewrite IH by done. destruct c; [done|]. done.
Qed.

Lemma last_slash_snoc l : Forall plain l -> last_slash (l ++ [EmptyString]) = (pathUnescape <$> l) ++ ["/"].
Proof.
  induction l as [|c l IH]; [done|]. intros [[Hc _] Hl]%Forall_cons. cbn [app last_slash fmap list_fmap].
  rewrite IH by done. destruct c; [done|]. done.
Qed.

Lemma path_segments_clean p : clean_path p -> path_segments p = pathUnescape <$> clean_components p.
Proof.
  intros Hc. destruct (clean_path_split p Hc) as (r & Hp & _ & Hs). rewrite Hp at 1. cbn [path_segments].
  rewrite Hs. apply last_slash_plain, clean_components_plain.
Qed.

Lemma path_segments_slash p : clean_path p ->
  path_segments (p +:+ "/") = (pathUnescape <$> clean_components p) ++ ["/"].
Proof.
  intros Hc. destruct (clean_path_split p Hc) as (r & Hp & _ & Hs). rewrite Hp at 1. rewrite append_cons.
  cbn [path_segments]. change "/" with (String "/"%char EmptyString) at 1. rewrite Split_app, Hs.
  apply last_slash_snoc, clean_components_plain.
Qed.

(** ** The pattern of a method and a clean path *)

Lemma span_app p w a t : all_in p w = true -> p a = false -> span p (w +:+ String a t) = (w, String a t).
Proof.
  induction w as [|b w IH]; intros Hw Ha.
  - rewrite append_empty. cbn. by rewrite Ha.
  - apply andb_prop in Hw as [Hb Hw]. rewrite append_cons. cbn [span]. rewrite Hb, IH by done. done.
Qed.

Lemma all_in_impl (p q : ascii -> bool) w : (forall a, p a = true -> q a = true) -> all_in p w = true -> all_in q w = true.
Proof.
  intros Hpq. induction w as [|a w IH]; [done|]. cbn. intros [Ha Hw]%andb_prop. by rewrite (Hpq a Ha), IH.
Qed.

Lemma tchar_not_blank a : is_tchar a = true -> negb (is_blank_byte a) = true.
Proof.
  revert a. assert (H : forall a, implb (is_tchar a) (negb (is_blank_byte a)) = true).
  { refine (every_char _ _). apply (bool_decide_unpack _). vm_compute. done. }
  intros a Ha. specialize (H a). by rewrite Ha in H.
Qed.

Lemma Forall_Split_no_byte b s sep : has_byte b s = false -> Forall (fun w => has_byte b w = false) (Split s sep).
Proof.
  induction s as [|a s IH]; [by repeat constructor|]. cbn [has_byte Split]. intros [Ha Hs]%orb_false_iff.
  specialize (IH Hs). destruct (bool_decide (a = sep)); [by constructor|]. destruct (Split s sep) as [|w ws].
  - constructor; [|by constructor]. cbn [has_byte]. by rewrite Ha.
  - apply Forall_cons in IH as [Hw Hws]. constructor; [|done]. cbn [has_byte]. by rewrite Ha, Hw.
Qed.

(** Components without braces are literal. *)
Definition no_brace (c : string) : Prop := has_byte "{"%char c = false.

Lemma parse_segments_plain l names tail xs :
  Forall plain l -> Forall no_brace l -> parse_segments names tail = Some xs ->
  parse_segments names (l ++ tail) = Some ((Lit <$> (pathUnescape <$> l)) ++ xs).
Proof.
  intros Hl Hb Ht. induction l as [|c l IH]; [done|].
  apply Forall_cons in Hl as [[Hc _] Hl]. apply Forall_cons in Hb as [Hcb Hb].
  specialize (IH Hl Hb). cbn [app parse_segments].
  assert (E : parse_segment (bool_decide (l ++ tail = [])) names c = Some (Lit (pathUnescape c), names))
    by (unfold parse_segment; by rewrite Hcb).
  destruct c; [done|]. rewrite E. cbn [mbind option_bind]. by rewrite IH.
Qed.

(** What [handle] registers. *)
Definition route_text (method path : string) : string := method +:+ " " +:+ path.

Lemma parsePattern_route_eq m r : validMethod m = true ->
  parsePattern (route_text m (String "/"%char r)) =
    if negb (bool_decide (m = "CONNECT")) && negb (bool_decide (String "/"%char r = cleanPath (String "/"%char r)))
    then None
    else mkPattern (route_text m (String "/"%char r)) m EmptyString <$> parse_segments [] (Split r "/"%char).
Proof.
  intros Hv. pose proof Hv as [Hm Ht]%andb_prop. apply negb_true_iff, bool_decide_eq_false in Hm.
  unfold parsePattern, route_text. change (" " +:+ String "/"%char r) with (String " "%char (String "/"%char r)).
  rewrite span_app; [|by apply (all_in_impl is_tchar); [apply tchar_not_blank|]|done].
  rewrite bool_decide_eq_false_2 by done. change (drop_blanks (String " "%char (String "/"%char r))) with (String "/"%char r).
  rewrite (bool_decide_eq_false_2 (m = "")) by done. rewrite Hv. cbn [negb andb].
  change (span (fun a => negb (bool_decide (a = "/"%char))) (String "/"%char r)) with (EmptyString, String "/"%char r).
  cbv iota beta. rewrite (bool_decide_eq_false_2 (String "/"%char r = "")) by done. done.
Qed.

Lemma parsePattern_route m r pat :
  validMethod m = true -> parsePattern (route_text m (String "/"%char r)) = Some pat ->
  (m <> "CONNECT" -> cleanPath (String "/"%char r) = String "/"%char r) /\
  exists segs, parse_segments [] (Split r "/"%char) = Some segs /\
    pat = mkPattern (route_text m (String "/"%char r)) m EmptyString segs.
Proof.
  intros Hm. rewrite parsePattern_route_eq by done.
  destruct (negb (bool_decide (m = "CONNECT")) && negb (bool_decide _)) eqn:E; [done|].
  intros (segs & Hs & ->)%fmap_Some. split; [|by exists segs]. intros HC.
  rewrite bool_decide_eq_false_2 in E by done. cbn in E. apply negb_false_iff, bool_decide_eq_true in E. done.
Qed.

Lemma parse_clean_components p : clean_path p -> no_brace p -> forall tail xs,
  parse_segments [] tail = Some xs ->
  parse_segments [] (clean_components p ++ tail) = Some ((Lit <$> (pathUnescape <$> clean_components p)) ++ xs).
Proof.
  intros Hc Hb tail xs Ht. apply parse_segments_plain; [apply clean_components_plain| |done].
  destruct (clean_path_split p Hc) as (r & -> & _ & <-). apply Forall_Split_no_byte.
  unfold no_brace in Hb. cbn in Hb. done.
Qed.

(** The key of a pattern for exactly these segments. *)
Definition literal_key (m : string) (segs : list string) : string * string * list segment :=
  (m, EmptyString, Lit <$> segs).

(** The pattern of a clean path without braces, and its twin with a slash. *)
Lemma literal_route m p : validMethod m = true -> clean_path p -> no_brace p ->
  exists pat, parsePattern (route_text m p) = Some pat /\ route_key pat = literal_key m (path_segments p).
Proof.
  intros Hm Hc Hb. pose proof (parse_clean_components p Hc Hb [] [] eq_refl) as Hs.
  rewrite path_segments_clean by done. pose proof (cleanPath_clean p Hc) as Hcl.
  destruct (clean_path_split p Hc) as (r & Hp & _ & Hr). rewrite !app_nil_r in Hs.
  pose proof (parsePattern_route_eq m r Hm) as E. rewrite <- Hp, Hcl, Hr, Hs in E.
  rewrite (bool_decide_eq_true_2 (p = p)), andb_false_r in E by done. rewrite E. by eexists.
Qed.

Lemma Clean_append p c : clean_path p -> kept c -> Clean (p +:+ String "/"%char c) = p +:+ String "/"%char c.
Proof. intros Hp Hc. apply clean_path_push; auto. Qed.

Lemma slash_route m p : validMethod m = true -> clean_path p -> no_brace p ->
  exists pat, parsePattern (route_text m (p +:+ "/{$}")) = Some pat /\
    route_key pat = literal_key m (path_segments (p +:+ "/")).
Proof.
  intros Hm Hc Hb. pose proof (parse_clean_components p Hc Hb ["{$}"] [Lit "/"] eq_refl) as Hs.
  rewrite path_segments_slash by done.
  assert (Hcl : cleanPath (p +:+ "/{$}") = p +:+ "/{$}").
  { apply cleanPath_clean. apply (clean_path_push p "{$}"); [by right|]. by split. }
  destruct (clean_path_split p Hc) as (r & Hp & _ & Hr).
  pose proof (parsePattern_route_eq m (r +:+ String "/"%char "{$}") Hm) as E.
  rewrite <- append_cons, <- Hp, Hcl, Split_app, Hr in E. change (Split "{$}" "/"%char) with ["{$}"] in E.
  rewrite Hs, (bool_decide_eq_true_2 (p +:+ "/{$}" = _)), andb_false_r in E by done.
  change "/{$}" with (String "/"%char "{$}"). rewrite E. eexists. split; [done|].
  unfold route_key, literal_key. cbn. by rewrite fmap_app.
Qed.

Lemma percent_decode_nonempty s t : percent_decode s = Some t -> s <> EmptyString -> t <> EmptyString.
Proof.
  destruct s as [|a s]; [done|]. cbn. intros E _. case_bool_decide.
  - destruct s as [|h [|l s]]; [done..|]. destruct (hex_val h), (hex_val l), (percent_decode s); try done.
    by injection E as <-.
  - destruct (percent_decode s); [|done]. by injection E as <-.
Qed.

Lemma pathUnescape_nonempty s : s <> EmptyString -> pathUnescape s <> EmptyString.
Proof.
  unfold pathUnescape. intros Hs. destruct (percent_decode s) eqn:E; [|done]. by eapply percent_decode_nonempty.
Qed.

Lemma path_segments_nonempty p : clean_path p ->
  Forall (fun s => s <> EmptyString) (path_segments p) /\ Forall (fun s => s <> EmptyString) (path_segments (p +:+ "/")).
Proof.
  intros Hc. rewrite path_segments_clean, path_segments_slash by done.
  assert (H : Forall (fun s => s <> EmptyString) (pathUnescape <$> clean_components p)).
  { apply Forall_fmap. eapply Forall_impl; [apply clean_components_plain|]. intros c [? _]. by apply pathUnescape_nonempty. }
  split; [done|]. apply Forall_app. split; [done|]. by repeat constructor.
Qed.

(** ** A request for a pattern's own path reaches its handler *)

Lemma ends_multi_Lit l : ends_multi (Lit <$> l) = false.
Proof. unfold ends_multi. rewrite fmap_last. by destruct (last l). Qed.

Lemma Mux_Handler_literal `{HttpTexts} {A} (mux : list (mux_pattern * A)) pat h m q r :
  distinct_routes mux -> hostless mux -> (pat, h) ∈ mux ->
  route_key pat = (m, EmptyString, Lit <$> path_segments q) -> Forall (fun s => s <> EmptyString) (path_segments q) ->
  cleanPath q = q -> m <> "" -> rq_Method r = m -> rq_Path r = q ->
  Mux_Handler mux r = Matched h (mp_str pat).
Proof.
  intros Hd Hh Hin Hk Hne Hq Hm0 Hm Hp.
  assert (Hroute : forall host, match_route host m (path_segments q) mux = Some (pat, h))
    by (intros host; by eapply match_route_literal).
  assert (Hslash : forall host, slash_redirect host m q mux = false).
  { intros host. unfold slash_redirect. rewrite Hroute. cbn [exactMatch]. unfold route_key in Hk.
    injection Hk as _ _ ->. by rewrite ends_multi_Lit. }
  unfold Mux_Handler. rewrite Hm, Hp, Hq, !Hslash, !Hroute. case_bool_decide; [done|].
  by rewrite bool_decide_eq_true_2.
Qed.

(** ** Literal patterns only conflict when they are the same *)

Lemma compare_along_disjoint b1 b2 l1 : forall l2, compare_along disjoint b1 b2 l1 l2 = disjoint.
Proof. induction l1 as [|s1 l1 IH]; intros [|s2 l2]; cbn; [done|by destruct b1|by destruct b2|apply IH]. Qed.

Lemma comparePaths_literal l1 l2 : l1 <> l2 -> comparePaths (Lit <$> l1) (Lit <$> l2) = disjoint.
Proof.
  intros Hl. unfold comparePaths. rewrite !ends_multi_Lit. cbn [negb]. rewrite !andb_true_r.
  destruct (negb _); [done|]. revert l2 Hl.
  induction l1 as [|s1 l1 IH]; intros [|s2 l2] Hl; cbn; [done..|].
  case_bool_decide as Hs; [|apply compare_along_disjoint]. subst. apply IH. congruence.
Qed.

Lemma literal_no_conflict p1 p2 m1 m2 l1 l2 :
  route_key p1 = literal_key m1 l1 -> route_key p2 = literal_key m2 l2 -> (m1, l1) <> (m2, l2) ->
  conflictsWith p1 p2 = false.
Proof.
  unfold route_key, literal_key. intros [= <- Hh1 Hs1] [= <- Hh2 Hs2] Hne. unfold conflictsWith.
  rewrite Hh1, Hh2, Hs1, Hs2. rewrite bool_decide_eq_true_2 by done. cbn [andb].
  destruct (decide (l1 = l2)) as [->|Hl].
  - rewrite comparePaths_refl. unfold compareMethods.
    rewrite (bool_decide_eq_false_2 (mp_method p1 = mp_method p2)) by congruence.
    by repeat match goal with |- context [if bool_decide ?P then _ else _] => destruct (bool_decide P) end.
  - rewrite comparePaths_literal by done. by destruct (compareMethods _ _).
Qed.

(** A table of literal patterns, by what they say. *)
Definition literal_table {A} (t : list (mux_pattern * A)) (keys : list (string * list string)) : Prop :=
  Forall2 (fun e k => route_key e.1 = literal_key k.1 k.2) t keys.

Lemma Handle_literal {A} (t : list (mux_pattern * A)) keys patstr pat m l x :
  literal_table t keys -> parsePattern patstr = Some pat -> route_key pat = literal_key m l -> (m, l) ∉ keys ->
  exists t', Handle patstr x t = Some t' /\ literal_table t' (keys ++ [(m, l)]).
Proof.
  intros Ht Hp Hk Hn. unfold Handle. rewrite Hp. cbn [mbind option_bind].
  destruct (existsb _ t) eqn:E.
  - apply existsb_exists in E as (e & Hin & Hc). apply list_elem_of_In, list_elem_of_lookup in Hin as [i Hi].
    destruct (Forall2_lookup_l _ _ _ _ _ Ht Hi) as ([m' l'] & Hki & Hke). cbn in Hke.
    rewrite (literal_no_conflict pat e.1 m m' l l') in Hc; [done|done|done|].
    intros [= -> ->]. apply Hn. by eapply list_elem_of_lookup_2.
  - eexists. split; [done|]. apply Forall2_app; [done|]. by constructor.
Qed.

(** Two paths below the same prefix. *)
Lemma path_segments_push p c : p = EmptyString \/ clean_path p -> kept c ->
  path_segments (p +:+ String "/"%char c) = (if bool_decide (p = EmptyString) then [] else path_segments p) ++ [pathUnescape c].
Proof.
  intros Hp Hc. pose proof (clean_path_push p c Hp Hc) as Hpc. rewrite path_segments_clean by done.
  assert (E : clean_components (p +:+ String "/"%char c) =
              (if bool_decide (p = EmptyString) then [] else clean_components p) ++ [c]).
  { destruct Hp as [->|Hp].
    - rewrite append_empty. apply (clean_components_join [c]), Forall_singleton. done.
    - rewrite bool_decide_eq_false_2; [|by destruct (clean_path_split p Hp) as (r & -> & _)].
      unfold clean_components at 1. rewrite Split_app, foldl_app.
      destruct Hc as ([Hc Hs] & Hd & Hdd). rewrite (Split_word c) by done. cbn [foldl].
      unfold push_component at 1. rewrite (bool_decide_eq_false_2 (c = "" \/ c = ".")) by naive_solver.
      rewrite (bool_decide_eq_false_2 (c = "..")) by done. by rewrite reverse_cons. }
  rewrite E. case_bool_decide; [done|]. rewrite fmap_app, path_segments_clean; [done|]. by destruct Hp.
Qed.
