(* ===== verification/Config.v ===== *)
(** * The configuration (internal/config)

    config.go: the parsed file, its defaults and the two lookups that map an
    OCPI EVSE uid to an OCPP connector id and back. *)

From S2P Require Import Prelude GoLib GoTime Errors.

(** duration.go: the text as written and the value it parses to. *)
Record Duration := mkDuration { raw : string; dur : Z }.

Definition unset (d : Duration) : bool := bool_decide (raw d = EmptyString).
Definition NewDuration (v : Z) : Duration := mkDuration (duration_string v) v.
Definition setDefault (d : Duration) (v : Z) : Duration := mkDuration (duration_string v) v.

Record Charger := mkCharger {
  ch_ID : string;
  ch_IP : string;
  ch_OCPPVersion : string;
  ch_HeartbeatInterval : Duration;
  ch_HeartbeatTimeout : Duration;
  ch_CallTimeout : Duration
}.

Record Server := mkServer { OCPPBind : string; OCPIBind : string }.
Record Auth := mkAuth { DefaultIDTag : string }.
Record Push := mkPush { Debounce : Duration; MaxRetries : Z }.

Record OCPI := mkOCPI {
  oc_CountryCode : string;
  oc_PartyID : string;
  oc_PublicBaseURL : string;
  oc_TokenA : string;
  oc_TokenC : string;
  oc_Push : Push
}.

Record Coordinates := mkCoordinates { Latitude : string; Longitude : string }.

Record Connector := mkConnector {
  cn_ID : string;
  cn_Standard : string;
  cn_Format : string;
  cn_PowerType : string;
  cn_MaxVoltage : Z;
  cn_MaxAmperage : Z;
  cn_MaxElectricPower : Z
}.

Record EVSE := mkEVSE {
  ev_UID : string;
  ev_EVSEID : string;
  ev_OCPPConnectorID : Z;
  ev_Connectors : list Connector
}.

Record Location := mkLocation {
  lo_ID : string;
  lo_Name : string;
  lo_Address : string;
  lo_City : string;
  lo_PostalCode : string;
  lo_Country : string;
  lo_Coordinates : Coordinates;
  lo_EVSEs : list EVSE
}.

Record Config := mkConfig {
  cf_Charger : Charger;
  cf_Server : Server;
  cf_Auth : Auth;
  cf_OCPI : OCPI;
  cf_Location : Location
}.

Definition DefaultOCPPVersion : string := "1.6".
Definition DefaultHeartbeatInterval : Z := 60 * second.
Definition DefaultHeartbeatTimeout : Z := 90 * second.
Definition DefaultCallTimeout : Z := 30 * second.
Definition DefaultOCPPBind : string := "0.0.0.0:9000".
Definition DefaultOCPIBind : string := "0.0.0.0:8080".
Definition DefaultPushDebounce : Z := 500 * millisecond.
Definition DefaultPushMaxRetries : Z := 5.

Definition EVSEByUID (c : Config) (uid : string) : option EVSE :=
  first_such (fun e => bool_decide (ev_UID e = uid)) (lo_EVSEs (cf_Location c)).

Definition EVSEByConnectorID (c : Config) (id : Z) : option EVSE :=
  first_such (fun e => ev_OCPPConnectorID e =? id) (lo_EVSEs (cf_Location c)).

Definition or_default (s d : string) : string := if bool_decide (s = EmptyString) then d else s.
Definition duration_or (d : Duration) (v : Z) : Duration := if unset d then setDefault d v else d.

Definition applyDefaults (c : Config) : Config :=
  let ch := cf_Charger c in
  let sv := cf_Server c in
  let oc := cf_OCPI c in
  let ps := oc_Push oc in
  mkConfig
    (mkCharger (ch_ID ch) (ch_IP ch)
       (or_default (ch_OCPPVersion ch) DefaultOCPPVersion)
       (duration_or (ch_HeartbeatInterval ch) DefaultHeartbeatInterval)
       (duration_or (ch_HeartbeatTimeout ch) DefaultHeartbeatTimeout)
       (duration_or (ch_CallTimeout ch) DefaultCallTimeout))
    (mkServer (or_default (OCPPBind sv) DefaultOCPPBind) (or_default (OCPIBind sv) DefaultOCPIBind))
    (cf_Auth c)
    (mkOCPI (oc_CountryCode oc) (oc_PartyID oc) (oc_PublicBaseURL oc) (oc_TokenA oc) (oc_TokenC oc)
       (mkPush (duration_or (Debounce ps) DefaultPushDebounce)
          (if MaxRetries ps =? 0 then DefaultPushMaxRetries else MaxRetries ps)))
    (cf_Location c).

(** The uids and the connector ids of the configured EVSEs are each distinct:
    what validate.go's duplicate checks establish for a loaded file. *)
Definition evses_distinct (c : Config) : Prop :=
  NoDup (ev_UID <$> lo_EVSEs (cf_Location c)) /\
  NoDup (ev_OCPPConnectorID <$> lo_EVSEs (cf_Location c)).

Section lookups.
Context (c : Config).

Lemma EVSEByUID_Some uid e :
  EVSEByUID c uid = Some e -> e ∈ lo_EVSEs (cf_Location c) /\ ev_UID e = uid.
Proof.
  intros H. apply first_such_Some in H as [H1 H2]. by rewrite bool_decide_eq_true in H2.
Qed.

Lemma EVSEByConnectorID_Some id e :
  EVSEByConnectorID c id = Some e ->
  e ∈ lo_EVSEs (cf_Location c) /\ ev_OCPPConnectorID e = id.
Proof. intros H. apply first_such_Some in H as [H1 H2]. split; [done|lia]. Qed.

Lemma EVSEByUID_None uid :
  EVSEByUID c uid = None <-> forall e, e ∈ lo_EVSEs (cf_Location c) -> ev_UID e <> uid.
Proof.
  unfold EVSEByUID. rewrite first_such_None.
  split; intros H e He; specialize (H e He); by rewrite bool_decide_eq_false in *.
Qed.
End lookups.

(** The two addressing schemes are inverse to each other on a valid config. *)
Lemma EVSEByUID_EVSEByConnectorID c e :
  evses_distinct c -> e ∈ lo_EVSEs (cf_Location c) ->
  EVSEByUID c (ev_UID e) = Some e /\ EVSEByConnectorID c (ev_OCPPConnectorID e) = Some e.
Proof.
  intros [Hu Hc] He. split; apply first_such_unique.
  1, 4: done.
  - by apply bool_decide_eq_true.
  - intros y Hy Hp. apply bool_decide_eq_true in Hp. by apply (NoDup_fmap_inj_in _ _ _ _ Hu).
  - apply Z.eqb_refl.
  - intros y Hy Hp. apply Z.eqb_eq in Hp. by apply (NoDup_fmap_inj_in _ _ _ _ Hc).
Qed.

(** Defaults are only applied to what is unset, so applying them twice changes
    nothing more. *)
Lemma duration_or_idemp d v :
  duration_string v <> EmptyString -> duration_or (duration_or d v) v = duration_or d v.
Proof.
  intros Hv. unfold duration_or, unset. do 2 case_bool_decide; done.
Qed.

Lemma or_default_idemp s d : or_default (or_default s d) d = or_default s d.
Proof. unfold or_default. repeat case_bool_decide; congruence. Qed.

Lemma applyDefaults_idemp c : applyDefaults (applyDefaults c) = applyDefaults c.
Proof.
  unfold applyDefaults; simpl. rewrite !or_default_idemp.
  rewrite !duration_or_idemp by (vm_compute; done).
  by destruct (MaxRetries (oc_Push (cf_OCPI c)) =? 0) eqn:E; simpl; rewrite ?E.
Qed.
