(* ===== verification/Validate.v ===== *)
(** * Validation of the configuration (config/validate.go, enums.go, errors.go)

    A check returns the problems it adds to the validator, in the order it adds
    them.  [url.Parse] is a parameter ([URLs]): of its result the checks read the
    scheme, the host, or the error's text. *)

From S2P Require Import Prelude GoLib GoTime GoDuration Errors GoRegexp GoSort GoNet Config.

(** ** errors.go *)

Record FieldError := mkFieldError { fe_Path : string; fe_Msg : string }.

Definition FieldError_Error (e : FieldError) : string := fe_Path e +:+ ": " +:+ fe_Msg e.

Abbreviation ValidationErrors := (list FieldError).

Definition ValidationErrors_Error (e : ValidationErrors) : string :=
  match e with
  | [] => "config: no problems"
  | _ =>
    (if bool_decide (length e = 1%nat) then "config: 1 problem:"
     else "config: " +:+ Itoa (Z.of_nat (length e)) +:+ " problems:") +:+
    concat_strings ((fun fe => newline +:+ "  - " +:+ FieldError_Error fe) <$> e)
  end.

Definition Paths (e : ValidationErrors) : list string := fe_Path <$> e.
Definition sortByPath (e : ValidationErrors) : ValidationErrors := SliceStable fe_Path e.

(** [v.add], alone. *)
Definition problem (path msg : string) : ValidationErrors := [mkFieldError path msg].
Definition problem_if (b : bool) (path msg : string) : ValidationErrors :=
  if b then problem path msg else [].

(** [v.required(path, value) && ...]: what is checked only of a value that is
    there. *)
Definition is_blank (value : string) : bool := bool_decide (TrimSpace value = EmptyString).
Definition required (path value : string) (checks : ValidationErrors) : ValidationErrors :=
  if is_blank value then problem path "is required" else checks.

(** ** enums.go *)

Definition connectorStandards : gset string := list_to_set [
  "CHADEMO"; "CHAOJI";
  "DOMESTIC_A"; "DOMESTIC_B"; "DOMESTIC_C"; "DOMESTIC_D"; "DOMESTIC_E";
  "DOMESTIC_F"; "DOMESTIC_G"; "DOMESTIC_H"; "DOMESTIC_I"; "DOMESTIC_J";
  "DOMESTIC_K"; "DOMESTIC_L"; "DOMESTIC_M"; "DOMESTIC_N"; "DOMESTIC_O";
  "GBT_AC"; "GBT_DC";
  "IEC_60309_2_single_16"; "IEC_60309_2_three_16"; "IEC_60309_2_three_32";
  "IEC_60309_2_three_64";
  "IEC_62196_T1"; "IEC_62196_T1_COMBO"; "IEC_62196_T2"; "IEC_62196_T2_COMBO";
  "IEC_62196_T3A"; "IEC_62196_T3C";
  "NEMA_5_20"; "NEMA_6_30"; "NEMA_6_50"; "NEMA_10_30"; "NEMA_10_50";
  "NEMA_14_30"; "NEMA_14_50";
  "PANTOGRAPH_BOTTOM_UP"; "PANTOGRAPH_TOP_DOWN";
  "TESLA_R"; "TESLA_S"].
Definition connectorFormats : gset string := list_to_set ["SOCKET"; "CABLE"].
Definition powerTypes : gset string :=
  list_to_set ["AC_1_PHASE"; "AC_2_PHASE"; "AC_2_PHASE_SPLIT"; "AC_3_PHASE"; "DC"].
Definition ocppVersions : gset string := list_to_set ["1.6"; "2.0.1"].

(** [sorted]: the members in ascending order, whatever order the map was
    ranged over in. *)
Definition sorted (m : gset string) : list string := Strings (elements m).

Definition in_set (m : gset string) (s : string) : bool := bool_decide (s ∈ m).

(** ** The patterns *)

Definition chargePointIDRe : pattern := [repeated 1 48 (fun a => is_alnum a || one_of "._:~-" a)].
Definition idTagRe : pattern := [repeated 1 20 (between 33 126)].
Definition countryCodeRe : pattern := [exactly 2 is_upper].
Definition partyIDRe : pattern := [exactly 3 is_upper].
Definition alpha3Re : pattern := [exactly 3 is_upper].
Definition latitudeRe : pattern :=
  [optional (one_of "-"); repeated 1 2 is_digit; once (one_of "."); repeated 5 7 is_digit].
Definition longitudeRe : pattern :=
  [optional (one_of "-"); repeated 1 3 is_digit; once (one_of "."); repeated 5 7 is_digit].
Definition is_letter (a : ascii) : bool := is_lower a || is_upper a.
Definition evseIDRe : pattern :=
  [exactly 2 is_letter; optional (one_of "*"); exactly 3 is_alnum; optional (one_of "*");
   once (one_of "Ee"); repeated 1 30 (fun a => is_alnum a || one_of "*" a)].

Definition minTokenLen : Z := 8.

(** [len(s)]. *)
Definition len (s : string) : Z := Z.of_nat (String.length s).

(** An example in a message: quoted. *)
Definition quoted (s : string) : string := dquote +:+ s +:+ dquote.

(** ** Hosts *)

Definition isWildcardHost (host : string) : bool :=
  bool_decide (host ∈ [""; "0.0.0.0"; "::"; "[::]"]).

Definition first_byte (s : string) : option ascii := String.get 0 s.
Definition last_byte (s : string) : option ascii := String.get (pred (String.length s)) s.

Definition is_label (label : string) : bool :=
  negb (bool_decide (label = EmptyString)) && (len label <=? 63) &&
  negb (bool_decide (first_byte label = Some "-"%char)) &&
  negb (bool_decide (last_byte label = Some "-"%char)) &&
  all_in (fun a => is_alnum a || one_of "-" a) label.

Definition isHostname (s : string) : bool :=
  negb (bool_decide (s = EmptyString)) && (len s <=? 253) && forallb is_label (Split s "."%char).

(** ** Durations *)

(** duration.go's [parse]; [None] is its error. *)
Definition parse (d : Duration) : option Duration := mkDuration (raw d) <$> ParseDuration (raw d).

(** The problems, whether the field is usable, and the field with its text
    resolved. *)
Definition positiveDuration (path : string) (d : Duration) : ValidationErrors * bool * Duration :=
  match parse d with
  | None => (problem path (Quote (raw d) +:+ " is not a duration; want e.g. " +:+ quoted "90s"), false, d)
  | Some d =>
    if dur d <=? 0 then (problem path ("must be greater than zero, got " +:+ raw d), false, d)
    else ([], true, d)
  end.

(** ** charger *)

Definition validateCharger (ch : Charger) : ValidationErrors * Charger :=
  let id :=
    required "charger.id" (ch_ID ch)
      (problem_if (negb (MatchString chargePointIDRe (ch_ID ch))) "charger.id"
         (Quote (ch_ID ch) +:+ " is not usable as a URL path segment; allowed: letters, digits and . _ : ~ - (max 48)")) in
  let addr := TrimSpace (ch_IP ch) in
  let ip :=
    if bool_decide (addr = EmptyString) then []
    else problem_if (negb (ParseIP addr) && negb (isHostname addr)) "charger.ip"
           (Quote addr +:+ " is neither an IP address nor a hostname") in
  let version :=
    problem_if (negb (in_set ocppVersions (ch_OCPPVersion ch))) "charger.ocpp_version"
      (Quote (ch_OCPPVersion ch) +:+ " is not supported; want one of " +:+ Join ", " (sorted ocppVersions)) in
  let '(e1, intervalOK, interval) := positiveDuration "charger.heartbeat_interval" (ch_HeartbeatInterval ch) in
  let '(e2, timeoutOK, timeout) := positiveDuration "charger.heartbeat_timeout" (ch_HeartbeatTimeout ch) in
  let '(e3, _, call) := positiveDuration "charger.call_timeout" (ch_CallTimeout ch) in
  let order :=
    problem_if (intervalOK && timeoutOK && (dur timeout <=? dur interval)) "charger.heartbeat_timeout"
      ("must be greater than charger.heartbeat_interval (" +:+ raw interval +:+ "), got " +:+ raw timeout) in
  (id ++ ip ++ version ++ e1 ++ e2 ++ e3 ++ order,
   mkCharger (ch_ID ch) (ch_IP ch) (ch_OCPPVersion ch) interval timeout call).

(** ** server *)

(** The problems, and the parts of an address that has none. *)
Definition validateBind (path bind : string) : ValidationErrors * option (string * Z) :=
  if is_blank bind then (problem path "is required", None)
  else match SplitHostPort bind with
  | None => (problem path (Quote bind +:+ " is not a host:port address"), None)
  | Some (host, portStr) =>
    match Atoi portStr with
    | Some port =>
      if (port <? 0) || (65535 <? port) then
        (problem path (Quote bind +:+ " does not have a valid port (1-65535)"), None)
      else if port =? 0 then
        (problem path "port 0 picks a random port that nothing can be pointed at; choose a fixed port", None)
      else if negb (bool_decide (host = EmptyString)) && negb (isWildcardHost host) &&
              negb (ParseIP host) && negb (isHostname host) then
        (problem path (Quote host +:+ " is not a valid host"), None)
      else ([], Some (host, port))
    | None => (problem path (Quote bind +:+ " does not have a valid port (1-65535)"), None)
    end
  end.

Definition validateServer (sv : Server) : ValidationErrors :=
  let '(e1, ocpp) := validateBind "server.ocpp_bind" (OCPPBind sv) in
  let '(e2, ocpi) := validateBind "server.ocpi_bind" (OCPIBind sv) in
  let clash :=
    match ocpp, ocpi with
    | Some (ocppHost, ocppPort), Some (ocpiHost, ocpiPort) =>
      problem_if ((ocppPort =? ocpiPort) &&
                  (bool_decide (ocppHost = ocpiHost) || isWildcardHost ocppHost || isWildcardHost ocpiHost))
        "server.ocpi_bind"
        ("cannot share port " +:+ Itoa ocpiPort +:+ " with server.ocpp_bind (" +:+ OCPPBind sv +:+ ")")
    | _, _ => []
    end in
  e1 ++ e2 ++ clash.

(** ** auth *)

Definition validateAuth (a : Auth) : ValidationErrors :=
  required "auth.default_id_tag" (DefaultIDTag a)
    (problem_if (negb (MatchString idTagRe (DefaultIDTag a))) "auth.default_id_tag"
       (Quote (DefaultIDTag a) +:+
        " is not a valid OCPP idTag; want 1-20 printable ASCII characters without spaces")).

(** ** ocpi *)

(** Space, tab, carriage return and newline. *)
Definition has_whitespace (s : string) : bool :=
  existsb (fun a => bool_decide (byte_val a ∈ [32; 9; 13; 10])) (String.list_ascii_of_string s).

Definition validateToken (path token : string) : ValidationErrors :=
  required path token
    (problem_if (len token <? minTokenLen) path ("must be at least " +:+ Itoa minTokenLen +:+ " characters") ++
     problem_if (has_whitespace token) path "must not contain whitespace").

Section ocpi.
Context `{URLs}.

Definition validateURL (url : string) : ValidationErrors :=
  let path := "ocpi.public_base_url" in
  required path url
    match url_Parse url with
    | inr err => problem path (Quote url +:+ " is not a valid URL: " +:+ err)
    | inl u =>
      if negb (bool_decide (u_Scheme u = "http")) && negb (bool_decide (u_Scheme u = "https")) then
        problem path (Quote url +:+ " must use http or https")
      else problem_if (bool_decide (u_Host u = EmptyString)) path (Quote url +:+ " is missing a host")
    end.

Definition validateDebounce (d : Duration) : ValidationErrors * Duration :=
  match parse d with
  | None => (problem "ocpi.push.debounce"
               (Quote (raw d) +:+ " is not a duration; want e.g. " +:+ quoted "500ms"), d)
  | Some d =>
    (problem_if (dur d <? 0) "ocpi.push.debounce" ("must not be negative, got " +:+ raw d), d)
  end.

Definition validateOCPI (o : OCPI) : ValidationErrors * OCPI :=
  let country :=
    required "ocpi.country_code" (oc_CountryCode o)
      (problem_if (negb (MatchString countryCodeRe (oc_CountryCode o))) "ocpi.country_code"
         (Quote (oc_CountryCode o) +:+ " must be two uppercase letters, e.g. " +:+ quoted "DE")) in
  let party :=
    required "ocpi.party_id" (oc_PartyID o)
      (problem_if (negb (MatchString partyIDRe (oc_PartyID o))) "ocpi.party_id"
         (Quote (oc_PartyID o) +:+ " must be three uppercase letters, e.g. " +:+ quoted "FRY")) in
  let same :=
    problem_if (negb (bool_decide (oc_TokenA o = EmptyString)) && bool_decide (oc_TokenA o = oc_TokenC o))
      "ocpi.token_c" "must differ from ocpi.token_a" in
  let '(e, debounce) := validateDebounce (Debounce (oc_Push o)) in
  let retries :=
    problem_if (MaxRetries (oc_Push o) <? 0) "ocpi.push.max_retries"
      ("must not be negative, got " +:+ Itoa (MaxRetries (oc_Push o))) in
  (country ++ party ++ validateURL (oc_PublicBaseURL o) ++ validateToken "ocpi.token_a" (oc_TokenA o) ++
   validateToken "ocpi.token_c" (oc_TokenC o) ++ same ++ e ++ retries,
   mkOCPI (oc_CountryCode o) (oc_PartyID o) (oc_PublicBaseURL o) (oc_TokenA o) (oc_TokenC o)
     (mkPush debounce (MaxRetries (oc_Push o)))).
End ocpi.

(** ** location *)

(** A coordinate that matches its pattern, in units of 10^-7 degrees: at most
    seven decimals, which a float64 holds closely enough to compare and print
    like the number itself. *)
Definition digits_value (s : string) : Z := default 0 (parse_digits s).

Definition degrees (p : pattern) (value : string) : option Z :=
  match submatches p value with
  | Some [sign; whole; _; frac] =>
    let z := digits_value whole * 10 ^ 7 + digits_value frac * 10 ^ (7 - len frac) in
    Some (if bool_decide (sign = EmptyString) then z else - z)
  | _ => None
  end.

(** [%v] of such a float64. *)
Definition degrees_string (z : Z) : string :=
  (if z <? 0 then "-" else "") +:+ with_fraction 7 (Z.abs z).

Definition validateCoordinate (path value : string) (p : pattern) (lo hi : Z) : ValidationErrors :=
  required path value
    match degrees p value with
    | None =>
      problem path (Quote value +:+
        " must be decimal degrees as a string with 5 to 7 decimal places, e.g. " +:+ quoted "52.520008")
    | Some f =>
      problem_if ((f <? lo * 10 ^ 7) || (hi * 10 ^ 7 <? f)) path
        (degrees_string f +:+ " is out of range (" +:+ Itoa lo +:+ " to " +:+ Itoa hi +:+ ")")
    end.

Definition indexed (base : string) (i : Z) : string := base +:+ "[" +:+ Itoa i +:+ "]".

Definition validateConnector (base path : string) (seen : gmap string Z) (c : Connector) : ValidationErrors :=
  required (path +:+ ".id") (cn_ID c)
    match seen !! cn_ID c with
    | Some first => problem (path +:+ ".id")
        (Quote (cn_ID c) +:+ " is already used by " +:+ indexed (base +:+ ".connectors") first)
    | None => []
    end ++
  required (path +:+ ".standard") (cn_Standard c)
    (problem_if (negb (in_set connectorStandards (cn_Standard c))) (path +:+ ".standard")
       (Quote (cn_Standard c) +:+ " is not an OCPI 2.3.0 ConnectorType")) ++
  required (path +:+ ".format") (cn_Format c)
    (problem_if (negb (in_set connectorFormats (cn_Format c))) (path +:+ ".format")
       (Quote (cn_Format c) +:+ " is not a ConnectorFormat; want one of " +:+ Join ", " (sorted connectorFormats))) ++
  required (path +:+ ".power_type") (cn_PowerType c)
    (problem_if (negb (in_set powerTypes (cn_PowerType c))) (path +:+ ".power_type")
       (Quote (cn_PowerType c) +:+ " is not a PowerType; want one of " +:+ Join ", " (sorted powerTypes))) ++
  problem_if (cn_MaxVoltage c <=? 0) (path +:+ ".max_voltage")
    ("must be greater than zero, got " +:+ Itoa (cn_MaxVoltage c)) ++
  problem_if (cn_MaxAmperage c <=? 0) (path +:+ ".max_amperage")
    ("must be greater than zero, got " +:+ Itoa (cn_MaxAmperage c)) ++
  problem_if (cn_MaxElectricPower c <? 0) (path +:+ ".max_electric_power")
    ("must not be negative, got " +:+ Itoa (cn_MaxElectricPower c)).

(** [if _, dup := seen[k]; !dup { seen[k] = i }], of a value that is there. *)
Definition note {K} `{Countable K} (there : bool) (k : K) (i : Z) (seen : gmap K Z) : gmap K Z :=
  if there then match seen !! k with Some _ => seen | None => <[k := i]> seen end else seen.

(** The loop over an EVSE's connectors, from the [j]-th. *)
Fixpoint connectors_loop (base : string) (j : Z) (seen : gmap string Z) (l : list Connector) : ValidationErrors :=
  match l with
  | [] => []
  | c :: l =>
    validateConnector base (indexed (base +:+ ".connectors") j) seen c ++
    connectors_loop base (j + 1) (note (negb (is_blank (cn_ID c))) (cn_ID c) j seen) l
  end.

Definition validateConnectors (base : string) (l : list Connector) : ValidationErrors :=
  match l with
  | [] => problem (base +:+ ".connectors") "at least one connector is required"
  | _ => connectors_loop base 0 ∅ l
  end.

(** What the loop over the EVSEs remembers: the first index of each uid,
    connector id and EVSE id. *)
Record seen := mkSeen { seenUID : gmap string Z; seenConnectorID : gmap Z Z; seenEVSEID : gmap string Z }.

Definition validateEVSE (base : string) (s : seen) (e : EVSE) : ValidationErrors :=
  required (base +:+ ".uid") (ev_UID e)
    (problem_if (36 <? len (ev_UID e)) (base +:+ ".uid")
       ("must be at most 36 characters (OCPI CiString36), got " +:+ Itoa (len (ev_UID e))) ++
     match seenUID s !! ev_UID e with
     | Some first => problem (base +:+ ".uid")
         (Quote (ev_UID e) +:+ " is already used by " +:+ indexed "location.evses" first)
     | None => []
     end) ++
  required (base +:+ ".evse_id") (ev_EVSEID e)
    (problem_if (negb (MatchString evseIDRe (ev_EVSEID e))) (base +:+ ".evse_id")
       (Quote (ev_EVSEID e) +:+ " does not look like an eMI3 EVSE ID, e.g. " +:+ quoted "DE*FRY*E001*1") ++
     match seenEVSEID s !! ev_EVSEID e with
     | Some first => problem (base +:+ ".evse_id")
         (Quote (ev_EVSEID e) +:+ " is already used by " +:+ indexed "location.evses" first)
     | None => []
     end) ++
  (if ev_OCPPConnectorID e <? 1 then
     problem (base +:+ ".ocpp_connector_id")
       ("must be 1 or greater (0 addresses the charge point itself), got " +:+ Itoa (ev_OCPPConnectorID e))
   else match seenConnectorID s !! ev_OCPPConnectorID e with
   | Some first => problem (base +:+ ".ocpp_connector_id")
       (Itoa (ev_OCPPConnectorID e) +:+ " is already mapped by " +:+ indexed "location.evses" first)
   | None => []
   end) ++
  validateConnectors base (ev_Connectors e).

Definition note_evse (i : Z) (e : EVSE) (s : seen) : seen :=
  mkSeen (note (negb (is_blank (ev_UID e))) (ev_UID e) i (seenUID s))
    (note (1 <=? ev_OCPPConnectorID e) (ev_OCPPConnectorID e) i (seenConnectorID s))
    (note (negb (is_blank (ev_EVSEID e))) (ev_EVSEID e) i (seenEVSEID s)).

Fixpoint evses_loop (i : Z) (s : seen) (l : list EVSE) : ValidationErrors :=
  match l with
  | [] => []
  | e :: l => validateEVSE (indexed "location.evses" i) s e ++ evses_loop (i + 1) (note_evse i e s) l
  end.

Definition validateLocation (l : Location) : ValidationErrors :=
  required "location.id" (lo_ID l)
    (problem_if (36 <? len (lo_ID l)) "location.id"
       ("must be at most 36 characters (OCPI CiString36), got " +:+ Itoa (len (lo_ID l)))) ++
  required "location.address" (lo_Address l) [] ++
  required "location.city" (lo_City l) [] ++
  required "location.country" (lo_Country l)
    (problem_if (negb (MatchString alpha3Re (lo_Country l))) "location.country"
       (Quote (lo_Country l) +:+ " must be an ISO 3166-1 alpha-3 code, e.g. " +:+ quoted "DEU")) ++
  validateCoordinate "location.coordinates.latitude" (Latitude (lo_Coordinates l)) latitudeRe (-90) 90 ++
  validateCoordinate "location.coordinates.longitude" (Longitude (lo_Coordinates l)) longitudeRe (-180) 180 ++
  match lo_EVSEs l with
  | [] => problem "location.evses" "at least one EVSE is required"
  | _ => evses_loop 0 (mkSeen ∅ ∅ ∅) (lo_EVSEs l)
  end.

(** ** Everything *)

Section validate.
Context `{URLs}.

(** The problems in the order of their paths ([[]] is the nil error), and the
    configuration with its durations parsed. *)
Definition Validate (c : Config) : ValidationErrors * Config :=
  let '(e1, charger) := validateCharger (cf_Charger c) in
  let '(e4, ocpi) := validateOCPI (cf_OCPI c) in
  (sortByPath (e1 ++ validateServer (cf_Server c) ++ validateAuth (cf_Auth c) ++ e4 ++
               validateLocation (cf_Location c)),
   mkConfig charger (cf_Server c) (cf_Auth c) ocpi (cf_Location c)).
End validate.
