(* ===== verification/ConfigProps.v ===== *)
(** * What validation promises

    [valid] says, declaratively, when a configuration is usable.  [Validate]
    reports nothing exactly then, the configuration it leaves has every duration
    parsed, and what the rest of the program takes for granted follows. *)

From S2P Require Import Prelude GoLib GoTime GoDuration Errors GoRegexp GoSort GoNet Config Validate.

(** ** The declarative specification *)

Definition matches (p : pattern) (s : string) : Prop := exists ws, splits p s ws.

Definition present (s : string) : Prop := TrimSpace s <> EmptyString.

Definition host_like (s : string) : Prop := ParseIP s = true \/ isHostname s = true.

(** A duration whose text parses to a value. *)
Definition reads (d : Duration) (v : Z) : Prop := ParseDuration (raw d) = Some v.

Record charger_valid (ch : Charger) : Prop := {
  cv_id : present (ch_ID ch) /\ matches chargePointIDRe (ch_ID ch);
  cv_ip : TrimSpace (ch_IP ch) = EmptyString \/ host_like (TrimSpace (ch_IP ch));
  cv_version : ch_OCPPVersion ch = "1.6" \/ ch_OCPPVersion ch = "2.0.1";
  cv_heartbeat : exists i t, reads (ch_HeartbeatInterval ch) i /\ reads (ch_HeartbeatTimeout ch) t /\ 0 < i < t;
  cv_call : exists v, reads (ch_CallTimeout ch) v /\ 0 < v
}.

(** [bind] is an address to listen on. *)
Definition listens (bind host : string) (port : Z) : Prop :=
  present bind /\
  (exists p, SplitHostPort bind = Some (host, p) /\ Atoi p = Some port) /\ 1 <= port <= 65535 /\
  (isWildcardHost host = true \/ host_like host).

Definition server_valid (sv : Server) : Prop :=
  exists h1 p1 h2 p2, listens (OCPPBind sv) h1 p1 /\ listens (OCPIBind sv) h2 p2 /\
    (p1 = p2 -> h1 <> h2 /\ isWildcardHost h1 = false /\ isWildcardHost h2 = false).

Definition auth_valid (a : Auth) : Prop := present (DefaultIDTag a) /\ matches idTagRe (DefaultIDTag a).

Definition token_valid (t : string) : Prop :=
  present t /\ minTokenLen <= len t /\ has_whitespace t = false.

Record ocpi_valid `{URLs} (o : OCPI) : Prop := {
  ov_country : present (oc_CountryCode o) /\ matches countryCodeRe (oc_CountryCode o);
  ov_party : present (oc_PartyID o) /\ matches partyIDRe (oc_PartyID o);
  ov_url : present (oc_PublicBaseURL o) /\ exists u, url_Parse (oc_PublicBaseURL o) = inl u /\
    (u_Scheme u = "http" \/ u_Scheme u = "https") /\ u_Host u <> EmptyString;
  ov_tokens : token_valid (oc_TokenA o) /\ token_valid (oc_TokenC o) /\ oc_TokenA o <> oc_TokenC o;
  ov_debounce : exists v, reads (Debounce (oc_Push o)) v /\ 0 <= v;
  ov_retries : 0 <= MaxRetries (oc_Push o)
}.

Definition coordinate_valid (p : pattern) (lo hi : Z) (v : string) : Prop :=
  present v /\ exists z, degrees p v = Some z /\ lo * 10 ^ 7 <= z <= hi * 10 ^ 7.

Record connector_valid (c : Connector) : Prop := {
  nv_id : present (cn_ID c);
  nv_standard : present (cn_Standard c) /\ cn_Standard c ∈ connectorStandards;
  nv_format : present (cn_Format c) /\ cn_Format c ∈ connectorFormats;
  nv_power_type : present (cn_PowerType c) /\ cn_PowerType c ∈ powerTypes;
  nv_limits : 0 < cn_MaxVoltage c /\ 0 < cn_MaxAmperage c /\ 0 <= cn_MaxElectricPower c
}.

Definition connectors_valid (l : list Connector) : Prop :=
  l <> [] /\ Forall connector_valid l /\ NoDup (cn_ID <$> l).

Record evse_valid (e : EVSE) : Prop := {
  vv_uid : present (ev_UID e) /\ len (ev_UID e) <= 36;
  vv_evse_id : present (ev_EVSEID e) /\ matches evseIDRe (ev_EVSEID e);
  vv_connector_id : 1 <= ev_OCPPConnectorID e;
  vv_connectors : connectors_valid (ev_Connectors e)
}.

Record evses_valid (l : list EVSE) : Prop := {
  lv_each : Forall evse_valid l;
  lv_uids : NoDup (ev_UID <$> l);
  lv_connector_ids : NoDup (ev_OCPPConnectorID <$> l);
  lv_evse_ids : NoDup (ev_EVSEID <$> l)
}.

Record location_valid (l : Location) : Prop := {
  ov_id : present (lo_ID l) /\ len (lo_ID l) <= 36;
  ov_address : present (lo_Address l);
  ov_city : present (lo_City l);
  ov_alpha3 : present (lo_Country l) /\ matches alpha3Re (lo_Country l);
  ov_latitude : coordinate_valid latitudeRe (-90) 90 (Latitude (lo_Coordinates l));
  ov_longitude : coordinate_valid longitudeRe (-180) 180 (Longitude (lo_Coordinates l));
  ov_evses : lo_EVSEs l <> [] /\ evses_valid (lo_EVSEs l)
}.

Record valid `{URLs} (c : Config) : Prop := {
  va_charger : charger_valid (cf_Charger c);
  va_server : server_valid (cf_Server c);
  va_auth : auth_valid (cf_Auth c);
  va_ocpi : ocpi_valid (cf_OCPI c);
  va_location : location_valid (cf_Location c)
}.

(** ** When a check reports nothing *)

Lemma problem_if_nil b path msg : problem_if b path msg = [] <-> b = false.
Proof. by destruct b. Qed.

Lemma problem_nil path msg : problem path msg = [] <-> False.
Proof. done. Qed.

Lemma required_nil path v k : required path v k = [] <-> present v /\ k = [].
Proof. unfold required, is_blank, present. case_bool_decide; [|tauto]. split; [done|by intros []]. Qed.

Lemma negb_match p s : negb (MatchString p s) = false <-> matches p s.
Proof. rewrite negb_false_iff. apply MatchString_spec. Qed.

Lemma negb_in_set m s : negb (in_set m s) = false <-> s ∈ m.
Proof. unfold in_set. by rewrite negb_false_iff, bool_decide_eq_true. Qed.

Lemma app_quiet {A} (l l' : list A) : l ++ l' = [] <-> l = [] /\ l' = [].
Proof. apply app_nil. Qed.

(** Turns "this check reports nothing" into what was checked. *)
Ltac quiet := repeat progress rewrite ?app_quiet, ?required_nil, ?problem_if_nil, ?problem_nil, ?negb_match, ?negb_in_set,
  ?andb_false_iff, ?orb_false_iff, ?negb_false_iff, ?bool_decide_eq_false, ?bool_decide_eq_true,
  ?Z.ltb_ge, ?Z.leb_gt.

Lemma positiveDuration_nil path d e ok d' :
  positiveDuration path d = (e, ok, d') ->
  (e = [] <-> exists v, reads d v /\ 0 < v) /\ (ok = true <-> e = []) /\
  (forall v, reads d v -> d' = mkDuration (raw d) v).
Proof.
  unfold positiveDuration, parse, reads. destruct (ParseDuration (raw d)) as [v|] eqn:E; cbn.
  - destruct (v <=? 0) eqn:Ev; intros [= <- <- <-].
    + split; [|split; [done|congruence]]. split; [done|]. intros (? & [= <-] & ?). lia.
    + split; [|split; [done|congruence]]. split; [|done]. intros _. exists v. split; [done|lia].
  - intros [= <- <- <-]. split; [|split; [done|by intros]]. split; [done|]. by intros (? & ? & _).
Qed.

Lemma validateCharger_nil ch e ch' :
  validateCharger ch = (e, ch') -> (e = [] <-> charger_valid ch).
Proof.
  unfold validateCharger.
  destruct (positiveDuration _ (ch_HeartbeatInterval ch)) as [[e1 ok1] d1] eqn:E1.
  destruct (positiveDuration _ (ch_HeartbeatTimeout ch)) as [[e2 ok2] d2] eqn:E2.
  destruct (positiveDuration _ (ch_CallTimeout ch)) as [[e3 ok3] d3] eqn:E3.
  apply positiveDuration_nil in E1 as (H1 & O1 & P1), E2 as (H2 & O2 & P2), E3 as (H3 & _ & _).
  intros [= <- _]. quiet. rewrite H1, H2, H3.
  assert (Hip : (if bool_decide (TrimSpace (ch_IP ch) = EmptyString) then [] else
      problem_if (negb (ParseIP (TrimSpace (ch_IP ch))) && negb (isHostname (TrimSpace (ch_IP ch)))) "charger.ip"
        (Quote (TrimSpace (ch_IP ch)) +:+ " is neither an IP address nor a hostname")) = [] <->
    TrimSpace (ch_IP ch) = EmptyString \/ host_like (TrimSpace (ch_IP ch))).
  { case_bool_decide; [tauto|]. quiet. unfold host_like. tauto. }
  rewrite Hip. clear Hip. unfold ocppVersions. rewrite elem_of_list_to_set, !elem_of_cons, elem_of_nil.
  split.
  - intros (? & ? & ? & (i & Hi & ?) & (t & Ht & ?) & ? & Ho).
    split; [done..|tauto| |done]. exists i, t. split; [done|]. split; [done|].
    rewrite (proj2 O1), (proj2 O2) in Ho by naive_solver.
    rewrite (P1 _ Hi), (P2 _ Ht) in Ho. cbn in Ho. destruct Ho as [[?|?]|?]; [done..|lia].
  - intros [? ? ? (i & t & Hi & Ht & ?) ?]. split; [done|]. split; [done|]. split; [tauto|].
    split; [exists i; split; [done|lia]|]. split; [exists t; split; [done|lia]|]. split; [done|].
    right. rewrite (P1 _ Hi), (P2 _ Ht). cbn. lia.
Qed.

Lemma validateBind_nil path bind e o :
  validateBind path bind = (e, o) ->
  (e = [] <-> exists h p, listens bind h p) /\ (forall h p, listens bind h p -> o = Some (h, p)).
Proof.
  unfold validateBind, listens. intros Hv.
  assert (Hcut : forall h p, (exists ps, SplitHostPort bind = Some (h, ps) /\ Atoi ps = Some p) ->
    present bind -> 1 <= p <= 65535 ->
    (e, o) = if negb (bool_decide (h = EmptyString)) && negb (isWildcardHost h) && negb (ParseIP h) && negb (isHostname h)
             then (problem path (Quote h +:+ " is not a valid host"), None) else ([], Some (h, p))).
  { intros h p (ps & Hs & Hp) Hb Hr. rewrite <- Hv. unfold is_blank, present in *. rewrite bool_decide_eq_false_2, Hs, Hp by done.
    rewrite (proj2 (Z.ltb_ge p 0)), (proj2 (Z.ltb_ge 65535 p)), (proj2 (Z.eqb_neq p 0)) by lia. done. }
  assert (Hwild : forall h, isWildcardHost h = true \/ host_like h <->
    negb (bool_decide (h = EmptyString)) && negb (isWildcardHost h) && negb (ParseIP h) && negb (isHostname h) = false).
  { intros h. unfold host_like. quiet. unfold isWildcardHost. rewrite bool_decide_eq_true.
    split; [tauto|]. intros [[[->|?]|?]|?]; [left; by left|tauto..]. }
  split; [split|].
  - intros ->. unfold is_blank in Hv. case_bool_decide as Hb; [done|].
    destruct (SplitHostPort bind) as [[h ps]|] eqn:Es; [|done].
    destruct (Atoi ps) as [p|] eqn:Ep; [|done].
    destruct ((p <? 0) || (65535 <? p)) eqn:Er; [done|]. destruct (Z.eqb_spec p 0); [done|].
    apply orb_false_elim in Er as []. exists h, p. split; [done|]. split; [by exists ps|]. split; [lia|].
    apply Hwild. by destruct (_ && _ && _ && _).
  - intros (h & p & Hb & Hs & Hr & Hw). pose proof (Hcut h p Hs Hb Hr) as He.
    rewrite (proj1 (Hwild h) Hw) in He. by injection He as -> ->.
  - intros h p (Hb & Hs & Hr & Hw). pose proof (Hcut h p Hs Hb Hr) as He.
    rewrite (proj1 (Hwild h) Hw) in He. by injection He as -> ->.
Qed.

Lemma validateServer_nil sv : validateServer sv = [] <-> server_valid sv.
Proof.
  unfold validateServer.
  destruct (validateBind _ (OCPPBind sv)) as [e1 o1] eqn:E1.
  destruct (validateBind _ (OCPIBind sv)) as [e2 o2] eqn:E2.
  apply validateBind_nil in E1 as [H1 O1], E2 as [H2 O2]. quiet. rewrite H1, H2. split.
  - intros ((h1 & p1 & L1) & (h2 & p2 & L2) & Hc). exists h1, p1, h2, p2. split; [done|]. split; [done|].
    rewrite (O1 _ _ L1), (O2 _ _ L2) in Hc. revert Hc. quiet. intros [?|[[? ?] ?]] Heq; [lia|done].
  - intros (h1 & p1 & h2 & p2 & L1 & L2 & Hc). split; [by exists h1, p1|]. split; [by exists h2, p2|].
    rewrite (O1 _ _ L1), (O2 _ _ L2). quiet. destruct (Z.eqb_spec p1 p2); [right|by left].
    destruct Hc as (? & ? & ?); [done|]. done.
Qed.

Lemma validateAuth_nil a : validateAuth a = [] <-> auth_valid a.
Proof. unfold validateAuth. by quiet. Qed.

Lemma validateToken_nil path t : validateToken path t = [] <-> token_valid t.
Proof. unfold validateToken, token_valid. quiet. tauto. Qed.

Section ocpi.
Context `{URLs}.

Lemma validateURL_nil s :
  validateURL s = [] <-> present s /\ exists u, url_Parse s = inl u /\
    (u_Scheme u = "http" \/ u_Scheme u = "https") /\ u_Host u <> EmptyString.
Proof.
  unfold validateURL. quiet. apply and_iff_compat_l.
  destruct (url_Parse s) as [u|err]; [|split; [done|by intros (? & ? & _)]].
  destruct (negb _ && negb _) eqn:Es.
  - split; [done|]. intros (? & [= <-] & Hs & _). revert Es. quiet. intros [? ?]%andb_prop.
    rewrite negb_true_iff, bool_decide_eq_false in *. tauto.
  - quiet. revert Es. quiet. intros Es. split.
    + intros Hh. by exists u.
    + by intros (? & [= <-] & _ & ?).
Qed.

Lemma validateDebounce_nil d e d' :
  validateDebounce d = (e, d') -> (e = [] <-> exists v, reads d v /\ 0 <= v).
Proof.
  unfold validateDebounce, parse, reads. destruct (ParseDuration (raw d)) as [v|]; cbn; intros [= <- _].
  - quiet. split; [by exists v|]. by intros (? & [= <-] & ?).
  - split; [done|]. by intros (? & ? & _).
Qed.

Lemma validateOCPI_nil o e o' : validateOCPI o = (e, o') -> (e = [] <-> ocpi_valid o).
Proof.
  unfold validateOCPI. destruct (validateDebounce _) as [e1 d] eqn:E1. intros [= <- _].
  apply validateDebounce_nil in E1. quiet. rewrite E1, validateURL_nil, !validateToken_nil. split.
  - intros (? & ? & ? & Ha & ? & Hd & ? & ?). split; [tauto..| |tauto|done].
    split; [done|]. split; [done|]. destruct Hd as [Hd|Hd]; [|done].
    destruct Ha as [Ha _]. intros Heq. unfold present in Ha. by rewrite Hd in Ha.
  - intros [? ? ? (? & ? & ?) ? ?]. tauto.
Qed.
End ocpi.

Lemma validateCoordinate_nil path v p lo hi :
  validateCoordinate path v p lo hi = [] <-> coordinate_valid p lo hi v.
Proof.
  unfold validateCoordinate, coordinate_valid. quiet. apply and_iff_compat_l.
  destruct (degrees p v) as [z|]; [|split; [done|by intros (? & ? & _)]].
  quiet. split; [intros []; exists z; split; [done|lia]|]. intros (? & [= <-] & ?). lia.
Qed.

(** ** The loops: what is seen so far is taken *)

Lemma note_lookup {K} `{Countable K} (there : bool) (k : K) i (m : gmap K Z) x :
  there = true -> is_Some (note there k i m !! x) <-> x = k \/ is_Some (m !! x).
Proof.
  intros ->. unfold note. destruct (m !! k) as [j|] eqn:E.
  - split; [by right|]. intros [->|?]; [by eexists|done].
  - rewrite lookup_insert_is_Some. destruct (decide (k = x)); naive_solver.
Qed.

Lemma seen_nil {K} `{Countable K} (m : gmap K Z) k (p : Z -> ValidationErrors) :
  (forall i, p i <> []) -> match m !! k with Some i => p i | None => [] end = [] <-> m !! k = None.
Proof. intros Hp. destruct (m !! k) as [i|]; [|done]. split; [by intros ?%Hp|done]. Qed.

(** One step of a duplicate check: the head is new, and the rest is new after
    it. *)
Lemma fresh_step {K A} `{Countable K} (f : A -> K) (there : bool) i (m : gmap K Z) x l :
  there = true ->
  m !! f x = None /\ (NoDup (f <$> l) /\ forall y, y ∈ l -> note there (f x) i m !! f y = None) <->
  NoDup (f <$> x :: l) /\ forall y, y ∈ x :: l -> m !! f y = None.
Proof.
  intros Ht. rewrite fmap_cons, NoDup_cons. setoid_rewrite eq_None_not_Some.
  setoid_rewrite (note_lookup there (f x) i m); [|done]. split.
  - intros (Hx & Hnd & Hl). split; [split; [|done]|].
    + intros (y & Heq & Hy)%list_elem_of_fmap. apply (Hl y Hy). by left.
    + intros y [->|Hy]%elem_of_cons; [done|]. intros Hs. apply (Hl y Hy). by right.
  - intros [[Hx Hnd] Hl]. split; [apply Hl; by left|]. split; [done|].
    intros y Hy [Heq|Hs]; [|by apply (Hl y); [right|]]. apply Hx, list_elem_of_fmap. by exists y.
Qed.

Lemma present_blank s : present s <-> negb (is_blank s) = true.
Proof. unfold present, is_blank. by rewrite negb_true_iff, bool_decide_eq_false. Qed.

Lemma validateConnector_nil base path m c :
  validateConnector base path m c = [] <-> connector_valid c /\ m !! cn_ID c = None.
Proof.
  unfold validateConnector. quiet. rewrite seen_nil by done. split.
  - intros ([? ?] & ? & ? & ? & ? & ? & ?). by split.
  - intros [[? ? ? ? (? & ? & ?)] ?]. done.
Qed.

Lemma connectors_loop_nil base l : forall j m,
  connectors_loop base j m l = [] <->
  Forall connector_valid l /\ NoDup (cn_ID <$> l) /\ forall c, c ∈ l -> m !! cn_ID c = None.
Proof.
  induction l as [|c l IH]; intros j m; cbn [connectors_loop].
  - split; [|done]. intros _. split; [constructor|]. split; [apply NoDup_nil_2|]. by intros c ?%not_elem_of_nil.
  - quiet. rewrite validateConnector_nil, IH, Forall_cons. split.
    + intros [[Hc Hm] [Hl Hn]]. split; [done|].
      apply (fresh_step cn_ID (negb (is_blank (cn_ID c))) j); [|done]. apply present_blank, Hc.
    + intros [[Hc Hl] Hn]. apply (fresh_step cn_ID (negb (is_blank (cn_ID c))) j) in Hn as [Hm Hn];
        [done|apply present_blank, Hc].
Qed.

Lemma validateConnectors_nil base l : validateConnectors base l = [] <-> connectors_valid l.
Proof.
  unfold validateConnectors, connectors_valid. destruct l as [|c l]; [split; [done|by intros []]|].
  rewrite connectors_loop_nil. split; [by intros (? & ? & _)|]. by intros (_ & ? & ?).
Qed.

Definition unseen (s : seen) (e : EVSE) : Prop :=
  seenUID s !! ev_UID e = None /\ seenConnectorID s !! ev_OCPPConnectorID e = None /\
  seenEVSEID s !! ev_EVSEID e = None.

Lemma validateEVSE_nil base s e : validateEVSE base s e = [] <-> evse_valid e /\ unseen s e.
Proof.
  unfold validateEVSE, unseen. quiet. rewrite !seen_nil, validateConnectors_nil by done. split.
  - intros ([? [? ?]] & [? [? ?]] & Hc & ?). destruct (ev_OCPPConnectorID e <? 1) eqn:E; [done|].
    rewrite seen_nil in Hc by done. split; [|done]. split; [done..|lia|done].
  - intros [[[? ?] [? ?] ? ?] (? & ? & ?)]. rewrite (proj2 (Z.ltb_ge _ _)), seen_nil by (lia || done). done.
Qed.

(** What one duplicate check asks of the EVSEs still to come. *)
Definition fresh {K} `{Countable K} (f : EVSE -> K) (m : gmap K Z) (l : list EVSE) : Prop :=
  NoDup (f <$> l) /\ forall e, e ∈ l -> m !! f e = None.

Lemma evses_split s l :
  evses_valid l /\ (forall e, e ∈ l -> unseen s e) <->
  Forall evse_valid l /\ fresh ev_UID (seenUID s) l /\ fresh ev_OCPPConnectorID (seenConnectorID s) l /\
  fresh ev_EVSEID (seenEVSEID s) l.
Proof.
  unfold fresh, unseen. split.
  - intros [[? ? ? ?] Hu]. repeat split; try done; intros e He; by destruct (Hu e He) as (? & ? & ?).
  - intros (Hv & [U Hu] & [C Hc] & [I Hi]). split; [done|]. intros e He. auto.
Qed.

Lemma evses_loop_nil l : forall i s,
  evses_loop i s l = [] <-> evses_valid l /\ forall e, e ∈ l -> unseen s e.
Proof.
  induction l as [|e l IH]; intros i s; cbn [evses_loop].
  - split; [|done]. intros _. split; [|by intros e ?%not_elem_of_nil].
    split; [constructor|apply NoDup_nil_2..].
  - quiet. rewrite validateEVSE_nil, IH, !evses_split, Forall_cons. clear IH.
    unfold unseen, note_evse. cbn [seenUID seenConnectorID seenEVSEID].
    assert (Hthere : evse_valid e -> negb (is_blank (ev_UID e)) = true /\ (1 <=? ev_OCPPConnectorID e) = true /\
      negb (is_blank (ev_EVSEID e)) = true).
    { intros [[? ?] [? ?] ? ?]. split; [by apply present_blank|]. split; [lia|by apply present_blank]. }
    split.
    + intros [[He (U1 & U2 & U3)] (Hl & F1 & F2 & F3)]. destruct (Hthere He) as (T1 & T2 & T3).
      split; [done|]. split; [|split]; (eapply fresh_step; [|by split]); done.
    + intros ([He Hl] & F1 & F2 & F3). destruct (Hthere He) as (T1 & T2 & T3).
      apply (fresh_step _ _ i _ _ _ T1) in F1. apply (fresh_step _ _ i _ _ _ T2) in F2.
      apply (fresh_step _ _ i _ _ _ T3) in F3. unfold fresh. tauto.
Qed.

Lemma validateLocation_nil l : validateLocation l = [] <-> location_valid l.
Proof.
  unfold validateLocation. quiet. rewrite !validateCoordinate_nil.
  assert (He : match lo_EVSEs l with
    | [] => problem "location.evses" "at least one EVSE is required"
    | _ => evses_loop 0 (mkSeen ∅ ∅ ∅) (lo_EVSEs l) end = [] <-> lo_EVSEs l <> [] /\ evses_valid (lo_EVSEs l)).
  { destruct (lo_EVSEs l) as [|e es]; [split; [done|by intros []]|]. rewrite evses_loop_nil.
    split; [by intros []|]. intros [_ ?]. split; [done|]. intros x _. by repeat split. }
  rewrite He. clear He. split.
  - by intros (? & [? _] & [? _] & ? & ? & ? & ?).
  - by intros [? ? ? ? ? ? ?].
Qed.

(** ** Everything *)

Section validate.
Context `{URLs}.

Lemma Validate_nil c : (Validate c).1 = [] <-> valid c.
Proof.
  unfold Validate. destruct (validateCharger _) as [e1 ch] eqn:E1. destruct (validateOCPI _) as [e4 oc] eqn:E4.
  apply validateCharger_nil in E1. apply validateOCPI_nil in E4. cbn [fst]. unfold sortByPath.
  rewrite SliceStable_nil. quiet.
  rewrite E1, E4, validateServer_nil, validateAuth_nil, validateLocation_nil. split.
  - by intros (? & ? & ? & ? & ?).
  - by intros [? ? ? ? ?].
Qed.

Lemma Validate_sorted c : StronglySorted (ascending fe_Path) (Validate c).1.
Proof. unfold Validate. destruct (validateCharger _), (validateOCPI _). apply SliceStable_sorted. Qed.

(** C21: Validation reports nothing exactly when the configuration is usable by
    the declarative rules [valid]; what it reports is in the order of the
    paths. *)
Theorem Validate_iff c :
  ((Validate c).1 = [] <-> valid c) /\ StronglySorted (ascending fe_Path) (Validate c).1.
Proof. split; [apply Validate_nil|apply Validate_sorted]. Qed.
End validate.
