(* ===== verification/ConfigLoad.v ===== *)
(** * Loading the configuration (config/load.go)

    What the YAML decoder makes of the file is a parameter: a configuration (and
    whether another document follows), the end of the file, the type errors it
    collected, or another error's text.  From there on everything is the
    repository's own: normalising, defaults, validation, and turning decoder
    errors into field errors. *)

From S2P Require Import Prelude GoLib GoUtf8 GoTime GoDuration Errors GoRegexp GoSort GoNet.
From S2P Require Import Config Validate ConfigProps.

#[local] Arguments TrimSpace : simpl never.

(** The outcome of [dec.Decode(&cfg)], and whether a second [Decode] succeeds. *)
Inductive YAML :=
| Decoded (c : Config) (more : bool)
| EOF
| TypeError (errs : list string)
| OtherError (text : string).

(** [strings.TrimRight] with a one-byte cutset. *)
Fixpoint trim_right (c : ascii) (s : string) : string :=
  match s with
  | EmptyString => EmptyString
  | String a r =>
    match trim_right c r with
    | EmptyString => if bool_decide (a = c) then EmptyString else String a EmptyString
    | r' => String a r'
    end
  end.

(** [strings.TrimPrefix]. *)
Definition TrimPrefix (s prefix : string) : string :=
  if String.prefix prefix s then
    String.substring (String.length prefix) (String.length s - String.length prefix) s
  else s.

(** ** normalize *)

Definition normalize_connector (c : Connector) : Connector :=
  mkConnector (TrimSpace (cn_ID c)) (TrimSpace (cn_Standard c)) (TrimSpace (cn_Format c))
    (TrimSpace (cn_PowerType c)) (cn_MaxVoltage c) (cn_MaxAmperage c) (cn_MaxElectricPower c).

Definition normalize_evse (e : EVSE) : EVSE :=
  mkEVSE (TrimSpace (ev_UID e)) (TrimSpace (ev_EVSEID e)) (ev_OCPPConnectorID e)
    (normalize_connector <$> ev_Connectors e).

Definition normalize (c : Config) : Config :=
  let ch := cf_Charger c in
  let sv := cf_Server c in
  let oc := cf_OCPI c in
  let lo := cf_Location c in
  mkConfig
    (mkCharger (TrimSpace (ch_ID ch)) (TrimSpace (ch_IP ch)) (TrimSpace (ch_OCPPVersion ch))
       (ch_HeartbeatInterval ch) (ch_HeartbeatTimeout ch) (ch_CallTimeout ch))
    (mkServer (TrimSpace (OCPPBind sv)) (TrimSpace (OCPIBind sv)))
    (mkAuth (TrimSpace (DefaultIDTag (cf_Auth c))))
    (mkOCPI (TrimSpace (oc_CountryCode oc)) (TrimSpace (oc_PartyID oc))
       (trim_right "/"%char (TrimSpace (oc_PublicBaseURL oc)))
       (TrimSpace (oc_TokenA oc)) (TrimSpace (oc_TokenC oc)) (oc_Push oc))
    (mkLocation (TrimSpace (lo_ID lo)) (lo_Name lo) (lo_Address lo) (lo_City lo) (lo_PostalCode lo)
       (TrimSpace (lo_Country lo))
       (mkCoordinates (TrimSpace (Latitude (lo_Coordinates lo))) (TrimSpace (Longitude (lo_Coordinates lo))))
       (normalize_evse <$> lo_EVSEs lo)).

(** ** Decoder errors *)

Definition typeYAMLPath : list (string * string) := [
  ("config.Config", "");
  ("config.Charger", "charger");
  ("config.Server", "server");
  ("config.Auth", "auth");
  ("config.OCPI", "ocpi");
  ("config.Push", "ocpi.push");
  ("config.Location", "location");
  ("config.Coordinates", "location.coordinates");
  ("config.EVSE", "location.evses[]");
  ("config.Connector", "location.evses[].connectors[]")].

(** [\S]: anything but tab, newline, form feed, carriage return and space. *)
Definition not_space (a : ascii) : bool := negb (bool_decide (byte_val a ∈ [9; 10; 12; 13; 32])).
(** [.]: anything but newline. *)
Definition not_newline (a : ascii) : bool := negb (byte_val a =? 10).

Definition unknownFieldRe : pattern :=
  literal "line " ++ many 1 is_digit :: literal ": field " ++ many 1 not_space ::
  literal " not found in type " ++ [many 1 not_space].
Definition lineRe : pattern :=
  literal "line " ++ many 1 is_digit :: literal ": " ++ [many 0 not_newline].

(** The text of the [n]-th piece: a group's submatch. *)
Definition group (n : nat) (ws : list string) : string := default EmptyString (ws !! n).

(** [typeYAMLPath]'s entry for a type, when it has a non-empty one. *)
Definition type_path (name : string) : option string :=
  match first_such (fun p => bool_decide (p.1 = name)) typeYAMLPath with
  | Some (_, prefix) => if bool_decide (prefix = EmptyString) then None else Some prefix
  | None => None
  end.

Definition yamlError (msg : string) : FieldError :=
  match submatches unknownFieldRe msg with
  | Some ws =>
    let line := group 5 ws in
    let field := group 14 ws in
    let typeName := group 34 ws in
    mkFieldError
      match type_path typeName with Some prefix => prefix +:+ "." +:+ field | None => field end
      ("unknown field (line " +:+ line +:+ ")")
  | None =>
    match submatches lineRe msg with
    | Some ws => mkFieldError ("line " +:+ group 5 ws) (group 8 ws)
    | None => mkFieldError EmptyString msg
    end
  end.

(** ** parse *)

Section parse.
Context `{URLs}.

(** The configuration, or the errors the operator is shown. *)
Definition parse_file (y : YAML) : Config + ValidationErrors :=
  match y with
  | EOF => inr (problem EmptyString "file is empty")
  | TypeError errs => inr (yamlError <$> errs)
  | OtherError text => inr (problem EmptyString (TrimPrefix text "yaml: "))
  | Decoded _ true => inr (problem EmptyString "file contains more than one YAML document")
  | Decoded cfg false =>
    match Validate (applyDefaults (normalize cfg)) with
    | ([], cfg) => inl cfg
    | (errs, _) => inr errs
    end
  end.
End parse.

Example yamlError_samples :
  yamlError "line 5: field hearbeat_timeout not found in type config.Charger" =
    mkFieldError "charger.hearbeat_timeout" "unknown field (line 5)" /\
  yamlError "line 12: field foo not found in type config.Config" = mkFieldError "foo" "unknown field (line 12)" /\
  yamlError "line 7: cannot unmarshal !!str `x` into int" =
    mkFieldError "line 7" "cannot unmarshal !!str `x` into int" /\
  TrimPrefix "yaml: line 3: bad" "yaml: " = "line 3: bad" /\ TrimPrefix "EOF" "yaml: " = "EOF" /\
  trim_right "/"%char "http://a//" = "http://a" /\
  yamlError "something else" = mkFieldError "" "something else".
Proof. vm_compute. done. Qed.

(** ** What a loaded configuration satisfies *)

(** Every normalised field but the URL, which loses its trailing slashes. *)
Lemma normalize_settled c :
  trim_right "/"%char (TrimSpace (oc_PublicBaseURL (cf_OCPI (normalize c)))) = oc_PublicBaseURL (cf_OCPI (normalize c)) ->
  normalize (normalize c) = normalize c.
Proof.
  assert (Hc : forall x, normalize_connector (normalize_connector x) = normalize_connector x)
    by (intros []; unfold normalize_connector; cbn; by rewrite !TrimSpace_idemp).
  assert (He : forall x, normalize_evse (normalize_evse x) = normalize_evse x).
  { intros []; unfold normalize_evse; cbn. rewrite !TrimSpace_idemp, <- list_fmap_compose. f_equal.
    apply list_fmap_ext. intros ? x _. apply Hc. }
  intros Hu. unfold normalize in Hu |- *. cbn in Hu |- *. rewrite !TrimSpace_idemp, Hu, <- list_fmap_compose.
  do 2 f_equal. apply list_fmap_ext. intros ? x _. apply He.
Qed.

(** A duration resolved to what its text says. *)
Definition resolved (d : Duration) : Prop := ParseDuration (raw d) = Some (dur d).

(** A configuration as the rest of the program gets it. *)
Record usable `{URLs} (c : Config) : Prop := {
  us_valid : valid c;
  us_distinct : evses_distinct c;
  us_resolved : resolved (ch_HeartbeatInterval (cf_Charger c)) /\ resolved (ch_HeartbeatTimeout (cf_Charger c)) /\
    resolved (ch_CallTimeout (cf_Charger c)) /\ resolved (Debounce (oc_Push (cf_OCPI c)));
  us_order : 0 < dur (ch_HeartbeatInterval (cf_Charger c)) < dur (ch_HeartbeatTimeout (cf_Charger c));
  us_positive : 0 < dur (ch_CallTimeout (cf_Charger c)) /\ 0 <= dur (Debounce (oc_Push (cf_OCPI c)))
}.

Section loaded.
Context `{URLs}.

Definition resolve (d : Duration) : Duration := default d (parse d).
#[local] Arguments resolve : simpl never.

Lemma resolve_raw d : raw (resolve d) = raw d.
Proof. unfold resolve, parse. by destruct (ParseDuration (raw d)). Qed.

Lemma resolve_resolved d v : reads d v -> resolved (resolve d) /\ dur (resolve d) = v.
Proof. unfold reads, resolved, resolve, parse. intros E. rewrite E. done. Qed.

(** What validation leaves: the same configuration with its durations resolved. *)
Definition resolve_all (c : Config) : Config :=
  let ch := cf_Charger c in
  let oc := cf_OCPI c in
  mkConfig
    (mkCharger (ch_ID ch) (ch_IP ch) (ch_OCPPVersion ch) (resolve (ch_HeartbeatInterval ch))
       (resolve (ch_HeartbeatTimeout ch)) (resolve (ch_CallTimeout ch)))
    (cf_Server c) (cf_Auth c)
    (mkOCPI (oc_CountryCode oc) (oc_PartyID oc) (oc_PublicBaseURL oc) (oc_TokenA oc) (oc_TokenC oc)
       (mkPush (resolve (Debounce (oc_Push oc))) (MaxRetries (oc_Push oc))))
    (cf_Location c).

Lemma positiveDuration_resolve path d : (positiveDuration path d).2 = resolve d.
Proof.
  unfold positiveDuration, resolve. destruct (parse d) as [d'|]; [|done]. by destruct (dur d' <=? 0).
Qed.

Lemma validateDebounce_resolve d : (validateDebounce d).2 = resolve d.
Proof. unfold validateDebounce, resolve. by destruct (parse d). Qed.

Lemma Validate_resolves c : (Validate c).2 = resolve_all c.
Proof.
  unfold Validate, resolve_all, validateCharger, validateOCPI.
  rewrite <- (positiveDuration_resolve "charger.heartbeat_interval"),
    <- (positiveDuration_resolve "charger.heartbeat_timeout"),
    <- (positiveDuration_resolve "charger.call_timeout"), <- validateDebounce_resolve.
  destruct (positiveDuration _ (ch_HeartbeatInterval _)) as [[? ?] ?].
  destruct (positiveDuration _ (ch_HeartbeatTimeout _)) as [[? ?] ?].
  destruct (positiveDuration _ (ch_CallTimeout _)) as [[? ?] ?].
  by destruct (validateDebounce _) as [? ?].
Qed.

(** Only the texts of the durations matter to validity. *)
Lemma valid_resolve_all c : valid c -> valid (resolve_all c).
Proof.
  intros [[? ? ? Hh Hc] ? ? [? ? ? ? Hd ?] ?].
  split; [split|..| split|]; cbn; try done; unfold reads in *; by setoid_rewrite resolve_raw.
Qed.

Lemma resolve_idemp d : resolve (resolve d) = resolve d.
Proof.
  unfold resolve at 1 3. unfold parse. rewrite resolve_raw. unfold resolve, parse.
  destruct (ParseDuration (raw d)) eqn:E; cbn; by rewrite ?E.
Qed.

(** What loads is a valid configuration with its durations resolved. *)
Lemma parse_file_valid y c : parse_file y = inl c -> valid c /\ exists c0, valid c0 /\ c = resolve_all c0.
Proof.
  unfold parse_file. destruct y as [cfg [|]| |errs|text]; try done.
  set (c0 := applyDefaults (normalize cfg)). pose proof (Validate_nil c0) as Hv.
  pose proof (Validate_resolves c0) as Hr. destruct (Validate c0) as [[|e es] c'] eqn:E; [|done].
  clearbody c0. cbn in Hv, Hr. intros [= <-]. apply proj1 in Hv. specialize (Hv eq_refl).
  split; [rewrite Hr; by apply valid_resolve_all|]. by exists c0.
Qed.

(** C26: a file that loads gives a usable configuration, and one that validates
    again to itself. *)
Theorem loaded_usable y c : parse_file y = inl c -> usable c /\ Validate c = ([], c).
Proof.
  intros (Hv' & c0 & Hv & Hr)%parse_file_valid. split.
  - destruct (cv_heartbeat _ (va_charger _ Hv)) as (i & t & Hi & Ht & Hit).
    destruct (cv_call _ (va_charger _ Hv)) as (v & Hc & Hpos).
    destruct (ov_debounce _ (va_ocpi _ Hv)) as (b & Hb & Hnn).
    apply resolve_resolved in Hi as [Ri Di], Ht as [Rt Dt], Hc as [Rc Dc], Hb as [Rb Db].
    split; [done| |rewrite Hr; by repeat split|rewrite Hr; cbn; lia|rewrite Hr; cbn; lia].
    pose proof (va_location _ Hv') as [_ _ _ _ _ _ [_ [_ Hu Hc _]]]. by split.
  - pose proof (proj2 (Validate_nil c) Hv') as Hn. pose proof (Validate_resolves c) as Hr'.
    destruct (Validate c) as [errs c2]. cbn in Hn, Hr'. subst errs c2. f_equal.
    rewrite Hr. unfold resolve_all. cbn. by rewrite !resolve_idemp.
Qed.

(** A file that does not load says why, and problems validation finds come
    in the order of their paths, those of one path in the order of the checks. *)
Theorem refused_explains y errs :
  parse_file y = inr errs ->
  match y with
  | Decoded cfg false =>
    errs <> [] /\ ~ valid (applyDefaults (normalize cfg)) /\ StronglySorted (ascending fe_Path) errs
  | TypeError es => errs = yamlError <$> es
  | _ => exists msg, errs = problem EmptyString msg
  end.
Proof.
  unfold parse_file. destruct y as [cfg [|]| |es|text]; try (intros [= <-]; by eexists).
  set (c0 := applyDefaults (normalize cfg)). pose proof (Validate_nil c0) as Hv.
  pose proof (Validate_sorted c0) as Hs.
  destruct (Validate c0) as [[|e es] c']; [done|]. intros [= <-]. split; [done|].
  split; [|done]. by intros ?%Hv.
Qed.
End loaded.

(** ** Instances: a minimal file *)

Definition no_duration : Duration := mkDuration EmptyString 0.

Definition minimal_connector : Connector := mkConnector "1" "IEC_62196_T2_COMBO" "CABLE" "DC" 920 500 0.

Definition minimal_config : Config :=
  mkConfig
    (mkCharger "alpi-1" "" "" no_duration no_duration no_duration)
    (mkServer "" "") (mkAuth "OFFICE01")
    (mkOCPI "DE" "FRY" "http://cpms.local:8080/ " "token-a-1234" "token-c-1234" (mkPush no_duration 0))
    (mkLocation "LOC1" "Office" "Street 1" "Berlin" "10115" "DEU" (mkCoordinates "52.520008" "13.404954")
       [mkEVSE " E1 " "DE*FRY*E001*1" 1 [minimal_connector]; mkEVSE "E2" "DE*FRY*E001*2" 2 [minimal_connector]]).

Definition minimal_loaded : Config :=
  match @parse_file sample_urls (Decoded minimal_config false) with inl c => c | inr _ => minimal_config end.

Definition twice_one_uid : Config :=
  mkConfig (cf_Charger minimal_config) (cf_Server minimal_config) (cf_Auth minimal_config) (cf_OCPI minimal_config)
    (mkLocation "LOC1" "Office" "Street 1" "" "10115" "DEU" (mkCoordinates "52.520008" "190.000000")
       [mkEVSE "E1" "DE*FRY*E001*1" 1 [minimal_connector]; mkEVSE "E1" "DE*FRY*E001*2" 0 []]).

Definition twice_one_uid_errors : ValidationErrors :=
  match @parse_file sample_urls (Decoded twice_one_uid false) with inl _ => [] | inr errs => errs end.

Example refused_paths : Paths twice_one_uid_errors =
  ["location.city"; "location.coordinates.longitude"; "location.evses[1].connectors";
   "location.evses[1].ocpp_connector_id"; "location.evses[1].uid"].
Proof. vm_compute. done. Qed.

Lemma loaded_usable_witness :
  @parse_file sample_urls (Decoded minimal_config false) = inl minimal_loaded /\
  @usable sample_urls minimal_loaded /\ (ev_UID <$> lo_EVSEs (cf_Location minimal_loaded)) = ["E1"; "E2"].
Proof.
  split; [vm_compute; reflexivity|]. split; [|vm_compute; reflexivity].
  refine (proj1 (@loaded_usable sample_urls (Decoded minimal_config false) minimal_loaded _)).
  vm_compute. reflexivity.
Defined.

Lemma refused_explains_witness :
  @parse_file sample_urls (Decoded twice_one_uid false) = inr twice_one_uid_errors /\ twice_one_uid_errors <> [].
Proof.
  split; [vm_compute; reflexivity|].
  refine (proj1 (@refused_explains sample_urls (Decoded twice_one_uid false) twice_one_uid_errors _)).
  vm_compute. reflexivity.
Defined.
