(* ===== verification/Ocpi.v ===== *)
(** * The OCPI server (ocpi/: auth.go, envelope.go, context.go, module.go,
    server.go, credentials.go)

    A handler changes the response writer it is given.  One request is one run
    of [ServeHTTP]: the clock when it answers and the fresh ids it may need are
    arguments.  The SHA-256 digest is a parameter; listening,
    the lifetime context and Shutdown are in OcpiShutdown.v. *)

From S2P Require Import Prelude GoLib GoTime Errors GoRegexp GoSort GoUtf8 GoNet GoBase64 GoHttp Json GoHttpServe.

(** ** auth.go *)

Definition Access : Type := Z.
Definition AccessNone : Access := 0.
Definition AccessRegistration : Access := 1.
Definition AccessModules : Access := 2.

Definition Access_String (a : Access) : string :=
  if a =? AccessNone then "none"
  else if a =? AccessRegistration then "registration"
  else if a =? AccessModules then "modules"
  else "unknown".

Definition Authenticator : Type := string -> Access.

Class Digest := { Sum256 : string -> string }.

Section auth.
Context `{Digest}.

(** An expected token, as its digest. *)
Record Secret := mkSecret { sum : string }.
Definition NewSecret (token : string) : Secret := mkSecret (Sum256 token).
Definition Matches (s : Secret) (token : string) : bool := bool_decide (Sum256 token = sum s).

Definition NewStaticAuthenticator (tokenA : string) : Authenticator :=
  let a := NewSecret tokenA in
  fun token => if Matches a token then AccessRegistration else AccessNone.
End auth.

Definition tokenFromRequest (r : Request) : option string :=
  '(scheme, encoded) ← Cut " "%char (Get "Authorization" (rq_Header r));
  if negb (EqualFold scheme "Token") then None
  else
    token ← StrictDecode (TrimSpace encoded);
    if bool_decide (token = EmptyString) then None else Some token.

(** ** envelope.go *)

Definition StatusSuccess : Z := 1000.
Definition StatusClientError : Z := 2000.
Definition StatusInvalidParameters : Z := 2001.
Definition StatusNotEnoughInformation : Z := 2002.
Definition StatusUnknownLocation : Z := 2003.
Definition StatusUnknownToken : Z := 2004.
Definition StatusServerError : Z := 3000.
Definition StatusClientAPIUnusable : Z := 3001.
Definition StatusUnsupportedVersion : Z := 3002.
Definition StatusNoMatchingEndpoints : Z := 3003.

(** What a handler passes as data: nil, something that encodes, or not. *)
Inductive Data := NoData | HasData (j : json) | Unencodable.

Record Response := mkResponse { Data_ : Data; StatusCode : Z; StatusMessage : string; Timestamp : string }.

Definition Response_json (r : Response) : option json :=
  data ← match Data_ r with
         | NoData => Some []
         | HasData j => Some [("data", j)]
         | Unencodable => None
         end;
  Some (JObj (data ++ [("status_code", JInt (StatusCode r))] ++
              omit_empty "status_message" (StatusMessage r) ++ [("timestamp", JStr (Timestamp r))])).

Definition FormatDateTime (t : Time) : string := FormatRFC3339 (UTC t).

(** server.go's [responseWriter]. *)
Record responseWriter := mkResponseWriter { rw_inner : Writer; rw_now : Time; rw_code : Z }.

#[export] Instance responseWriter_ResponseWriter : ResponseWriter responseWriter := {
  header_of w := header_of (rw_inner w);
  with_header f w := mkResponseWriter (with_header f (rw_inner w)) (rw_now w) (rw_code w);
  WriteHeader code w :=
    mkResponseWriter (WriteHeader code (rw_inner w)) (rw_now w) (if rw_code w =? 0 then code else rw_code w);
  Write c w := mkResponseWriter (Write c (rw_inner w)) (rw_now w) (if rw_code w =? 0 then 200 else rw_code w)
}.

Definition rw_status (w : responseWriter) : Z := if rw_code w =? 0 then 200 else rw_code w.

(** [data] in the envelope's bytes; an envelope that cannot be encoded becomes
    a server error. *)
Definition encoded (httpStatus : Z) (resp : Response) : Z * json :=
  match Response_json resp with
  | Some j => (httpStatus, j)
  | None =>
    (500, JObj [("status_code", JInt StatusServerError);
                ("status_message", JStr "response could not be encoded"); ("timestamp", JStr (Timestamp resp))])
  end.

Definition writeEnvelope (httpStatus : Z) (resp : Response) (w : responseWriter) : responseWriter :=
  let resp := mkResponse (Data_ resp) (StatusCode resp) (StatusMessage resp) (FormatDateTime (rw_now w)) in
  let '(status, body) := encoded httpStatus resp in
  Write (CJson body) (WriteHeader status (with_header (Set_ "Content-Type" "application/json") w)).

Definition WriteOK (data : Data) (w : responseWriter) : responseWriter :=
  writeEnvelope 200 (mkResponse data StatusSuccess "Success" EmptyString) w.

Definition WriteError (httpStatus code : Z) (message : string) (w : responseWriter) : responseWriter :=
  writeEnvelope httpStatus (mkResponse NoData code message EmptyString) w.

(** The value to go on with, or the answer already given. *)
Definition DecodeJSON {A} (fs : struct_fields A) (zero : A) (r : Request) (w : responseWriter) : A + responseWriter :=
  let not_json := WriteError 400 StatusInvalidParameters "request body is not valid JSON" w in
  let too_large := WriteError 413 StatusClientError "request body too large" w in
  let refused (too_big : bool) := inr (if too_big then too_large else not_json) in
  match first_value (rq_Body r) with
  | inr too_big => refused too_big
  | inl j =>
    match Unmarshal fs zero j with
    | None => inr not_json
    | Some v =>
      match next_token (rq_Body r) with
      | TokEOF => inl v
      | TokError too_big => refused too_big
      | TokMore => inr not_json
      end
    end
  end.

(** ** context.go *)

Record Context := mkContext { requestIDKey : option string; correlationIDKey : option string }.

Definition background : Context := mkContext None None.
Definition WithRequestID (c : Context) (id : string) : Context := mkContext (Some id) (correlationIDKey c).
Definition WithCorrelationID (c : Context) (id : string) : Context := mkContext (requestIDKey c) (Some id).
Definition RequestID (c : Context) : string := default EmptyString (requestIDKey c).
Definition CorrelationID (c : Context) : string := default EmptyString (correlationIDKey c).

(** ** module.go *)

Definition Version : string := "2.3.0".

Definition RoleSender : string := "SENDER".
Definition RoleReceiver : string := "RECEIVER".

Definition HandlerFunc : Type := Request -> Context -> responseWriter -> responseWriter.

Record Route := mkRoute { ro_Method : string; ro_Path : string; ro_Handler : option HandlerFunc }.

Record Module_ := mkModule {
  mo_Identifier : string; mo_Role : string; mo_Path : string; mo_Access : Access; mo_Routes : list Route }.

Definition identifierRe : pattern :=
  [once is_lower; many 0 (fun a => is_lower a || is_digit a || one_of "_-" a)].

Definition has_brace (s : string) : bool := has_byte "{"%char s || has_byte "}"%char s.

(** The module with its path filled in and trimmed, or the error. *)
Definition Module_validate (m : Module_) : Module_ + error :=
  let id := mo_Identifier m in
  if negb (MatchString identifierRe id) then
    inr (EText ("ocpi: module identifier " +:+ Quote id +:+ " is not a valid ModuleID"))
  else if negb (bool_decide (mo_Role m = RoleSender)) && negb (bool_decide (mo_Role m = RoleReceiver)) then
    inr (EText ("ocpi: module " +:+ id +:+ ": role " +:+ Quote (mo_Role m) +:+ " is neither SENDER nor RECEIVER"))
  else
    let path := Trim "/"%char (if bool_decide (mo_Path m = EmptyString) then id else mo_Path m) in
    if bool_decide (path = EmptyString) || has_brace path then
      inr (EText ("ocpi: module " +:+ id +:+ ": path " +:+ Quote path +:+ " must be a fixed, non-empty path"))
    else if negb (mo_Access m =? AccessRegistration) && negb (mo_Access m =? AccessModules) then
      inr (EText ("ocpi: module " +:+ id +:+ ": access must be registration or modules, got " +:+
                  Access_String (mo_Access m)))
    else if bool_decide (mo_Routes m = []) then inr (EText ("ocpi: module " +:+ id +:+ " has no routes"))
    else
      match first_such (fun r => bool_decide (ro_Method r = EmptyString) || negb (bool_decide (is_Some (ro_Handler r))))
              (mo_Routes m) with
      | Some r => inr (EText ("ocpi: module " +:+ id +:+ ": route " +:+ Quote (ro_Path r) +:+
                              " needs a method and a handler"))
      | None => inl (mkModule id (mo_Role m) path (mo_Access m) (mo_Routes m))
      end.

(** ** server.go *)

Record Options := mkOptions { PublicBaseURL : string; Auth : option Authenticator }.

(** What a pattern is mounted with: the access it needs, and its handler.  The
    versions handlers are methods of the server, and see it as it is when they
    run. *)
Inductive Target := ServeVersions | ServeVersionDetails | ModuleHandler (h : HandlerFunc).

Record Server := mkServer {
  sv_auth : Authenticator;
  base : string;
  prefix : string;
  mux : list (mux_pattern * (Access * Target));
  started : bool;
  modules : list Module_
}.

Definition set_mux (m : list (mux_pattern * (Access * Target))) (s : Server) : Server :=
  mkServer (sv_auth s) (base s) (prefix s) m (started s) (modules s).
Definition set_started (s : Server) : Server :=
  mkServer (sv_auth s) (base s) (prefix s) (mux s) true (modules s).
Definition add_module (m : Module_) (s : Server) : Server :=
  mkServer (sv_auth s) (base s) (prefix s) (mux s) (started s) (modules s ++ [m]).

(** The answer to whatever is wrong with a token. *)
Definition unauthorized (w : responseWriter) : responseWriter :=
  WriteError 401 StatusClientError "Unauthorized" (with_header (Set_ "WWW-Authenticate" "Token") w).

Definition authorize (auth : Authenticator) (need : Access) (h : HandlerFunc) : HandlerFunc := fun r ctx w =>
  match tokenFromRequest r with
  | Some token => if auth token <? need then unauthorized w else h r ctx w
  | None => unauthorized w
  end.

Definition versionEntry_json (version url : string) : json :=
  JObj [("version", JStr version); ("url", JStr url)].
Definition endpoint_json (identifier role url : string) : json :=
  JObj [("identifier", JStr identifier); ("role", JStr role); ("url", JStr url)].
Definition versionDetails_json (version : string) (endpoints : list json) : json :=
  JObj [("version", JStr version); ("endpoints", JArr endpoints)].

Definition VersionsURL (s : Server) : string := base s +:+ "/versions".
Definition VersionURL (s : Server) : string := base s +:+ "/" +:+ Version.

Definition serveVersions (s : Server) (w : responseWriter) : responseWriter :=
  WriteOK (HasData (JArr [versionEntry_json Version (VersionURL s)])) w.

Definition endpoints (s : Server) : list json :=
  (fun m => endpoint_json (mo_Identifier m) (mo_Role m) (VersionURL s +:+ "/" +:+ mo_Path m)) <$> modules s.

Definition serveVersionDetails (s : Server) (w : responseWriter) : responseWriter :=
  WriteOK (HasData (versionDetails_json Version (endpoints s))) w.

Definition target_handler (s : Server) (t : Target) : HandlerFunc :=
  match t with
  | ServeVersions => fun _ _ => serveVersions s
  | ServeVersionDetails => fun _ _ => serveVersionDetails s
  | ModuleHandler h => h
  end.

Section server.
Context `{HttpTexts} `{URLs}.

(** [handle]: the pattern and its twin with a slash.  A panic on the second
    leaves the first mounted. *)
Definition handle (s : Server) (method pattern : string) (need : Access) (t : Target) : Server * option error :=
  let mount (s : Server) (path : string) : option Server :=
    (fun m => set_mux m s) <$> Handle (method +:+ " " +:+ path) (need, t) (mux s) in
  let failed (s : Server) (path : string) :=
    (s, Some (EText ("route " +:+ method +:+ " " +:+ pattern +:+ ": " +:+
                     panic_text (mux s).*1 (method +:+ " " +:+ path)))) in
  match mount s pattern with
  | None => failed s pattern
  | Some s =>
    match mount s (pattern +:+ "/{$}") with
    | None => failed s (pattern +:+ "/{$}")
    | Some s => (s, None)
    end
  end.

Definition splitBaseURL (raw : string) : (string * string) + error :=
  let err text := inr (EText ("ocpi: public base URL " +:+ Quote raw +:+ text)) in
  match url_Parse raw with
  | inr e => err (": " +:+ e)
  | inl u =>
    if bool_decide (u_Scheme u = EmptyString) || bool_decide (u_Host u = EmptyString) then
      err " needs a scheme and a host"
    else if negb (bool_decide (u_RawQuery u = EmptyString)) || negb (bool_decide (u_Fragment u = EmptyString)) then
      err " must not have a query or fragment"
    else
      let prefix := Clean (String "/"%char (u_Path u)) in
      let prefix := if bool_decide (prefix = "/") then EmptyString else prefix in
      if has_brace prefix then err " has braces in its path"
      else inl (u_String (u_with_path prefix u), prefix)
  end.

Definition New (opts : Options) : Server + error :=
  match Auth opts with
  | None => inr (EText "ocpi: Auth is required")
  | Some auth =>
    match splitBaseURL (PublicBaseURL opts) with
    | inr e => inr e
    | inl (base, prefix) =>
      let s := mkServer auth base prefix [] false [] in
      match handle s "GET" (prefix +:+ "/versions") AccessRegistration ServeVersions with
      | (_, Some e) => inr e
      | (s, None) =>
        match handle s "GET" (prefix +:+ "/" +:+ Version) AccessRegistration ServeVersionDetails with
        | (_, Some e) => inr e
        | (s, None) => inl s
        end
      end
    end
  end.

(** Where a module's route is mounted. *)
Definition module_root (s : Server) (m : Module_) : string := prefix s +:+ "/" +:+ Version +:+ "/" +:+ mo_Path m.

Definition route_path (root : string) (r : Route) : string :=
  let sub := Trim "/"%char (ro_Path r) in
  if bool_decide (sub = EmptyString) then root else root +:+ "/" +:+ sub.

Definition route_target (r : Route) : Target := ModuleHandler (default (fun _ _ w => w) (ro_Handler r)).

(** [for _, r := range m.Routes], until a route fails. *)
Fixpoint mount_routes (s : Server) (id root : string) (need : Access) (l : list Route) : Server * option error :=
  match l with
  | [] => (s, None)
  | r :: l =>
    match handle s (ro_Method r) (route_path root r) need (route_target r) with
    | (s, Some e) => (s, Some (EWrap ("ocpi: module " +:+ id +:+ ": ") e EmptyString))
    | (s, None) => mount_routes s id root need l
    end
  end.

Definition same_module (m m' : Module_) : bool :=
  bool_decide (mo_Identifier m = mo_Identifier m') && bool_decide (mo_Role m = mo_Role m').

Definition Register (s : Server) (m : Module_) : Server * option error :=
  match Module_validate m with
  | inr e => (s, Some e)
  | inl m =>
    if started s then (s, Some (EText ("ocpi: module " +:+ mo_Identifier m +:+ " registered after Start")))
    else if existsb (fun have => same_module have m) (modules s) then
      (s, Some (EText ("ocpi: module " +:+ mo_Identifier m +:+ "/" +:+ mo_Role m +:+ " is already registered")))
    else
      match mount_routes s (mo_Identifier m) (module_root s m) (mo_Access m) (mo_Routes m) with
      | (s, Some e) => (s, Some e)
      | (s, None) => (add_module m s, None)
      end
  end.

(** [Start]; [listen] is the listener's error. *)
Definition Start (s : Server) (bind : string) (listen : option string) : Server * option error :=
  (set_started s,
   (fun e => EText ("ocpi: listening on " +:+ bind +:+ ": " +:+ e)) <$> listen).

(** *** A request *)

(** Random bytes as a version 4 UUID. *)
Definition newUUID (b : list Z) : string :=
  let b := <[6%nat := Z.lor (Z.land (b !!! 6%nat) 15) 64]> b in
  let b := <[8%nat := Z.lor (Z.land (b !!! 8%nat) 63) 128]> b in
  let hex (lo hi : nat) := concat_strings (hex_byte <$> take (hi - lo) (drop lo b)) in
  hex 0%nat 4%nat +:+ "-" +:+ hex 4%nat 6%nat +:+ "-" +:+ hex 6%nat 8%nat +:+ "-" +:+
  hex 8%nat 10%nat +:+ "-" +:+ hex 10%nat 16%nat.

Definition headerOrNewID (r : Request) (name : string) (random : list Z) : string :=
  let v := TrimSpace (Get name (rq_Header r)) in
  if bool_decide (v = EmptyString) then newUUID random else v.

(** server.go's [capture]: what a handler would send. *)
Record capture := mkCapture { cp_header : Header; cp_code : Z }.

#[local] Instance capture_ResponseWriter : ResponseWriter capture := {
  header_of := cp_header;
  with_header f c := mkCapture (f (cp_header c)) (cp_code c);
  WriteHeader code c := mkCapture (cp_header c) (if cp_code c =? 0 then code else cp_code c);
  Write _ c := mkCapture (cp_header c) (if cp_code c =? 0 then 200 else cp_code c)
}.

Definition copy_header (c : capture) (w : responseWriter) (k : string) : responseWriter :=
  let v := Get k (cp_header c) in
  if bool_decide (v = EmptyString) then w else with_header (Set_ k v) w.

Definition unmatched (h : Reply) (w : responseWriter) : responseWriter :=
  let c := serve_reply h (mkCapture ∅ 0) in
  let w := foldl (copy_header c) w ["Allow"; "Location"] in
  let status := if cp_code c =? 0 then 404 else cp_code c in
  if (status =? 404) || (status =? 405) then WriteError status StatusClientError (StatusText status) w
  else WriteHeader status w.

(** The handler behind a pattern. *)
Definition mounted (s : Server) (x : Access * Target) : HandlerFunc :=
  authorize (sv_auth s) x.1 (target_handler s x.2).

(** The clock and the random bytes of the ids are this request's.  What the
    handler gets: the ids in its context, and a writer whose headers have
    them. *)
Definition opening (now : Time) (random1 random2 : list Z) (r : Request) : Context * responseWriter :=
  let requestID := headerOrNewID r "X-Request-ID" random1 in
  let correlationID := headerOrNewID r "X-Correlation-ID" random2 in
  let w := with_header (Set_ "X-Request-ID" requestID) fresh_writer in
  let w := with_header (Set_ "X-Correlation-ID" correlationID) w in
  (WithCorrelationID (WithRequestID background requestID) correlationID, mkResponseWriter w now 0).

Definition ServeHTTP (s : Server) (now : Time) (random1 random2 : list Z) (r : Request) : responseWriter :=
  let '(ctx, rw) := opening now random1 random2 r in
  match Mux_Handler (mux s) r with
  | Own h pattern => if bool_decide (pattern = EmptyString) then unmatched h rw else serve_reply h rw
  | Matched x _ => mounted s x r ctx rw
  end.
End server.

(** ** credentials.go *)

Definition notYet : HandlerFunc := fun _ _ =>
  WriteError 501 StatusServerError "credentials registration is not implemented yet".

Definition CredentialsStub : Module_ :=
  mkModule "credentials" RoleSender EmptyString AccessRegistration
    ((fun m => mkRoute m EmptyString (Some notYet)) <$> ["GET"; "POST"; "PUT"; "DELETE"]).

(** ** cli/run.go's [startOCPI] *)

Section start.
Context `{HttpTexts} `{URLs} `{Digest}.

Definition startOCPI (bind url tokenA : string) (listen : option string) : Server + error :=
  match New (mkOptions url (Some (NewStaticAuthenticator tokenA))) with
  | inr e => inr e
  | inl s =>
    match Register s CredentialsStub with
    | (_, Some e) => inr e
    | (s, None) =>
      match Start s bind listen with
      | (_, Some e) => inr e
      | (s, None) => inl s
      end
    end
  end.
End start.
