(* ===== verification/OcpiInv.v ===== *)
(** * Servers as they are built: what registration keeps

    A server is built by New, then any number of calls of Register, and Start.
    Registered methods are taken to be tokens, as every HTTP method is.  And that
    starting one succeeds. *)

From S2P Require Import Prelude GoLib GoTime Errors GoRegexp GoSort GoUtf8 GoNet GoBase64 GoHttp Json GoHttpServe.
From S2P Require Import GoHttpFacts GoPath Ocpi.

Definition tidy (m : Module_) : Prop := Forall (fun r => validMethod (ro_Method r) = true) (mo_Routes m).

Section built.
Context `{HttpTexts} `{URLs}.
#[local] Set Default Proof Using "All".

Inductive built : Server -> Prop :=
| built_New opts s : New opts = inl s -> built s
| built_Register s m : built s -> tidy m -> built (Register s m).1
| built_Start s bind listen : built s -> built (Start s bind listen).1.

(** ** The prefix *)

Definition good_prefix (p : string) : Prop := (p = EmptyString \/ clean_path p) /\ has_brace p = false.

(** ** Tables grow *)

Abbreviation table := (list (mux_pattern * (Access * Target))).

(** The two entries of a path. *)
Definition mounted_at (t : table) (method path : string) (x : Access * Target) : Prop :=
  (exists p, parsePattern (route_text method path) = Some p /\ (p, x) ∈ t) /\
  (exists p, parsePattern (route_text method (path +:+ "/{$}")) = Some p /\ (p, x) ∈ t).

Lemma mounted_at_mono t t' method path x : t ⊆ t' -> mounted_at t method path x -> mounted_at t' method path x.
Proof. unfold mounted_at. set_solver. Qed.

Record good_table (t : table) : Prop := {
  gt_distinct : distinct_routes t;
  gt_hostless : hostless t;
  gt_guarded : Forall (fun e => AccessRegistration <= e.2.1) t
}.

(** What adding entries changes. *)
Record extends (s s' : Server) : Prop := {
  ex_auth : sv_auth s' = sv_auth s;
  ex_base : base s' = base s;
  ex_prefix : prefix s' = prefix s;
  ex_started : started s' = started s;
  ex_modules : modules s' = modules s;
  ex_mux : mux s ⊆ mux s'
}.

Lemma extends_refl s : extends s s.
Proof. by constructor. Qed.

Lemma extends_trans s1 s2 s3 : extends s1 s2 -> extends s2 s3 -> extends s1 s3.
Proof. intros [] []. constructor; try congruence. set_solver. Qed.

Definition rooted (p : string) : Prop := exists r, p = String "/"%char r.

Lemma rooted_append p q : rooted p -> rooted (p +:+ q).
Proof. intros [r ->]. exists (r +:+ q). by rewrite append_cons. Qed.

(** One of handle's registrations. *)
Lemma Handle_good method path x (t t' : table) :
  validMethod method = true -> rooted path -> AccessRegistration <= x.1 -> good_table t ->
  Handle (method +:+ " " +:+ path) x t = Some t' ->
  good_table t' /\ t ⊆ t' /\ exists p, parsePattern (route_text method path) = Some p /\ (p, x) ∈ t'.
Proof.
  intros Hm [r ->] Hx [Hd Hh Hg] (p & Hp & -> & Hd')%Handle_Some. fold (route_text method (String "/"%char r)) in Hp.
  split_and!; [|set_solver|exists p; set_solver]. constructor; [by apply Hd'| |].
  - apply Forall_app. split; [done|]. repeat constructor. by apply parsePattern_route in Hp as (_ & segs & _ & ->).
  - apply Forall_app. split; [done|]. by repeat constructor.
Qed.

Lemma handle_run s method path need tgt s' e :
  validMethod method = true -> rooted path -> AccessRegistration <= need -> good_table (mux s) ->
  handle s method path need tgt = (s', e) ->
  good_table (mux s') /\ extends s s' /\ (e = None -> mounted_at (mux s') method path (need, tgt)).
Proof.
  intros Hm Hr Hn Hg. unfold handle.
  destruct (Handle (method +:+ " " +:+ path) _ _) as [t1|] eqn:E1.
  2:{ simpl. intros ?. simplify_eq. split_and!; [done|apply extends_refl|done]. }
  apply Handle_good in E1 as (Hg1 & Hs1 & p1 & Hp1 & Hin1); [|done..]. simpl.
  destruct (Handle (method +:+ " " +:+ path +:+ "/{$}") _ t1) as [t2|] eqn:E2.
  - apply Handle_good in E2 as (Hg2 & Hs2 & p2 & Hp2 & Hin2); [|try done; by apply rooted_append..].
    simpl. intros ?. simplify_eq/=. split_and!; [done|constructor; set_solver|]. intros _.
    split; [exists p1|exists p2]; (split; [done|]); [by apply Hs2|done].
  - simpl. intros ?. simplify_eq/=. split_and!; [done|constructor; set_solver|done].
Qed.

(** ** Modules *)

Lemma Module_validate_ok m m' : Module_validate m = inl m' ->
  mo_Identifier m' = mo_Identifier m /\ mo_Role m' = mo_Role m /\ mo_Access m' = mo_Access m /\
  mo_Routes m' = mo_Routes m /\
  mo_Path m' = Trim "/"%char (if bool_decide (mo_Path m = EmptyString) then mo_Identifier m else mo_Path m) /\
  mo_Path m' <> EmptyString /\ has_brace (mo_Path m') = false /\
  (mo_Access m = AccessRegistration \/ mo_Access m = AccessModules) /\ mo_Routes m <> [] /\
  Forall (fun r => ro_Method r <> EmptyString /\ is_Some (ro_Handler r)) (mo_Routes m).
Proof.
  unfold Module_validate. destruct (negb (MatchString _ _)); [done|]. destruct (negb _ && negb _); [done|].
  destruct (bool_decide (Trim _ _ = _) || has_brace _) eqn:Ep; [done|]. apply orb_false_iff in Ep as [Ep Eb].
  apply bool_decide_eq_false in Ep. destruct (negb (_ =? _) && negb _) eqn:Ea; [done|].
  destruct (bool_decide (mo_Routes m = [])) eqn:Er; [done|]. apply bool_decide_eq_false in Er.
  destruct (first_such _ _) eqn:Ef; [done|]. intros [= <-]. cbn.
  split_and!; try done.
  - apply andb_false_iff in Ea as [E|E]; apply negb_false_iff, Z.eqb_eq in E; auto.
  - apply Forall_forall. intros r Hr. rewrite first_such_None in Ef. apply Ef in Hr.
    apply orb_false_iff in Hr as [H1 H2]. apply bool_decide_eq_false in H1.
    apply negb_false_iff, bool_decide_eq_true in H2. done.
Qed.

(** A module's routes, all in the table. *)
Definition module_mounted (s : Server) (m : Module_) : Prop :=
  Forall (fun r => mounted_at (mux s) (ro_Method r) (route_path (module_root s m) r) (mo_Access m, route_target r))
    (mo_Routes m).

Lemma route_path_rooted root r : rooted root -> rooted (route_path root r).
Proof. intros Hr. unfold route_path. case_bool_decide; [done|]. by apply rooted_append. Qed.

Lemma mount_routes_run id root need l : forall s s' e,
  Forall (fun r => validMethod (ro_Method r) = true) l -> rooted root -> AccessRegistration <= need ->
  good_table (mux s) -> mount_routes s id root need l = (s', e) ->
  good_table (mux s') /\ extends s s' /\
  (e = None -> Forall (fun r => mounted_at (mux s') (ro_Method r) (route_path root r) (need, route_target r)) l).
Proof.
  induction l as [|r l IH]; intros s s' e Hl Hr Hn Hg; cbn [mount_routes].
  { intros [= <- <-]. split_and!; [done|apply extends_refl|by constructor]. }
  apply Forall_cons in Hl as [Hm Hl].
  destruct (handle s (ro_Method r) _ need _) as [s1 [e1|]] eqn:E; apply handle_run in E as (Hg1 & Hx1 & Hm1);
    try done; try by apply route_path_rooted.
  - intros [= <- <-]. done.
  - intros Hrun. apply IH in Hrun as (Hg2 & Hx2 & Hl2); [|done..]. split_and!; [done|by eapply extends_trans|].
    intros He. constructor; [|by apply Hl2]. eapply mounted_at_mono; [apply Hx2|by apply Hm1].
Qed.

(** ** What every built server satisfies *)

Record good_server (s : Server) : Prop := {
  gs_table : good_table (mux s);
  gs_prefix : good_prefix (prefix s);
  gs_versions : mounted_at (mux s) "GET" (prefix s +:+ "/versions") (AccessRegistration, ServeVersions);
  gs_details : mounted_at (mux s) "GET" (prefix s +:+ "/" +:+ Version) (AccessRegistration, ServeVersionDetails);
  gs_modules : Forall (fun m => tidy m /\ (exists m0, Module_validate m0 = inl m) /\ module_mounted s m) (modules s);
  gs_distinct : NoDup ((fun m => (mo_Identifier m, mo_Role m)) <$> modules s)
}.

Lemma prefix_rooted p q : good_prefix p -> rooted (p +:+ String "/"%char q).
Proof.
  intros [[->|Hp] _]; [by exists q|]. apply rooted_append.
  destruct (clean_path_split p Hp) as (r & -> & _). by exists r.
Qed.

Lemma splitBaseURL_prefix raw b p : splitBaseURL raw = inl (b, p) -> good_prefix p.
Proof.
  unfold splitBaseURL. destruct (url_Parse raw) as [u|]; [|done]. do 2 (destruct (_ || _); [done|]).
  destruct (has_brace _) eqn:Eb; [done|]. intros [= <- <-]. split; [|done].
  case_bool_decide as Ec; [by left|right]. by apply Clean_clean.
Qed.

Lemma module_mounted_extends s s' m : extends s s' -> module_mounted s m -> module_mounted s' m.
Proof.
  intros Hx. unfold module_mounted, module_root. rewrite (ex_prefix _ _ Hx). intros Hm.
  eapply Forall_impl; [exact Hm|]. intros r. apply mounted_at_mono, Hx.
Qed.

Lemma good_extends s s' : good_server s -> extends s s' -> good_table (mux s') -> good_server s'.
Proof.
  intros [_ Hp Hv Hd Hm Hn] Hx Ht. pose proof (ex_mux _ _ Hx) as Hs.
  constructor; rewrite ?(ex_prefix _ _ Hx), ?(ex_modules _ _ Hx); try done.
  - by eapply mounted_at_mono.
  - by eapply mounted_at_mono.
  - eapply Forall_impl; [exact Hm|]. intros m (? & ? & ?). split_and!; try done. by eapply module_mounted_extends.
Qed.

Lemma New_good opts s : New opts = inl s -> good_server s.
Proof.
  unfold New. destruct (Auth opts) as [auth|]; [|done].
  destruct (splitBaseURL _) as [[b p]|] eqn:Ep; [|done]. apply splitBaseURL_prefix in Ep.
  set (s0 := mkServer auth b p [] false []).
  destruct (handle s0 _ _ _ _) as [s1 [|]] eqn:E1; [done|]. apply handle_run in E1 as (Hg1 & Hx1 & Hm1);
    [|done|by apply (prefix_rooted p "versions")|done|by repeat constructor].
  destruct (handle s1 _ _ _ _) as [s2 [|]] eqn:E2; [done|]. intros [= ->]. apply handle_run in E2 as (Hg2 & Hx2 & Hm2);
    [|done|by apply (prefix_rooted p Version)|done|done].
  assert (Hx : extends s0 s) by (by eapply extends_trans).
  constructor; rewrite ?(ex_prefix _ _ Hx), ?(ex_modules _ _ Hx); try done.
  - eapply mounted_at_mono; [apply Hx2|by apply Hm1].
  - by apply Hm2.
  - by constructor.
Qed.

Lemma mo_Access_level m0 m : Module_validate m0 = inl m -> AccessRegistration <= mo_Access m.
Proof. intros (_ & _ & -> & _ & _ & _ & _ & [-> | ->] & _)%Module_validate_ok; done. Qed.

(** Register either leaves the modules alone, or adds the validated one. *)
Lemma Register_run s m s' e : good_server s -> tidy m -> Register s m = (s', e) ->
  good_server s' /\ sv_auth s' = sv_auth s /\ base s' = base s /\ prefix s' = prefix s /\ started s' = started s /\
  mux s ⊆ mux s' /\
  match e with
  | Some _ => modules s' = modules s
  | None => exists m', Module_validate m = inl m' /\ started s = false /\ modules s' = modules s ++ [m']
  end.
Proof.
  intros Hg Ht. unfold Register. destruct (Module_validate m) as [m'|] eqn:Ev; [|by intros [= <- <-]].
  destruct (started s) eqn:Es; [by intros [= <- <-]|].
  destruct (existsb _ _) eqn:Ed; [by intros [= <- <-]|].
  destruct (mount_routes _ _ _ _ _) as [s1 e1] eqn:Er.
  pose proof (Module_validate_ok m m' Ev) as (_ & _ & _ & Hro & _).
  assert (Ht' : tidy m') by (unfold tidy; by rewrite Hro).
  apply mount_routes_run in Er as (Ht1 & Hx & Hl);
    [|exact Ht'|unfold module_root; by apply (prefix_rooted (prefix s) (Version +:+ "/" +:+ mo_Path m')), gs_prefix|
     by eapply mo_Access_level|apply Hg].
  pose proof (good_extends s s1 Hg Hx Ht1) as Hg1. pose proof Hg1 as [_ Hp1 Hv1 Hd1 Hm1 Hn1].
  pose proof Hx as [Ha Hb Hpx Hst Hmo Hmu]. destruct e1 as [e1|]; intros [= <- <-].
  - split_and!; congruence || done.
  - split_and!; cbn [add_module sv_auth base prefix started modules mux]; try (done || congruence).
    + constructor; try done; cbn [modules add_module].
      * apply Forall_app. split; [done|]. apply Forall_singleton. split_and!; [done|by exists m|].
        unfold module_mounted, module_root in *. cbn [prefix add_module mux]. rewrite Hpx. by apply Hl.
      * rewrite fmap_app, NoDup_app. split_and!; [done| |by apply NoDup_singleton].
        intros k Hk ->%list_elem_of_singleton. rewrite Hmo in Hk. apply list_elem_of_fmap in Hk as (x & Hk & Hin).
        assert (existsb (fun have => same_module have m') (modules s) = true); [|congruence].
        apply existsb_exists. exists x. split; [by apply list_elem_of_In|]. injection Hk as H1 H2.
        unfold same_module. by rewrite !bool_decide_eq_true_2.
    + exists m'. split_and!; [done|done|]. by rewrite Hmo.
Qed.

Lemma built_good s : built s -> good_server s.
Proof.
  induction 1 as [opts s HN|s m _ IH Ht|s bind listen _ IH].
  - by eapply New_good.
  - destruct (Register s m) as [s' e] eqn:E. by apply Register_run in E as [? _].
  - by destruct IH.
Qed.
End built.

(** ** Starting succeeds

    The routes of the versions endpoints and of the credentials module do not
    conflict, whatever the prefix, so only the base URL and the listener can
    refuse. *)

Lemma has_byte_app c s t : has_byte c (s +:+ t) = has_byte c s || has_byte c t.
Proof. induction s as [|a s IH]; [done|]. rewrite append_cons. cbn. by rewrite IH, orb_assoc. Qed.

Section start.
Context `{HttpTexts} `{URLs}.

(** Mounting a clean path that is not there yet. *)
Lemma handle_literal s keys method path need tgt :
  validMethod method = true -> clean_path path -> no_brace path -> literal_table (mux s) keys ->
  (method, path_segments path) ∉ keys -> (method, path_segments path ++ ["/"]) ∉ keys ->
  exists t, handle s method path need tgt = (set_mux t s, None) /\
    literal_table t (keys ++ [(method, path_segments path); (method, path_segments path ++ ["/"])]).
Proof.
  intros Hm Hc Hb Ht H1 H2. destruct (literal_route method path Hm Hc Hb) as (p1 & Hp1 & Hk1).
  destruct (slash_route method path Hm Hc Hb) as (p2 & Hp2 & Hk2).
  assert (Hs : path_segments (path +:+ "/") = path_segments path ++ ["/"])
    by (rewrite path_segments_slash, path_segments_clean; done).
  rewrite Hs in Hk2. unfold route_text in Hp1, Hp2.
  destruct (Handle_literal (mux s) keys _ p1 method _ (need, tgt) Ht Hp1 Hk1 H1) as (t1 & E1 & Ht1).
  destruct (Handle_literal t1 (keys ++ [(method, path_segments path)]) _ p2 method _ (need, tgt) Ht1 Hp2 Hk2)
    as (t2 & E2 & Ht2).
  { rewrite elem_of_app, list_elem_of_singleton. intros [?|[= Hl]]; [done|].
    rewrite <- (app_nil_r (path_segments path)) in Hl at 2. by apply app_inv_head in Hl. }
  exists t2. unfold handle. rewrite E1. cbn [fmap option_fmap option_map]. cbn [mux set_mux]. rewrite E2.
  split; [done|]. by rewrite <- app_assoc in Ht2.
Qed.

Lemma clean_path_nonempty p : clean_path p -> p <> EmptyString.
Proof. by intros (r & -> & _)%clean_path_split. Qed.

(** The segments of a prefix, and what is mounted below one. *)
Definition prefix_segments (p : string) : list string := if bool_decide (p = EmptyString) then [] else path_segments p.

Lemma below_prefix p c : good_prefix p -> kept c -> no_brace c -> pathUnescape c = c ->
  clean_path (p +:+ String "/"%char c) /\ no_brace (p +:+ String "/"%char c) /\
  path_segments (p +:+ String "/"%char c) = prefix_segments p ++ [c].
Proof.
  intros [Hp Hb] Hc Hcb Hu. split_and!.
  - by apply clean_path_push.
  - unfold no_brace, has_brace in *. apply orb_false_iff in Hb as [Hb _]. rewrite has_byte_app, Hb. done.
  - rewrite path_segments_push by done. by rewrite Hu.
Qed.

Ltac fresh_key :=
  rewrite ?elem_of_app, ?elem_of_cons, ?elem_of_nil;
  let E := fresh in intros E; repeat destruct E as [E|E]; try done; injection E as ?; try done;
  repeat match goal with
  | E : (_ ++ _) ++ _ = _ |- _ => rewrite <- app_assoc in E
  | E : _ = (_ ++ _) ++ _ |- _ => rewrite <- app_assoc in E
  | E : ?l ++ _ = ?l ++ _ |- _ => apply app_inv_head in E
  end; done.

Definition versions_keys (q : list string) : list (string * list string) :=
  [("GET", q ++ ["versions"]); ("GET", q ++ ["versions"; "/"]);
   ("GET", q ++ ["2.3.0"]); ("GET", q ++ ["2.3.0"; "/"])].

Lemma New_total url auth b p : splitBaseURL url = inl (b, p) ->
  exists t, New (Ocpi.mkOptions url (Some auth)) = inl (mkServer auth b p t false []) /\
    literal_table t (versions_keys (prefix_segments p)).
Proof.
  intros Hu. pose proof (splitBaseURL_prefix url b p Hu) as Hp. unfold New. cbn [Auth PublicBaseURL]. rewrite Hu.
  set (s0 := mkServer auth b p [] false []).
  destruct (below_prefix p "versions" Hp) as (Hc1 & Hb1 & Hs1); [done..|].
  destruct (below_prefix p Version Hp) as (Hc2 & Hb2 & Hs2); [done..|].
  destruct (handle_literal s0 [] "GET" (p +:+ "/versions") AccessRegistration ServeVersions)
    as (t1 & E1 & Ht1); try done; [by constructor|set_solver|set_solver|].
  rewrite E1. change ("/" +:+ Version) with (String "/"%char Version).
  destruct (handle_literal (set_mux t1 s0) _ "GET" (p +:+ String "/"%char Version) AccessRegistration
    ServeVersionDetails ltac:(done) Hc2 Hb2 Ht1) as (t2 & E2 & Ht2).
  - rewrite Hs1, Hs2. fresh_key.
  - rewrite Hs1, Hs2. fresh_key.
  - rewrite E2. exists t2. split; [done|]. rewrite Hs1, Hs2, <- !app_assoc in Ht2. done.
Qed.

(** Several methods on one path. *)
Lemma mount_routes_literal id root need h ms : forall s keys,
  Forall (fun m => validMethod m = true) ms -> NoDup ms -> clean_path root -> no_brace root ->
  literal_table (mux s) keys ->
  (forall m, m ∈ ms -> ((m, path_segments root) ∉ keys) /\ ((m, path_segments root ++ ["/"]) ∉ keys)) ->
  exists t, mount_routes s id root need ((fun m => mkRoute m EmptyString h) <$> ms) = (set_mux t s, None).
Proof.
  induction ms as [|m ms IH]; intros s keys Hv Hn Hc Hb Ht Hf; [by exists (mux s); destruct s|].
  apply Forall_cons in Hv as [Hm Hv]. apply NoDup_cons in Hn as [Hm' Hn]. cbn [fmap list_fmap mount_routes ro_Method].
  change (route_path root (mkRoute m EmptyString h)) with root.
  destruct (Hf m) as [H1 H2]; [set_solver|].
  destruct (handle_literal s keys m root need (route_target (mkRoute m EmptyString h)) Hm Hc Hb Ht H1 H2)
    as (t & -> & Ht').
  destruct (IH (set_mux t s) _ Hv Hn Hc Hb Ht') as (t' & ->).
  - intros m' Hin. assert (m' <> m) by set_solver. destruct (Hf m') as [H1' H2']; [set_solver|].
    rewrite !elem_of_app, !elem_of_cons, !elem_of_nil. naive_solver.
  - exists t'. by destruct s.
Qed.

(** The stub, as Register mounts it. *)
Definition credentials : Module_ :=
  mkModule "credentials" RoleSender "credentials" AccessRegistration (mo_Routes CredentialsStub).

Lemma startOCPI_total `{Digest} bind url tokenA b p : splitBaseURL url = inl (b, p) ->
  exists s, startOCPI bind url tokenA None = inl s /\ built s /\ started s = true /\ base s = b /\ prefix s = p /\
    sv_auth s = NewStaticAuthenticator tokenA /\ modules s = [credentials].
Proof.
  intros Hu. destruct (New_total url (NewStaticAuthenticator tokenA) b p Hu) as (t & HN & Ht).
  pose proof (splitBaseURL_prefix url b p Hu) as Hp.
  set (s := mkServer (NewStaticAuthenticator tokenA) b p t false []) in *.
  destruct (below_prefix p Version Hp) as (Hc2 & Hb2 & Hs2); [done..|].
  assert (Hp2 : good_prefix (p +:+ String "/"%char Version)).
  { split; [by right|]. unfold has_brace. unfold no_brace in Hb2. rewrite Hb2. destruct Hp as [_ Hp].
    apply orb_false_iff in Hp as [_ Hp]. rewrite has_byte_app, Hp. done. }
  destruct (below_prefix (p +:+ String "/"%char Version) "credentials" Hp2) as (Hc3 & Hb3 & Hs3); [done..|].
  assert (Hps : prefix_segments (p +:+ String "/"%char Version) = prefix_segments p ++ [Version]).
  { unfold prefix_segments at 1. by rewrite bool_decide_eq_false_2 by (by apply clean_path_nonempty). }
  assert (Hroot : module_root s credentials = (p +:+ String "/"%char Version) +:+ String "/"%char "credentials")
    by (rewrite append_assoc; done).
  destruct (mount_routes_literal "credentials" (module_root s credentials) AccessRegistration (Some notYet)
    ["GET"; "POST"; "PUT"; "DELETE"] s (versions_keys (prefix_segments p))) as (t' & Hrun);
    try (rewrite Hroot; done); [by repeat constructor|by apply (bool_decide_unpack _)|done| |].
  { intros m _. rewrite Hroot, Hs3, Hps. unfold versions_keys. split; fresh_key. }
  assert (HR : Register s CredentialsStub = (add_module credentials (set_mux t' s), None)).
  { unfold Register. change (Module_validate CredentialsStub) with (@inl Module_ error credentials).
    cbn [started s existsb modules]. change (mo_Routes credentials) with
      ((fun m => mkRoute m EmptyString (Some notYet)) <$> ["GET"; "POST"; "PUT"; "DELETE"]).
    cbn [mo_Identifier mo_Access credentials]. by rewrite Hrun. }
  eexists. split; [unfold startOCPI; rewrite HN, HR; cbn; done|].
  split_and!; try done. apply (built_Start (add_module credentials (set_mux t' s)) bind None).
  change (add_module credentials (set_mux t' s)) with ((add_module credentials (set_mux t' s), @None error).1).
  rewrite <- HR. apply built_Register; [by eapply built_New|]. by repeat constructor.
Qed.
End start.
