(* ===== verification/OcpiProps.v ===== *)
(** * What the OCPI server promises

    Whoever has no token sees which paths exist and nothing else; what is
    advertised is what is served, to whom the module says; and a server for
    a good base URL starts. *)

From S2P Require Import Prelude GoLib GoTime Errors GoRegexp GoSort GoUtf8 GoNet GoBase64 GoHttp Json GoHttpServe.
From S2P Require Import GoHttpFacts GoPath Config Validate ConfigProps ConfigLoad Ocpi OcpiInv.

(** The access of a request's token. *)
Definition granted (s : Server) (r : Request) : Access :=
  match tokenFromRequest r with Some token => sv_auth s token | None => AccessNone end.

Definition denied (s : Server) (r : Request) : Prop := granted s r < AccessRegistration.

(** The same request with another Authorization header. *)
Definition with_authorization (v : string) (r : Request) : Request :=
  mkRequest (rq_Method r) (rq_Host r) (rq_Path r) (rq_RawQuery r) (Set_ "Authorization" v (rq_Header r)) (rq_Body r).

Section serve.
Context `{HttpTexts} `{URLs}.

(** ** Access *)

Lemma mounted_granted s x r ctx w : AccessRegistration <= x.1 ->
  mounted s x r ctx w = if granted s r <? x.1 then unauthorized w else target_handler s x.2 r ctx w.
Proof.
  intros Hx. unfold mounted, authorize, granted. destruct (tokenFromRequest r); [done|].
  by rewrite (proj2 (Z.ltb_lt _ _)) by (unfold AccessNone, AccessRegistration in *; lia).
Qed.

Lemma matched_guarded s r x pat : built s -> Mux_Handler (mux s) r = Matched x pat -> AccessRegistration <= x.1.
Proof.
  intros [[_ _ Hg] _ _ _ _ _]%built_good.
  assert (Hr : forall h m l host path, routed_to (match_route h m l (mux s)) host path (mux s) = Matched x pat ->
               AccessRegistration <= x.1).
  { intros h m l host path. unfold routed_to. destruct (match_route h m l (mux s)) as [[p y]|] eqn:E.
    - intros [= -> <-]. apply match_route_elem in E. rewrite Forall_forall in Hg. by apply Hg in E.
    - unfold unrouted. by destruct (bool_decide _). }
  unfold Mux_Handler. case_bool_decide; destruct (slash_redirect _ _ _ _); try done; [apply Hr|].
  destruct (negb _); [done|apply Hr].
Qed.

(** What a request gets without access: by the patterns alone. *)
Definition outsider (patterns : list mux_pattern) (now : Time) (random1 random2 : list Z) (r : Request) : responseWriter :=
  let '(_, rw) := opening now random1 random2 r in
  match Mux_Handler ((fun p => (p, tt)) <$> patterns) r with
  | Own h pattern => if bool_decide (pattern = EmptyString) then unmatched h rw else serve_reply h rw
  | Matched _ _ => unauthorized rw
  end.

Lemma denied_outsider s now random1 random2 r : built s -> denied s r ->
  ServeHTTP s now random1 random2 r = outsider (mux s).*1 now random1 random2 r.
Proof.
  intros Hb Hd. unfold ServeHTTP, outsider. destruct (opening _ _ _ _) as [ctx rw].
  assert (E : (fun p => (p, tt)) <$> (mux s).*1 = rename (fun _ => tt) (mux s))
    by (unfold rename; by rewrite <- list_fmap_compose).
  rewrite E, Mux_Handler_rename. destruct (Mux_Handler (mux s) r) as [[need t] pat|] eqn:Em; [|done]. cbn.
  apply matched_guarded in Em; [|done]. rewrite mounted_granted by done. cbn in Em |- *.
  pose proof (proj2 (Z.ltb_lt _ _) (Z.lt_le_trans _ _ _ Hd Em)) as Hlt. by rewrite Hlt.
Qed.

Lemma headerOrNewID_authorization v r name random : canonical name <> "Authorization" ->
  headerOrNewID (with_authorization v r) name random = headerOrNewID r name random.
Proof.
  intros Hn. unfold headerOrNewID, Get, with_authorization, Set_. cbn [rq_Header].
  change (canonical "Authorization") with "Authorization". by rewrite lookup_insert_ne.
Qed.

Lemma outsider_authorization v patterns now random1 random2 r :
  outsider patterns now random1 random2 (with_authorization v r) = outsider patterns now random1 random2 r.
Proof.
  unfold outsider, opening. rewrite !headerOrNewID_authorization by done. done.
Qed.

(** C24: Whoever has no token that grants anything learns nothing but which
    paths and methods are served: the answer is the same whatever the server's
    handlers, modules and secrets are, and whatever is wrong with the
    Authorization header - missing, another scheme, bad Base64, or an unknown
    token. *)
Theorem outsiders_learn_routes_only s s' now random1 random2 r v :
  built s -> built s' -> (mux s).*1 = (mux s').*1 -> denied s r -> denied s' (with_authorization v r) ->
  ServeHTTP s' now random1 random2 (with_authorization v r) = ServeHTTP s now random1 random2 r.
Proof.
  intros Hb Hb' Hp Hd Hd'. rewrite !denied_outsider by done. by rewrite Hp, outsider_authorization.
Qed.

(** ** What is mounted is served *)

(** The handler behind a target runs for whoever has the access. *)
Definition served_by (s : Server) (need : Access) (h : HandlerFunc) (now : Time) (random1 random2 : list Z)
    (r : Request) : Prop :=
  ServeHTTP s now random1 random2 r =
    let '(ctx, w) := opening now random1 random2 r in
    if granted s r <? need then unauthorized w else h r ctx w.

Lemma mounted_served s m path need t now random1 random2 r :
  built s -> mounted_at (mux s) m path (need, t) -> validMethod m = true -> clean_path path -> no_brace path ->
  rq_Method r = m -> rq_Path r = path \/ rq_Path r = path +:+ "/" ->
  served_by s need (target_handler s t) now random1 random2 r.
Proof.
  intros Hb [(p1 & Hp1 & Hin1) (p2 & Hp2 & Hin2)] Hm Hc Hbr Hrm Hrp.
  destruct (literal_route m path Hm Hc Hbr) as (p1' & Hp1' & Hk1). rewrite Hp1 in Hp1'. injection Hp1' as <-.
  destruct (slash_route m path Hm Hc Hbr) as (p2' & Hp2' & Hk2). rewrite Hp2 in Hp2'. injection Hp2' as <-.
  pose proof (built_good s Hb) as [[Hd Hh _] _ _ _ _ _].
  pose proof (path_segments_nonempty path Hc) as [Hn1 Hn2].
  assert (Hm0 : m <> "") by (intros ->; done).
  assert (exists pat, Mux_Handler (mux s) r = Matched (need, t) pat) as [pat E].
  { destruct Hrp as [Hrp|Hrp].
    - exists (mp_str p1). eapply Mux_Handler_literal; try done. by apply cleanPath_clean.
    - exists (mp_str p2). eapply Mux_Handler_literal; try done. by apply cleanPath_slash. }
  unfold served_by, ServeHTTP. destruct (opening _ _ _ _) as [ctx w]. rewrite E.
  apply matched_guarded in E; [|done]. by rewrite mounted_granted.
Qed.

Lemma has_byte_Trim c d s : has_byte c s = false -> has_byte c (Trim d s) = false.
Proof.
  assert (Hf : forall s, has_byte c s = false -> has_byte c (drop_front d s) = false).
  { clear s. intros s. induction s as [|a s IH]; [done|]. cbn. intros [Ha Hs]%orb_false_iff.
    destruct (bool_decide (a = d)); [by apply IH|]. cbn. by rewrite Ha, Hs. }
  assert (Hb : forall s, has_byte c s = false -> has_byte c (drop_back d s) = false).
  { clear s. intros s. induction s as [|a s IH]; [done|]. cbn [has_byte drop_back]. intros [Ha Hs]%orb_false_iff.
    specialize (IH Hs). destruct (drop_back d s).
    - destruct (bool_decide (a = d)); [done|]. cbn. by rewrite Ha.
    - cbn [has_byte] in IH |- *. by rewrite Ha, IH. }
  intros Hs. by apply Hb, Hf.
Qed.

(** A module's route, as registered, is a clean path. *)
Lemma module_route_clean s m ro : good_server s -> m ∈ modules s -> ro ∈ mo_Routes m ->
  no_brace (ro_Path ro) -> ro_Method ro <> "CONNECT" ->
  clean_path (route_path (module_root s m) ro) /\ no_brace (route_path (module_root s m) ro) /\
  validMethod (ro_Method ro) = true /\
  mounted_at (mux s) (ro_Method ro) (route_path (module_root s m) ro) (mo_Access m, route_target ro).
Proof.
  intros [_ Hp _ _ Hms _] Hm Hro Hb HC. rewrite Forall_forall in Hms. destruct (Hms m Hm) as (Ht & (m0 & Hv) & Hmm).
  unfold tidy in Ht. unfold module_mounted in Hmm. rewrite Forall_forall in Ht, Hmm. specialize (Ht ro Hro). specialize (Hmm ro Hro).
  apply Module_validate_ok in Hv as (_ & _ & _ & _ & Hpath & Hne & Hbr & _).
  assert (Hroot : rooted (module_root s m)) by (by apply (prefix_rooted (prefix s) (Version +:+ "/" +:+ mo_Path m))).
  assert (Hends : ends_with "/"%char (module_root s m) = false).
  { unfold module_root. change ("/" +:+ Version +:+ "/" +:+ mo_Path m)
      with ("/2.3.0/" +:+ mo_Path m). rewrite ends_with_app by (by apply append_nonempty).
    rewrite ends_with_app by done. rewrite Hpath. apply ends_with_drop_back. }
  assert (He : ends_with "/"%char (route_path (module_root s m) ro) = false).
  { unfold route_path. destruct (bool_decide (Trim "/"%char (ro_Path ro) = _)) eqn:Hs; [done|].
    apply bool_decide_eq_false in Hs. change ("/" +:+ Trim "/"%char (ro_Path ro)) with (String "/"%char (Trim "/"%char (ro_Path ro))).
    rewrite ends_with_app, ends_with_cons by done. apply ends_with_drop_back. }
  destruct (route_path_rooted _ ro Hroot) as [rest Hrest].
  pose proof Hmm as [(p1 & Hp1 & _) _]. rewrite Hrest in Hp1. apply parsePattern_route in Hp1 as [Hclean _]; [|done].
  specialize (Hclean HC). split_and!; try done.
  - rewrite Hrest in He |- *. by apply clean_path_intro.
  - unfold route_path, module_root, no_brace. destruct Hp as [_ Hp].
    unfold has_brace in Hp, Hbr. apply orb_false_iff in Hp as [Hp _], Hbr as [Hbr _].
    destruct (bool_decide (Trim _ _ = _)); rewrite !has_byte_app, Hp, Hbr; [done|].
    by rewrite has_byte_Trim by done.
Qed.

Lemma module_route_served s m ro h now random1 random2 r :
  built s -> m ∈ modules s -> ro ∈ mo_Routes m -> ro_Handler ro = Some h ->
  no_brace (ro_Path ro) -> ro_Method ro <> "CONNECT" -> rq_Method r = ro_Method ro ->
  rq_Path r = route_path (module_root s m) ro \/ rq_Path r = route_path (module_root s m) ro +:+ "/" ->
  served_by s (mo_Access m) h now random1 random2 r.
Proof.
  intros Hb Hm Hro Hh Hbr HC Hrm Hrp.
  destruct (module_route_clean s m ro (built_good s Hb) Hm Hro Hbr HC) as (Hc & Hnb & Hv & Hmt).
  pose proof (mounted_served s _ _ _ _ now random1 random2 r Hb Hmt Hv Hc Hnb Hrm Hrp) as Hs.
  unfold route_target in Hs. by rewrite Hh in Hs.
Qed.

(** C32: What version details advertise is what is served.  Each registered module
    is listed, in the order of registration, under its identifier and role with
    the base URL and a path; and a request to the server's prefix with that
    path - or with the path of one of the module's other fixed routes, with
    or without a slash at the end - runs the route's handler if the token
    grants what the module needs, and is refused otherwise. *)
Theorem advertised_is_served s m ro h now random1 random2 r :
  built s -> m ∈ modules s -> ro ∈ mo_Routes m -> ro_Handler ro = Some h ->
  no_brace (ro_Path ro) -> ro_Method ro <> "CONNECT" -> rq_Method r = ro_Method ro ->
  rq_Path r = route_path (module_root s m) ro \/ rq_Path r = route_path (module_root s m) ro +:+ "/" ->
  served_by s (mo_Access m) h now random1 random2 r /\
  exists path, module_root s m = prefix s +:+ path /\
    endpoint_json (mo_Identifier m) (mo_Role m) (base s +:+ path) ∈ endpoints s.
Proof.
  intros Hb Hm Hro Hh Hbr HC Hrm Hrp. split; [by eapply module_route_served|].
  exists ("/" +:+ Version +:+ "/" +:+ mo_Path m). split; [done|]. unfold endpoints, VersionURL.
  apply list_elem_of_fmap. exists m. split; [|done]. by rewrite !append_assoc.
Qed.

(** ** Registering *)

(** Register adds a module exactly when it is valid, the server has not
    started, no module of its identifier and role is there and its routes
    conflict with none; it is then listed last, with its path trimmed and all
    its routes mounted.  Otherwise the modules stay as they are.  Whatever
    happens, what is mounted stays mounted, and nothing else changes. *)
Theorem Register_outcomes s m s' e :
  built s -> tidy m -> Register s m = (s', e) ->
  built s' /\ sv_auth s' = sv_auth s /\ base s' = base s /\ prefix s' = prefix s /\ started s' = started s /\
  mux s ⊆ mux s' /\ NoDup ((fun m => (mo_Identifier m, mo_Role m)) <$> modules s') /\
  match e with
  | Some _ => modules s' = modules s
  | None => started s = false /\ exists m', Module_validate m = inl m' /\ modules s' = modules s ++ [m'] /\
              module_mounted s' m'
  end.
Proof.
  intros Hb Ht HR. pose proof (Register_run s m s' e (built_good s Hb) Ht HR) as (Hg & Ha & Hba & Hp & Hs & Hm & He).
  split_and!; try done.
  - replace s' with (Register s m).1 by (by rewrite HR). by apply built_Register.
  - apply Hg.
  - destruct e as [e|]; [done|]. destruct He as (m' & Hv & Hst & Hmo). split; [done|]. exists m'. split_and!; [done..|].
    pose proof (gs_modules _ Hg) as Hall. rewrite Forall_forall in Hall. apply (Hall m'). rewrite Hmo. set_solver.
Qed.

(** ** The header of a token *)

Lemma base64_solid a : base64_char a = true -> solid a = true.
Proof.
  revert a. assert (H1 : forall a, implb (base64_char a) (solid a) = true).
  { refine (every_char _ _). apply (bool_decide_unpack _). vm_compute. done. }
  intros a Ha. specialize (H1 a). by rewrite Ha in H1.
Qed.

Lemma TrimSpace_StdEncode t : TrimSpace (StdEncode t) = StdEncode t.
Proof.
  apply TrimSpace_solid. pose proof (StdEncode_chars t) as Hc. rewrite forallb_forall in Hc |- *.
  intros a Ha. by apply base64_solid, Hc.
Qed.

Lemma Cut_word c w rest : has_byte c w = false -> Cut c (w +:+ String c rest) = Some (w, rest).
Proof.
  induction w as [|a w IH]; intros Hw.
  - rewrite append_empty. cbn. by rewrite bool_decide_eq_true_2.
  - rewrite append_cons. cbn in Hw |- *. apply orb_false_iff in Hw as [Ha Hw]. rewrite Ha, IH by done. done.
Qed.

Lemma Cut_Some c s x y : Cut c s = Some (x, y) -> s = x +:+ String c y.
Proof.
  revert x. induction s as [|a s IH]; [done|]. intros x. cbn. destruct (bool_decide (a = c)) eqn:Ea.
  - apply bool_decide_eq_true in Ea. by intros [= <- <-]; subst.
  - destruct (Cut c s) as [[x' y']|]; [|done]. cbn. intros [= <- <-]. rewrite append_cons. by rewrite (IH x').
Qed.

(** A token is read from the header it is sent in, and from nothing but a
    header that holds its Base64: of the texts without line breaks there is
    exactly one for each token, whatever the case of the scheme. *)
Theorem token_header_roundtrip r token :
  (token <> EmptyString -> Get "Authorization" (rq_Header r) = "Token " +:+ StdEncode token ->
   tokenFromRequest r = Some token) /\
  (tokenFromRequest r = Some token -> token <> EmptyString /\ exists scheme encoded,
   Get "Authorization" (rq_Header r) = scheme +:+ " " +:+ encoded /\ EqualFold scheme "Token" = true /\
   strip_breaks (TrimSpace encoded) = StdEncode token).
Proof.
  unfold tokenFromRequest. split.
  - intros Ht ->. change ("Token " +:+ StdEncode token) with ("Token" +:+ String " "%char (StdEncode token)).
    rewrite Cut_word by done. cbn [mbind option_bind]. change (EqualFold "Token" "Token") with true. cbn [negb].
    rewrite TrimSpace_StdEncode, StrictDecode_StdEncode. cbn. by rewrite bool_decide_eq_false_2.
  - destruct (Cut _ _) as [[scheme encoded]|] eqn:Ec; [|done]. cbn [mbind option_bind].
    destruct (EqualFold scheme "Token") eqn:Ef; [|done]. cbn [negb].
    destruct (StrictDecode _) as [t|] eqn:Ed; [|done]. cbn. case_bool_decide; [done|]. intros [= ->].
    split; [done|]. exists scheme, encoded. split_and!; [by apply Cut_Some|done|]. by apply StrictDecode_canonical.
Qed.

(** ** What a refusal looks like *)

(** Sent with this status and an OCPI error of this code and message, under
    both ids. *)
Definition enveloped_error (now : Time) (random1 random2 : list Z) (r : Request) (status code : Z) (message : string)
    (w : responseWriter) : Prop :=
  exists h, w_sent (rw_inner w) = Some (status, h) /\ rw_status w = status /\
    Get "X-Request-ID" h = headerOrNewID r "X-Request-ID" random1 /\
    Get "X-Correlation-ID" h = headerOrNewID r "X-Correlation-ID" random2 /\
    Get "Content-Type" h = "application/json" /\
    w_body (rw_inner w) = [CJson (JObj [("status_code", JInt code); ("status_message", JStr message);
                                        ("timestamp", JStr (FormatDateTime now))])].

(** A writer that nothing has been sent on, with both ids. *)
Definition unsent (now : Time) (random1 random2 : list Z) (r : Request) (w : responseWriter) : Prop :=
  w_sent (rw_inner w) = None /\ w_body (rw_inner w) = [] /\ rw_code w = 0 /\ rw_now w = now /\
  Get "X-Request-ID" (w_header (rw_inner w)) = headerOrNewID r "X-Request-ID" random1 /\
  Get "X-Correlation-ID" (w_header (rw_inner w)) = headerOrNewID r "X-Correlation-ID" random2.

Lemma Get_Set k v h : Get k (Set_ k v h) = v.
Proof. unfold Get, Set_. by rewrite lookup_insert_eq. Qed.

Lemma Get_Set_ne k k' v h : canonical k <> canonical k' -> Get k (Set_ k' v h) = Get k h.
Proof. intros Hk. unfold Get, Set_. by rewrite lookup_insert_ne. Qed.

Lemma opening_unsent now random1 random2 r : unsent now random1 random2 r (opening now random1 random2 r).2.
Proof.
  unfold unsent, opening. cbn [snd rw_inner rw_code rw_now with_header Writer_ResponseWriter w_sent w_body w_header fresh_writer].
  split_and!; rewrite ?Get_Set_ne, ?Get_Set by done; done.
Qed.

Lemma unsent_Set now random1 random2 r w k v :
  canonical k <> "X-Request-Id" -> canonical k <> "X-Correlation-Id" ->
  unsent now random1 random2 r w -> unsent now random1 random2 r (with_header (Set_ k v) w).
Proof.
  intros H1 H2 (Hs & Hb & Hc & Hn & Hr & Hcr). unfold unsent.
  cbn [rw_inner rw_code rw_now with_header responseWriter_ResponseWriter Writer_ResponseWriter w_sent w_body w_header].
  rewrite !Get_Set_ne by done. done.
Qed.

Lemma WriteError_enveloped now random1 random2 r w status code message :
  unsent now random1 random2 r w -> status <> 0 -> message <> EmptyString ->
  enveloped_error now random1 random2 r status code message (WriteError status code message w).
Proof.
  intros (Hs & Hb & Hc & Hn & Hr & Hcr) Hst Hmsg. destruct w as [[h sent body] now' c]. cbn in *. subst.
  unfold WriteError, writeEnvelope, encoded, Response_json, omit_empty. cbn [Data_ StatusCode StatusMessage Timestamp mbind option_bind].
  rewrite bool_decide_eq_false_2 by done.
  eexists. cbn [WriteHeader Write with_header rw_inner rw_now rw_code w_sent w_body w_header responseWriter_ResponseWriter
    Writer_ResponseWriter Writer_Write Writer_WriteHeader app]. split; [done|].
  apply Z.eqb_neq in Hst. split; [unfold rw_status; cbn; rewrite Hst; cbn; by rewrite Hst|].
  split_and!; rewrite ?Get_Set_ne, ?Get_Set by done; done.
Qed.

(** What the mux answers itself: a redirect, or one of two errors. *)
Lemma Own_cases (t : list (mux_pattern * (Access * Target))) r h pat : Mux_Handler t r = Own h pat ->
  rp_code h = 301 \/ pat = EmptyString /\ (h = NotFound_reply \/ exists ms, h = MethodNotAllowed_reply ms).
Proof.
  assert (Hr : forall n host path, routed_to n host path t = Own h pat ->
    pat = EmptyString /\ (h = NotFound_reply \/ exists ms, h = MethodNotAllowed_reply ms)).
  { intros [[p y]|] host path; [done|]. cbn. unfold unrouted. case_bool_decide; intros [= <- <-]; [by auto|].
    split; [done|]. right. by eexists. }
  unfold Mux_Handler. case_bool_decide; destruct (slash_redirect _ _ _ _); try (intros [= <- <-]; by left).
  - intros HR%Hr. by right.
  - destruct (negb _); [intros [= <- <-]; by left|]. intros HR%Hr. by right.
Qed.

Lemma unmatched_enveloped now random1 random2 r w h :
  unsent now random1 random2 r w -> h = NotFound_reply \/ (exists ms, h = MethodNotAllowed_reply ms) ->
  (rp_code h = 404 \/ rp_code h = 405) /\
  enveloped_error now random1 random2 r (rp_code h) StatusClientError (StatusText (rp_code h)) (unmatched h w).
Proof.
  intros Hw Hh. unfold unmatched.
  assert (Hc : forall c, unsent now random1 random2 r (foldl (copy_header c) w ["Allow"; "Location"])).
  { intros c. assert (Hk : forall k w, k = "Allow" \/ k = "Location" -> unsent now random1 random2 r w ->
      unsent now random1 random2 r (copy_header c w k)).
    { intros k w' Hk Hw'. unfold copy_header. case_bool_decide; [done|].
      apply unsent_Set; [by destruct Hk as [-> | ->]..|done]. }
    cbn [foldl]. auto 10. }
  set (c := serve_reply h (mkCapture ∅ 0)).
  assert (Hcode : cp_code c = rp_code h) by (subst c; by destruct Hh as [-> | [ms ->]]).
  rewrite Hcode. destruct Hh as [-> | [ms ->]]; cbn [rp_code NotFound_reply MethodNotAllowed_reply Error_reply];
    (split; [auto|]); apply WriteError_enveloped; done.
Qed.

(** Every answer but a redirect that is not a handler's own is an OCPI error
    envelope under the request's ids, fresh ones where the peer sent none: 404
    for a path nobody serves, 405 for a method nobody serves there, and for
    a served route 401 when the token does not grant enough. *)
Theorem refusals_enveloped s now random1 random2 r : built s ->
  match Mux_Handler (mux s) r with
  | Matched x _ => granted s r < x.1 ->
      enveloped_error now random1 random2 r 401 StatusClientError "Unauthorized" (ServeHTTP s now random1 random2 r)
  | Own h _ => rp_code h = 301 \/
      (rp_code h = 404 \/ rp_code h = 405) /\
      enveloped_error now random1 random2 r (rp_code h) StatusClientError (StatusText (rp_code h))
        (ServeHTTP s now random1 random2 r)
  end.
Proof.
  intros Hb. pose proof (opening_unsent now random1 random2 r) as Hw. unfold ServeHTTP.
  destruct (opening _ _ _ _) as [ctx w]. cbn in Hw.
  destruct (Mux_Handler (mux s) r) as [[need t] pat|h pat] eqn:Em.
  - apply matched_guarded in Em; [|done]. intros Hlt. rewrite mounted_granted by done.
    cbn [fst snd] in *. rewrite (proj2 (Z.ltb_lt _ _) Hlt). unfold unauthorized. apply WriteError_enveloped; [|done..].
    by apply unsent_Set.
  - apply Own_cases in Em as [?|[-> Hh]]; [by left|right]. rewrite bool_decide_eq_true_2 by done.
    by apply unmatched_enveloped.
Qed.
End serve.

(** ** A server for a configuration *)

Section started.
Context `{HttpTexts} `{URLs} `{Digest}.

Lemma static_granted tokenA token : (Sum256 token = Sum256 tokenA -> token = tokenA) ->
  NewStaticAuthenticator tokenA token = if bool_decide (token = tokenA) then AccessRegistration else AccessNone.
Proof.
  intros Hinj. unfold NewStaticAuthenticator, Matches, NewSecret. cbn [sum].
  repeat case_bool_decide; try done; [|by subst]. exfalso. by auto.
Qed.

(** C30: For a base URL that can be served, and a listener that binds, the OCPI
    server starts; and then, short of a token with TOKEN_A's digest, exactly the
    holder of TOKEN_A gets the versions, the details naming the credentials module, and that module's stub, on
    every method; anyone else gets no access at all. *)
Theorem startOCPI_serves bind url tokenA b p now random1 random2 r :
  (forall t, tokenFromRequest r = Some t -> Sum256 t = Sum256 tokenA -> t = tokenA) ->
  splitBaseURL url = inl (b, p) ->
  exists s, startOCPI bind url tokenA None = inl s /\
    let holder := tokenFromRequest r = Some tokenA in
    let answers path h := rq_Path r = p +:+ path \/ rq_Path r = p +:+ path +:+ "/" ->
      ServeHTTP s now random1 random2 r = let '(ctx, w) := opening now random1 random2 r in h r ctx w in
    (~ holder -> denied s r) /\
    (holder -> rq_Method r = "GET" ->
      answers "/versions" (fun _ _ => WriteOK (HasData (JArr [versionEntry_json "2.3.0" (b +:+ "/2.3.0")]))) /\
      answers "/2.3.0" (fun _ _ => WriteOK (HasData (versionDetails_json "2.3.0"
        [endpoint_json "credentials" "SENDER" (b +:+ "/2.3.0/credentials")])))) /\
    (holder -> rq_Method r ∈ ["GET"; "POST"; "PUT"; "DELETE"] -> answers "/2.3.0/credentials" notYet).
Proof.
  intros Hinj Hu. destruct (startOCPI_total bind url tokenA b p Hu) as (s & Hs & Hb & _ & Hbase & Hp & Ha & Hm).
  exists s. split; [done|]. pose proof (built_good s Hb) as Hg.
  assert (Hgr : granted s r = if bool_decide (tokenFromRequest r = Some tokenA) then AccessRegistration else AccessNone).
  { unfold granted. rewrite Ha. destruct (tokenFromRequest r) as [t|]; [|done]. rewrite static_granted by auto.
    repeat case_bool_decide; congruence. }
  assert (Hrun : forall path t, mounted_at (mux s) (rq_Method r) (p +:+ path) (AccessRegistration, t) ->
    validMethod (rq_Method r) = true -> clean_path (p +:+ path) -> no_brace (p +:+ path) ->
    tokenFromRequest r = Some tokenA -> rq_Path r = p +:+ path \/ rq_Path r = p +:+ path +:+ "/" ->
    ServeHTTP s now random1 random2 r = let '(ctx, w) := opening now random1 random2 r in target_handler s t r ctx w).
  { intros path t Hmt Hv Hc Hnb Hh Hpath. rewrite <- append_assoc in Hpath.
    pose proof (mounted_served s _ _ _ t now random1 random2 r Hb Hmt Hv Hc Hnb eq_refl Hpath) as Hsv.
    unfold served_by in Hsv. rewrite Hgr, bool_decide_eq_true_2 in Hsv by done. exact Hsv. }
  pose proof (gs_prefix s Hg) as Hgp. rewrite Hp in Hgp.
  destruct (below_prefix p "versions" Hgp) as (Hc1 & Hb1 & _); [done..|].
  destruct (below_prefix p Version Hgp) as (Hc2 & Hb2 & _); [done..|].
  pose proof (gs_versions s Hg) as Hv1. pose proof (gs_details s Hg) as Hv2. rewrite Hp in Hv1, Hv2.
  split_and!.
  - intros Hh. unfold denied. rewrite Hgr, bool_decide_eq_false_2 by done. done.
  - intros Hh Hget. rewrite Hget in Hrun. split; intros Hpath.
    + rewrite (Hrun "/versions" ServeVersions) by done. cbn [target_handler]. unfold serveVersions, VersionURL.
      by rewrite Hbase.
    + rewrite (Hrun "/2.3.0" ServeVersionDetails) by done. cbn [target_handler].
      unfold serveVersionDetails, endpoints, VersionURL. rewrite Hm, Hbase. cbn [fmap list_fmap]. by rewrite append_assoc.
  - intros Hh Hmeth Hpath.
    assert (exists ro, ro ∈ mo_Routes credentials /\ ro_Method ro = rq_Method r /\ ro_Path ro = EmptyString /\
                       ro_Handler ro = Some notYet) as (ro & Hro & Hmr & Hpr & Hhr).
    { exists (mkRoute (rq_Method r) EmptyString (Some notYet)). split; [|done].
      change (mo_Routes credentials) with ((fun m => mkRoute m EmptyString (Some notYet)) <$> ["GET"; "POST"; "PUT"; "DELETE"]).
      apply list_elem_of_fmap. by exists (rq_Method r). }
    assert (Hroot : route_path (module_root s credentials) ro = p +:+ "/2.3.0/credentials")
      by (unfold route_path, module_root; by rewrite Hpr, Hp).
    pose proof (module_route_served s credentials ro notYet now random1 random2 r Hb) as Hsv.
    rewrite Hm, Hroot, Hmr, Hpr in Hsv. unfold served_by in Hsv.
    rewrite Hgr, bool_decide_eq_true_2 in Hsv by done. apply Hsv; try done; [by left| |by rewrite append_assoc].
    intros E. rewrite E in Hmeth. revert Hmeth. by apply (bool_decide_unpack _).
Qed.
End started.

Section configured.
Context `{HttpTexts} `{URLs} `{Digest}.

(** With a configuration that validates, and a listener that binds, the OCPI
    server starts exactly when the base URL has no query, no fragment and no
    braces in its path - which validation does not ask for. *)
Theorem validated_url_starts c u bind tokenA :
  valid c -> url_Parse (oc_PublicBaseURL (cf_OCPI c)) = inl u ->
  (exists s, startOCPI bind (oc_PublicBaseURL (cf_OCPI c)) tokenA None = inl s) <->
  u_RawQuery u = EmptyString /\ u_Fragment u = EmptyString /\ has_brace (Clean (String "/"%char (u_Path u))) = false.
Proof.
  intros [_ _ _ [_ _ (_ & u' & Hu' & Hs & Hh) _ _ _] _] Hu. rewrite Hu in Hu'. injection Hu' as <-.
  assert (Hsplit : (exists bp, splitBaseURL (oc_PublicBaseURL (cf_OCPI c)) = inl bp) <->
    u_RawQuery u = EmptyString /\ u_Fragment u = EmptyString /\ has_brace (Clean (String "/"%char (u_Path u))) = false).
  { unfold splitBaseURL. rewrite Hu. rewrite (bool_decide_eq_false_2 (u_Scheme u = _)) by (by destruct Hs as [-> | ->]).
    rewrite (bool_decide_eq_false_2 (u_Host u = _)) by done. cbn [orb].
    assert (Hb : has_brace (if bool_decide (Clean (String "/"%char (u_Path u)) = "/") then EmptyString
                            else Clean (String "/"%char (u_Path u))) = has_brace (Clean (String "/"%char (u_Path u))))
      by (case_bool_decide as E; [by rewrite E|done]).
    destruct (bool_decide (u_RawQuery u = _)) eqn:Eq; [apply bool_decide_eq_true in Eq|apply bool_decide_eq_false in Eq];
      destruct (bool_decide (u_Fragment u = _)) eqn:Ef; [apply bool_decide_eq_true in Ef|apply bool_decide_eq_false in Ef| |];
      cbn [negb orb]; rewrite ?Hb; try (split; [by intros [??]|naive_solver]).
    destruct (has_brace (Clean _)); (split; [intros [??]|intros (_ & _ & ?)]); try done. by eexists. }
  rewrite <- Hsplit. split.
  - intros [s Hst]. unfold startOCPI, New in Hst. cbn [Auth PublicBaseURL] in Hst.
    destruct (splitBaseURL _) as [bp|]; [by exists bp|done].
  - intros [[b p] Hbp]. destruct (startOCPI_total bind _ tokenA b p Hbp) as (s & Hst & _). by exists s.
Qed.
End configured.

(** ** Instances: a server on [http://cpms.local/ocpi/] *)

#[local] Instance sample_texts : HttpTexts := {|
  redirect_location := fun path _ => path; redirect_page := fun _ => ""; panic_text := fun _ s => s |}.
#[local] Instance sample_digest : Digest := {| Sum256 := fun s => s |}.
#[local] Existing Instance sample_urls.

Definition sample_ocpi (tokenA : string) : Server :=
  match startOCPI "" "http://cpms.local/ocpi/" tokenA None with
  | inl s => s
  | inr _ => mkServer (fun _ => AccessNone) "" "" [] false []
  end.

Definition ocpi_request (method path auth : string) : Request :=
  mkRequest method "cpms.local" path "" (Set_ "Authorization" auth ∅) (mkBody (inr false) TokEOF).

Definition ids : list Z := repeat 0 16.

Lemma sample_ocpi_parts tokenA : let s := sample_ocpi tokenA in
  built s /\ prefix s = "/ocpi" /\ sv_auth s = NewStaticAuthenticator tokenA /\ modules s = [credentials].
Proof.
  assert (E : splitBaseURL "http://cpms.local/ocpi/" = inl ("http://cpms.local/ocpi", "/ocpi")) by (by vm_compute).
  destruct (startOCPI_total "" _ tokenA _ _ E) as (s & Hs & Hb & _ & _ & Hp & Ha & Hm).
  unfold sample_ocpi. rewrite Hs. split_and!; assumption.
Qed.

Lemma sample_ocpi_built tokenA : built (sample_ocpi tokenA).
Proof. apply sample_ocpi_parts. Qed.

(** Two servers with their own secrets; no header, and a token of neither. *)
Lemma outsiders_learn_routes_only_witness :
  let s := sample_ocpi "token-a-1234" in
  let s' := sample_ocpi "another-token" in
  let r := ocpi_request "GET" "/ocpi/2.3.0" "Basic dGVzdA==" in
  let r' := with_authorization "Token bm90LWEtdG9rZW4=" r in
  tokenFromRequest r = None /\ tokenFromRequest r' = Some "not-a-token" /\
  ServeHTTP s' zeroTime ids ids r' = ServeHTTP s zeroTime ids ids r.
Proof.
  split; [by vm_compute|]. split; [by vm_compute|].
  apply outsiders_learn_routes_only; [apply sample_ocpi_built..|by vm_compute|by vm_compute|by vm_compute].
Defined.

Lemma advertised_is_served_witness :
  let s := sample_ocpi "token-a-1234" in
  let r := ocpi_request "PUT" "/ocpi/2.3.0/credentials/" "token dG9rZW4tYS0xMjM0" in
  served_by s AccessRegistration notYet zeroTime ids ids r /\ granted s r = AccessRegistration /\
  exists path, module_root s credentials = prefix s +:+ path /\
    endpoint_json "credentials" "SENDER" (base s +:+ path) ∈ endpoints s.
Proof.
  destruct (sample_ocpi_parts "token-a-1234") as (Hb & Hp & Ha & Hm).
  assert (Hg : granted (sample_ocpi "token-a-1234")
    (ocpi_request "PUT" "/ocpi/2.3.0/credentials/" "token dG9rZW4tYS0xMjM0") = AccessRegistration)
    by (unfold granted; rewrite Ha; by vm_compute).
  assert (Hroot : module_root (sample_ocpi "token-a-1234") credentials = "/ocpi/2.3.0/credentials")
    by (unfold module_root; by rewrite Hp).
  pose proof (advertised_is_served (sample_ocpi "token-a-1234") credentials (mkRoute "PUT" "" (Some notYet)) notYet
    zeroTime ids ids (ocpi_request "PUT" "/ocpi/2.3.0/credentials/" "token dG9rZW4tYS0xMjM0") Hb) as Hsv.
  rewrite Hm, Hroot in Hsv. cbv zeta. rewrite Hroot.
  destruct Hsv as [Hsv Hpath]; [by left|by right; right; left|reflexivity|reflexivity|discriminate|reflexivity|
    right; reflexivity|]. split; [exact Hsv|]. split; [exact Hg|exact Hpath].
Defined.

Lemma token_header_roundtrip_witness :
  let r := ocpi_request "GET" "/" ("Token " +:+ StdEncode "token-a-1234") in
  tokenFromRequest r = Some "token-a-1234".
Proof. apply (proj1 (token_header_roundtrip _ "token-a-1234")); [discriminate|]. vm_compute. reflexivity. Defined.

Lemma refusals_enveloped_witness :
  let s := sample_ocpi "token-a-1234" in
  let r := ocpi_request "PATCH" "/ocpi/2.3.0/credentials" "Token bm90LWEtdG9rZW4=" in
  exists w, w = ServeHTTP s zeroTime ids ids r /\ rw_status w = 405 /\
    enveloped_error zeroTime ids ids r 405 2000 "Method Not Allowed" w.
Proof.
  eexists. split; [reflexivity|]. split; [vm_compute; reflexivity|].
  pose proof (refusals_enveloped (sample_ocpi "token-a-1234") zeroTime ids ids
    (ocpi_request "PATCH" "/ocpi/2.3.0/credentials" "Token bm90LWEtdG9rZW4=") (sample_ocpi_built _)) as Hr.
  destruct (Mux_Handler _ _) as [x pat|h pat] eqn:Em.
  { exfalso. revert Em. vm_compute. discriminate. }
  assert (Hcode : rp_code h = 405) by (revert Em; vm_compute; intros [= <- <-]; reflexivity).
  rewrite Hcode in Hr. destruct Hr as [Hr|[_ Hr]]; [discriminate Hr|exact Hr].
Defined.

Lemma startOCPI_serves_witness :
  let r := ocpi_request "DELETE" "/ocpi/2.3.0/credentials" "Token dG9rZW4tYS0xMjM0" in
  exists s, startOCPI "" "http://cpms.local/ocpi/" "token-a-1234" None = inl s /\
    ServeHTTP s zeroTime ids ids r = let '(ctx, w) := opening zeroTime ids ids r in notYet r ctx w.
Proof.
  destruct (startOCPI_serves "" "http://cpms.local/ocpi/" "token-a-1234" "http://cpms.local/ocpi" "/ocpi"
    zeroTime ids ids (ocpi_request "DELETE" "/ocpi/2.3.0/credentials" "Token dG9rZW4tYS0xMjM0"))
    as (s & Hs & _ & _ & Hc); [done|vm_compute; reflexivity|].
  exists s. split; [exact Hs|]. apply Hc; [vm_compute; reflexivity| |left; reflexivity].
  right. right. right. left.
Defined.

Lemma validated_url_starts_witness :
  exists s, startOCPI "" (oc_PublicBaseURL (cf_OCPI minimal_loaded)) "token-a-1234" None = inl s.
Proof.
  apply (validated_url_starts minimal_loaded (("cpms.local:8080", "") : @URL sample_urls)).
  - apply Validate_nil. vm_compute. reflexivity.
  - vm_compute. reflexivity.
  - vm_compute. done.
Defined.

Definition locations : Module_ :=
  mkModule "locations" RoleSender "/locations/" AccessModules [mkRoute "GET" "{id}" (Some notYet)].

Definition everyone : Authenticator := fun _ => AccessModules.

Definition unstarted : Server :=
  match New (Ocpi.mkOptions "http://cpms.local/ocpi" (Some everyone)) with
  | inl s => s
  | inr _ => mkServer (fun _ => AccessNone) "" "" [] true []
  end.

Lemma unstarted_built : built unstarted.
Proof.
  assert (E : splitBaseURL "http://cpms.local/ocpi" = inl ("http://cpms.local/ocpi", "/ocpi")) by (by vm_compute).
  destruct (New_total _ everyone _ _ E) as (t & HN & _). unfold unstarted. rewrite HN. by eapply built_New.
Qed.

Lemma Register_outcomes_witness :
  let s' := (Register unstarted locations).1 in
  (Register unstarted locations).2 = None /\ built s' /\ (mo_Path <$> modules s') = ["locations"].
Proof.
  pose proof (Register_outcomes unstarted locations (Register unstarted locations).1 (Register unstarted locations).2
    unstarted_built) as HR.
  destruct HR as (Hb' & _); [by repeat constructor|apply surjective_pairing|].
  split; [by vm_compute|]. split; [exact Hb'|by vm_compute].
Defined.

(** ** At the edges *)

(** A redirect is not an envelope, and needs no token. *)
Example redirects_unwrapped :
  let w := ServeHTTP (sample_ocpi "token-a-1234") zeroTime ids ids (ocpi_request "GET" "/ocpi//versions" "") in
  rw_status w = 301 /\ w_body (rw_inner w) = [CText ""].
Proof. vm_compute. done. Qed.

(** A module that is refused for a conflict leaves the routes before the
    conflict mounted, unlisted. *)
Definition twice : Module_ :=
  mkModule "tokens" RoleReceiver "" AccessModules
    [mkRoute "GET" "" (Some notYet); mkRoute "GET" "/" (Some notYet)].

Example refused_module_stays_mounted :
  let '(s, e) := Register unstarted twice in
  is_Some e /\ modules s = [] /\ (mp_str <$> drop 4 (mux s).*1) = ["GET /ocpi/2.3.0/tokens"; "GET /ocpi/2.3.0/tokens/{$}"].
Proof. vm_compute. split; [by eexists|done]. Qed.

Example tokens_read :
  (fun v => tokenFromRequest (ocpi_request "GET" "/" v)) <$>
    ["Token TQ=="; "tOKEN  TQ== "; "Bearer TQ=="; "Token"; "Token "; "Token TQ"; "Token TR=="; "Token token-a"] =
  [Some "M"; Some "M"; None; None; None; None; None; None].
Proof. vm_compute. done. Qed.

Example uuid_sample : newUUID (Z.of_nat <$> seq 240 16) = "f0f1f2f3-f4f5-46f7-b8f9-fafbfcfdfeff".
Proof. vm_compute. done. Qed.
