(* ===== verification/State.v ===== *)
(** * The state file (internal/state)

    state.go: the DTOs of state.json and [normalize].  store.go: the store's
    in-memory copy, the file it writes through a temporary file and a rename,
    and [Update], which makes a change visible only once it is on disk.

    The file system is the directory of the state file: what the store's name
    leads to, the temporary files, and what of it is on the disk for good.  A file
    may hold a whole document or the first bytes of one.  [write] is the system
    calls the code makes, one after the other; what they answer is given by a
    [WriteResult]. *)

From S2P Require Import Prelude GoLib GoTime Json Errors.

(** ** The data *)

Definition Version : Z := 1.

Record Endpoint := mkEndpoint { ep_Identifier : string; ep_Role : string; ep_URL : string }.
Record PartyRole := mkPartyRole { pr_CountryCode : string; pr_PartyID : string; pr_Role : string }.

Record OCPIRegistration := mkOCPIRegistration {
  or_RegisteredAt : Time;
  or_TokenB : string;
  or_VersionsURL : string;
  or_Version : string;
  or_Endpoints : list Endpoint;
  or_Roles : list PartyRole
}.

Record Reservation := mkReservation {
  sr_ID : Z;
  sr_OCPIReservationID : string;
  sr_ChargePointID : string;
  sr_EVSEUID : string;
  sr_IDTag : string;
  sr_ExpiresAt : Time;
  sr_CreatedAt : Time;
  sr_Source : string;
  sr_ResponseURL : string
}.

Record Transaction := mkTransaction {
  st_ID : string;
  st_ChargePointID : string;
  st_EVSEUID : string;
  st_ConnectorID : Z;
  st_IDTag : string;
  st_MeterStart : Z;
  st_StartedAt : Time;
  st_ReservationID : Z
}.

Record State := mkState {
  ss_Version : Z;
  ss_OCPI : option OCPIRegistration;
  ss_NextReservationID : Z;
  ss_NextTransactionID : Z;
  ss_NextRemoteStartID : Z;
  ss_Reservations : list Reservation;
  ss_Transactions : list Transaction
}.

(** The state of a tool that has never written anything. *)
Definition empty : State := mkState Version None 0 0 0 [] [].

(** ** normalize *)

Definition normalize_reservation (r : Reservation) : Reservation :=
  mkReservation (sr_ID r) (sr_OCPIReservationID r) (sr_ChargePointID r) (sr_EVSEUID r)
    (sr_IDTag r) (UTC (sr_ExpiresAt r)) (UTC (sr_CreatedAt r)) (sr_Source r) (sr_ResponseURL r).

Definition normalize_transaction (t : Transaction) : Transaction :=
  mkTransaction (st_ID t) (st_ChargePointID t) (st_EVSEUID t) (st_ConnectorID t)
    (st_IDTag t) (st_MeterStart t) (UTC (st_StartedAt t)) (st_ReservationID t).

Definition normalize_registration (o : OCPIRegistration) : OCPIRegistration :=
  mkOCPIRegistration (UTC (or_RegisteredAt o)) (or_TokenB o) (or_VersionsURL o) (or_Version o)
    (or_Endpoints o) (or_Roles o).

Definition normalize (s : State) : State :=
  mkState Version (normalize_registration <$> ss_OCPI s)
    (ss_NextReservationID s) (ss_NextTransactionID s) (ss_NextRemoteStartID s)
    (normalize_reservation <$> ss_Reservations s)
    (normalize_transaction <$> ss_Transactions s).

Lemma normalize_idemp s : normalize (normalize s) = normalize s.
Proof.
  unfold normalize; simpl. f_equal.
  - by destruct (ss_OCPI s).
  - rewrite <- list_fmap_compose. by apply list_fmap_ext.
  - rewrite <- list_fmap_compose. by apply list_fmap_ext.
Qed.

(** ** Writing the file *)

(** A file's bytes, as far as the store can tell: the whole document of a state,
    or the first [n] bytes of one. *)
Inductive Content := Whole (st : State) | Part (st : State) (n : nat).

(** A file: what a reader sees, and whether that is on the disk for good. *)
Record File := mkFile { content : Content; synced : bool }.
Definition whole (st : State) : File := mkFile (Whole st) true.

(** The directory: what the store's name leads to, the temporary files (the
    newest first), and what the name may lead to after a power cut: the directory
    itself is only as new as its last sync. *)
Record Disk := mkDisk { file : option File; temps : list File; recorded : list (option File) }.

Definition no_file : Disk := mkDisk None [] [None].
Definition holding (st : State) : Disk := mkDisk (Some (whole st)) [] [Some (whole st)].

Record Store := mkStore { path : string; state : State; disk : Disk }.

(** *** The system calls *)

(** [os.CreateTemp]: a new file, under a name of its own. *)
Definition disk_CreateTemp (st : State) (d : Disk) : Disk :=
  mkDisk (file d) (mkFile (Part st 0) false :: temps d) (recorded d).

Definition on_newest (f : File -> File) (d : Disk) : Disk :=
  mkDisk (file d) match temps d with t :: ts => f t :: ts | [] => [] end (recorded d).

(** A [write(2)] of [f.Write] that leaves the file with [c]. *)
Definition disk_Write (c : Content) : Disk -> Disk := on_newest (fun _ => mkFile c false).

Definition disk_Sync : Disk -> Disk := on_newest (fun f => mkFile (content f) true).

(** [os.Rename] of the newest temporary file to the store's name. *)
Definition disk_Rename (d : Disk) : Disk :=
  match temps d with
  | t :: ts => mkDisk (Some t) ts (Some t :: recorded d)
  | [] => d
  end.

Definition disk_Remove (d : Disk) : Disk := mkDisk (file d) (tail (temps d)) (recorded d).

(** [syncDir]. *)
Definition disk_SyncDir (d : Disk) : Disk := mkDisk (file d) (temps d) [file d].

(** What the calls of a write answer: where [f.Write] is between its system calls,
    the first call that fails, and whether the temporary file's removal and the
    sync of the directory work, whose errors the code ignores. *)
Inductive WriteStage := StageEncode | StageCreateTemp | StageWrite | StageSync | StageClose | StageRename.
#[export] Instance WriteStage_eq_dec : EqDecision WriteStage.
Proof. solve_decision. Defined.

Record WriteResult := mkWriteResult {
  wr_parts : list nat;
  wr_failed : option (WriteStage * error);
  wr_removed : bool;
  wr_dirSynced : bool
}.
Definition all_well : WriteResult := mkWriteResult [] None true true.
Definition failing (stage : WriteStage) (e : error) : WriteResult := mkWriteResult [] (Some (stage, e)) true true.

Definition failure_at (stage : WriteStage) (r : WriteResult) : option error :=
  match wr_failed r with
  | Some (s, e) => if decide (s = stage) then Some e else None
  | None => None
  end.

(** *** [Store.write]

    A run of it is the disks it has gone through, the newest first: what a crash
    can find. *)
Definition history := list Disk.
Definition perform (f : Disk -> Disk) (x : history) : history :=
  match x with d :: _ => f d :: x | [] => [] end.

(** The rest of the body, unless the call of [stage] fails. *)
Definition attempt (stage : WriteStage) (r : WriteResult) (before : string) (rest : history -> history * option error) (x : history)
    : history * option error :=
  match failure_at stage r with
  | Some e => (x, Some (EWrap before e EmptyString))
  | None => rest x
  end.

Definition write_body (p : string) (st : State) (r : WriteResult) (x : history) : history * option error :=
  let writing := "writing state file " +:+ p +:+ ": " in
  let x := foldl (fun x n => perform (disk_Write (Part st n)) x) x (wr_parts r) in
  attempt StageWrite r writing (fun x =>
    attempt StageSync r writing (fun x =>
      attempt StageClose r writing (fun x =>
        attempt StageRename r ("replacing state file " +:+ p +:+ ": ") (fun x =>
          let x := perform disk_Rename x in
          (if wr_dirSynced r then perform disk_SyncDir x else x, None)) x)
      (perform disk_Sync x)) (perform (disk_Write (Whole st)) x)) x.

Definition write_run (p : string) (d : Disk) (st : State) (r : WriteResult) : history * option error :=
  attempt StageEncode r "encoding state: " (fun x =>
    attempt StageCreateTemp r ("writing state file " +:+ p +:+ ": ") (fun x =>
      let '(x, err) := write_body p st r (perform (disk_CreateTemp st) x) in
      (* the deferred cleanup *)
      match err with
      | Some _ => (if wr_removed r then perform disk_Remove x else x, err)
      | None => (x, err)
      end) x) [d].

Definition write (p : string) (d : Disk) (st : State) (r : WriteResult) : Disk * option error :=
  let '(x, err) := write_run p d st r in (default d (head x), err).

(** The disks a write goes through: what is there if the process dies in it. *)
Definition during (p : string) (d : Disk) (st : State) (r : WriteResult) : list Disk := (write_run p d st r).1.

(** A power cut: the name leads to what one of its entries since the last sync of
    the directory was, and a file that was not synced holds anything. *)
Definition survives (f f' : option File) : Prop :=
  match f, f' with
  | None, None => True
  | Some f, Some f' => if synced f then f' = f else True
  | _, _ => False
  end.

Inductive power_cut : Disk -> Disk -> Prop :=
| cut d f f' ts : f ∈ recorded d -> survives f f' -> power_cut d (mkDisk f' ts [f']).

Definition Get (s : Store) : State := state s.

(** [Store.Update].  [fn] gives the new state or an error. *)
Definition Update (fn : State -> State + error) (r : WriteResult) (s : Store)
    : Store * option error :=
  match fn (Get s) with
  | inr e => (s, Some e)
  | inl next =>
    let next := normalize next in
    let '(d, err) := write (path s) (disk s) next r in
    match err with
    | Some e => (mkStore (path s) (state s) d, Some e)
    | None => (mkStore (path s) next d, None)
    end
  end.

(** *** What a write does *)

(** A moment of a write of [st] that began at [d]. *)
Record moment (d : Disk) (st : State) (d' : Disk) : Prop := {
  mo_file : file d' = file d \/ file d' = Some (whole st);
  mo_recorded : forall f, f ∈ recorded d' -> f ∈ recorded d \/ f = Some (whole st);
  mo_settled : recorded d = [file d] -> forall f, f ∈ recorded d' -> f = file d \/ f = Some (whole st)
}.

(** Before the rename only the temporary file changes. *)
Definition untouched (d d' : Disk) : Prop := file d' = file d /\ recorded d' = recorded d.

Lemma untouched_moment d st d' : untouched d d' -> moment d st d'.
Proof.
  intros [Hf Hr]. split; [by left | intros f; rewrite Hr; by left |].
  intros Hs f. rewrite Hr, Hs. rewrite list_elem_of_singleton. by left.
Qed.

(** The history of a write that has its temporary file open, at [t]. *)
Definition open_at (d : Disk) (t : File) (x : history) : Prop :=
  Forall (untouched d) x /\ head x = Some (mkDisk (file d) (t :: temps d) (recorded d)).

Lemma open_perform d t f t' x : open_at d t x ->
  f (mkDisk (file d) (t :: temps d) (recorded d)) = mkDisk (file d) (t' :: temps d) (recorded d) ->
  open_at d t' (perform f x).
Proof.
  intros [Hx Hh] Hf. destruct x as [|d1 x]; [done|]. cbn in Hh. injection Hh as ->. cbn. rewrite Hf.
  split; [|done]. by constructor.
Qed.

Lemma open_parts d st l : forall t x, open_at d t x ->
  exists t', open_at d t' (foldl (fun x n => perform (disk_Write (Part st n)) x) x l).
Proof.
  induction l as [|n l IH]; intros t x Hx; [by exists t|]. cbn. eapply IH. by eapply open_perform.
Qed.

(** How the body ends: with the temporary file there, or with it in place. *)
Lemma write_body_spec p d st r t x : open_at d t x ->
  let (x', err) := write_body p st r x in
  match err with
  | Some _ => exists t', open_at d t' x'
  | None => Forall (moment d st) x' /\
      head x' = Some (mkDisk (Some (whole st)) (temps d)
                        (if wr_dirSynced r then [Some (whole st)] else Some (whole st) :: recorded d))
  end.
Proof.
  intros Hx. unfold write_body, attempt. destruct (open_parts d st (wr_parts r) t x Hx) as [t1 H1].
  revert H1. generalize (foldl (fun x n => perform (disk_Write (Part st n)) x) x (wr_parts r)). intros y H1.
  destruct (failure_at StageWrite r); [by eexists|].
  assert (H2 : open_at d (mkFile (Whole st) false) (perform (disk_Write (Whole st)) y)) by (by eapply open_perform).
  destruct (failure_at StageSync r); [by eexists|].
  assert (H3 : open_at d (whole st) (perform disk_Sync (perform (disk_Write (Whole st)) y))) by (by eapply open_perform).
  destruct (failure_at StageClose r); [by eexists|]. destruct (failure_at StageRename r); [by eexists|].
  revert H3. generalize (perform disk_Sync (perform (disk_Write (Whole st)) y)). intros z [Hz Hh].
  destruct z as [|d1 z]; [done|]. injection Hh as ->. cbn [perform disk_Rename temps].
  assert (Hm : Forall (moment d st) (mkDisk (file d) (whole st :: temps d) (recorded d) :: z)).
  { eapply Forall_impl; [exact Hz|]. intros d'. apply untouched_moment. }
  assert (Hr : moment d st (mkDisk (Some (whole st)) (temps d) (Some (whole st) :: recorded d))).
  { split; cbn; [by right | |].
    - intros f [->|Hf]%elem_of_cons; auto.
    - intros Hs f [->|Hf]%elem_of_cons; [by right|]. rewrite Hs, list_elem_of_singleton in Hf. auto. }
  destruct (wr_dirSynced r); cbn; (split; [|done]); [|by constructor].
  constructor; [|by constructor].
  split; cbn; [by right | intros f | intros _ f]; rewrite list_elem_of_singleton; by right.
Qed.

(** A write: what its moments are, and the disk it leaves. *)
Lemma write_run_spec p d st r :
  let (x, err) := write_run p d st r in
  Forall (moment d st) x /\
  exists d', head x = Some d' /\
    match err with
    | Some _ => untouched d d' /\ (wr_removed r = true -> temps d' = temps d)
    | None => file d' = Some (whole st) /\ temps d' = temps d /\
        recorded d' = (if wr_dirSynced r then [file d'] else file d' :: recorded d)
    end.
Proof.
  assert (H0 : untouched d d) by done. unfold write_run, attempt.
  destruct (failure_at StageEncode r);
    [split; [by apply Forall_singleton, untouched_moment | by exists d]|].
  destruct (failure_at StageCreateTemp r);
    [split; [by apply Forall_singleton, untouched_moment | by exists d]|].
  assert (Ho : open_at d (mkFile (Part st 0) false) (perform (disk_CreateTemp st) [d])) by (by split; [apply Forall_cons; split; [|apply Forall_singleton]|]).
  pose proof (write_body_spec p d st r _ _ Ho) as Hb.
  destruct (write_body p st r _) as [x [e|]]; cbn in Hb.
  - destruct Hb as (t' & Hx & Hh). destruct x as [|d1 x]; [done|]. injection Hh as ->.
    assert (Hm : Forall (moment d st) (mkDisk (file d) (t' :: temps d) (recorded d) :: x)).
    { eapply Forall_impl; [exact Hx|]. intros d'. apply untouched_moment. }
    destruct (wr_removed r); cbn; (split; [|eexists; split; [done|]; by split]).
    + constructor; [by apply untouched_moment | exact Hm].
    + exact Hm.
  - destruct Hb as [Hm Hh]. split; [done|]. eexists. split; [exact Hh|]. cbn. by destruct (wr_dirSynced r).
Qed.

(** The same of [write] and the moments of it. *)
Lemma write_spec p d st r :
  Forall (moment d st) (during p d st r) /\
  let (d', err) := write p d st r in
  match err with
  | Some _ => untouched d d' /\ (wr_removed r = true -> temps d' = temps d)
  | None => file d' = Some (whole st) /\ temps d' = temps d /\
      recorded d' = (if wr_dirSynced r then [file d'] else file d' :: recorded d)
  end.
Proof.
  unfold during, write. pose proof (write_run_spec p d st r) as Hs. destruct (write_run p d st r) as [x err].
  destruct Hs as (Hm & d' & Hh & Hd). split; [done|]. by rewrite Hh.
Qed.

(** [Update]'s branches. *)
Lemma Update_cases fn r s :
  (exists e, (Update fn r s).2 = Some e /\ state (Update fn r s).1 = state s /\
     untouched (disk s) (disk (Update fn r s).1) /\
     (wr_removed r = true -> temps (disk (Update fn r s).1) = temps (disk s))) \/
  (exists next, fn (Get s) = inl next /\ (Update fn r s).2 = None /\ state (Update fn r s).1 = normalize next /\
     file (disk (Update fn r s).1) = Some (whole (normalize next)) /\
     temps (disk (Update fn r s).1) = temps (disk s) /\
     recorded (disk (Update fn r s).1) =
       if wr_dirSynced r then [file (disk (Update fn r s).1)]
       else file (disk (Update fn r s).1) :: recorded (disk s)).
Proof.
  unfold Update. destruct (fn (Get s)) as [next|e]; [|left; by exists e].
  destruct (write_spec (path s) (disk s) (normalize next) r) as [_ Hw].
  destruct (write _ _ _ _) as [d [e|]]; cbn in *; [left | right].
  - by exists e.
  - destruct Hw as (H1 & H2 & H3). by exists next.
Qed.

(** A call that fails fails the write; otherwise it succeeds. *)
Lemma write_fails p d st r : (write p d st r).2 = None <-> wr_failed r = None.
Proof.
  unfold write, write_run, write_body, attempt, failure_at.
  destruct r as [l [[stage e]|] rm ds]; cbn.
  - split; [|done]. destruct stage; cbn; try done; by destruct rm.
  - split; [done|]. intros _. by destruct ds.
Qed.

(** *** What every store keeps: memory is normalised and agrees with the file. *)
Definition store_ok (s : Store) : Prop :=
  normalize (state s) = state s /\
  (file (disk s) = Some (whole (state s)) \/ file (disk s) = None /\ state s = empty) /\
  file (disk s) ∈ recorded (disk s).

Lemma Update_ok fn r s : store_ok s -> store_ok (Update fn r s).1.
Proof.
  intros (Hn & Hf & Hr).
  destruct (Update_cases fn r s) as [(e & _ & Es & [Ef Er] & _)|(next & _ & _ & Es & Ef & _ & Er)].
  - unfold store_ok. by rewrite Es, Ef, Er.
  - unfold store_ok. rewrite Er, Es, Ef. split; [apply normalize_idemp|]. split; [by left|].
    destruct (wr_dirSynced r); left.
Qed.

(** An update that fails, at whatever call, changes neither memory nor file. *)
Lemma Update_error fn r s e :
  (Update fn r s).2 = Some e ->
  state (Update fn r s).1 = state s /\ file (disk (Update fn r s).1) = file (disk s).
Proof.
  intros He. destruct (Update_cases fn r s) as [(e' & _ & Es & [Ef _] & _)|(next & _ & Hn & _)]; [done|congruence].
Qed.

Lemma Update_success fn r s next :
  fn (state s) = inl next -> (Update fn r s).2 = None ->
  state (Update fn r s).1 = normalize next /\
  file (disk (Update fn r s).1) = Some (whole (normalize next)).
Proof.
  intros Hf Hn. destruct (Update_cases fn r s) as [(e & He & _)|(next' & Hf' & _ & Es & Ef & _)]; [congruence|].
  unfold Get in Hf'. rewrite Hf in Hf'. injection Hf' as <-. done.
Qed.

(** ** Reading the file *)

(** What [os.ReadFile] and the JSON decoder give; where a decoder's error has no
    offset it is -1. *)
Inductive FileRead :=
| FileMissing
| FileError (e : error)
| FileNotJSON (data : string) (offset : Z) (problem : error)
| FileJSON (j : json).

(** [time.Time]'s JSON form.  [UnmarshalJSON] parses RFC 3339 strictly: two hour
    digits, no comma, an offset below 24:00. *)
Definition strict_rfc3339 (s : string) : bool :=
  negb (bool_decide (String.get 12 s = Some ":"%char)) &&
  negb (bool_decide (String.get 19 s = Some ","%char)) &&
  (let n := String.length s in
   if bool_decide (String.get (n - 1) s = Some "Z"%char) then true
   else match Atoi (String.substring (n - 5) 2 s), Atoi (String.substring (n - 2) 2 s) with
        | Some h, Some m => (h <? 24) && (m <? 60)
        | _, _ => false
        end).

Definition dec_time : decoder Time := fun j prev =>
  match j with
  | JNull => Some prev
  | JStr s => t ← ParseRFC3339 s; if strict_rfc3339 s then Some t else None
  | _ => None
  end.

Section decoding.
Definition endpoint_fields : struct_fields Endpoint := [
  ("identifier", at_field ep_Identifier (fun v a => mkEndpoint v (ep_Role a) (ep_URL a)) dec_string);
  ("role", at_field ep_Role (fun v a => mkEndpoint (ep_Identifier a) v (ep_URL a)) dec_string);
  ("url", at_field ep_URL (fun v a => mkEndpoint (ep_Identifier a) (ep_Role a) v) dec_string)].

Definition role_fields : struct_fields PartyRole := [
  ("country_code", at_field pr_CountryCode (fun v a => mkPartyRole v (pr_PartyID a) (pr_Role a)) dec_string);
  ("party_id", at_field pr_PartyID (fun v a => mkPartyRole (pr_CountryCode a) v (pr_Role a)) dec_string);
  ("role", at_field pr_Role (fun v a => mkPartyRole (pr_CountryCode a) (pr_PartyID a) v) dec_string)].

Definition registration_fields : struct_fields OCPIRegistration := [
  ("registered_at", at_field or_RegisteredAt (fun v a => mkOCPIRegistration v (or_TokenB a) (or_VersionsURL a) (or_Version a) (or_Endpoints a) (or_Roles a)) dec_time);
  ("token_b", at_field or_TokenB (fun v a => mkOCPIRegistration (or_RegisteredAt a) v (or_VersionsURL a) (or_Version a) (or_Endpoints a) (or_Roles a)) dec_string);
  ("versions_url", at_field or_VersionsURL (fun v a => mkOCPIRegistration (or_RegisteredAt a) (or_TokenB a) v (or_Version a) (or_Endpoints a) (or_Roles a)) dec_string);
  ("version", at_field or_Version (fun v a => mkOCPIRegistration (or_RegisteredAt a) (or_TokenB a) (or_VersionsURL a) v (or_Endpoints a) (or_Roles a)) dec_string);
  ("endpoints", at_field or_Endpoints (fun v a => mkOCPIRegistration (or_RegisteredAt a) (or_TokenB a) (or_VersionsURL a) (or_Version a) v (or_Roles a))
     (dec_slice (dec_struct endpoint_fields) (mkEndpoint EmptyString EmptyString EmptyString)));
  ("roles", at_field or_Roles (fun v a => mkOCPIRegistration (or_RegisteredAt a) (or_TokenB a) (or_VersionsURL a) (or_Version a) (or_Endpoints a) v)
     (dec_slice (dec_struct role_fields) (mkPartyRole EmptyString EmptyString EmptyString)))].

Definition zero_reservation : Reservation :=
  mkReservation 0 EmptyString EmptyString EmptyString EmptyString zeroTime zeroTime EmptyString EmptyString.

Definition reservation_fields : struct_fields Reservation := [
  ("id", at_field sr_ID (fun v a => mkReservation v (sr_OCPIReservationID a) (sr_ChargePointID a) (sr_EVSEUID a) (sr_IDTag a) (sr_ExpiresAt a) (sr_CreatedAt a) (sr_Source a) (sr_ResponseURL a)) dec_int);
  ("ocpi_reservation_id", at_field sr_OCPIReservationID (fun v a => mkReservation (sr_ID a) v (sr_ChargePointID a) (sr_EVSEUID a) (sr_IDTag a) (sr_ExpiresAt a) (sr_CreatedAt a) (sr_Source a) (sr_ResponseURL a)) dec_string);
  ("charge_point_id", at_field sr_ChargePointID (fun v a => mkReservation (sr_ID a) (sr_OCPIReservationID a) v (sr_EVSEUID a) (sr_IDTag a) (sr_ExpiresAt a) (sr_CreatedAt a) (sr_Source a) (sr_ResponseURL a)) dec_string);
  ("evse_uid", at_field sr_EVSEUID (fun v a => mkReservation (sr_ID a) (sr_OCPIReservationID a) (sr_ChargePointID a) v (sr_IDTag a) (sr_ExpiresAt a) (sr_CreatedAt a) (sr_Source a) (sr_ResponseURL a)) dec_string);
  ("id_tag", at_field sr_IDTag (fun v a => mkReservation (sr_ID a) (sr_OCPIReservationID a) (sr_ChargePointID a) (sr_EVSEUID a) v (sr_ExpiresAt a) (sr_CreatedAt a) (sr_Source a) (sr_ResponseURL a)) dec_string);
  ("expires_at", at_field sr_ExpiresAt (fun v a => mkReservation (sr_ID a) (sr_OCPIReservationID a) (sr_ChargePointID a) (sr_EVSEUID a) (sr_IDTag a) v (sr_CreatedAt a) (sr_Source a) (sr_ResponseURL a)) dec_time);
  ("created_at", at_field sr_CreatedAt (fun v a => mkReservation (sr_ID a) (sr_OCPIReservationID a) (sr_ChargePointID a) (sr_EVSEUID a) (sr_IDTag a) (sr_ExpiresAt a) v (sr_Source a) (sr_ResponseURL a)) dec_time);
  ("source", at_field sr_Source (fun v a => mkReservation (sr_ID a) (sr_OCPIReservationID a) (sr_ChargePointID a) (sr_EVSEUID a) (sr_IDTag a) (sr_ExpiresAt a) (sr_CreatedAt a) v (sr_ResponseURL a)) dec_string);
  ("response_url", at_field sr_ResponseURL (fun v a => mkReservation (sr_ID a) (sr_OCPIReservationID a) (sr_ChargePointID a) (sr_EVSEUID a) (sr_IDTag a) (sr_ExpiresAt a) (sr_CreatedAt a) (sr_Source a) v) dec_string)].

Definition zero_transaction : Transaction :=
  mkTransaction EmptyString EmptyString EmptyString 0 EmptyString 0 zeroTime 0.

Definition transaction_fields : struct_fields Transaction := [
  ("id", at_field st_ID (fun v a => mkTransaction v (st_ChargePointID a) (st_EVSEUID a) (st_ConnectorID a) (st_IDTag a) (st_MeterStart a) (st_StartedAt a) (st_ReservationID a)) dec_string);
  ("charge_point_id", at_field st_ChargePointID (fun v a => mkTransaction (st_ID a) v (st_EVSEUID a) (st_ConnectorID a) (st_IDTag a) (st_MeterStart a) (st_StartedAt a) (st_ReservationID a)) dec_string);
  ("evse_uid", at_field st_EVSEUID (fun v a => mkTransaction (st_ID a) (st_ChargePointID a) v (st_ConnectorID a) (st_IDTag a) (st_MeterStart a) (st_StartedAt a) (st_ReservationID a)) dec_string);
  ("connector_id", at_field st_ConnectorID (fun v a => mkTransaction (st_ID a) (st_ChargePointID a) (st_EVSEUID a) v (st_IDTag a) (st_MeterStart a) (st_StartedAt a) (st_ReservationID a)) dec_int);
  ("id_tag", at_field st_IDTag (fun v a => mkTransaction (st_ID a) (st_ChargePointID a) (st_EVSEUID a) (st_ConnectorID a) v (st_MeterStart a) (st_StartedAt a) (st_ReservationID a)) dec_string);
  ("meter_start", at_field st_MeterStart (fun v a => mkTransaction (st_ID a) (st_ChargePointID a) (st_EVSEUID a) (st_ConnectorID a) (st_IDTag a) v (st_StartedAt a) (st_ReservationID a)) dec_int);
  ("started_at", at_field st_StartedAt (fun v a => mkTransaction (st_ID a) (st_ChargePointID a) (st_EVSEUID a) (st_ConnectorID a) (st_IDTag a) (st_MeterStart a) v (st_ReservationID a)) dec_time);
  ("reservation_id", at_field st_ReservationID (fun v a => mkTransaction (st_ID a) (st_ChargePointID a) (st_EVSEUID a) (st_ConnectorID a) (st_IDTag a) (st_MeterStart a) (st_StartedAt a) v) dec_int)].

Definition zero_registration : OCPIRegistration :=
  mkOCPIRegistration zeroTime EmptyString EmptyString EmptyString [] [].

Definition state_fields : struct_fields State := [
  ("version", at_field ss_Version (fun v a => mkState v (ss_OCPI a) (ss_NextReservationID a) (ss_NextTransactionID a) (ss_NextRemoteStartID a) (ss_Reservations a) (ss_Transactions a)) dec_int);
  ("ocpi", at_field ss_OCPI (fun v a => mkState (ss_Version a) v (ss_NextReservationID a) (ss_NextTransactionID a) (ss_NextRemoteStartID a) (ss_Reservations a) (ss_Transactions a))
     (dec_ptr (dec_struct registration_fields) zero_registration));
  ("next_reservation_id", at_field ss_NextReservationID (fun v a => mkState (ss_Version a) (ss_OCPI a) v (ss_NextTransactionID a) (ss_NextRemoteStartID a) (ss_Reservations a) (ss_Transactions a)) dec_int);
  ("next_transaction_id", at_field ss_NextTransactionID (fun v a => mkState (ss_Version a) (ss_OCPI a) (ss_NextReservationID a) v (ss_NextRemoteStartID a) (ss_Reservations a) (ss_Transactions a)) dec_int);
  ("next_remote_start_id", at_field ss_NextRemoteStartID (fun v a => mkState (ss_Version a) (ss_OCPI a) (ss_NextReservationID a) (ss_NextTransactionID a) v (ss_Reservations a) (ss_Transactions a)) dec_int);
  ("reservations", at_field ss_Reservations (fun v a => mkState (ss_Version a) (ss_OCPI a) (ss_NextReservationID a) (ss_NextTransactionID a) (ss_NextRemoteStartID a) v (ss_Transactions a))
     (dec_slice (dec_struct reservation_fields) zero_reservation));
  ("transactions", at_field ss_Transactions (fun v a => mkState (ss_Version a) (ss_OCPI a) (ss_NextReservationID a) (ss_NextTransactionID a) (ss_NextRemoteStartID a) (ss_Reservations a) v)
     (dec_slice (dec_struct transaction_fields) zero_transaction))].
End decoding.

Definition header_fields : struct_fields (option Z) := [("version", dec_ptr dec_int 0)].

Definition zero_state : State := mkState 0 None 0 0 0 [] [].

(** [parse] on the decoded value; the error completes "state file <path> ...". *)
Definition parse (j : json) : State + error :=
  match dec_struct header_fields j None with
  | None => inr (EText "is not valid JSON")
  | Some None => inr (EText "has no version field")
  | Some (Some v) =>
    if Version <? v then
      inr (EText ("has version " +:+ Itoa v +:+ " and was written by a newer cpms (this one reads version "
                  +:+ Itoa Version +:+ ")"))
    else if negb (v =? Version) then
      inr (EText ("has unsupported version " +:+ Itoa v +:+ " (this cpms reads version "
                  +:+ Itoa Version +:+ ")"))
    else match dec_struct state_fields j zero_state with
         | None => inr (EText "is not valid JSON")
         | Some st => inl (normalize st)
         end
  end.

Definition bad_file (p : string) (e : error) : error :=
  EWrap ("state file " +:+ p +:+ " ") e
    "; cpms will not overwrite it. Move it aside to start with empty state".

(** [bytes.Count(data[:min(n, len(data))], "\n")]. *)
Fixpoint newlines (n : nat) (data : string) : nat :=
  match n, data with
  | S n, String c data => ((if bool_decide (c = "010"%char) then 1 else 0) + newlines n data)%nat
  | _, _ => 0%nat
  end.

(** [jsonProblem], for text that is not JSON. *)
Definition jsonProblem (data : string) (offset : Z) (e : error) : error :=
  if offset <? 0 then EWrap "is not valid JSON: " e EmptyString
  else EWrap ("is not valid JSON (line " +:+ Itoa (1 + Z.of_nat (newlines (Z.to_nat offset) data)) +:+ "): ") e EmptyString.

(** [Open].  The contents are given both as read ([rd]) and as the state they
    denote, which is the store's file from then on. *)
Definition Open (p : string) (rd : FileRead) : Store + error :=
  match rd with
  | FileMissing => inl (mkStore p empty no_file)
  | FileError e => inr (EWrap ("reading state file " +:+ p +:+ ": ") e EmptyString)
  | FileNotJSON data offset e => inr (bad_file p (jsonProblem data offset e))
  | FileJSON j =>
    match parse j with
    | inr e => inr (bad_file p e)
    | inl st => inl (mkStore p st (holding st))
    end
  end.

Lemma parse_normal j st : parse j = inl st -> normalize st = st.
Proof.
  unfold parse. intros H. case_all. apply normalize_idemp.
Qed.

(** Whatever [Open] accepts is a well-formed store. *)
Lemma Open_ok p rd s : Open p rd = inl s -> store_ok s.
Proof.
  unfold Open. intros H. case_all.
  - split; [done|]. split; [by right|]. left.
  - match goal with E : parse _ = inl _ |- _ => apply parse_normal in E end.
    split; [done|]. split; [by left|]. left.
Qed.

(** A file of another schema version, or without one, is refused. *)
Lemma parse_version j v :
  dec_struct header_fields j None = Some v -> v <> Some Version -> exists e, parse j = inr e.
Proof.
  unfold parse. intros -> Hv. destruct v as [v|]; [|by eexists].
  destruct (Version <? v) eqn:E1; [by eexists|].
  destruct (v =? Version) eqn:E2; [|by eexists].
  apply Z.eqb_eq in E2. congruence.
Qed.
