(* ===== verification/Bus.v ===== *)
(** * Statuses, events and the event bus (core/status.go, core/event.go)

    A subscriber's channel is its queue of undelivered events; a full queue
    loses the event and counts it.  [publish] ranges over the set of
    subscribers, and touches each of them alone, so it is a map over the
    subscribers and needs no order. *)

From S2P Require Import Prelude GoLib GoTime.

(** ** core/status.go *)

(** The OCPI statuses; [StatusNone] is the string type's zero value. *)
Inductive EVSEStatus :=
| StatusNone
| StatusAvailable | StatusBlocked | StatusCharging | StatusInoperative | StatusOutOfOrder
| StatusPlanned | StatusRemoved | StatusReserved | StatusUnknown.

#[export] Instance EVSEStatus_eq_dec : EqDecision EVSEStatus.
Proof. solve_decision. Defined.

Definition status_string (s : EVSEStatus) : string :=
  match s with
  | StatusNone => ""
  | StatusAvailable => "AVAILABLE"
  | StatusBlocked => "BLOCKED"
  | StatusCharging => "CHARGING"
  | StatusInoperative => "INOPERATIVE"
  | StatusOutOfOrder => "OUTOFORDER"
  | StatusPlanned => "PLANNED"
  | StatusRemoved => "REMOVED"
  | StatusReserved => "RESERVED"
  | StatusUnknown => "UNKNOWN"
  end.

Definition effectiveStatus (online : bool) (station connector : EVSEStatus) : EVSEStatus :=
  if negb online then StatusUnknown
  else match station with
       | StatusOutOfOrder | StatusInoperative => station
       | _ => match connector with StatusNone => StatusUnknown | _ => connector end
       end.

(** Whether a status tells a driver that the EVSE can be used. *)
Definition usable (s : EVSEStatus) : bool :=
  match s with StatusAvailable | StatusCharging | StatusReserved | StatusBlocked => true | _ => false end.

(** A usable status is never made up: it is the connector's own report, on a
    station that is online and not out of service. *)
Lemma effectiveStatus_usable online station connector :
  usable (effectiveStatus online station connector) = true ->
  online = true /\ station <> StatusOutOfOrder /\ station <> StatusInoperative /\
  effectiveStatus online station connector = connector.
Proof. by destruct online, station, connector. Qed.

Lemma effectiveStatus_not_none online station connector :
  effectiveStatus online station connector <> StatusNone.
Proof. by destruct online, station, connector. Qed.

(** ** core/event.go: events *)

Inductive EventKind :=
| EventChargePointConnected | EventChargePointDisconnected | EventBootNotified
| EventHeartbeat | EventStationStatusChanged | EventEVSEStatusChanged
| EventTransactionStarted | EventTransactionStopped | EventMeterValues
| EventReservationCreated | EventReservationEnded.

#[export] Instance EventKind_eq_dec : EqDecision EventKind.
Proof. solve_decision. Defined.

Record Event := mkEvent {
  Kind : EventKind;
  At : Time;
  ev_ChargePointID : string;
  ev_EVSEUID : string;
  From : EVSEStatus;
  To : EVSEStatus;
  ev_ErrorCode : string;
  ev_TransactionID : string;
  ev_ReservationID : Z;
  ev_IDTag : string;
  Detail : string
}.

#[export] Instance Event_eq_dec : EqDecision Event.
Proof. solve_decision. Defined.

(** An event with every optional field zero. *)
Definition event (k : EventKind) (at_ : Time) (cp : string) : Event :=
  mkEvent k at_ cp EmptyString StatusNone StatusNone EmptyString EmptyString 0 EmptyString EmptyString.

Definition Event_String (e : Event) : string :=
  match Kind e with
  | EventEVSEStatusChanged =>
    ev_EVSEUID e +:+ " " +:+ status_string (From e) +:+ "→" +:+ status_string (To e) +:+
    (if negb (bool_decide (ev_ErrorCode e = "")) && negb (bool_decide (ev_ErrorCode e = "NoError"))
     then " (" +:+ ev_ErrorCode e +:+ ")" else "")
  | EventStationStatusChanged =>
    ev_ChargePointID e +:+ " station " +:+ status_string (From e) +:+ "→" +:+ status_string (To e)
  | EventChargePointConnected => ev_ChargePointID e +:+ " connected"
  | EventChargePointDisconnected =>
    ev_ChargePointID e +:+ " disconnected" +:+
    (if negb (bool_decide (Detail e = "")) then ": " +:+ Detail e else "")
  | EventBootNotified => ev_ChargePointID e +:+ " booted (" +:+ Detail e +:+ ")"
  | EventHeartbeat => ev_ChargePointID e +:+ " heartbeat"
  | EventTransactionStarted =>
    ev_ChargePointID e +:+ " transaction " +:+ ev_TransactionID e +:+ " started on " +:+
    ev_EVSEUID e +:+ " (tag " +:+ ev_IDTag e +:+ ")"
  | EventTransactionStopped =>
    ev_ChargePointID e +:+ " transaction " +:+ ev_TransactionID e +:+ " stopped"
  | EventReservationCreated =>
    ev_EVSEUID e +:+ " reserved for tag " +:+ ev_IDTag e +:+ " until " +:+ Detail e +:+
    " (reservation " +:+ Itoa (ev_ReservationID e) +:+ ")"
  | EventReservationEnded =>
    ev_EVSEUID e +:+ " reservation " +:+ Itoa (ev_ReservationID e) +:+ " ended: " +:+ Detail e
  | EventMeterValues => ev_EVSEUID e +:+ " meter values: " +:+ Detail e
  end.

(** ** core/event.go: the bus *)

Definition subscriberBuffer : nat := 256.

Record subscriber := mkSubscriber {
  sb_name : string;
  sb_ch : list Event;   (* sent and not yet received *)
  sb_closed : bool;
  sb_drops : Z
}.

(** [objects] are the subscribers ever created, by address; [subs] is the set
    the bus publishes to. *)
Record bus := mkBus {
  subs : gset nat;
  objects : gmap nat subscriber;
  next_object : nat
}.

Definition newBus : bus := mkBus ∅ ∅ 0.

(** A non-blocking send: [select] with a [default] branch. *)
Definition offer (e : Event) (s : subscriber) : subscriber :=
  if (length (sb_ch s) <? subscriberBuffer)%nat
  then mkSubscriber (sb_name s) (sb_ch s ++ [e]) (sb_closed s) (sb_drops s)
  else mkSubscriber (sb_name s) (sb_ch s) (sb_closed s) (wrap_uint64 (sb_drops s + 1)).

Definition publish (e : Event) (b : bus) : bus :=
  mkBus (subs b)
    (map_imap (fun h s => Some (if decide (h ∈ subs b) then offer e s else s)) (objects b))
    (next_object b).

Definition publishAll (es : list Event) (b : bus) : bus := foldl (fun b e => publish e b) b es.

(** The subscriber's address stands for the channel and its cancel function. *)
Definition Subscribe (name : string) (b : bus) : nat * bus :=
  let h := next_object b in
  (h, mkBus ({[h]} ∪ subs b) (<[h := mkSubscriber name [] false 0]> (objects b)) (S h)).

(** The cancel function; [once] is the channel being open. *)
Definition cancel (h : nat) (b : bus) : bus :=
  match objects b !! h with
  | Some s =>
    if sb_closed s then b
    else mkBus (subs b ∖ {[h]})
           (<[h := mkSubscriber (sb_name s) (sb_ch s) true (sb_drops s)]> (objects b)) (next_object b)
  | None => b
  end.

(** A consumer's receive: the oldest event, if there is one. *)
Definition receive (h : nat) (b : bus) : option Event * bus :=
  match objects b !! h with
  | Some s =>
    match sb_ch s with
    | e :: q => (Some e, mkBus (subs b) (<[h := mkSubscriber (sb_name s) q (sb_closed s) (sb_drops s)]> (objects b))
                           (next_object b))
    | [] => (None, b)
    end
  | None => (None, b)
  end.

(** Only subscribers that lost something; of several with one name, the last visited. *)
Definition Drops `{MapOrder} (b : bus) : gmap string Z :=
  foldl (fun out '(h, s) =>
           if decide (h ∈ subs b) then
             if 0 <? sb_drops s then <[sb_name s := sb_drops s]> out else out
           else out) ∅ (range (objects b)).

(** *** Facts *)

Definition bus_ok (b : bus) : Prop :=
  (forall h, h ∈ subs b -> exists s, objects b !! h = Some s /\ sb_closed s = false) /\
  (forall h s, objects b !! h = Some s -> (length (sb_ch s) <= subscriberBuffer)%nat) /\
  (forall h, (next_object b <= h)%nat -> objects b !! h = None).

Lemma lookup_publish e b h :
  objects (publish e b) !! h =
  (fun s => if decide (h ∈ subs b) then offer e s else s) <$> (objects b !! h).
Proof. simpl. rewrite map_lookup_imap. by destruct (objects b !! h). Qed.

Lemma offer_length e s :
  (length (sb_ch s) <= subscriberBuffer)%nat -> (length (sb_ch (offer e s)) <= subscriberBuffer)%nat.
Proof.
  unfold offer. destruct (Nat.ltb_spec (length (sb_ch s)) subscriberBuffer); simpl; [|done].
  rewrite length_app. simpl. lia.
Qed.

Lemma offer_closed e s : sb_closed (offer e s) = sb_closed s.
Proof. unfold offer. by destruct (_ <? _)%nat. Qed.

Lemma publish_ok e b : bus_ok b -> bus_ok (publish e b).
Proof.
  intros (Hs & Hl & Hn). split; [|split].
  - intros h Hh. destruct (Hs h Hh) as (s & Es & Hc). rewrite lookup_publish, Es. simpl.
    eexists. split; [done|]. case_decide; by rewrite ?offer_closed.
  - intros h s. rewrite lookup_publish. intros (s0 & E0 & ->)%fmap_Some.
    case_decide; [apply offer_length|]; by eapply Hl.
  - intros h Hh. rewrite lookup_publish, Hn by done. done.
Qed.

Lemma publishAll_ok es b : bus_ok b -> bus_ok (publishAll es b).
Proof. revert b. induction es as [|e es IH]; intros b Hb; [done|]. by apply IH, publish_ok. Qed.

Lemma Subscribe_ok name b : bus_ok b -> bus_ok (Subscribe name b).2.
Proof.
  intros (Hs & Hl & Hn). unfold Subscribe; simpl. split; [|split]; simpl.
  - intros h [->%elem_of_singleton|Hh]%elem_of_union.
    + rewrite lookup_insert_eq. by eexists.
    + rewrite lookup_insert_ne; [by apply Hs|]. intros <-.
      destruct (Hs _ Hh) as (s & Es & _). rewrite Hn in Es by lia. done.
  - intros h s [[<- <-]|[_ E]]%lookup_insert_Some; [simpl; lia | by eapply Hl].
  - intros h Hh. rewrite lookup_insert_ne by lia. apply Hn. lia.
Qed.

Lemma cancel_ok h b : bus_ok b -> bus_ok (cancel h b).
Proof.
  intros (Hs & Hl & Hn). unfold cancel. destruct (objects b !! h) as [s|] eqn:E; [|done].
  destruct (sb_closed s); [done|]. split; [|split]; simpl.
  - intros k [Hk Hne]%elem_of_difference. rewrite lookup_insert_ne by set_solver. by apply Hs.
  - intros k s' [[<- <-]|[_ Ek]]%lookup_insert_Some; simpl; by eapply Hl.
  - intros k Hk. rewrite lookup_insert_ne; [by apply Hn|].
    intros <-. rewrite Hn in E by done. done.
Qed.

(** No subscriber is ever published to after its channel is closed, so [send on
    closed channel] cannot happen; [subs] and the open channels agree. *)
Lemma publish_subs e b : subs (publish e b) = subs b.
Proof. done. Qed.

Lemma publishAll_app es1 es2 b : publishAll (es1 ++ es2) b = publishAll es2 (publishAll es1 b).
Proof. apply foldl_app. Qed.

(** Publishing to one subscriber, as a function on its queue and counter. *)
Lemma offer_queue e s :
  (length (sb_ch s) <= subscriberBuffer)%nat ->
  sb_ch (offer e s) = take subscriberBuffer (sb_ch s ++ [e]) /\
  sb_drops (offer e s) =
    if (length (sb_ch s) <? subscriberBuffer)%nat then sb_drops s else wrap_uint64 (sb_drops s + 1).
Proof.
  intros Hl. unfold offer. destruct (Nat.ltb_spec (length (sb_ch s)) subscriberBuffer); simpl.
  - rewrite take_ge; [done|]. rewrite length_app; simpl; lia.
  - rewrite take_app_le by lia. rewrite take_ge by lia. done.
Qed.

(** A subscriber that reads nothing has the first 256 of what it had and what was
    published, in order, and the rest are counted as dropped. *)
Lemma publishAll_queue es b h s :
  bus_ok b -> h ∈ subs b -> objects b !! h = Some s -> 0 <= sb_drops s < 2 ^ 64 ->
  exists s', objects (publishAll es b) !! h = Some s' /\
    sb_ch s' = take subscriberBuffer (sb_ch s ++ es) /\
    sb_drops s' = wrap_uint64 (sb_drops s +
      Z.max 0 (Z.of_nat (length (sb_ch s) + length es) - Z.of_nat subscriberBuffer)).
Proof.
  revert b s. induction es as [|e es IH]; intros b s Hb Hh Hs Hd.
  - exists s. destruct Hb as (_ & Hl & _). specialize (Hl h s Hs). split; [done|].
    rewrite app_nil_r, take_ge by done. split; [done|]. simpl.
    rewrite Z.max_l by lia. unfold wrap_uint64. rewrite Z.mod_small; lia.
  - pose proof Hb as (_ & Hl & _). specialize (Hl h s Hs).
    assert (Hp : objects (publish e b) !! h = Some (offer e s)).
    { rewrite lookup_publish, Hs. simpl. by rewrite decide_True by done. }
    destruct (offer_queue e s Hl) as [Hq Hdr].
    assert (Hd' : 0 <= sb_drops (offer e s) < 2 ^ 64).
    { rewrite Hdr. case_match; [done|]. unfold wrap_uint64. apply Z.mod_pos_bound. lia. }
    destruct (IH (publish e b) (offer e s) (publish_ok _ _ Hb) Hh Hp Hd') as (s' & E & Hq' & Hd2).
    exists s'. split; [done|]. rewrite Hq', Hd2, Hdr, Hq.
    destruct (Nat.ltb_spec (length (sb_ch s)) subscriberBuffer) as [Hlt|Hge].
    + rewrite (take_ge (sb_ch s ++ [e])) by (rewrite length_app; simpl; lia).
      rewrite <- app_assoc. split; [done|]. rewrite length_app. simpl. do 2 f_equal. lia.
    + rewrite (take_app_le (sb_ch s)), (take_ge (sb_ch s)) by lia.
      rewrite !take_app_le by lia. split; [done|].
      simpl. unfold wrap_uint64. rewrite Zplus_mod_idemp_l. f_equal. lia.
Qed.

#[export] Hint Resolve publish_ok publishAll_ok Subscribe_ok cancel_ok : cpms.
