(* ===== verification/StateProps.v ===== *)
(** * What the store and the event bus promise

    With the store of statetest, whose failures the first promise covers. *)

From S2P Require Import Prelude GoLib GoTime Json Ocpp Errors State Bus.

Lemma error_names before p mid e after :
  exists x, Error (EWrap (before +:+ p +:+ mid) e after) = before +:+ p +:+ x.
Proof. cbn. eexists. by rewrite !append_assoc. Qed.

(** ** The store *)

(** A life of the store: updates one after another, each with what its write
    meets on the disk. *)
Definition updates (l : list ((State.State -> State.State + error) * WriteResult)) (s : Store) : Store :=
  foldl (fun s u => (Update u.1 u.2 s).1) s l.

Lemma updates_ok l s : store_ok s -> store_ok (updates l s).
Proof. revert s. induction l as [|u l IH]; intros s Hs; [done|]. by apply IH, Update_ok. Qed.

(** The entries a power cut may find are files of the store since then. *)
Lemma updates_recorded l s f : f ∈ recorded (disk (updates l s)) ->
  recorded (disk s) = [file (disk s)] ->
  exists l1 l2, l = l1 ++ l2 /\ f = file (disk (updates l1 s)).
Proof.
  revert s f. induction l as [|u l IH] using rev_ind; intros s f Hf Hs.
  { exists [], []. split; [done|]. cbn in *. rewrite Hs in Hf. by apply list_elem_of_singleton in Hf. }
  assert (Hrec : f ∈ recorded (disk (updates l s)) ->
            exists l1 l2, l ++ [u] = l1 ++ l2 /\ f = file (disk (updates l1 s))).
  { intros Hin. destruct (IH s f Hin Hs) as (l1 & l2 & -> & ->). exists l1, (l2 ++ [u]). by rewrite <- app_assoc. }
  assert (Hnow : f = file (disk (updates (l ++ [u]) s)) ->
            exists l1 l2, l ++ [u] = l1 ++ l2 /\ f = file (disk (updates l1 s))).
  { intros ->. exists (l ++ [u]), []. by rewrite app_nil_r. }
  unfold updates in Hf, Hnow. rewrite foldl_app in Hf, Hnow. cbn in Hf, Hnow. fold (updates l s) in Hf, Hnow.
  destruct (Update_cases u.1 u.2 (updates l s)) as [(e & _ & _ & [_ Er] & _)|(next & _ & _ & _ & _ & _ & Er)];
    rewrite Er in Hf; [by apply Hrec|].
  destruct (wr_dirSynced u.2); [apply list_elem_of_singleton in Hf; by apply Hnow|].
  apply elem_of_cons in Hf as [Hf|Hf]; [by apply Hnow | by apply Hrec].
Qed.

(** While the directory's syncs work there is one entry only. *)
Lemma updates_settled l s : Forall (fun u => wr_dirSynced u.2 = true) l ->
  recorded (disk s) = [file (disk s)] -> recorded (disk (updates l s)) = [file (disk (updates l s))].
Proof.
  revert s. induction l as [|u l IH]; intros s Hl Hs; [done|]. apply Forall_cons in Hl as [Hu Hl].
  apply (IH _ Hl). destruct (Update_cases u.1 u.2 s) as [(e & _ & _ & [Ef Er] & _)|(next & _ & _ & _ & _ & _ & Er)].
  - by rewrite Er, Ef.
  - by rewrite Er, Hu.
Qed.

(** A whole file survives; there is nothing else in the directory. *)
Lemma store_file_survives s f : store_ok s -> survives (file (disk s)) f -> f = file (disk s).
Proof. intros (_ & [-> | [-> _]] & _); destruct f; try done. by intros ->. Qed.

(** C29: what a reader or a restart finds under the store's name is a state the
    store had, never a mix.  After any updates, failed ones included, it is the
    state in memory (or there is no file yet, and memory is empty); an update that
    fails, at whatever call, leaves memory and file as they were, and its temporary
    file behind only if that cannot be removed.  If the process dies in an update,
    after whichever of its system calls, the file is the old one or the complete
    new one; if the power fails then, it is the complete new one or the file as
    some earlier update left it, the last one if the directory's syncs worked. *)
Theorem file_matches_memory p rd s0 l fn r next :
  Open p rd = inl s0 ->
  let s := updates l s0 in
  (file (disk s) = Some (whole (state s)) \/ file (disk s) = None /\ state s = State.empty) /\
  (forall e, (Update fn r s).2 = Some e ->
     state (Update fn r s).1 = state s /\ file (disk (Update fn r s).1) = file (disk s) /\
     (wr_removed r = true -> temps (disk (Update fn r s).1) = temps (disk s))) /\
  (fn (Get s) = inl next -> forall d, d ∈ during (path s) (disk s) (normalize next) r ->
     (file d = file (disk s) \/ file d = Some (whole (normalize next))) /\
     forall d', power_cut d d' ->
       (file d' = Some (whole (normalize next)) \/
        exists l1 l2, l = l1 ++ l2 /\ file d' = file (disk (updates l1 s0))) /\
       (Forall (fun u => wr_dirSynced u.2 = true) l ->
        file d' = file (disk s) \/ file d' = Some (whole (normalize next)))).
Proof.
  intros Ho s. pose proof (Open_ok p rd s0 Ho) as H0. assert (Hok : store_ok s) by by apply updates_ok.
  assert (Hr0 : recorded (disk s0) = [file (disk s0)]) by (unfold Open in Ho; case_all; by simplify_eq/=).
  split; [apply Hok|]. split.
  { intros e He. destruct (Update_cases fn r s) as [(e' & _ & Es & [Ef _] & Et)|(n & _ & Hn & _)]; [done|congruence]. }
  intros _ d Hd. destruct (write_spec (path s) (disk s) (normalize next) r) as [Hm _].
  rewrite Forall_forall in Hm. destruct (Hm d Hd) as [M1 M2 M3]. split; [done|].
  intros d' Hc. destruct Hc as [d f f' ts Hf Hv]. cbn.
  assert (Hnew : f = Some (whole (normalize next)) -> f' = Some (whole (normalize next))).
  { intros ->. destruct f' as [?|]; [by cbn in Hv; subst | done]. }
  destruct (M2 f Hf) as [Hin|?]; [|split; [left|right]; by apply Hnew].
  destruct (updates_recorded l s0 f Hin Hr0) as (l1 & l2 & El & E).
  assert (f' = f) as -> by (rewrite E in Hv |- *; apply store_file_survives; [by apply updates_ok | done]).
  split; [right; by exists l1, l2 | intros Hl; apply M3; [by apply updates_settled | done]].
Qed.

(** Cpms does not guess about a file it may not understand.  A state file
    with another schema version, with none, or that is not JSON is refused with
    an error that names the file, so it is never overwritten. *)
Theorem Open_refuses p rd :
  (forall j, rd = FileJSON j -> exists v, dec_struct header_fields j None = Some v /\ v <> Some Version) ->
  rd <> FileMissing ->
  exists e, Open p rd = inr e /\ exists before after, Error e = before +:+ p +:+ after.
Proof.
  intros Hj Hm. destruct rd as [|e|data offset e|j]; [done| | |].
  - eexists. split; [reflexivity|]. exists "reading state file ". apply error_names.
  - eexists. split; [reflexivity|]. exists "state file ". apply error_names.
  - destruct (Hj j eq_refl) as (v & Hv & Hne). destruct (parse_version j v Hv Hne) as [e He].
    unfold Open. rewrite He. eexists. split; [reflexivity|]. exists "state file ". apply error_names.
Qed.

(** ** The bus *)

(** A slow subscriber costs itself and nobody else.  One that reads
    nothing keeps the oldest 256 events in order and has the rest counted as
    dropped; one whose queue has room for all of them gets every event. *)
Theorem slow_subscriber_bounded es b h s :
  bus_ok b -> h ∈ subs b -> objects b !! h = Some s -> 0 <= sb_drops s < 2 ^ 64 ->
  bus_ok (publishAll es b) /\
  exists s', objects (publishAll es b) !! h = Some s' /\
    sb_ch s' = take subscriberBuffer (sb_ch s ++ es) /\
    ((length (sb_ch s) + length es <= subscriberBuffer)%nat -> sb_ch s' = sb_ch s ++ es /\ sb_drops s' = sb_drops s) /\
    sb_drops s' = wrap_uint64 (sb_drops s +
      Z.max 0 (Z.of_nat (length (sb_ch s) + length es) - Z.of_nat subscriberBuffer)).
Proof.
  intros Hb Hh Hs Hd. split; [by apply publishAll_ok|].
  destruct (publishAll_queue es b h s Hb Hh Hs Hd) as (s' & E & Hq & Hdr). exists s'.
  split; [done|]. split; [done|]. split; [|done]. intros Hroom. rewrite Hq, Hdr. split.
  - rewrite take_ge; [done|]. by rewrite length_app.
  - rewrite Z.max_l by lia. unfold wrap_uint64. rewrite Z.mod_small; lia.
Qed.

(** ** Instances *)

Definition first_store : Store := mkStore "state.json" State.empty no_file.
Definition bump (st : State.State) : State.State + error :=
  inl (mkState (ss_Version st) (ss_OCPI st) (ss_NextReservationID st + 1) (ss_NextTransactionID st)
         (ss_NextRemoteStartID st) (ss_Reservations st) (ss_Transactions st)).
Definition disk_full : WriteResult := failing StageSync (EText "no space left on device").

(** One update that works, and one whose power fails while its document is half
    written. *)
Definition bumped : State.State :=
  State.mkState Version None 2 0 0 [] [].
Definition half_written : Disk :=
  mkDisk (file (disk (updates [(bump, all_well)] first_store)))
    [mkFile (Part bumped 7) false] (recorded (disk (updates [(bump, all_well)] first_store))).

Lemma file_matches_memory_witness :
  half_written ∈ during "state.json" (disk (updates [(bump, all_well)] first_store)) bumped
                   (mkWriteResult [7%nat] None true true) /\
  forall ts, file (mkDisk (file half_written) ts [file half_written]) = Some (whole bumped) \/
    file (mkDisk (file half_written) ts [file half_written]) = file (disk (updates [(bump, all_well)] first_store)).
Proof.
  assert (Hd : half_written ∈ during "state.json" (disk (updates [(bump, all_well)] first_store)) bumped
                   (mkWriteResult [7%nat] None true true)) by (vm_compute; do 4 right; left).
  split; [exact Hd|]. intros ts.
  destruct (proj2 (proj2 (proj2 (file_matches_memory "state.json" FileMissing first_store [(bump, all_well)] bump
      (mkWriteResult [7%nat] None true true) bumped eq_refl)) eq_refl half_written Hd)
      (mkDisk (file half_written) ts [file half_written])) as [_ H].
  - apply cut with (f := file half_written); [left | reflexivity].
  - destruct H as [H|H]; [by constructor | by right | by left].
Defined.

Definition newer_file : json := JObj [("version", JInt 2)].

Lemma newer_version j : FileJSON newer_file = FileJSON j ->
  exists v, dec_struct header_fields j None = Some v /\ v <> Some Version.
Proof. intros [= <-]. exists (Some 2). split; [vm_compute; reflexivity | discriminate]. Defined.

Lemma Open_refuses_witness :
  exists e, Open "state.json" (FileJSON newer_file) = inr e /\
    exists before after, Error e = before +:+ "state.json" +:+ after.
Proof. apply (Open_refuses "state.json" (FileJSON newer_file) newer_version). discriminate. Defined.

Definition one_listener : bus := (Subscribe "push" (mkBus ∅ ∅ 0)).2.
Definition beat : Event :=
  mkEvent EventHeartbeat zeroTime "CP1" "" StatusNone StatusNone "" "" 0 "" "".

Lemma one_listener_ok : bus_ok one_listener.
Proof.
  apply Subscribe_ok. split; [|split]; cbn.
  - intros h Hh. apply elem_of_empty in Hh. done.
  - intros h s Hs. rewrite lookup_empty in Hs. discriminate.
  - intros h _. apply lookup_empty.
Defined.

Lemma slow_subscriber_bounded_witness :
  bus_ok (publishAll (replicate 300 beat) one_listener).
Proof.
  apply (slow_subscriber_bounded (replicate 300 beat) one_listener 0 (mkSubscriber "push" [] false 0) one_listener_ok);
    [apply elem_of_union_l, elem_of_singleton; reflexivity | vm_compute; reflexivity | split; [discriminate | reflexivity]].
Defined.

(** ** The store whose writes fail on demand (internal/statetest/statetest.go)

    What the tests of core mean by a state file that cannot be written.  Its
    switch is read before anything else of [Update] happens. *)

Definition ErrInjected : error := EText "statetest: injected write failure".

(** [Store]: a store, and the switch. *)
Record TestStore := mkTestStore { ts_Store : Store; ts_fail : bool }.

(** [Open]; where it fails the test does. *)
Definition ts_Open (p : string) (rd : FileRead) : TestStore + string :=
  match State.Open p rd with
  | inl st => inl (mkTestStore st false)
  | inr e => inr ("opening state store: " +:+ Error e)
  end.

Definition ts_Fail (fail : bool) (s : TestStore) : TestStore := mkTestStore (ts_Store s) fail.

Definition ts_Update (fn : State.State -> State.State + error) (r : WriteResult) (s : TestStore) : TestStore * option error :=
  if ts_fail s then (s, Some ErrInjected)
  else let '(st, e) := Update fn r (ts_Store s) in (mkTestStore st false, e).

(** What a test does to it; [r] is what the disk would make of the write. *)
Inductive ts_op :=
| TsFail (fail : bool)
| TsUpdate (fn : State.State -> State.State) (r : WriteResult).

Fixpoint ts_run (l : list ts_op) (s : TestStore) : TestStore * list (option error) :=
  match l with
  | [] => (s, [])
  | TsFail fail :: l => ts_run l (ts_Fail fail s)
  | TsUpdate fn r :: l =>
    let '(s, e) := ts_Update (fun st => inl (fn st)) r s in
    let '(s, es) := ts_run l s in (s, e :: es)
  end.

(** The same test on a store without a switch, on a disk that refuses to make the
    temporary file while the switch is on. *)
Fixpoint on_a_disk (l : list ts_op) (fail : bool) : list ((State.State -> State.State) * WriteResult) :=
  match l with
  | [] => []
  | TsFail fail :: l => on_a_disk l fail
  | TsUpdate fn r :: l => (fn, if fail then failing StageCreateTemp ErrInjected else r) :: on_a_disk l fail
  end.

Fixpoint disk_run (l : list ((State.State -> State.State) * WriteResult)) (s : Store) : Store * list (option error) :=
  match l with
  | [] => (s, [])
  | (fn, r) :: l =>
    let '(s, e) := Update (fun st => inl (fn st)) r s in
    let '(s, es) := disk_run l s in (s, e :: es)
  end.

(** A temporary file that cannot be made leaves the store alone, as the switch does. *)
Lemma refused_write fn e s :
  Update (fun st => inl (fn st)) (failing StageCreateTemp e) s =
  (s, Some (EWrap ("writing state file " +:+ path s +:+ ": ") e EmptyString)).
Proof. by destruct s as [p st [f t rc]]. Qed.

(** A test that switches failures on tests what a failing disk does.  Whatever
    a test writes, and however it works the switch, the store ends up as it would
    on a disk that refuses exactly the writes made while the switch is on, and the
    same updates fail and succeed. *)
Theorem injected_like_disk l s :
  store_ok (ts_Store s) ->
  ts_Store (ts_run l s).1 = (disk_run (on_a_disk l (ts_fail s)) (ts_Store s)).1 /\
  Forall2 (fun e e' => e = None <-> e' = None) (ts_run l s).2 (disk_run (on_a_disk l (ts_fail s)) (ts_Store s)).2 /\
  store_ok (ts_Store (ts_run l s).1).
Proof.
  revert s. induction l as [|op l IH]; intros [st fail] Hs;
    cbn [ts_run on_a_disk disk_run ts_fail ts_Store fst snd] in *; [by split_and!; [|constructor|]|].
  destruct op as [fail'|fn r]; cbn [ts_run on_a_disk disk_run]; [by apply (IH (mkTestStore st fail'))|].
  unfold ts_Update. destruct fail; cbn [ts_fail ts_Store].
  - rewrite refused_write. specialize (IH (mkTestStore st true) Hs). cbn [ts_fail ts_Store] in IH.
    destruct (ts_run l (mkTestStore st true)) as [s1 es1]. destruct (disk_run (on_a_disk l true) st) as [s2 es2].
    cbn in *. destruct IH as (I1 & I2 & I3). split; [done|]. split; [constructor; [by split|exact I2]|exact I3].
  - pose proof (Update_ok (fun st => inl (fn st)) r st Hs) as Hs'.
    destruct (Update (fun st => inl (fn st)) r st) as [st' e]. specialize (IH (mkTestStore st' false) Hs'). cbn [ts_fail ts_Store] in IH.
    destruct (ts_run l (mkTestStore st' false)) as [s1 es1]. destruct (disk_run (on_a_disk l false) st') as [s2 es2].
    cbn in *. destruct IH as (I1 & I2 & I3). split; [done|]. split; [constructor; [by split|exact I2]|exact I3].
Qed.

(** One write, one that is made to fail, one again. *)
Definition sample_writes : list ts_op :=
  let next st := mkState (ss_Version st) (ss_OCPI st) (ss_NextReservationID st + 1) 0 0 [] [] in
  [TsUpdate next all_well; TsFail true; TsUpdate next all_well; TsFail false; TsUpdate next all_well].

Lemma injected_like_disk_witness :
  store_ok (ts_Store (ts_run sample_writes (mkTestStore first_store false)).1) /\
  ((fun e => if e is Some _ then true else false) <$> (ts_run sample_writes (mkTestStore first_store false)).2) = [false; true; false].
Proof.
  split; [|by vm_compute]. apply injected_like_disk. split; [by vm_compute|]. split; [by right|]. left.
Defined.
