(* ===== verification/StateLock.v ===== *)
(** * One cpms per state file (state/lock_unix.go)

    [LockPath] and [Release] of any number of processes, a system call per step:
    the lock file's name and the inode it names, the flock on each inode, and
    where each process is.  A process may die anywhere, which drops its locks
    and leaves the file.  A stat of an open file, or of a name that exists, is
    taken not to fail. *)

From S2P Require Import Prelude.

(** Where a process is in [LockPath] and [Release]. *)
Inductive lock_pc :=
| PcOut                    (* before LockPath, or after it failed, or after Release *)
| PcLoop                   (* at the head of the loop *)
| PcOpened (inode : nat)   (* the lock file is open *)
| PcFlocked (inode : nat)  (* flock succeeded, the name not compared yet *)
| PcHolds (inode : nat)    (* LockPath has returned the lock *)
| PcRemoved (inode : nat). (* Release has removed the name, the file is open still *)

#[export] Instance lock_pc_eq : EqDecision lock_pc.
Proof. solve_decision. Defined.

(** [lk_retries] and [lk_removals] only count: the turns of a process's loop that
    led to another, and the removals of the lock file. *)
Record lock_state := mkLockState {
  lk_name : option nat;
  lk_flock : gmap nat nat;
  lk_next : nat;
  lk_pc : gmap nat lock_pc;
  lk_retries : gmap nat nat;
  lk_removals : nat
}.

Definition pc_of (p : nat) (s : lock_state) : lock_pc := default PcOut (lk_pc s !! p).
Definition retries_of (p : nat) (s : lock_state) : nat := default O (lk_retries s !! p).

Definition goto (p : nat) (pc : lock_pc) (s : lock_state) : lock_state :=
  mkLockState (lk_name s) (lk_flock s) (lk_next s) (<[p := pc]> (lk_pc s)) (lk_retries s) (lk_removals s).
Definition set_flock (m : gmap nat nat) (s : lock_state) : lock_state :=
  mkLockState (lk_name s) m (lk_next s) (lk_pc s) (lk_retries s) (lk_removals s).
Definition again (p : nat) (s : lock_state) : lock_state :=
  mkLockState (lk_name s) (lk_flock s) (lk_next s) (lk_pc s) (<[p := S (retries_of p s)]> (lk_retries s)) (lk_removals s).

(** [os.OpenFile(lockPath, O_CREATE|O_RDWR)]: the file of that name, or a new one. *)
Definition open_file (s : lock_state) : nat * lock_state :=
  match lk_name s with
  | Some i => (i, s)
  | None => (lk_next s, mkLockState (Some (lk_next s)) (lk_flock s) (S (lk_next s)) (lk_pc s) (lk_retries s) (lk_removals s))
  end.

(** [os.Remove(l.path)]. *)
Definition remove_file (s : lock_state) : lock_state :=
  mkLockState None (lk_flock s) (lk_next s) (lk_pc s) (lk_retries s) (S (lk_removals s)).

(** The inode a process has open. *)
Definition inode_of (pc : lock_pc) : option nat :=
  match pc with PcOut | PcLoop => None | PcOpened i | PcFlocked i | PcHolds i | PcRemoved i => Some i end.

(** The one it has locked. *)
Definition locked (pc : lock_pc) : option nat :=
  match pc with PcFlocked i | PcHolds i | PcRemoved i => Some i | _ => None end.

(** A system call that can fail is told whether it does. *)
Inductive lock_action := Start | Open (fails : bool) | Flock (fails : bool) | Compare | Remove (fails : bool) | Close | Die.

(** Closing the file drops its lock. *)
Definition unlock_of (pc : lock_pc) (s : lock_state) : lock_state :=
  match locked pc with Some i => set_flock (delete i (lk_flock s)) s | None => s end.

Definition lock_act (a : lock_action) (p : nat) (s : lock_state) : lock_state :=
  match a, pc_of p s with
  | Start, PcOut => goto p PcLoop s
  | Open true, PcLoop => goto p PcOut s
  | Open false, PcLoop => let '(i, s) := open_file s in goto p (PcOpened i) s
  | Flock true, PcOpened _ => goto p PcOut s
  | Flock false, PcOpened i =>
    match lk_flock s !! i with
    | Some _ => goto p PcOut s                                 (* EWOULDBLOCK: ErrLocked *)
    | None => goto p (PcFlocked i) (set_flock (<[i := p]> (lk_flock s)) s)
    end
  | Compare, PcFlocked i =>
    if bool_decide (lk_name s = Some i) then goto p (PcHolds i) s
    else goto p PcLoop (again p (unlock_of (PcFlocked i) s))
  | Remove fails, PcHolds i => goto p (PcRemoved i) (if fails then s else remove_file s)
  | Close, PcRemoved i => goto p PcOut (unlock_of (PcRemoved i) s)
  | Die, pc => goto p PcOut (unlock_of pc s)
  | _, _ => s
  end.

(** A disk with or without a lock file left behind, and nobody running. *)
Definition lock_start (left_behind : bool) : lock_state :=
  mkLockState (if left_behind then Some O else None) ∅ 1 ∅ ∅ 0.

Definition lock_run (l : list (lock_action * nat)) (s : lock_state) : lock_state :=
  foldl (fun s '(a, p) => lock_act a p s) s l.

Definition holds (p : nat) (s : lock_state) : Prop := exists i, pc_of p s = PcHolds i.

(** ** The invariant *)

(** The file a process waits for is not the one the name stands for any more. *)
Definition stale (p : nat) (s : lock_state) : nat :=
  match pc_of p s with
  | PcOpened i | PcFlocked i => if bool_decide (lk_name s = Some i) then O else 1%nat
  | _ => O
  end.

Record lock_ok (s : lock_state) : Prop := {
  lo_name : forall i, lk_name s = Some i -> (i < lk_next s)%nat;
  lo_open : forall p i, inode_of (pc_of p s) = Some i -> (i < lk_next s)%nat;
  lo_flock : forall p i, locked (pc_of p s) = Some i <-> lk_flock s !! i = Some p;
  lo_held : forall p i, pc_of p s = PcHolds i -> lk_name s = Some i;
  lo_paid : forall p, (retries_of p s + stale p s <= lk_removals s)%nat
}.

Lemma pc_of_goto p q pc s : pc_of q (goto p pc s) = if decide (q = p) then pc else pc_of q s.
Proof.
  unfold pc_of, goto. cbn. destruct (decide (q = p)) as [->|Hq]; [by rewrite lookup_insert_eq|].
  by rewrite lookup_insert_ne.
Qed.

Lemma lock_ok_start b : lock_ok (lock_start b).
Proof. split; unfold lock_start, pc_of, stale; cbn; try done; by destruct b; naive_solver lia. Qed.

(** Only one process has a lock's inode. *)
Lemma locked_unique s p q i : lock_ok s -> locked (pc_of p s) = Some i -> locked (pc_of q s) = Some i -> p = q.
Proof. intros Hs Hp%(lo_flock _ Hs) Hq%(lo_flock _ Hs). congruence. Qed.

Lemma holds_unique s p q : lock_ok s -> holds p s -> holds q s -> p = q.
Proof.
  intros Hs [i Hp] [j Hq]. pose proof (lo_held _ Hs _ _ Hp) as Hi. pose proof (lo_held _ Hs _ _ Hq) as Hj.
  assert (i = j) as -> by congruence. apply (locked_unique s p q j Hs); [by rewrite Hp|by rewrite Hq].
Qed.

(** A step of [p]'s counter alone keeps the rest. *)
Lemma lock_ok_goto p pc s :
  lock_ok s -> (forall i, inode_of pc = Some i -> (i < lk_next s)%nat) -> locked pc = locked (pc_of p s) ->
  (forall i, pc = PcHolds i -> lk_name s = Some i) -> (stale p (goto p pc s) <= stale p s)%nat ->
  lock_ok (goto p pc s).
Proof.
  intros [H1 H2 H3 H4 H5] Hi Hl Hh Hst. split; [done|..].
  - intros q i. rewrite pc_of_goto. destruct (decide (q = p)) as [->|]; [apply Hi|apply H2].
  - intros q i. rewrite pc_of_goto. destruct (decide (q = p)) as [->|]; [rewrite Hl; apply H3|apply H3].
  - intros q i. rewrite pc_of_goto. destruct (decide (q = p)) as [->|]; [apply Hh|apply H4].
  - intros q. change (retries_of q (goto p pc s)) with (retries_of q s). specialize (H5 q).
    destruct (decide (q = p)) as [->|Hq]; [cbn; lia|].
    assert (stale q (goto p pc s) = stale q s) as ->; [|done].
    unfold stale. rewrite pc_of_goto. by rewrite decide_False.
Qed.

(** The flock of an inode nobody has locked. *)
Lemma lock_ok_flock p i s :
  lock_ok s -> pc_of p s = PcOpened i -> lk_flock s !! i = None ->
  lock_ok (goto p (PcFlocked i) (set_flock (<[i := p]> (lk_flock s)) s)).
Proof.
  intros [H1 H2 H3 H4 H5] Hpc Hf. split; [done|..].
  - intros q j. rewrite pc_of_goto. destruct (decide (q = p)) as [->|]; [|apply H2].
    intros [= <-]. apply (H2 p). by rewrite Hpc.
  - intros q j. rewrite pc_of_goto. cbn [goto set_flock lk_flock]. destruct (decide (q = p)) as [->|Hq]; cbn.
    + split; [intros [= ->]; by rewrite lookup_insert_eq|]. intros Hj. destruct (decide (i = j)) as [->|Hij]; [done|].
      rewrite lookup_insert_ne in Hj by done. apply H3 in Hj. by rewrite Hpc in Hj.
    + change (locked (pc_of q s) = Some j <-> <[i := p]> (lk_flock s) !! j = Some q). rewrite H3.
      destruct (decide (i = j)) as [->|Hij]; [|by rewrite lookup_insert_ne]. rewrite lookup_insert_eq, Hf.
      split; [done|]. by intros [= ->].
  - intros q j. rewrite pc_of_goto. destruct (decide (q = p)) as [->|]; [done|apply H4].
  - intros q. specialize (H5 q). change (retries_of q (goto _ _ _)) with (retries_of q s).
    assert (stale q (goto p (PcFlocked i) (set_flock (<[i := p]> (lk_flock s)) s)) = stale q s) as ->; [|done].
    unfold stale. rewrite pc_of_goto. destruct (decide (q = p)) as [->|]; [by rewrite Hpc|done].
Qed.

(** Closing the file, to leave or to try again. *)
Lemma lock_ok_close p pc s :
  lock_ok s -> inode_of pc = None -> lock_ok (goto p pc (unlock_of (pc_of p s) s)).
Proof.
  intros Hs Hpc. pose proof Hs as [H1 H2 H3 H4 H5].
  assert (Hl : locked pc = None) by by destruct pc.
  assert (Hu : forall s', lk_name s' = lk_name s -> lk_pc s' = lk_pc s -> lk_next s' = lk_next s ->
    lk_retries s' = lk_retries s -> lk_removals s' = lk_removals s ->
    (forall q i, q <> p -> locked (pc_of q s) = Some i <-> lk_flock s' !! i = Some q) ->
    (forall i, lk_flock s' !! i <> Some p) -> lock_ok (goto p pc s')).
  { intros s' En Ep Ex Er Em Hother Hp. assert (Epc : forall q, pc_of q s' = pc_of q s) by (intros; unfold pc_of; by rewrite Ep).
    split; [by cbn; rewrite En, Ex|..].
    - intros q i. rewrite pc_of_goto, Epc. destruct (decide (q = p)); [by rewrite Hpc|]. cbn. rewrite Ex. apply H2.
    - intros q i. rewrite pc_of_goto, Epc. cbn [goto lk_flock]. destruct (decide (q = p)) as [->|Hq]; [|by apply Hother].
      rewrite Hl. split; [done|]. intros Hi. by destruct (Hp i).
    - intros q i. rewrite pc_of_goto, Epc. cbn. rewrite En. destruct (decide (q = p)); [by intros ->|apply H4].
    - intros q. specialize (H5 q). unfold retries_of in *. cbn. rewrite Er, Em. unfold stale in *. rewrite pc_of_goto, Epc.
      cbn. rewrite En. destruct (decide (q = p)); [|done]. destruct pc; try done; lia. }
  unfold unlock_of. destruct (locked (pc_of p s)) as [i|] eqn:Ei; apply Hu; try done.
  - intros q j Hq. cbn. rewrite H3. destruct (decide (i = j)) as [->|Hij]; [|by rewrite lookup_delete_ne].
    rewrite lookup_delete_eq. apply H3 in Ei. split; [congruence|done].
  - intros j. cbn. destruct (decide (i = j)) as [->|Hij]; [by rewrite lookup_delete_eq|].
    rewrite lookup_delete_ne by done. intros Hj%H3. congruence.
  - intros j Hj%H3. congruence.
Qed.

Lemma retries_again p q s : retries_of q (again p s) = if decide (q = p) then S (retries_of p s) else retries_of q s.
Proof.
  unfold retries_of, again. cbn. destruct (decide (q = p)) as [->|Hq]; [by rewrite lookup_insert_eq|].
  by rewrite lookup_insert_ne.
Qed.

(** Another turn is paid for by a removal. *)
Lemma lock_ok_again p i s :
  lock_ok s -> pc_of p s = PcFlocked i -> lk_name s <> Some i ->
  lock_ok (goto p PcLoop (again p (unlock_of (PcFlocked i) s))).
Proof.
  intros Hs Hpc Hn. pose proof (lock_ok_close p PcLoop s Hs eq_refl) as [H1 H2 H3 H4 H5]. rewrite Hpc in *.
  split; [exact H1|exact H2|exact H3|exact H4|]. intros q. specialize (H5 q).
  change (retries_of q (goto p PcLoop (again p (unlock_of (PcFlocked i) s)))) with (retries_of q (again p s)).
  rewrite retries_again. destruct (decide (q = p)) as [->|Hq]; [|exact H5].
  pose proof (lo_paid _ Hs p) as Hp. unfold stale in Hp. rewrite Hpc, bool_decide_eq_false_2 in Hp by done.
  assert (stale p (goto p PcLoop (again p (unlock_of (PcFlocked i) s))) = 0%nat) as ->.
  { unfold stale. rewrite pc_of_goto. by rewrite decide_True. }
  cbn. lia.
Qed.

Lemma lock_ok_open p s :
  lock_ok s -> pc_of p s = PcLoop ->
  lock_ok (let '(i, s) := open_file s in goto p (PcOpened i) s).
Proof.
  intros Hs Hpc. unfold open_file. destruct (lk_name s) as [i|] eqn:En.
  - apply lock_ok_goto; [done| |by rewrite Hpc|done|].
    + intros j [= <-]. by apply (lo_name _ Hs).
    + unfold stale. rewrite pc_of_goto, decide_True by done. cbn. rewrite En, bool_decide_eq_true_2 by done. lia.
  - apply lock_ok_goto; [|cbn; intros j [= <-]; lia| |done|].
    + destruct Hs as [H1 H2 H3 H4 H5]. split; cbn.
      * intros j [= <-]. lia.
      * intros q j Hq. apply H2 in Hq. lia.
      * exact H3.
      * intros q j Hq. apply H4 in Hq. congruence.
      * intros q. specialize (H5 q). assert (Hst : forall s', pc_of q s' = pc_of q s -> (stale q s' <= stale q s)%nat).
        { intros s' E. unfold stale. rewrite E. destruct (pc_of q s); try done; rewrite En;
            rewrite (bool_decide_eq_false_2 (None = _)) by done; case_bool_decide; lia. }
        etransitivity; [|exact H5]. apply Nat.add_le_mono_l. by apply Hst.
    + change (pc_of p (mkLockState _ _ _ (lk_pc s) _ _)) with (pc_of p s). by rewrite Hpc.
    + unfold stale. rewrite pc_of_goto, decide_True by done. cbn. rewrite bool_decide_eq_true_2 by done. lia.
Qed.

Lemma lock_ok_remove p i s :
  lock_ok s -> pc_of p s = PcHolds i -> lock_ok (goto p (PcRemoved i) (remove_file s)).
Proof.
  intros Hs Hpc. pose proof Hs as [H1 H2 H3 H4 H5]. split.
  - done.
  - intros q j. rewrite pc_of_goto. destruct (decide (q = p)) as [->|]; [|apply H2].
    intros [= <-]. apply (H2 p). by rewrite Hpc.
  - intros q j. rewrite pc_of_goto. destruct (decide (q = p)) as [->|]; [|apply H3].
    change (Some i = Some j <-> lk_flock s !! j = Some p). rewrite <- H3. by rewrite Hpc.
  - intros q j. rewrite pc_of_goto. destruct (decide (q = p)) as [->|Hq]; [done|]. intros Hqj.
    destruct Hq. apply (holds_unique s); [done|by exists j|by exists i].
  - intros q. specialize (H5 q). unfold stale. rewrite pc_of_goto.
    change (retries_of q (goto _ _ _)) with (retries_of q s). cbn [goto remove_file lk_removals lk_name].
    destruct (decide (q = p)) as [->|Hq]; [lia|]. change (pc_of q (remove_file s)) with (pc_of q s).
    unfold stale in H5. destruct (pc_of q s); try lia; (repeat case_bool_decide; lia).
Qed.

Lemma lock_ok_act a p s : lock_ok s -> lock_ok (lock_act a p s).
Proof.
  intros Hs. unfold lock_act. destruct (pc_of p s) as [| |i|i|i|i] eqn:Hpc.
  all: pose proof (lock_ok_close p PcOut s Hs eq_refl) as Hout; rewrite Hpc in Hout.
  all: destruct a as [|[]|[]| |[]| |]; try done.
  - apply lock_ok_goto; try done; [by rewrite Hpc|]. unfold stale. rewrite pc_of_goto, decide_True by done. lia.
  - by apply lock_ok_open.
  - destruct (lk_flock s !! i) as [q|] eqn:Ef; [done|]. by apply lock_ok_flock.
  - case_bool_decide as Hn; [|by apply lock_ok_again].
    apply lock_ok_goto; try done; [|by rewrite Hpc|by intros j [= <-]|].
    + intros j [= <-]. apply (lo_open _ Hs p). by rewrite Hpc.
    + unfold stale. rewrite pc_of_goto, decide_True by done. lia.
  - apply lock_ok_goto; try done; [|by rewrite Hpc|].
    + intros j [= <-]. apply (lo_open _ Hs p). by rewrite Hpc.
    + unfold stale. rewrite pc_of_goto, decide_True by done. lia.
  - by apply lock_ok_remove.
Qed.

Lemma lock_ok_run l s : lock_ok s -> lock_ok (lock_run l s).
Proof. revert s. induction l as [|[a p] l IH]; intros s Hs; [done|]. cbn. by apply IH, lock_ok_act. Qed.

(** ** What the lock promises *)

(** C22: whatever the processes do and wherever they die, at most one holds the
    lock of a state file: between LockPath's return and Release's first step
    nobody else is there.  And LockPath does not go round for nothing: each turn
    that led to another was paid for by a removal of the lock file. *)
Theorem lock_exclusive left_behind l p q :
  let s := lock_run l (lock_start left_behind) in
  (holds p s -> holds q s -> p = q) /\ (retries_of p s <= lk_removals s)%nat.
Proof.
  intros s. assert (Hs : lock_ok s) by apply lock_ok_run, lock_ok_start.
  split; [by apply holds_unique|]. pose proof (lo_paid _ Hs p). lia.
Qed.

(** LockPath terminates where nobody is in the way.  From any point the
    system can reach at which no process has locked the file the name stands
    for, a process that starts holds the lock after its four system calls; a file
    left behind by a cpms that died is no obstacle. *)
Theorem lock_uncontended left_behind l p :
  let s := lock_run l (lock_start left_behind) in
  pc_of p s = PcOut -> (forall i, lk_name s = Some i -> lk_flock s !! i = None) ->
  holds p (lock_run [(Start, p); (Open false, p); (Flock false, p); (Compare, p)] s).
Proof.
  intros s Hp Hfree. assert (Hs : lock_ok s) by apply lock_ok_run, lock_ok_start. clearbody s.
  cbn [lock_run foldl]. set (s1 := goto p PcLoop s).
  assert (lock_act Start p s = s1) as -> by (unfold lock_act; by rewrite Hp).
  assert (Hp1 : pc_of p s1 = PcLoop) by (unfold s1; by rewrite pc_of_goto, decide_True).
  assert (Hf : let '(i, s2) := open_file s1 in lk_name s2 = Some i /\ lk_flock s2 !! i = None).
  { unfold open_file. cbn. destruct (lk_name s) as [i|] eqn:En; cbn; (split; [done|]).
    - by apply Hfree.
    - destruct (lk_flock s !! lk_next s) as [q|] eqn:Ef; [|done]. apply (lo_flock _ Hs) in Ef.
      assert (inode_of (pc_of q s) = Some (lk_next s)) as Hi by (by destruct (pc_of q s)).
      apply (lo_open _ Hs) in Hi. lia. }
  assert (lock_act (Open false) p s1 = let '(i, s2) := open_file s1 in goto p (PcOpened i) s2) as ->
    by (unfold lock_act; by rewrite Hp1).
  destruct (open_file s1) as [i s2]. destruct Hf as [Hn Hf].
  set (s4 := goto p (PcFlocked i) (set_flock (<[i := p]> (lk_flock s2)) (goto p (PcOpened i) s2))).
  assert (lock_act (Flock false) p (goto p (PcOpened i) s2) = s4) as ->.
  { unfold lock_act. rewrite pc_of_goto, decide_True by done. change (lk_flock (goto _ _ s2)) with (lk_flock s2).
    by rewrite Hf. }
  assert (Hp4 : pc_of p s4 = PcFlocked i) by (unfold s4; by rewrite pc_of_goto, decide_True).
  unfold lock_act. rewrite Hp4, bool_decide_eq_true_2 by done. exists i. by rewrite pc_of_goto, decide_True.
Qed.

(** Two processes at one file: the second is refused while the first runs, holds
    the lock after the first has left, though it had the removed file open. *)
Lemma lock_uncontended_witness :
  holds 2 (lock_run [(Start, 2); (Open false, 2); (Flock false, 2); (Compare, 2)]
             (lock_run [(Start, 1); (Open false, 1); (Flock false, 1); (Compare, 1); (Die, 1)] (lock_start true)))%nat.
Proof.
  apply (lock_uncontended true [(Start, 1); (Open false, 1); (Flock false, 1); (Compare, 1); (Die, 1)]%nat 2%nat).
  - vm_compute. reflexivity.
  - intros i Hi. vm_compute in Hi. injection Hi as <-. vm_compute. reflexivity.
Defined.

Example two_at_the_lock :
  let first := [(Start, 1); (Open false, 1); (Start, 2); (Open false, 2); (Flock false, 1); (Compare, 1)]%nat in
  let s := lock_run first (lock_start false) in
  pc_of 1 s = PcHolds 1 /\ pc_of 2 (lock_act (Flock false) 2 s) = PcOut /\
  let s := lock_run [(Remove false, 1); (Close, 1); (Flock false, 2); (Compare, 2)]%nat s in
  pc_of 2 s = PcLoop /\ retries_of 2 s = 1%nat /\
  pc_of 2 (lock_run [(Open false, 2); (Flock false, 2); (Compare, 2)]%nat s) = PcHolds 2.
Proof. vm_compute. repeat split. Qed.
