(* ===== verification/SocketListen.v ===== *)
(** * Claiming the control socket (control/socket/server.go, Listen and Close)

    What is at the socket's path, which sockets somebody answers on, and where
    each process is in [Listen]: a system call per step.  The socket's mode is
    not modelled: a failing chmod, which gives the socket up again. *)

From S2P Require Import Prelude.

(** What a path names. *)
Inductive entry := Free | NotSocket | Socket (id : nat).

#[export] Instance entry_eq : EqDecision entry.
Proof. solve_decision. Defined.

Inductive listen_pc :=
| LOut
| LStat                 (* before Lstat *)
| LDial                 (* there is a socket *)
| LRemove               (* nobody answered *)
| LBind                 (* before net.Listen *)
| LServing (id : nat).  (* Listen has returned the server *)

(** The last error each process got, as the message's beginning. *)
Record sock_state := mkSockState {
  sk_path : entry;
  sk_live : gset nat;
  sk_next : nat;
  sk_pc : gmap nat listen_pc;
  sk_error : gmap nat string
}.

Definition at_pc (p : nat) (s : sock_state) : listen_pc := default LOut (sk_pc s !! p).

Definition sk_goto (p : nat) (pc : listen_pc) (s : sock_state) : sock_state :=
  mkSockState (sk_path s) (sk_live s) (sk_next s) (<[p := pc]> (sk_pc s)) (sk_error s).
Definition sk_refuse (p : nat) (e : string) (s : sock_state) : sock_state :=
  mkSockState (sk_path s) (sk_live s) (sk_next s) (<[p := LOut]> (sk_pc s)) (<[p := e]> (sk_error s)).
Definition sk_set (path : entry) (live : gset nat) (next : nat) (s : sock_state) : sock_state :=
  mkSockState path live next (sk_pc s) (sk_error s).

Definition ErrAlreadyRunning : string := "another cpms is already running".

Inductive sock_action := SListen | SLstat | SDial | SRemove | SBind | SClose | SDie.

Definition sock_act (a : sock_action) (p : nat) (s : sock_state) : sock_state :=
  match a, at_pc p s with
  | SListen, LOut => sk_goto p LStat s
  | SLstat, LStat =>
    match sk_path s with
    | Free => sk_goto p LBind s
    | NotSocket => sk_refuse p "exists and is not a socket" s
    | Socket _ => sk_goto p LDial s
    end
  | SDial, LDial =>
    match sk_path s with
    | Socket i => if decide (i ∈ sk_live s) then sk_refuse p ErrAlreadyRunning s else sk_goto p LRemove s
    | _ => sk_goto p LRemove s
    end
  | SRemove, LRemove =>
    match sk_path s with
    | Free => sk_refuse p "removing stale control socket" s
    | _ => sk_goto p LBind (sk_set Free (sk_live s) (sk_next s) s)
    end
  | SBind, LBind =>
    match sk_path s with
    | Free => sk_goto p (LServing (sk_next s)) (sk_set (Socket (sk_next s)) ({[sk_next s]} ∪ sk_live s) (S (sk_next s)) s)
    | _ => sk_refuse p "listening on control socket" s
    end
  (* the listener removes its path, whatever it names by then *)
  | SClose, LServing i => sk_goto p LOut (sk_set Free (sk_live s ∖ {[i]}) (sk_next s) s)
  | SDie, LServing i => sk_goto p LOut (sk_set (sk_path s) (sk_live s ∖ {[i]}) (sk_next s) s)
  | SDie, _ => sk_goto p LOut s
  | _, _ => s
  end.

Definition sock_run (l : list (sock_action * nat)) (s : sock_state) : sock_state :=
  foldl (fun s '(a, p) => sock_act a p s) s l.

Definition serving (p : nat) (s : sock_state) : Prop := exists i, at_pc p s = LServing i /\ i ∈ sk_live s.

(** [Listen] without interruption; a step that is not due does nothing. *)
Definition Listen_alone (p : nat) (s : sock_state) : sock_state :=
  sock_run [(SListen, p); (SLstat, p); (SDial, p); (SRemove, p); (SBind, p)] s.

Lemma at_goto p q pc s : at_pc q (sk_goto p pc s) = if decide (q = p) then pc else at_pc q s.
Proof.
  unfold at_pc, sk_goto. cbn. destruct (decide (q = p)) as [->|]; [by rewrite lookup_insert_eq|].
  by rewrite lookup_insert_ne.
Qed.

Lemma at_refuse p q e s : at_pc q (sk_refuse p e s) = if decide (q = p) then LOut else at_pc q s.
Proof.
  unfold at_pc, sk_refuse. cbn. destruct (decide (q = p)) as [->|]; [by rewrite lookup_insert_eq|].
  by rewrite lookup_insert_ne.
Qed.

Lemma at_set p a l n s : at_pc p (sk_set a l n s) = at_pc p s.
Proof. done. Qed.

(** A step that is not due. *)
Lemma sock_idle a p pc s : at_pc p s = pc ->
  match a, pc with
  | (SLstat | SDial | SRemove | SBind | SClose), LOut | (SDial | SRemove), LBind | SRemove, LDial => True
  | _, _ => False
  end -> sock_act a p s = s.
Proof. intros H. unfold sock_act. rewrite H. by destruct a, pc. Qed.

(** [Listen_alone] in one go. *)
Lemma Listen_alone_eq p s : at_pc p s = LOut ->
  let s0 := sk_goto p LStat s in
  let claim s := sk_goto p (LServing (sk_next s)) (sk_set (Socket (sk_next s)) ({[sk_next s]} ∪ sk_live s) (S (sk_next s)) s) in
  Listen_alone p s =
  match sk_path s with
  | NotSocket => sk_refuse p "exists and is not a socket" s0
  | Free => claim (sk_goto p LBind s0)
  | Socket i =>
    if decide (i ∈ sk_live s) then sk_refuse p ErrAlreadyRunning (sk_goto p LDial s0)
    else claim (sk_goto p LBind (sk_set Free (sk_live s) (sk_next s) (sk_goto p LRemove (sk_goto p LDial s0))))
  end.
Proof.
  intros Hp s0 claim. unfold Listen_alone. cbn [sock_run foldl].
  assert (sock_act SListen p s = s0) as -> by (unfold sock_act; by rewrite Hp).
  assert (H0 : at_pc p s0 = LStat) by (unfold s0; by rewrite at_goto, decide_True).
  assert (E0 : forall a, sock_act a p s0 = match a with SLstat =>
      match sk_path s with Free => sk_goto p LBind s0 | NotSocket => sk_refuse p "exists and is not a socket" s0
      | Socket _ => sk_goto p LDial s0 end | _ => sock_act a p s0 end)
    by (intros []; try done; unfold sock_act; by rewrite H0).
  rewrite (E0 SLstat). destruct (sk_path s) as [| |i] eqn:Hs.
  - set (s1 := sk_goto p LBind s0). assert (H1 : at_pc p s1 = LBind) by (unfold s1; by rewrite at_goto, decide_True).
    rewrite (sock_idle SDial p LBind s1 H1), (sock_idle SRemove p LBind s1 H1) by done.
    unfold sock_act. rewrite H1. change (sk_path s1) with (sk_path s). by rewrite Hs.
  - set (s1 := sk_refuse _ _ s0). assert (H1 : at_pc p s1 = LOut) by (unfold s1; by rewrite at_refuse, decide_True).
    by rewrite !(fun a => sock_idle a p LOut s1 H1) by done.
  - set (s1 := sk_goto p LDial s0). assert (H1 : at_pc p s1 = LDial) by (unfold s1; by rewrite at_goto, decide_True).
    assert (sock_act SDial p s1 = if decide (i ∈ sk_live s) then sk_refuse p ErrAlreadyRunning s1 else sk_goto p LRemove s1) as ->.
    { unfold sock_act. rewrite H1. change (sk_path s1) with (sk_path s). by rewrite Hs. }
    destruct (decide (i ∈ sk_live s)).
    + set (s2 := sk_refuse _ _ s1). assert (H2 : at_pc p s2 = LOut) by (unfold s2; by rewrite at_refuse, decide_True).
      by rewrite !(fun a => sock_idle a p LOut s2 H2) by done.
    + set (s2 := sk_goto p LRemove s1). assert (H2 : at_pc p s2 = LRemove) by (unfold s2; by rewrite at_goto, decide_True).
      assert (sock_act SRemove p s2 = sk_goto p LBind (sk_set Free (sk_live s) (sk_next s) s2)) as ->.
      { unfold sock_act. rewrite H2. change (sk_path s2) with (sk_path s). by rewrite Hs. }
      unfold sock_act. by rewrite at_goto, decide_True.
Qed.

(** On its own, Listen is the guard it says.  A free path is claimed, and so
    is one that names a socket nobody answers on; where somebody does, the second
    cpms is told so, and the path, the listeners and every other process stay as
    they were; a file that is no socket is left alone. *)
Theorem Listen_guards p s :
  at_pc p s = LOut ->
  let s' := Listen_alone p s in
  let refused e := at_pc p s' = LOut /\ sk_error s' !! p = Some e /\ sk_path s' = sk_path s /\ sk_live s' = sk_live s in
  (forall q, q <> p -> at_pc q s' = at_pc q s) /\
  match sk_path s with
  | NotSocket => refused "exists and is not a socket"
  | Socket i => i ∈ sk_live s -> refused ErrAlreadyRunning
  | Free => True
  end /\
  ((sk_path s = Free \/ exists i, sk_path s = Socket i /\ i ∉ sk_live s) ->
     serving p s' /\ sk_path s' = Socket (sk_next s) /\ sk_live s' = {[sk_next s]} ∪ sk_live s).
Proof.
  intros Hp s' refused. pose proof (Listen_alone_eq p s Hp) as E. cbn zeta in E. fold s' in E. clearbody s'.
  destruct (sk_path s) as [| |i] eqn:Hs; [| |destruct (decide (i ∈ sk_live s)) as [Hi|Hi]]; subst refused; rewrite E.
  all: split; [intros q Hq; rewrite ?at_goto, ?at_refuse, ?at_set; rewrite ?decide_False by done;
               rewrite ?at_goto, ?at_set; rewrite ?decide_False by done;
               rewrite ?at_goto, ?at_set; by rewrite ?decide_False by done|].
  - split; [done|]. intros _. split; [|done]. eexists. rewrite at_goto, decide_True by done. split; [done|set_solver].
  - split; [|by intros [?|(? & ? & _)]]. rewrite at_refuse, decide_True by done. cbn. by rewrite lookup_insert_eq.
  - split; [|intros [?|(? & [= <-] & ?)]; done]. intros _. rewrite at_refuse, decide_True by done. cbn.
    by rewrite lookup_insert_eq.
  - split; [done|]. intros _. split; [|done]. eexists. rewrite at_goto, decide_True by done. split; [done|set_solver].
Qed.

Definition sock_fresh : sock_state := mkSockState Free ∅ 0 ∅ ∅.

Lemma Listen_guards_witness :
  serving 1 (Listen_alone 1 sock_fresh) /\ sk_error (Listen_alone 2 (Listen_alone 1 sock_fresh)) !! 2%nat = Some ErrAlreadyRunning.
Proof.
  split; [apply (Listen_guards 1 sock_fresh); [done|by left]|].
  refine (proj1 (proj2 ((proj1 (proj2 (Listen_guards 2 (Listen_alone 1 sock_fresh) _))) _))).
  - vm_compute. reflexivity.
  - vm_compute. reflexivity.
Defined.

(** Interleaved it is not: of two that find the same stale socket, the second
    removes the first one's new socket, and both serve. *)
Example Listen_race :
  let stale := mkSockState (Socket 0) ∅ 1 ∅ ∅ in
  let s := sock_run [(SListen, 1); (SLstat, 1); (SDial, 1); (SListen, 2); (SLstat, 2); (SDial, 2);
                     (SRemove, 1); (SBind, 1); (SRemove, 2); (SBind, 2)]%nat stale in
  at_pc 1 s = LServing 1 /\ at_pc 2 s = LServing 2 /\ sk_path s = Socket 2 /\ bool_decide ({[1; 2]}%nat ⊆ sk_live s) = true /\
  sk_path (sock_act SClose 1 s) = Free.
Proof. vm_compute. repeat split. Qed.
