(* ===== verification/World.v ===== *)
(** * The state of core.Service and the world it acts on

    The records of core/service.go, core/reservations.go and
    core/transactions.go; the world (the service's fields, its store, bus and
    timers, and how many clock readings and disk writes have happened); and the
    state monad the operations are written in, with a small program logic.

    The clock and the disk are the environment [Env]: the n-th reading of the
    clock and the result of the n-th write.  A pointer into one of the
    service's maps is only followed while the lock is held and never kept, so a
    map holds values and a change to the pointed-to value is an insert. *)

From S2P Require Import Prelude GoLib GoTime Ocpp Errors Config State Bus.

(** ** Records *)

Record BootInfo := mkBootInfo {
  bi_Vendor : string;
  bi_Model : string;
  bi_SerialNumber : string;
  bi_FirmwareVersion : string;
  bi_At : Time
}.

Definition zeroBootInfo : BootInfo := mkBootInfo EmptyString EmptyString EmptyString EmptyString zeroTime.

Definition BootInfo_String (b : BootInfo) : string :=
  let s := bi_Vendor b in
  let s := if bool_decide (bi_Model b = EmptyString) then s else s +:+ " " +:+ bi_Model b in
  if bool_decide (bi_FirmwareVersion b = EmptyString) then s
  else s +:+ " fw " +:+ bi_FirmwareVersion b.

Record Transaction := mkTransaction {
  tx_ID : string;
  tx_EVSEUID : string;
  tx_ConnectorID : Z;
  tx_IDTag : string;
  tx_MeterStart : Z;
  tx_StartedAt : Time;
  tx_ReservationID : Z;
  tx_StoppedAt : Time;
  tx_MeterStop : Z;
  tx_Reason : string;
  tx_seq : Z
}.

(** [Transaction.Active]. *)
Definition Active (t : Transaction) : bool := IsZero (tx_StoppedAt t).

Record Disconnect := mkDisconnect { dc_At : Time; dc_Reason : string }.
Definition zeroDisconnect : Disconnect := mkDisconnect zeroTime EmptyString.

Record chargePointState := mkChargePointState {
  cp_id : string;
  cp_online : bool;
  cp_boot : BootInfo;
  cp_lastSeen : Time;
  cp_lastDisconnect : Disconnect;
  cp_station : EVSEStatus;
  cp_order : list string;
  cp_connectorIDs : gmap string Z;
  cp_reported : gmap string EVSEStatus;
  cp_errorCode : gmap string string;
  cp_effective : gmap string EVSEStatus;
  cp_transactions : gmap string Transaction
}.

(** [ReservationUnset] is the string type's zero value. *)
Inductive ReservationStatus :=
| ReservationUnset | ReservationPending | ReservationActive | ReservationCancelling.

#[export] Instance ReservationStatus_eq_dec : EqDecision ReservationStatus.
Proof. solve_decision. Defined.

Definition ReservationExpired : string := "expired".
Definition ReservationCancelled : string := "cancelled".
Definition ReservationConsumed : string := "consumed".
Definition ReservationRejected : string := "rejected".
Definition ReservationTimeout : string := "timeout".
Definition ReservationFailed : string := "failed".

Record Reservation := mkReservation {
  rv_ID : Z;
  rv_OCPIReservationID : string;
  rv_ChargePointID : string;
  rv_EVSEUID : string;
  rv_ConnectorID : Z;
  rv_IDTag : string;
  rv_ExpiresAt : Time;
  rv_CreatedAt : Time;
  rv_Source : string;
  rv_ResponseURL : string;
  rv_Status : ReservationStatus
}.

(** A [Stopper] is the handle of its timer. *)
Record reservation := mkRes { res : Reservation; timer : option nat }.

(** A scheduled [s.expire(id, expiresAt)]. *)
Record Timer := mkTimer { tm_delay : Z; tm_id : Z; tm_expiresAt : Time }.

Record Service := mkService {
  cfg : option Config;
  cps : gmap string chargePointState;
  reservations : gmap Z reservation;
  txSeq : Z;
  nextReservationID : Z;
  nextTransactionID : Z;
  nextRemoteStartID : Z
}.

Record World := mkWorld {
  svc : Service;
  store : option Store;
  w_bus : bus;
  timers : gmap nat Timer;          (* scheduled and neither stopped nor fired *)
  next_timer : nat;
  expiring : list (Z * Time);       (* fired: calls of [expire] about to run *)
  ticks : nat;                      (* clock readings so far *)
  writes : nat                      (* disk writes so far *)
}.

(** *** Field updates *)

Definition set_lastSeen (t : Time) (c : chargePointState) : chargePointState :=
  mkChargePointState (cp_id c) (cp_online c) (cp_boot c) t (cp_lastDisconnect c) (cp_station c)
    (cp_order c) (cp_connectorIDs c) (cp_reported c) (cp_errorCode c) (cp_effective c) (cp_transactions c).
Definition set_online (b : bool) (c : chargePointState) : chargePointState :=
  mkChargePointState (cp_id c) b (cp_boot c) (cp_lastSeen c) (cp_lastDisconnect c) (cp_station c)
    (cp_order c) (cp_connectorIDs c) (cp_reported c) (cp_errorCode c) (cp_effective c) (cp_transactions c).
Definition set_boot (b : BootInfo) (c : chargePointState) : chargePointState :=
  mkChargePointState (cp_id c) (cp_online c) b (cp_lastSeen c) (cp_lastDisconnect c) (cp_station c)
    (cp_order c) (cp_connectorIDs c) (cp_reported c) (cp_errorCode c) (cp_effective c) (cp_transactions c).
Definition set_lastDisconnect (d : Disconnect) (c : chargePointState) : chargePointState :=
  mkChargePointState (cp_id c) (cp_online c) (cp_boot c) (cp_lastSeen c) d (cp_station c)
    (cp_order c) (cp_connectorIDs c) (cp_reported c) (cp_errorCode c) (cp_effective c) (cp_transactions c).
Definition set_station (s : EVSEStatus) (c : chargePointState) : chargePointState :=
  mkChargePointState (cp_id c) (cp_online c) (cp_boot c) (cp_lastSeen c) (cp_lastDisconnect c) s
    (cp_order c) (cp_connectorIDs c) (cp_reported c) (cp_errorCode c) (cp_effective c) (cp_transactions c).
Definition set_reported (uid : string) (s : EVSEStatus) (code : string) (c : chargePointState)
    : chargePointState :=
  mkChargePointState (cp_id c) (cp_online c) (cp_boot c) (cp_lastSeen c) (cp_lastDisconnect c) (cp_station c)
    (cp_order c) (cp_connectorIDs c) (<[uid := s]> (cp_reported c)) (<[uid := code]> (cp_errorCode c))
    (cp_effective c) (cp_transactions c).
Definition set_effective (uid : string) (s : EVSEStatus) (c : chargePointState) : chargePointState :=
  mkChargePointState (cp_id c) (cp_online c) (cp_boot c) (cp_lastSeen c) (cp_lastDisconnect c) (cp_station c)
    (cp_order c) (cp_connectorIDs c) (cp_reported c) (cp_errorCode c)
    (<[uid := s]> (cp_effective c)) (cp_transactions c).
Definition put_transaction (t : Transaction) (c : chargePointState) : chargePointState :=
  mkChargePointState (cp_id c) (cp_online c) (cp_boot c) (cp_lastSeen c) (cp_lastDisconnect c) (cp_station c)
    (cp_order c) (cp_connectorIDs c) (cp_reported c) (cp_errorCode c) (cp_effective c)
    (<[tx_ID t := t]> (cp_transactions c)).

Definition set_status (st : ReservationStatus) (r : Reservation) : Reservation :=
  mkReservation (rv_ID r) (rv_OCPIReservationID r) (rv_ChargePointID r) (rv_EVSEUID r)
    (rv_ConnectorID r) (rv_IDTag r) (rv_ExpiresAt r) (rv_CreatedAt r) (rv_Source r)
    (rv_ResponseURL r) st.

Definition set_cps (m : gmap string chargePointState) (s : Service) : Service :=
  mkService (cfg s) m (reservations s) (txSeq s) (nextReservationID s) (nextTransactionID s)
    (nextRemoteStartID s).
Definition set_reservations (m : gmap Z reservation) (s : Service) : Service :=
  mkService (cfg s) (cps s) m (txSeq s) (nextReservationID s) (nextTransactionID s)
    (nextRemoteStartID s).
Definition set_txSeq (n : Z) (s : Service) : Service :=
  mkService (cfg s) (cps s) (reservations s) n (nextReservationID s) (nextTransactionID s)
    (nextRemoteStartID s).
Definition set_counters (r t rs : Z) (s : Service) : Service :=
  mkService (cfg s) (cps s) (reservations s) (txSeq s) r t rs.
Definition set_nextReservationID (n : Z) (s : Service) : Service :=
  set_counters n (nextTransactionID s) (nextRemoteStartID s) s.
Definition set_nextTransactionID (n : Z) (s : Service) : Service :=
  set_counters (nextReservationID s) n (nextRemoteStartID s) s.
Definition set_nextRemoteStartID (n : Z) (s : Service) : Service :=
  set_counters (nextReservationID s) (nextTransactionID s) n s.

Definition set_svc (s : Service) (w : World) : World :=
  mkWorld s (store w) (w_bus w) (timers w) (next_timer w) (expiring w) (ticks w) (writes w).
Definition set_bus (b : bus) (w : World) : World :=
  mkWorld (svc w) (store w) b (timers w) (next_timer w) (expiring w) (ticks w) (writes w).
Definition set_store (s : Store) (w : World) : World :=
  mkWorld (svc w) (Some s) (w_bus w) (timers w) (next_timer w) (expiring w) (ticks w) (S (writes w)).
Definition set_timers (m : gmap nat Timer) (n : nat) (w : World) : World :=
  mkWorld (svc w) (store w) (w_bus w) m n (expiring w) (ticks w) (writes w).
Definition set_expiring (l : list (Z * Time)) (w : World) : World :=
  mkWorld (svc w) (store w) (w_bus w) (timers w) (next_timer w) l (ticks w) (writes w).
Definition tick (w : World) : World :=
  mkWorld (svc w) (store w) (w_bus w) (timers w) (next_timer w) (expiring w) (S (ticks w)) (writes w).

(** ** The monad *)

Definition M (A : Type) : Type := World -> A * World.

Definition M_ret {A} (a : A) : M A := fun w => (a, w).
Definition M_bind {A B} (m : M A) (f : A -> M B) : M B := fun w => let '(a, w') := m w in f a w'.

Notation "x <- m ;; k" := (M_bind m (fun x => k))
  (at level 100, m at next level, right associativity) : cpms_scope.
Notation "m ;; k" := (M_bind m (fun _ => k)) (at level 100, right associativity) : cpms_scope.
Open Scope cpms_scope.

Definition gets {A} (f : World -> A) : M A := fun w => (f w, w).
Definition modify (f : World -> World) : M unit := fun w => (tt, f w).
Definition modify_svc (f : Service -> Service) : M unit := modify (fun w => set_svc (f (svc w)) w).

(** [for _, x := range l { body(x) }] *)
Fixpoint for_each {A} (body : A -> M unit) (l : list A) : M unit :=
  match l with [] => M_ret tt | x :: l' => body x ;; for_each body l' end.

(** ** The environment *)

Class Env := {
  clock : nat -> Time;
  disk_result : nat -> WriteResult
}.

(** [s.now()] *)
Definition now `{Env} : M Time := fun w => (clock (ticks w), tick w).

(** [s.publishAll(events)] *)
Definition publish_events (es : list Event) : M unit :=
  modify (fun w => set_bus (publishAll es (w_bus w)) w).

(** [s.afterFunc(d, func() { s.expire(id, expiresAt) })] *)
Definition afterFunc (d : Z) (id : Z) (expiresAt : Time) : M nat := fun w =>
  (next_timer w, set_timers (<[next_timer w := mkTimer d id expiresAt]> (timers w)) (S (next_timer w)) w).

(** [Stopper.Stop]: a timer that has fired already is not stopped. *)
Definition Stop (h : nat) : M unit := modify (fun w => set_timers (delete h (timers w)) (next_timer w) w).

(** [s.store.Update(fn)]; a service without a store never fails. *)
Definition store_Update `{Env} (fn : State.State -> State.State) : M (option error) := fun w =>
  match store w with
  | None => (None, w)
  | Some st =>
    let '(st', err) := Update (fun s => inl (fn s)) (disk_result (writes w)) st in
    (err, set_store st' w)
  end.

(** ** A program logic for [M] *)

Definition triple {A} (P : World -> Prop) (m : M A) (Q : A -> World -> Prop) : Prop :=
  forall w, P w -> Q (m w).1 (m w).2.

(** [m] keeps [I]. *)
Definition keeps {A} (I : World -> Prop) (m : M A) : Prop := triple I m (fun _ => I).

Section logic.
Context {A B : Type}.
Implicit Types (P I : World -> Prop) (m : M A).

Lemma M_bind_eq m (f : A -> M B) w : M_bind m f w = f (m w).1 (m w).2.
Proof. unfold M_bind. by destruct (m w). Qed.

Lemma triple_bind P m (f : A -> M B) Q R :
  triple P m Q -> (forall a, triple (Q a) (f a) R) -> triple P (M_bind m f) R.
Proof. intros Hm Hf w Hw. rewrite M_bind_eq. by apply Hf, Hm. Qed.

Lemma triple_ret P (a : A) (Q : A -> World -> Prop) : (forall w, P w -> Q a w) -> triple P (M_ret a) Q.
Proof. intros H w. apply H. Qed.

Lemma triple_gets P (f : World -> A) (Q : A -> World -> Prop) :
  (forall w, P w -> Q (f w) w) -> triple P (gets f) Q.
Proof. intros H w. apply H. Qed.

Lemma triple_conseq P P' m (Q Q' : A -> World -> Prop) :
  triple P' m Q' -> (forall w, P w -> P' w) -> (forall a w, Q' a w -> Q a w) -> triple P m Q.
Proof. intros H HP HQ w Hw. by apply HQ, H, HP. Qed.

Lemma keeps_bind I m (f : A -> M B) : keeps I m -> (forall a, keeps I (f a)) -> keeps I (M_bind m f).
Proof. intros Hm Hf. by eapply triple_bind. Qed.

Lemma keeps_ret I (a : A) : keeps I (M_ret a).
Proof. by intros w. Qed.

Lemma keeps_gets I (f : World -> A) : keeps I (gets f).
Proof. by intros w. Qed.
End logic.

Lemma keeps_modify I f : (forall w, I w -> I (f w)) -> keeps I (modify f).
Proof. intros H w. apply H. Qed.

Lemma keeps_for_each {A} I (body : A -> M unit) l :
  (forall x, x ∈ l -> keeps I (body x)) -> keeps I (for_each body l).
Proof.
  induction l as [|x l IH]; intros H; [apply keeps_ret|]. simpl.
  apply keeps_bind; [apply H; left | intros []; apply IH; intros y Hy; apply H; by right].
Qed.

(** Walks through an operation's binds, branches and service updates; [upd]
    takes an update, [leaf] what is left. *)
Ltac keeps_walk upd leaf :=
  lazymatch goal with
  | |- keeps _ (M_bind _ _) => apply keeps_bind; [keeps_walk upd leaf | intros ?; keeps_walk upd leaf]
  | |- keeps _ (match ?x with _ => _ end) => destruct x; keeps_walk upd leaf
  | |- keeps _ (modify_svc _) => upd
  | |- _ => leaf
  end.

(** Properties of the service alone survive what only touches the world around it. *)
Section frame.
Context `{Env} (P : Service -> Prop).

Lemma keeps_now : keeps (fun w => P (svc w)) now.
Proof. by intros w. Qed.
Lemma keeps_publish es : keeps (fun w => P (svc w)) (publish_events es).
Proof. by intros w. Qed.
Lemma keeps_store_Update fn : keeps (fun w => P (svc w)) (store_Update fn).
Proof.
  intros w Hw. unfold store_Update. destruct (store w); [|done].
  by destruct (Update _ _ _).
Qed.
End frame.

#[export] Hint Resolve keeps_bind keeps_ret keeps_gets keeps_now keeps_publish
  keeps_store_Update : cpms.
