(* ===== verification/Core.v ===== *)
(** * core.Service: the station's connectivity and statuses (core/service.go)

    The operations of service.go on the world of World.v.  Each operation takes
    its clock reading, runs one critical section under [Service.mu] (the
    [_locked] definitions where the section is more than one update), and
    publishes its events after releasing the lock. *)

From S2P Require Import Prelude GoLib GoTime Ocpp Errors Config State Bus World.

(** ** Charge points *)

Definition newChargePoint (id : string) : chargePointState :=
  mkChargePointState id false zeroBootInfo zeroTime zeroDisconnect StatusAvailable
    [] ∅ ∅ ∅ ∅ ∅.

Definition addEVSE (uid : string) (connectorID : Z) (cp : chargePointState) : chargePointState :=
  match cp_effective cp !! uid with
  | Some _ => cp
  | None =>
    mkChargePointState (cp_id cp) (cp_online cp) (cp_boot cp) (cp_lastSeen cp)
      (cp_lastDisconnect cp) (cp_station cp) (cp_order cp ++ [uid])
      (<[uid := connectorID]> (cp_connectorIDs cp)) (cp_reported cp) (cp_errorCode cp)
      (<[uid := StatusUnknown]> (cp_effective cp)) (cp_transactions cp)
  end.

(** The status [recompute] wants for an EVSE. *)
Definition wanted (cp : chargePointState) (uid : string) : EVSEStatus :=
  effectiveStatus (cp_online cp) (cp_station cp) (default StatusNone (cp_reported cp !! uid)).

Definition status_change (at_ : Time) (cp : chargePointState) (uid : string)
    (got want : EVSEStatus) : Event :=
  mkEvent EventEVSEStatusChanged at_ (cp_id cp) uid got want
    (default EmptyString (cp_errorCode cp !! uid)) EmptyString 0 EmptyString EmptyString.

Definition recompute_step (at_ : Time) (acc : chargePointState * list Event) (uid : string)
    : chargePointState * list Event :=
  let '(cp, events) := acc in
  let want := wanted cp uid in
  let got := default StatusNone (cp_effective cp !! uid) in
  if decide (got = want) then acc
  else (set_effective uid want cp, events ++ [status_change at_ cp uid got want]).

Definition recompute (at_ : Time) (cp : chargePointState) : chargePointState * list Event :=
  foldl (recompute_step at_) (cp, []) (cp_order cp).

(** [s.ensure(id)]: the state of a charge point, created if there is none. *)
Definition ensure (id : string) : M chargePointState :=
  found <- gets (fun w => cps (svc w) !! id) ;;
  match found with
  | Some cp => M_ret cp
  | None =>
    let cp := newChargePoint id in
    modify_svc (fun s => set_cps (<[id := cp]> (cps s)) s) ;; M_ret cp
  end.

(** Writing through the pointer [ensure] returned. *)
Definition put_cp (id : string) (cp : chargePointState) : M unit :=
  modify_svc (fun s => set_cps (<[id := cp]> (cps s)) s).

(** [fmt.Sprintf("%s-%d", cpID, connectorID)] *)
Definition synthetic_uid (cpID : string) (connectorID : Z) : string :=
  cpID +:+ "-" +:+ Itoa connectorID.

Definition evseUID (c : option Config) (cpID : string) (connectorID : Z) : string :=
  match c with
  | Some c =>
    if bool_decide (cpID = ch_ID (cf_Charger c)) then
      match EVSEByConnectorID c connectorID with
      | Some e => ev_UID e
      | None => synthetic_uid cpID connectorID
      end
    else synthetic_uid cpID connectorID
  | None => synthetic_uid cpID connectorID
  end.

(** ** Operations *)

Section operations.
Context `{Env}.

Definition Connected_locked (cpID : string) (at_ : Time) : M (list Event) :=
  cp <- ensure cpID ;;
  let '(cp, changes) := recompute at_ (set_lastSeen at_ (set_online true cp)) in
  put_cp cpID cp ;;
  M_ret (event EventChargePointConnected at_ cpID :: changes).

Definition Connected (cpID : string) : M unit :=
  at_ <- now ;;
  events <- Connected_locked cpID at_ ;;
  publish_events events.

Definition Disconnected_locked (cpID reason : string) (at_ : Time) : M (list Event) :=
  cp <- ensure cpID ;;
  if negb (cp_online cp) then M_ret []
  else
    let '(cp, changes) :=
      recompute at_ (set_lastDisconnect (mkDisconnect at_ reason) (set_online false cp)) in
    put_cp cpID cp ;;
    M_ret (mkEvent EventChargePointDisconnected at_ cpID EmptyString StatusNone StatusNone
             EmptyString EmptyString 0 EmptyString reason :: changes).

Definition Disconnected (cpID reason : string) : M unit :=
  at_ <- now ;;
  events <- Disconnected_locked cpID reason at_ ;;
  publish_events events.

Definition Booted (cpID : string) (info : BootInfo) : M unit :=
  at_ <- now ;;
  let info := mkBootInfo (bi_Vendor info) (bi_Model info) (bi_SerialNumber info)
                (bi_FirmwareVersion info) at_ in
  cp <- ensure cpID ;;
  put_cp cpID (set_lastSeen at_ (set_boot info cp)) ;;
  publish_events [mkEvent EventBootNotified at_ cpID EmptyString StatusNone StatusNone
                    EmptyString EmptyString 0 EmptyString (BootInfo_String info)].

Definition Seen (cpID : string) : M unit :=
  at_ <- now ;;
  cp <- ensure cpID ;;
  put_cp cpID (set_lastSeen at_ cp).

Definition Heartbeat (cpID : string) : M unit :=
  at_ <- now ;;
  cp <- ensure cpID ;;
  put_cp cpID (set_lastSeen at_ cp) ;;
  publish_events [event EventHeartbeat at_ cpID].

Definition SetConnectorStatus_locked (cpID : string) (connectorID : Z) (status : EVSEStatus)
    (errorCode : string) (at_ : Time) : M (list Event) :=
  cp <- ensure cpID ;;
  c <- gets (fun w => cfg (svc w)) ;;
  let cp := set_lastSeen at_ cp in
  let '(cp, events) :=
    if connectorID =? 0 then
      let from := cp_station cp in
      if decide (from = status) then (cp, [])
      else (set_station status cp,
            [mkEvent EventStationStatusChanged at_ cpID EmptyString from status errorCode
               EmptyString 0 EmptyString EmptyString])
    else
      let uid := evseUID c cpID connectorID in
      (set_reported uid status errorCode (addEVSE uid connectorID cp), []) in
  let '(cp, changes) := recompute at_ cp in
  put_cp cpID cp ;;
  M_ret (events ++ changes).

Definition SetConnectorStatus (cpID : string) (connectorID : Z) (status : EVSEStatus)
    (errorCode : string) : M unit :=
  at_ <- now ;;
  events <- SetConnectorStatus_locked cpID connectorID status errorCode at_ ;;
  publish_events events.

Definition RecordMeterValues (cpID : string) (connectorID : Z) (summary : string) : M unit :=
  at_ <- now ;;
  cp <- ensure cpID ;;
  c <- gets (fun w => cfg (svc w)) ;;
  let uid := evseUID c cpID connectorID in
  put_cp cpID (set_lastSeen at_ (addEVSE uid connectorID cp)) ;;
  publish_events [mkEvent EventMeterValues at_ cpID uid StatusNone StatusNone
                    EmptyString EmptyString 0 EmptyString summary].
End operations.

(** ** Readers *)

Definition IsOnline (cpID : string) (s : Service) : bool :=
  match cps s !! cpID with Some cp => cp_online cp | None => false end.

Section readers.
Context `{MapOrder}.

(** [Service.EVSEStatus]: of several charge points with the uid, the first visited. *)
Definition EVSEStatus_of (uid : string) (s : Service) : option EVSEStatus :=
  kcp ← first_such (fun kcp => bool_decide (is_Some (cp_effective kcp.2 !! uid))) (range (cps s));
  cp_effective kcp.2 !! uid.

Record EVSESnapshot := mkEVSESnapshot {
  es_UID : string;
  es_ConnectorID : Z;
  es_Status : EVSEStatus;
  es_ErrorCode : string
}.

Record ChargePointSnapshot := mkChargePointSnapshot {
  cs_ID : string;
  cs_Online : bool;
  cs_Boot : BootInfo;
  cs_LastSeen : Time;
  cs_LastDisconnect : Disconnect;
  cs_StationStatus : EVSEStatus;
  cs_EVSEs : list EVSESnapshot;
  cs_Transactions : list Transaction;
  cs_Reservations : list Reservation
}.

(** [reservationsLocked]: a charge point's reservations by id. *)
Definition reservationsLocked (cpID : string) (s : Service) : list Reservation :=
  sort_by rv_ID
    (filter (fun r => rv_ChargePointID r = cpID) ((fun kr => res kr.2) <$> range (reservations s))).

Definition evse_snapshot (cp : chargePointState) (uid : string) : EVSESnapshot :=
  mkEVSESnapshot uid (default 0 (cp_connectorIDs cp !! uid))
    (default StatusNone (cp_effective cp !! uid))
    (default EmptyString (cp_errorCode cp !! uid)).

Definition snapshot_cp (s : Service) (cp : chargePointState) : ChargePointSnapshot :=
  mkChargePointSnapshot (cp_id cp) (cp_online cp) (cp_boot cp) (cp_lastSeen cp)
    (cp_lastDisconnect cp) (cp_station cp) (evse_snapshot cp <$> cp_order cp)
    (sort_by tx_seq (range (cp_transactions cp)).*2)
    (reservationsLocked (cp_id cp) s).

(** [sort.Slice] by [ID <]. *)
Definition sort_by_ID : list ChargePointSnapshot -> list ChargePointSnapshot :=
  @merge_sort _ (fun a b => String.le (cs_ID a) (cs_ID b))
    (fun a b => decide (String.le (cs_ID a) (cs_ID b))).

Definition Snapshot (s : Service) : list ChargePointSnapshot :=
  sort_by_ID ((fun kcp => snapshot_cp s kcp.2) <$> range (cps s)).

(** [Snapshot.ChargePoint]. *)
Definition Snapshot_ChargePoint (snap : list ChargePointSnapshot) (id : string)
    : option ChargePointSnapshot :=
  first_such (fun cp => bool_decide (cs_ID cp = id)) snap.
End readers.
