(* ===== verification/Persist.v ===== *)
(** * Writing core's state to the store (core/persist.go, the writing half)

    [persist] reads the service in one critical section and hands the store an
    update that replaces the reservations, transactions and counters and leaves
    the OCPI registration alone.  Loading is in Load.v. *)

From S2P Require Import Prelude GoLib GoTime Ocpp Errors Config State Bus World Core.

Definition persisted_reservation (r : Reservation) : State.Reservation :=
  State.mkReservation (rv_ID r) (rv_OCPIReservationID r) (rv_ChargePointID r) (rv_EVSEUID r)
    (rv_IDTag r) (rv_ExpiresAt r) (rv_CreatedAt r) (rv_Source r) (rv_ResponseURL r).

Definition persisted_transaction (ct : string * Transaction) : State.Transaction :=
  let '(cpID, t) := ct in
  State.mkTransaction (tx_ID t) cpID (tx_EVSEUID t) (tx_ConnectorID t) (tx_IDTag t)
    (tx_MeterStart t) (tx_StartedAt t) (tx_ReservationID t).

Section persist.
Context `{MapOrder}.

(** The active transactions of every charge point, with the charge point's id. *)
Definition active_transactions (s : Service) : list (string * Transaction) :=
  kcp ← range (cps s);
  (fun kt => (cp_id kcp.2, kt.2)) <$> filter (fun kt => Active kt.2 = true) (range (cp_transactions kcp.2)).

Definition persistableLocked (s : Service) : list State.Reservation * list State.Transaction :=
  (sort_by sr_ID
     (persisted_reservation <$>
        filter (fun r => rv_Status r = ReservationActive) ((fun kr => res kr.2) <$> range (reservations s))),
   persisted_transaction <$> sort_by (fun ct => tx_seq ct.2) (active_transactions s)).

(** The update [persist] gives the store, from what it read under the lock. *)
Definition persist_update (s : Service) : State.State -> State.State :=
  let '(rs, ts) := persistableLocked s in
  fun st => State.mkState (ss_Version st) (ss_OCPI st)
              (nextReservationID s) (nextTransactionID s) (nextRemoteStartID s) rs ts.

Definition persist `{Env} : M (option error) :=
  st <- gets store ;;
  match st with
  | None => M_ret None
  | Some _ =>
    fn <- gets (fun w => persist_update (svc w)) ;;
    store_Update fn
  end.

(** [persistOrLog]: the error is only logged. *)
Definition persistOrLog `{Env} : M unit := persist ;; M_ret tt.
End persist.

(** What [persist] leaves of the world: only the store and the count of writes. *)
Lemma persist_svc `{MapOrder} `{Env} w :
  svc (persist w).2 = svc w /\ w_bus (persist w).2 = w_bus w /\
  timers (persist w).2 = timers w /\ next_timer (persist w).2 = next_timer w /\
  expiring (persist w).2 = expiring w /\ ticks (persist w).2 = ticks w.
Proof.
  unfold persist. rewrite M_bind_eq. simpl. destruct (store w) eqn:E; [|done].
  rewrite M_bind_eq. unfold store_Update. simpl. rewrite E. by destruct (Update _ _ _).
Qed.
