(* ===== verification/Reservations.v ===== *)
(** * Reservations (core/reservations.go)

    The lifecycle of a reservation: begun (pending), activated, ended, orphaned
    (cancelling) or expired by its timer.  Each operation is its critical
    sections (the [_locked] definitions) joined by the writes and events that
    happen outside the lock. *)

From S2P Require Import Prelude GoLib GoTime Ocpp Errors Config State Bus World Core.
From S2P Require Import Persist.

Definition zeroReservation : Reservation :=
  mkReservation 0 EmptyString EmptyString EmptyString 0 EmptyString zeroTime zeroTime
    EmptyString EmptyString ReservationUnset.

(** [s.connectorID]: a configured EVSE's connector id. *)
Definition connectorID (c : option Config) (evseUID : string) : option Z :=
  match c with
  | None => None
  | Some c => ev_OCPPConnectorID <$> EVSEByUID c evseUID
  end.

Definition put_reservation (r : reservation) : M unit :=
  modify_svc (fun s => set_reservations (<[rv_ID (res r) := r]> (reservations s)) s).

Definition delete_reservation (id : Z) : M unit :=
  modify_svc (fun s => set_reservations (delete id (reservations s)) s).

(** [r.stopTimer()], the reservation as it leaves it. *)
Definition stopTimer (r : reservation) : M reservation :=
  match timer r with
  | Some h => Stop h ;; M_ret (mkRes (res r) None)
  | None => M_ret r
  end.

(** The [EventReservationEnded] of a reservation. *)
Definition ended_event (at_ : Time) (r : Reservation) (reason : string) : Event :=
  mkEvent EventReservationEnded at_ (rv_ChargePointID r) (rv_EVSEUID r) StatusNone StatusNone
    EmptyString EmptyString (rv_ID r) (rv_IDTag r) reason.

Definition created_event (at_ : Time) (r : Reservation) : Event :=
  mkEvent EventReservationCreated at_ (rv_ChargePointID r) (rv_EVSEUID r) StatusNone StatusNone
    EmptyString EmptyString (rv_ID r) (rv_IDTag r) (FormatRFC3339 (UTC (rv_ExpiresAt r))).

Section reservations.
Context `{MapOrder} `{Env}.

Definition reservationOnLocked (evseUID : string) (s : Service) : option reservation :=
  snd <$> first_such (fun kr => bool_decide (rv_EVSEUID (res kr.2) = evseUID)) (range (reservations s)).

Definition endLocked (r : reservation) (reason : string) : M Event :=
  stopTimer r ;;
  delete_reservation (rv_ID (res r)) ;;
  at_ <- now ;;
  M_ret (ended_event at_ (res r) reason).

Definition armLocked (r : reservation) : M reservation :=
  r <- stopTimer r ;;
  t <- now ;;
  h <- afterFunc (TimeSub (rv_ExpiresAt (res r)) t) (rv_ID (res r)) (rv_ExpiresAt (res r)) ;;
  let r := mkRes (res r) (Some h) in
  put_reservation r ;;
  M_ret r.

(** *** BeginReservation *)

Definition Begin_locked (r : Reservation) : M (Reservation + error) :=
  s <- gets svc ;;
  match connectorID (cfg s) (rv_EVSEUID r) with
  | None => M_ret (inr (EText ("unknown EVSE " +:+ Quote (rv_EVSEUID r))))
  | Some conn =>
    match reservationOnLocked (rv_EVSEUID r) s with
    | Some _ => M_ret (inr (wrap_colon (rv_EVSEUID r) (ESentinel ErrAlreadyReserved)))
    | None =>
      let id := nextReservationID s in
      modify_svc (set_nextReservationID (wrap_int (id + 1))) ;;
      t <- now ;;
      let r := mkReservation id (rv_OCPIReservationID r) (rv_ChargePointID r) (rv_EVSEUID r)
                 conn (rv_IDTag r) (rv_ExpiresAt r) t (rv_Source r) (rv_ResponseURL r)
                 ReservationPending in
      put_reservation (mkRes r None) ;;
      M_ret (inl r)
    end
  end.

Definition BeginReservation (r : Reservation) : M (Reservation + error) :=
  begun <- Begin_locked r ;;
  match begun with
  | inr e => M_ret (inr e)
  | inl r =>
    err <- persist ;;
    match err with
    | Some e =>
      delete_reservation (rv_ID r) ;;
      M_ret (inr (EWrap "recording the reservation: " e EmptyString))
    | None => M_ret (inl r)
    end
  end.

(** *** ActivateReservation *)

Definition Activate_locked (id : Z) : M (option Reservation) :=
  found <- gets (fun w => reservations (svc w) !! id) ;;
  match found with
  | None => M_ret None
  | Some r =>
    if decide (rv_Status (res r) = ReservationPending) then
      r <- armLocked (mkRes (set_status ReservationActive (res r)) (timer r)) ;;
      M_ret (Some (res r))
    else M_ret None
  end.

Definition ActivateReservation (id : Z) : M (option Reservation) :=
  activated <- Activate_locked id ;;
  match activated with
  | None => M_ret None
  | Some out =>
    persistOrLog ;;
    at_ <- now ;;
    publish_events [created_event at_ out] ;;
    M_ret (Some out)
  end.

(** *** EndReservation *)

Definition End_locked (id : Z) (reason : string) : M (option (Reservation * Event)) :=
  found <- gets (fun w => reservations (svc w) !! id) ;;
  match found with
  | None => M_ret None
  | Some r => e <- endLocked r reason ;; M_ret (Some (res r, e))
  end.

Definition EndReservation (id : Z) (reason : string) : M (option Reservation) :=
  ended <- End_locked id reason ;;
  match ended with
  | None => M_ret None
  | Some (r, e) =>
    if decide (rv_Status r = ReservationCancelling) then M_ret (Some r)
    else persistOrLog ;; publish_events [e] ;; M_ret (Some r)
  end.

(** *** OrphanReservation *)

Definition Orphan_locked (id : Z) : M (option Reservation) :=
  found <- gets (fun w => reservations (svc w) !! id) ;;
  match found with
  | None => M_ret None
  | Some r =>
    if decide (rv_Status (res r) = ReservationPending) then
      r <- stopTimer r ;;
      let out := set_status ReservationCancelling (res r) in
      put_reservation (mkRes out (timer r)) ;;
      M_ret (Some out)
    else M_ret None
  end.

Definition OrphanReservation (id : Z) (reason : string) : M (option Reservation) :=
  orphaned <- Orphan_locked id ;;
  match orphaned with
  | None => M_ret None
  | Some out =>
    at_ <- now ;;
    publish_events [ended_event at_ out reason] ;;
    M_ret (Some out)
  end.

(** *** ActiveReservation *)

Definition ActiveReservation (evseUID : string) (s : Service) : option Reservation :=
  match reservationOnLocked evseUID s with
  | Some r => if decide (rv_Status (res r) = ReservationActive) then Some (res r) else None
  | None => None
  end.

(** *** Expiry *)

Definition expire_locked (id : Z) (expiresAt : Time) : M (option Event) :=
  found <- gets (fun w => reservations (svc w) !! id) ;;
  match found with
  | None => M_ret None
  | Some r =>
    if negb (bool_decide (rv_Status (res r) = ReservationActive)) ||
       negb (TimeEqual (rv_ExpiresAt (res r)) expiresAt)
    then M_ret None
    else e <- endLocked r ReservationExpired ;; M_ret (Some e)
  end.

Definition expire (id : Z) (expiresAt : Time) : M unit :=
  ended <- expire_locked id expiresAt ;;
  match ended with
  | None => M_ret tt
  | Some e => persistOrLog ;; publish_events [e]
  end.

(** [Service.Close]: every expiry timer is stopped. *)
Definition Close : M unit :=
  rs <- gets (fun w => range (reservations (svc w))) ;;
  for_each (fun kr => r <- stopTimer kr.2 ;; put_reservation r) rs.

(** A timer goes off: its callback is on its way to the lock. *)
Definition fire (h : nat) : M unit :=
  found <- gets (fun w => timers w !! h) ;;
  match found with
  | None => M_ret tt
  | Some t =>
    modify (fun w => set_expiring ((tm_id t, tm_expiresAt t) :: expiring w)
                       (set_timers (delete h (timers w)) (next_timer w) w))
  end.
End reservations.
