(* ===== verification/Transactions.v ===== *)
(** * Transactions and the id counters (core/transactions.go) *)

From S2P Require Import Prelude GoLib GoTime Ocpp Errors Config State Bus World Core.
From S2P Require Import Persist Reservations.

Record TransactionStart := mkTransactionStart {
  ts_ID : string;
  ts_ConnectorID : Z;
  ts_IDTag : string;
  ts_MeterStart : Z;
  ts_ReservationID : Z;
  ts_At : Time
}.

(** A transaction that has just started. *)
Definition started (t : TransactionStart) (uid : string) (reservationID seq : Z) (at_ : Time)
    : Transaction :=
  mkTransaction (ts_ID t) uid (ts_ConnectorID t) (ts_IDTag t) (ts_MeterStart t) at_ reservationID
    zeroTime 0 EmptyString seq.

Definition stopped (t : Transaction) (at_ : Time) (meterStop : Z) (reason : string) : Transaction :=
  mkTransaction (tx_ID t) (tx_EVSEUID t) (tx_ConnectorID t) (tx_IDTag t) (tx_MeterStart t)
    (tx_StartedAt t) (tx_ReservationID t) at_ meterStop reason (tx_seq t).

Section transactions.
Context `{MapOrder} `{Env}.

(** *** Counters *)

Definition NextTransactionID_locked : M Z :=
  id <- gets (fun w => nextTransactionID (svc w)) ;;
  modify_svc (set_nextTransactionID (wrap_int (id + 1))) ;;
  M_ret id.

Definition NextTransactionID : M Z :=
  id <- NextTransactionID_locked ;;
  persistOrLog ;;
  M_ret id.

Definition NextRemoteStartID_locked : M Z :=
  id <- gets (fun w => nextRemoteStartID (svc w)) ;;
  modify_svc (set_nextRemoteStartID (wrap_int (id + 1))) ;;
  M_ret id.

Definition NextRemoteStartID : M (Z + error) :=
  id <- NextRemoteStartID_locked ;;
  err <- persist ;;
  M_ret (match err with Some e => inr e | None => inl id end).

(** *** StartTransaction *)

(** The reservation on an EVSE that a session's tag redeems. *)
Definition same_tag (cpID evseUID idTag : string) (r : reservation) : bool :=
  bool_decide (rv_ChargePointID (res r) = cpID) && bool_decide (rv_EVSEUID (res r) = evseUID) &&
  bool_decide (rv_Status (res r) = ReservationActive) && EqualFold (rv_IDTag (res r)) idTag.

Definition redeemedLocked (cpID evseUID : string) (t : TransactionStart) (s : Service)
    : option reservation :=
  let by_tag := snd <$> first_such (fun kr => same_tag cpID evseUID (ts_IDTag t) kr.2)
                          (range (reservations s)) in
  if ts_ReservationID t =? 0 then by_tag
  else match reservations s !! ts_ReservationID t with
       | Some r =>
         if bool_decide (rv_ChargePointID (res r) = cpID) &&
            bool_decide (rv_Status (res r) = ReservationActive)
         then Some r else by_tag
       | None => by_tag
       end.

Definition reservationOnEVSELocked (cpID evseUID : string) (s : Service) : option reservation :=
  snd <$> first_such (fun kr =>
    bool_decide (rv_ChargePointID (res kr.2) = cpID) &&
    bool_decide (rv_EVSEUID (res kr.2) = evseUID) &&
    bool_decide (rv_Status (res kr.2) = ReservationActive)) (range (reservations s)).

(** What a starting session does to the reservations: the id it redeems and
    the events of the reservation it ends. *)
Definition redeem (cpID uid : string) (t : TransactionStart) : M (Z * list Event) :=
  s <- gets svc ;;
  match redeemedLocked cpID uid t s with
  | Some r => e <- endLocked r ReservationConsumed ;; M_ret (rv_ID (res r), [e])
  | None =>
    match reservationOnEVSELocked cpID uid s with
    | Some r => e <- endLocked r ReservationFailed ;; M_ret (ts_ReservationID t, [e])
    | None => M_ret (ts_ReservationID t, [])
    end
  end.

Definition StartTransaction_locked (cpID : string) (t : TransactionStart) (at_ : Time)
    : M (Transaction * list Event) :=
  cp <- ensure cpID ;;
  c <- gets (fun w => cfg (svc w)) ;;
  let uid := evseUID c cpID (ts_ConnectorID t) in
  let cp := addEVSE uid (ts_ConnectorID t) cp in
  seq <- gets (fun w => wrap_uint64 (txSeq (svc w) + 1)) ;;
  modify_svc (set_txSeq seq) ;;
  redeemed <- redeem cpID uid t ;;
  let tx := started t uid redeemed.1 seq at_ in
  seen <- now ;;
  put_cp cpID (set_lastSeen seen (put_transaction tx cp)) ;;
  M_ret (tx, redeemed.2).

Definition started_event (cpID : string) (tx : Transaction) : Event :=
  mkEvent EventTransactionStarted (tx_StartedAt tx) cpID (tx_EVSEUID tx) StatusNone StatusNone
    EmptyString (tx_ID tx) 0 (tx_IDTag tx) EmptyString.

Definition StartTransaction (cpID : string) (t : TransactionStart) : M Transaction :=
  at_ <- (if IsZero (ts_At t) then now else M_ret (ts_At t)) ;;
  started <- StartTransaction_locked cpID t at_ ;;
  persistOrLog ;;
  publish_events (started_event cpID started.1 :: started.2) ;;
  M_ret started.1.

(** *** StopTransaction *)

Definition StopTransaction_locked (cpID txID : string) (meterStop : Z) (reason : string)
    (at_ : Time) : M (option Transaction) :=
  cp <- ensure cpID ;;
  match cp_transactions cp !! txID with
  | None => M_ret None
  | Some tx =>
    if Active tx then
      seen <- now ;;
      let tx := stopped tx at_ meterStop reason in
      put_cp cpID (set_lastSeen seen (put_transaction tx cp)) ;;
      M_ret (Some tx)
    else M_ret None
  end.

Definition stopped_event (cpID : string) (tx : Transaction) : Event :=
  mkEvent EventTransactionStopped (tx_StoppedAt tx) cpID (tx_EVSEUID tx) StatusNone StatusNone
    EmptyString (tx_ID tx) 0 (tx_IDTag tx) (tx_Reason tx).

Definition StopTransaction (cpID txID : string) (meterStop : Z) (reason : string) (at_ : Time)
    : M (option Transaction) :=
  at_ <- (if IsZero at_ then now else M_ret at_) ;;
  found <- StopTransaction_locked cpID txID meterStop reason at_ ;;
  match found with
  | None => M_ret None
  | Some tx =>
    persistOrLog ;;
    publish_events [stopped_event cpID tx] ;;
    M_ret (Some tx)
  end.

Definition ActiveTransactions (evseUID : string) (s : Service) : list Transaction :=
  kcp ← range (cps s);
  filter (fun t => tx_EVSEUID t = evseUID /\ Active t = true) (range (cp_transactions kcp.2)).*2.
End transactions.
