(* ===== verification/Load.v ===== *)
(** * Building a Service and loading what an earlier run persisted
    (core/service.go New, core/persist.go load) *)

From S2P Require Import Prelude GoLib GoTime Ocpp Errors Config State Bus World Core.
From S2P Require Import Persist Reservations Transactions.

Definition loaded_transaction (t : State.Transaction) (seq : Z) : Transaction :=
  mkTransaction (st_ID t) (st_EVSEUID t) (st_ConnectorID t) (st_IDTag t) (st_MeterStart t)
    (st_StartedAt t) (st_ReservationID t) zeroTime 0 EmptyString seq.

Definition loaded_reservation (r : State.Reservation) (conn : Z) : Reservation :=
  mkReservation (sr_ID r) (sr_OCPIReservationID r) (sr_ChargePointID r) (sr_EVSEUID r) conn
    (sr_IDTag r) (sr_ExpiresAt r) (sr_CreatedAt r) (sr_Source r) (sr_ResponseURL r)
    ReservationActive.

(** [New]'s service before it loads: the configured station, its EVSEs, and the
    counters at 1. *)
Definition configured (c : Config) : chargePointState :=
  foldl (fun cp e => addEVSE (ev_UID e) (ev_OCPPConnectorID e) cp)
    (newChargePoint (ch_ID (cf_Charger c))) (lo_EVSEs (cf_Location c)).

Definition initial_service (c : option Config) : Service :=
  mkService c (match c with Some c => {[ch_ID (cf_Charger c) := configured c]} | None => ∅ end)
    ∅ 0 1 1 1.

Definition initial_world (c : option Config) (st : option Store) : World :=
  mkWorld (initial_service c) st newBus ∅ 0 [] 0 0.

(** Whether any of the bodies of a loop said so. *)
Fixpoint for_any {A} (body : A -> M bool) (l : list A) : M bool :=
  match l with
  | [] => M_ret false
  | x :: l' => b <- body x ;; b' <- for_any body l' ;; M_ret (b || b')
  end.

Section load.
Context `{MapOrder} `{Env}.

(** One persisted transaction; a numeric id keeps the counter ahead of it. *)
Definition load_transaction (t : State.Transaction) : M unit :=
  cp <- ensure (st_ChargePointID t) ;;
  seq <- gets (fun w => wrap_uint64 (txSeq (svc w) + 1)) ;;
  modify_svc (set_txSeq seq) ;;
  put_cp (st_ChargePointID t)
    (put_transaction (loaded_transaction t seq) (addEVSE (st_EVSEUID t) (st_ConnectorID t) cp)) ;;
  match Atoi (st_ID t) with
  | Some n =>
    modify_svc (fun s => set_nextTransactionID (Z.max (nextTransactionID s) (wrap_int (n + 1))) s)
  | None => M_ret tt
  end.

(** One persisted reservation; [true] when it is dropped. *)
Definition load_reservation (t : Time) (r : State.Reservation) : M bool :=
  c <- gets (fun w => cfg (svc w)) ;;
  let conn := connectorID c (sr_EVSEUID r) in
  if negb (After (sr_ExpiresAt r) t) then M_ret true
  else match conn with
  | None => M_ret true
  | Some conn =>
    let r' := mkRes (loaded_reservation r conn) None in
    put_reservation r' ;;
    armLocked r' ;;
    modify_svc (fun s => set_nextReservationID
                           (Z.max (nextReservationID s) (wrap_int (sr_ID r + 1))) s) ;;
    M_ret false
  end.

Definition loadLocked (st : State.State) : M bool :=
  modify_svc (set_counters (Z.max (ss_NextReservationID st) 1) (Z.max (ss_NextTransactionID st) 1)
                (Z.max (ss_NextRemoteStartID st) 1)) ;;
  for_each load_transaction (ss_Transactions st) ;;
  t <- now ;;
  for_any (load_reservation t) (ss_Reservations st).

Definition load : M unit :=
  st <- gets (fun w => Get <$> store w) ;;
  match st with
  | None => M_ret tt
  | Some st =>
    dropped <- loadLocked st ;;
    if (dropped : bool) then persistOrLog else M_ret tt
  end.

(** [New(cfg, WithStore(st))]. *)
Definition New (c : option Config) (st : option Store) : World := (load (initial_world c st)).2.
End load.
