(* ===== verification/CoreFacts.v ===== *)
(** * Facts about the charge point state (core/service.go)

    [recompute] characterised: the statuses it leaves, the events it returns,
    and that the events tell a reader exactly what changed.  The charge point
    invariant [cp_ok] and its preservation by every update of a charge point. *)

From S2P Require Import Prelude GoLib GoTime Ocpp Errors Config State Bus World Core.
From S2P Require Import Transactions.

(** ** recompute *)

(** A charge point up to its effective statuses. *)
Definition with_effective (m : gmap string EVSEStatus) (c : chargePointState) : chargePointState :=
  mkChargePointState (cp_id c) (cp_online c) (cp_boot c) (cp_lastSeen c) (cp_lastDisconnect c)
    (cp_station c) (cp_order c) (cp_connectorIDs c) (cp_reported c) (cp_errorCode c) m
    (cp_transactions c).

(** The status a reader sees; an EVSE not seen yet reads UNKNOWN. *)
Definition view (cp : chargePointState) (uid : string) : EVSEStatus :=
  default StatusUnknown (cp_effective cp !! uid).

Definition moved (cp : chargePointState) (uid : string) : Prop :=
  default StatusNone (cp_effective cp !! uid) <> wanted cp uid.

#[export] Instance moved_dec cp uid : Decision (moved cp uid).
Proof. unfold moved. apply _. Defined.

Definition change_of (at_ : Time) (cp : chargePointState) (uid : string) : Event :=
  status_change at_ cp uid (default StatusNone (cp_effective cp !! uid)) (wanted cp uid).

Section recompute.
Context (at_ : Time).

Lemma recompute_step_eq cp0 m es u :
  recompute_step at_ (with_effective m cp0, es) u =
  if decide (default StatusNone (m !! u) = wanted cp0 u) then (with_effective m cp0, es)
  else (with_effective (<[u := wanted cp0 u]> m) cp0,
        es ++ [status_change at_ cp0 u (default StatusNone (m !! u)) (wanted cp0 u)]).
Proof. done. Qed.

Lemma recompute_fold cp0 m es l :
  NoDup l -> (forall uid, uid ∈ l -> m !! uid = cp_effective cp0 !! uid) ->
  exists m',
    foldl (recompute_step at_) (with_effective m cp0, es) l =
      (with_effective m' cp0, es ++ (change_of at_ cp0 <$> filter (moved cp0) l)) /\
    (forall uid, m' !! uid = if decide (uid ∈ l) then Some (wanted cp0 uid) else m !! uid).
Proof.
  revert m es. induction l as [|u l IH]; intros m es Hnd Hm.
  { exists m. split; [by rewrite app_nil_r|]. intros uid.
    by rewrite decide_False by apply not_elem_of_nil. }
  apply NoDup_cons in Hnd as [Hu Hnd]. cbn [foldl]. rewrite recompute_step_eq.
  assert (Hmu : m !! u = cp_effective cp0 !! u) by (apply Hm; left).
  assert (Hl : forall uid, uid ∈ l -> m !! uid = cp_effective cp0 !! uid)
    by (intros uid Hin; apply Hm; by right).
  rewrite Hmu, filter_cons. destruct (decide (_ = _)) as [Hd|Hd].
  - rewrite decide_False by (unfold moved; tauto). destruct (IH m es Hnd Hl) as (m' & -> & Hm').
    exists m'. split; [done|]. intros uid. rewrite Hm'.
    destruct (decide (uid = u)) as [->|Hne].
    + rewrite decide_False, decide_True by (done || left). rewrite Hmu, <- Hd.
      destruct (cp_effective cp0 !! u); [done|]. exfalso. symmetry in Hd.
      by apply effectiveStatus_not_none in Hd.
    + destruct (decide (uid ∈ l)); [by rewrite decide_True by (by right)|].
      rewrite decide_False; [done|]. by intros [->|?]%elem_of_cons.
  - rewrite decide_True by done.
    destruct (IH (<[u := wanted cp0 u]> m)
                 (es ++ [change_of at_ cp0 u]) Hnd) as (m' & E & Hm').
    { intros uid Hin. rewrite lookup_insert_ne by (intros ->; done). by apply Hl. }
    exists m'. split.
    + etransitivity; [|etransitivity; [exact E|]]; [by unfold change_of|].
      by rewrite <- app_assoc.
    + intros uid. rewrite Hm'. destruct (decide (uid = u)) as [->|Hne].
      * rewrite decide_False, decide_True by (done || left). by rewrite lookup_insert_eq.
      * rewrite lookup_insert_ne by done.
        destruct (decide (uid ∈ l)); [by rewrite decide_True by (by right)|].
        rewrite decide_False; [done|]. by intros [->|?]%elem_of_cons.
Qed.

Lemma recompute_spec cp :
  NoDup (cp_order cp) ->
  exists m,
    recompute at_ cp = (with_effective m cp, change_of at_ cp <$> filter (moved cp) (cp_order cp)) /\
    (forall uid, m !! uid = if decide (uid ∈ cp_order cp) then Some (wanted cp uid)
                            else cp_effective cp !! uid).
Proof.
  intros Hnd. destruct (recompute_fold cp (cp_effective cp) [] (cp_order cp) Hnd) as (m & E & Hm);
    [done|].
  exists m. split; [|done]. unfold recompute. by destruct cp.
Qed.

(** Statuses that already read what they should produce no event. *)
Lemma recompute_quiet cp :
  NoDup (cp_order cp) -> (forall uid, uid ∈ cp_order cp -> cp_effective cp !! uid = Some (wanted cp uid)) ->
  (recompute at_ cp).2 = [].
Proof.
  intros Hnd Hw. destruct (recompute_spec cp Hnd) as (m & -> & _). simpl.
  rewrite filter_none; [done|].
  intros uid Hin Hmv. apply Hmv. by rewrite Hw.
Qed.
End recompute.

(** ** The invariant of a charge point *)

Definition tx_ok (cp : chargePointState) (id : string) (t : Transaction) : Prop :=
  tx_ID t = id /\ tx_EVSEUID t ∈ cp_order cp.

Record cp_ok (id : string) (cp : chargePointState) : Prop := {
  ok_id : cp_id cp = id;
  ok_order : NoDup (cp_order cp);
  ok_effective : forall uid, uid ∈ cp_order cp <-> is_Some (cp_effective cp !! uid);
  ok_connector : forall uid, uid ∈ cp_order cp <-> is_Some (cp_connectorIDs cp !! uid);
  ok_reported : forall uid, is_Some (cp_reported cp !! uid) -> uid ∈ cp_order cp;
  (** each status is what the reports imply, or UNKNOWN for an EVSE the station
      has not reported on *)
  ok_status : forall uid st, cp_effective cp !! uid = Some st ->
    st = wanted cp uid \/ st = StatusUnknown /\ cp_reported cp !! uid = None;
  ok_tx : forall tid t, cp_transactions cp !! tid = Some t -> tx_ok cp tid t
}.

(** Every status is exactly what the reports imply. *)
Definition cp_exact (cp : chargePointState) : Prop :=
  forall uid, uid ∈ cp_order cp -> cp_effective cp !! uid = Some (wanted cp uid).

Section preservation.
Context (id : string).
Implicit Types (cp : chargePointState).

Lemma newChargePoint_ok : cp_ok id (newChargePoint id).
Proof.
  split; simpl; try done.
  - apply NoDup_nil_2.
  - intros uid. rewrite lookup_empty. split; [by intros ?%not_elem_of_nil | by intros []].
  - intros uid. rewrite lookup_empty. split; [by intros ?%not_elem_of_nil | by intros []].
  - intros uid. rewrite lookup_empty. by intros [].
Qed.

Lemma set_lastSeen_ok t cp : cp_ok id cp -> cp_ok id (set_lastSeen t cp).
Proof. by intros []. Qed.
Lemma set_boot_ok b cp : cp_ok id cp -> cp_ok id (set_boot b cp).
Proof. by intros []. Qed.
Lemma set_lastDisconnect_ok d cp : cp_ok id cp -> cp_ok id (set_lastDisconnect d cp).
Proof. by intros []. Qed.

Lemma wanted_unreported cp uid :
  cp_reported cp !! uid = None ->
  wanted cp uid = StatusUnknown \/ wanted cp uid = cp_station cp.
Proof. unfold wanted, effectiveStatus. intros ->. destruct (cp_online cp), (cp_station cp); auto. Qed.

Lemma addEVSE_order uid conn cp :
  cp_ok id cp -> forall u, u ∈ cp_order (addEVSE uid conn cp) <-> u = uid \/ u ∈ cp_order cp.
Proof.
  intros Hok u. unfold addEVSE. destruct (cp_effective cp !! uid) eqn:E; simpl.
  - split; [by right|]. intros [->|]; [|done]. by apply (ok_effective _ _ Hok).
  - rewrite elem_of_app, list_elem_of_singleton. tauto.
Qed.

Lemma addEVSE_ok uid conn cp : cp_ok id cp -> cp_ok id (addEVSE uid conn cp).
Proof.
  intros Hok. pose proof (addEVSE_order uid conn cp Hok) as Hord. revert Hord.
  unfold addEVSE. destruct (cp_effective cp !! uid) eqn:E; [done|]. simpl. intros Hord.
  assert (Hn : uid ∉ cp_order cp).
  { rewrite (ok_effective _ _ Hok), E. by intros []. }
  destruct Hok as [Hid Hnd He Hc Hr Hs Ht]. split; simpl.
  - done.
  - apply NoDup_app. split; [done|]. split; [|apply NoDup_singleton].
    intros x Hx ->%list_elem_of_singleton. done.
  - intros u. rewrite Hord, He, lookup_insert_is_Some'. naive_solver.
  - intros u. rewrite Hord, Hc, lookup_insert_is_Some'. naive_solver.
  - intros u Hu. rewrite Hord. right. by apply Hr.
  - intros u st [[<- <-]|[Hne Hst]]%lookup_insert_Some; [|by apply Hs].
    right. split; [done|]. apply eq_None_not_Some. intros Hsome. by apply Hn, Hr.
  - intros tid t Htx. destruct (Ht tid t Htx) as [H1 H2]. split; [done|].
    simpl. rewrite Hord. by right.
Qed.

(** Recomputing after a change of the station's side of things. *)
Definition cp_shape cp : Prop :=
  cp_id cp = id /\ NoDup (cp_order cp) /\
  (forall uid, uid ∈ cp_order cp <-> is_Some (cp_effective cp !! uid)) /\
  (forall uid, uid ∈ cp_order cp <-> is_Some (cp_connectorIDs cp !! uid)) /\
  (forall uid, is_Some (cp_reported cp !! uid) -> uid ∈ cp_order cp) /\
  (forall tid t, cp_transactions cp !! tid = Some t -> tx_ok cp tid t).

Lemma cp_ok_shape cp : cp_ok id cp -> cp_shape cp.
Proof. by intros []. Qed.

Lemma recompute_ok at_ cp :
  cp_shape cp -> cp_ok id (recompute at_ cp).1 /\ cp_exact (recompute at_ cp).1.
Proof.
  intros (Hid & Hnd & He & Hc & Hr & Ht).
  destruct (recompute_spec at_ cp Hnd) as (m & -> & Hm). simpl.
  assert (Hx : cp_exact (with_effective m cp)).
  { intros uid Huid. simpl in *. by rewrite Hm, decide_True by done. }
  split; [|done]. split; simpl; try done.
  - intros uid. rewrite Hm. case_decide as Hd; [split; [by eexists|done]|].
    rewrite He. tauto.
  - intros uid st Hst. left. rewrite Hm in Hst. case_decide as Hd; [by simplify_eq/=|].
    exfalso. apply Hd, He. by rewrite Hst.
Qed.

Lemma set_online_shape b cp : cp_shape cp -> cp_shape (set_online b cp).
Proof. done. Qed.
Lemma set_station_shape s cp : cp_shape cp -> cp_shape (set_station s cp).
Proof. done. Qed.
Lemma set_lastSeen_shape t cp : cp_shape cp -> cp_shape (set_lastSeen t cp).
Proof. done. Qed.
Lemma set_lastDisconnect_shape d cp : cp_shape cp -> cp_shape (set_lastDisconnect d cp).
Proof. done. Qed.
Lemma set_reported_shape uid s code cp :
  uid ∈ cp_order cp -> cp_shape cp -> cp_shape (set_reported uid s code cp).
Proof.
  intros Hu (Hid & Hnd & He & Hc & Hr & Ht). split; [done|]. split; [done|]. split; [done|].
  split; [done|]. split; [|done]. simpl. intros u [->|Hu']%lookup_insert_is_Some'; [done|by apply Hr].
Qed.

Lemma put_transaction_ok t cp :
  tx_EVSEUID t ∈ cp_order cp -> cp_ok id cp -> cp_ok id (put_transaction t cp).
Proof.
  intros Ho []. split; simpl; try done.
  intros tid t' [[<- <-]|[_ H]]%lookup_insert_Some; [done|by apply ok_tx0].
Qed.
End preservation.

#[export] Hint Resolve newChargePoint_ok set_lastSeen_ok set_boot_ok set_lastDisconnect_ok addEVSE_ok
  cp_ok_shape set_online_shape set_station_shape set_lastSeen_shape set_lastDisconnect_shape : cpms.

(** ** What the events tell a subscriber *)

(** What a subscriber that folds the events believes about each EVSE of each
    charge point. *)
Definition belief := string -> string -> EVSEStatus.

Definition observe (seen : belief) (e : Event) : belief := fun id uid =>
  if bool_decide (Kind e = EventEVSEStatusChanged /\ ev_ChargePointID e = id /\ ev_EVSEUID e = uid)
  then To e else seen id uid.

Lemma observe_other e seen id uid :
  Kind e <> EventEVSEStatusChanged -> observe seen e id uid = seen id uid.
Proof. intros Hk. unfold observe. rewrite bool_decide_eq_false_2; [done|]. by intros []. Qed.

Lemma observe_others es seen id uid :
  Forall (fun e => Kind e <> EventEVSEStatusChanged) es -> foldl observe seen es id uid = seen id uid.
Proof.
  revert seen. induction es as [|e es IH]; intros seen Hes; [done|].
  apply Forall_cons in Hes as [He Hes]. simpl. rewrite IH by done. by apply observe_other.
Qed.

Lemma observe_changes at_ cp l seen id uid :
  foldl observe seen (change_of at_ cp <$> l) id uid =
  if decide (id = cp_id cp /\ uid ∈ l) then wanted cp uid else seen id uid.
Proof.
  revert seen. induction l as [|u l IH]; intros seen.
  { rewrite decide_False; [done|]. by intros [_ ?%not_elem_of_nil]. }
  change (foldl observe (observe seen (change_of at_ cp u)) (change_of at_ cp <$> l) id uid =
    if decide (id = cp_id cp /\ uid ∈ u :: l) then wanted cp uid else seen id uid).
  rewrite IH. destruct (decide (id = cp_id cp /\ uid ∈ l)) as [[-> Hin]|Hn].
  { rewrite decide_True; [done|]. split; [done|by right]. }
  unfold observe, change_of, status_change; simpl.
  destruct (decide (id = cp_id cp /\ uid = u)) as [[-> ->]|Hne].
  - rewrite bool_decide_eq_true_2 by done. rewrite decide_True; [done|]. split; [done|left].
  - rewrite bool_decide_eq_false_2 by naive_solver.
    rewrite decide_False; [done|]. intros [-> [->|?]%elem_of_cons]; naive_solver.
Qed.

(** Folding the events of a recompute over the old view gives the new view, and
    says nothing about other charge points. *)
Lemma recompute_observed at_ cp id seen :
  cp_shape id cp -> (forall uid, seen id uid = view cp uid) ->
  forall k uid, foldl observe seen (recompute at_ cp).2 k uid =
                if decide (k = id) then view (recompute at_ cp).1 uid else seen k uid.
Proof.
  intros (Hid & Hnd & He & _) Hseen k uid.
  destruct (recompute_spec at_ cp Hnd) as (m & -> & Hm). simpl.
  rewrite observe_changes, Hid. destruct (decide (k = id)) as [->|Hk]; [|by rewrite decide_False by tauto].
  unfold view at 1. simpl. rewrite Hm.
  destruct (decide (uid ∈ cp_order cp)) as [Hin|Hn].
  - simpl. case_decide as Hf; [done|].
    rewrite Hseen. unfold view. rewrite list_elem_of_filter in Hf. unfold moved in Hf.
    destruct (proj1 (He uid) Hin) as [st Hst]. rewrite Hst in Hf |- *. simpl in *.
    destruct (decide (st = wanted cp uid)); tauto.
  - rewrite decide_False; [apply Hseen|]. by intros [_ [_ ?]%list_elem_of_filter].
Qed.

Lemma addEVSE_view uid conn cp u : view (addEVSE uid conn cp) u = view cp u.
Proof.
  unfold view, addEVSE. destruct (cp_effective cp !! uid) eqn:E; [done|]. simpl.
  destruct (decide (u = uid)) as [->|Hne]; [by rewrite lookup_insert_eq, E|].
  by rewrite lookup_insert_ne.
Qed.
