(* ===== verification/CoreInv.v ===== *)
(** * The invariants of core.Service

    [cps_ok]: every charge point satisfies [cp_ok].  [res_ok]: reservations are
    filed under their ids, below the counter, for configured EVSEs, at most one
    per EVSE; an active one has exactly one expiry on its way, and no timer is
    left for anything else.  Each critical section keeps both, and hence each
    operation does (CoreOps.v, CoreTx.v). *)

From S2P Require Import Prelude GoLib GoTime Ocpp Errors Config State Bus World Core.
From S2P Require Import Persist Reservations Transactions Load CoreFacts.

(** ** Charge points *)

Definition cps_ok (s : Service) : Prop :=
  forall id cp, cps s !! id = Some cp -> cp_ok id cp.

(** What [ensure] gives, in whatever state. *)
Definition cp_of (id : string) (s : Service) : chargePointState :=
  default (newChargePoint id) (cps s !! id).

Lemma cp_of_ok id s : cps_ok s -> cp_ok id (cp_of id s).
Proof.
  intros H. unfold cp_of. destruct (cps s !! id) eqn:E; [by apply H | apply newChargePoint_ok].
Qed.

Definition ensured (id : string) (w : World) : World :=
  match cps (svc w) !! id with
  | Some _ => w
  | None => set_svc (set_cps (<[id := newChargePoint id]> (cps (svc w))) (svc w)) w
  end.

Lemma ensure_eq id w : ensure id w = (cp_of id (svc w), ensured id w).
Proof.
  unfold ensure, cp_of, ensured. rewrite M_bind_eq. simpl.
  by destruct (cps (svc w) !! id).
Qed.

Lemma ensured_lookup id w : cps (svc (ensured id w)) !! id = Some (cp_of id (svc w)).
Proof.
  unfold ensured, cp_of. destruct (cps (svc w) !! id) eqn:E; [done|]. simpl.
  by rewrite lookup_insert_eq.
Qed.

Lemma ensured_other id w k : k <> id -> cps (svc (ensured id w)) !! k = cps (svc w) !! k.
Proof.
  intros Hk. unfold ensured. destruct (cps (svc w) !! id); [done|]. simpl. by rewrite lookup_insert_ne.
Qed.

(** [ensure] followed by writing the charge point back is one insertion. *)
Lemma put_ensured id cp w :
  (put_cp id cp (ensured id w)).2 = set_svc (set_cps (<[id := cp]> (cps (svc w))) (svc w)) w.
Proof.
  unfold ensured, put_cp, modify_svc, modify. destruct (cps (svc w) !! id); [by destruct w|].
  simpl. unfold set_svc, set_cps; simpl. by rewrite insert_insert_eq.
Qed.

Definition with_cp (id : string) (cp : chargePointState) (w : World) : World :=
  set_svc (set_cps (<[id := cp]> (cps (svc w))) (svc w)) w.

Lemma with_cp_ok id cp w : cps_ok (svc w) -> cp_ok id cp -> cps_ok (svc (with_cp id cp w)).
Proof.
  intros H Hcp k c. unfold with_cp; simpl.
  intros [[<- <-]|[_ E]]%lookup_insert_Some; [done | by apply H].
Qed.

Lemma ensured_ok id w : cps_ok (svc w) -> cps_ok (svc (ensured id w)).
Proof.
  intros H. unfold ensured. destruct (cps (svc w) !! id); [done|].
  apply (with_cp_ok id _ w H), newChargePoint_ok.
Qed.

(** ** Reservations *)

Definition timer_ok (w : World) (r : reservation) : Prop :=
  if decide (rv_Status (res r) = ReservationActive) then
    exists h, timer r = Some h /\ (h < next_timer w)%nat /\
      ((exists d, timers w !! h = Some (mkTimer d (rv_ID (res r)) (rv_ExpiresAt (res r)))) \/
       timers w !! h = None /\ (rv_ID (res r), rv_ExpiresAt (res r)) ∈ expiring w)
  else timer r = None.

Record res_entry (w : World) (id : Z) (r : reservation) : Prop := {
  re_id : rv_ID (res r) = id;
  re_bound : 1 <= id < nextReservationID (svc w);
  re_evse : connectorID (cfg (svc w)) (rv_EVSEUID (res r)) = Some (rv_ConnectorID (res r));
  re_status : rv_Status (res r) <> ReservationUnset;
  re_timer : timer_ok w r
}.

Record res_ok (w : World) : Prop := {
  rk_next : 1 <= nextReservationID (svc w);
  rk_res : forall id r, reservations (svc w) !! id = Some r -> res_entry w id r;
  rk_evse : forall id1 id2 r1 r2, reservations (svc w) !! id1 = Some r1 ->
    reservations (svc w) !! id2 = Some r2 -> rv_EVSEUID (res r1) = rv_EVSEUID (res r2) -> id1 = id2;
  rk_timer : forall h t, timers w !! h = Some t ->
    (h < next_timer w)%nat /\
    exists r, reservations (svc w) !! tm_id t = Some r /\ timer r = Some h
}.

(** [res_ok] reads the reservations, the timers and the configuration only. *)
Definition same_reservations (w w' : World) : Prop :=
  cfg (svc w') = cfg (svc w) /\ reservations (svc w') = reservations (svc w) /\
  nextReservationID (svc w') = nextReservationID (svc w) /\ timers w' = timers w /\
  next_timer w' = next_timer w /\ expiring w' = expiring w.

Lemma res_ok_same w w' : same_reservations w w' -> res_ok w -> res_ok w'.
Proof.
  intros (Hc & Hr & Hn & Ht & Hnt & He) [K1 K2 K3 K4]. split.
  - by rewrite Hn.
  - intros id r E. rewrite Hr in E. destruct (K2 id r E). split; try done.
    + by rewrite Hn.
    + by rewrite Hc.
    + unfold timer_ok in *. by rewrite Ht, Hnt, He.
  - rewrite Hr. exact K3.
  - rewrite Ht, Hnt, Hr. exact K4.
Qed.

Section sections.
Context `{MapOrder} `{Env}.

Lemma keeps_same {A} (m : M A) :
  (forall w, same_reservations w (m w).2) -> keeps res_ok m.
Proof. intros H1 w Hw. by eapply res_ok_same. Qed.

Lemma ensured_same id w : same_reservations w (ensured id w).
Proof. unfold ensured. by destruct (cps (svc w) !! id). Qed.

(** *** Timers and removal *)

Definition stop_world (r : reservation) (w : World) : World :=
  match timer r with
  | Some h => set_timers (delete h (timers w)) (next_timer w) w
  | None => w
  end.

Lemma stopTimer_eq r w : stopTimer r w = (mkRes (res r) None, stop_world r w).
Proof. unfold stopTimer, stop_world. destruct r as [r [h|]]; done. Qed.

Definition end_world (r : reservation) (w : World) : World :=
  tick (set_svc (set_reservations (delete (rv_ID (res r)) (reservations (svc w))) (svc w))
          (stop_world r w)).

Lemma endLocked_eq r reason w :
  endLocked r reason w = (ended_event (clock (ticks w)) (res r) reason, end_world r w).
Proof.
  unfold endLocked. rewrite M_bind_eq, stopTimer_eq. simpl.
  rewrite !M_bind_eq. simpl. unfold end_world, stop_world. destruct (timer r); done.
Qed.

(** A timer belongs to one reservation. *)
Lemma timer_owner w id1 id2 r1 r2 h :
  res_ok w -> reservations (svc w) !! id1 = Some r1 -> reservations (svc w) !! id2 = Some r2 ->
  timer r1 = Some h -> timer r2 = Some h -> timers w !! h <> None -> id1 = id2.
Proof.
  intros Hok E1 E2 H1 H2 Hh.
  assert (forall id r, reservations (svc w) !! id = Some r -> timer r = Some h ->
            exists d, timers w !! h = Some (mkTimer d id (rv_ExpiresAt (res r)))) as Ht.
  { intros id r E Hr. destruct (rk_res w Hok id r E) as [<- _ _ _ Ht]. unfold timer_ok in Ht.
    case_decide; [|congruence]. destruct Ht as (h' & Hr' & _ & [[d Ht]|[Ht _]]); simplify_eq.
    - by exists d. }
  destruct (Ht _ _ E1 H1) as [d1 T1]. destruct (Ht _ _ E2 H2) as [d2 T2]. congruence.
Qed.

Lemma res_ok_end w id r :
  res_ok w -> reservations (svc w) !! id = Some r -> res_ok (end_world r w).
Proof.
  intros Hok E. pose proof (rk_res w Hok id r E) as He. pose proof (re_id _ _ _ He) as Hid.
  assert (Hto : forall id' r' h, reservations (svc w) !! id' = Some r' -> id' <> id ->
            timer r' = Some h -> timers (stop_world r w) !! h = timers w !! h).
  { intros id' r' h E' Hne Hh. unfold stop_world. destruct (timer r) as [h0|] eqn:Ht; [|done].
    simpl. destruct (decide (h = h0)) as [->|]; [|by rewrite lookup_delete_ne].
    rewrite lookup_delete_eq. destruct (timers w !! h0) eqn:Eh; [|done].
    exfalso. apply Hne. eapply (timer_owner w id' id r' r h0); try done. by rewrite Eh. }
  assert (Hsw : next_timer (stop_world r w) = next_timer w /\ expiring (stop_world r w) = expiring w).
  { unfold stop_world. by destruct (timer r). }
  destruct Hsw as [Hnt Hex].
  split; simpl; rewrite ?Hid.
  - apply Hok.
  - intros id' r' [Hne E']%lookup_delete_Some. destruct (rk_res w Hok id' r' E') as [H1 H2 H3 H4 H5].
    split; try done. unfold timer_ok in *. case_decide; [|done].
    destruct H5 as (h & Hh & Hlt & Ht). exists h. split; [done|]. simpl. rewrite Hnt. split; [done|].
    rewrite Hex, (Hto id' r' h) by done. done.
  - intros id1 id2 r1 r2 [_ E1]%lookup_delete_Some [_ E2]%lookup_delete_Some. by apply (rk_evse w Hok).
  - intros h t Ht. assert (Hw : timers w !! h = Some t /\ timer r <> Some h).
    { unfold stop_world in Ht. destruct (timer r) as [h0|] eqn:Hr0; simpl in Ht.
      - apply lookup_delete_Some in Ht as [? ?]. split; [done|]. congruence.
      - done. }
    destruct Hw as [Hw Hrh]. destruct (rk_timer w Hok h t Hw) as (Hlt & r' & E' & Hr').
    rewrite Hnt. split; [done|]. exists r'. split; [|done].
    rewrite lookup_delete_ne; [done|]. intros Heq. rewrite <- Heq in E'. congruence.
Qed.

Lemma keeps_endLocked r reason :
  triple (fun w => res_ok w /\ exists id, reservations (svc w) !! id = Some r) (endLocked r reason)
    (fun _ => res_ok).
Proof. intros w [Hok [id E]]. rewrite endLocked_eq. simpl. by eapply res_ok_end. Qed.

(** Removing a reservation that has no timer (a failed Begin's rollback). *)
Lemma res_ok_delete w id :
  res_ok w -> (forall r, reservations (svc w) !! id = Some r -> timer r = None) ->
  res_ok (delete_reservation id w).2.
Proof.
  intros Hok Hn. destruct (reservations (svc w) !! id) as [r|] eqn:E.
  - pose proof (res_ok_end w id r Hok E) as H1. pose proof (re_id _ _ _ (rk_res w Hok id r E)) as Hid.
    unfold end_world, stop_world in H1. rewrite (Hn r eq_refl), Hid in H1.
    by eapply res_ok_same, H1.
  - eapply res_ok_same; [|done]. unfold delete_reservation, modify_svc, modify. simpl.
    split; [done|]. split; [|done]. simpl. by rewrite delete_id by done.
Qed.

(** *** Arming *)

(** Replacing a reservation without a timer by one with the same id and EVSE. *)
Definition armed_world (r : Reservation) (w : World) : World :=
  let h := next_timer w in
  let d := TimeSub (rv_ExpiresAt r) (clock (ticks w)) in
  set_svc (set_reservations (<[rv_ID r := mkRes r (Some h)]> (reservations (svc w))) (svc w))
    (set_timers (<[h := mkTimer d (rv_ID r) (rv_ExpiresAt r)]> (timers w)) (S h) (tick w)).

Lemma armLocked_eq r w :
  armLocked (mkRes r None) w = (mkRes r (Some (next_timer w)), armed_world r w).
Proof. unfold armLocked. rewrite !M_bind_eq. reflexivity. Qed.

Lemma res_ok_armed w r :
  res_ok w -> rv_Status r = ReservationActive ->
  1 <= rv_ID r < nextReservationID (svc w) ->
  connectorID (cfg (svc w)) (rv_EVSEUID r) = Some (rv_ConnectorID r) ->
  (forall id r', reservations (svc w) !! id = Some r' -> rv_EVSEUID (res r') = rv_EVSEUID r ->
     id = rv_ID r) ->
  (forall r', reservations (svc w) !! rv_ID r = Some r' -> timer r' = None) ->
  res_ok (armed_world r w).
Proof.
  intros Hok Ha Hb Hc He Hn. split; simpl.
  - apply Hok.
  - intros id r' [[<- <-]|[Hne E]]%lookup_insert_Some.
    + split; simpl; try done; [congruence|]. unfold timer_ok; simpl. rewrite decide_True by done.
      exists (next_timer w). split; [done|]. split; [lia|]. left. eexists. by rewrite lookup_insert_eq.
    + destruct (rk_res w Hok id r' E) as [H1 H2 H3 H4 H5]. split; try done.
      unfold timer_ok in *. case_decide; [|done]. destruct H5 as (h & Hh & Hlt & Ht).
      exists h. split; [done|]. simpl. split; [lia|]. by rewrite lookup_insert_ne by lia.
  - intros id1 id2 r1 r2 [[<- <-]|[N1 E1]]%lookup_insert_Some
      [[<- <-]|[N2 E2]]%lookup_insert_Some Heq; simpl in *.
    + done.
    + by rewrite (He id2 r2 E2).
    + by apply (He id1 r1 E1).
    + by eapply (rk_evse w Hok).
  - intros h t [[<- <-]|[Hne Ht]]%lookup_insert_Some; simpl.
    + split; [lia|]. eexists. by rewrite lookup_insert_eq.
    + destruct (rk_timer w Hok h t Ht) as (Hlt & r' & E & Hr'). split; [lia|].
      exists r'. split; [|done]. rewrite lookup_insert_ne; [done|].
      intros Heq. rewrite <- Heq in E. specialize (Hn r' E). congruence.
Qed.

(** Changing the status of a reservation, away from active. *)
Lemma res_ok_put w id r st :
  res_ok w -> reservations (svc w) !! id = Some r -> timer r = None ->
  st <> ReservationActive -> st <> ReservationUnset ->
  res_ok (put_reservation (mkRes (set_status st (res r)) None) w).2.
Proof.
  intros Hok E Hr Ha Hu. pose proof (rk_res w Hok id r E) as [H1 H2 H3 H4 H5].
  unfold put_reservation, modify_svc, modify; simpl. split; simpl; rewrite ?H1.
  - apply Hok.
  - intros id' r' [[<- <-]|[Hne E']]%lookup_insert_Some.
    + split; simpl; try done. unfold timer_ok; simpl. by rewrite decide_False by done.
    + by destruct (rk_res w Hok id' r' E').
  - intros id1 id2 r1 r2 [[<- <-]|[N1 E1]]%lookup_insert_Some
      [[<- <-]|[N2 E2]]%lookup_insert_Some Heq; simpl in *.
    + done.
    + by eapply (rk_evse w Hok).
    + by eapply (rk_evse w Hok).
    + by eapply (rk_evse w Hok).
  - intros h t Ht. destruct (rk_timer w Hok h t Ht) as (Hlt & r' & E' & Hr'). split; [done|].
    exists r'. split; [|done]. rewrite lookup_insert_ne; [done|].
    intros Heq. rewrite <- Heq in E'. congruence.
Qed.
End sections.
