(* ===== verification/CoreOps.v ===== *)
(** * What each operation of core.Service does, and that it keeps the invariants

    An equation per critical section (the world it leaves and what it returns),
    then [keeps core_ok] for every operation. *)

From S2P Require Import Prelude GoLib GoTime Ocpp Errors Config State Bus World Core.
From S2P Require Import Persist Reservations Transactions Load CoreFacts CoreInv.

Definition core_ok (w : World) : Prop := cps_ok (svc w) /\ res_ok w.

(** ** Equations of the critical sections *)

Section equations.
Context `{MapOrder} `{Env}.

Lemma now_eq w : now w = (clock (ticks w), tick w).
Proof. done. Qed.

Lemma put_cp_ensured id cp w : put_cp id cp (ensured id w) = (tt, with_cp id cp w).
Proof. rewrite (surjective_pairing (put_cp _ _ _)). by rewrite put_ensured. Qed.

(** An [ensure] whose charge point is computed from and written back. *)
Lemma ensure_put {A} id (f : chargePointState -> chargePointState * A) w :
  M_bind (ensure id) (fun cp => let '(cp', a) := f cp in M_bind (put_cp id cp') (fun _ => M_ret a)) w =
  ((f (cp_of id (svc w))).2, with_cp id (f (cp_of id (svc w))).1 w).
Proof.
  rewrite M_bind_eq, ensure_eq. simpl. destruct (f _) as [cp' a]. simpl.
  by rewrite M_bind_eq, put_cp_ensured.
Qed.

Lemma ensured_cfg id w : cfg (svc (ensured id w)) = cfg (svc w).
Proof. by destruct (ensured_same id w). Qed.

Definition on_connect (at_ : Time) (cp : chargePointState) : chargePointState * list Event :=
  recompute at_ (set_lastSeen at_ (set_online true cp)).

Lemma Connected_locked_eq id at_ w :
  Connected_locked id at_ w =
  (event EventChargePointConnected at_ id :: (on_connect at_ (cp_of id (svc w))).2,
   with_cp id (on_connect at_ (cp_of id (svc w))).1 w).
Proof.
  unfold Connected_locked, on_connect. rewrite M_bind_eq, ensure_eq. simpl.
  destruct (recompute _ _) as [cp' es]. simpl. by rewrite M_bind_eq, put_cp_ensured.
Qed.

Definition on_disconnect (at_ : Time) (reason : string) (cp : chargePointState)
    : chargePointState * list Event :=
  recompute at_ (set_lastDisconnect (mkDisconnect at_ reason) (set_online false cp)).

Definition disconnected_event (at_ : Time) (id reason : string) : Event :=
  mkEvent EventChargePointDisconnected at_ id EmptyString StatusNone StatusNone
    EmptyString EmptyString 0 EmptyString reason.

Lemma Disconnected_locked_eq id reason at_ w :
  Disconnected_locked id reason at_ w =
  let cp := cp_of id (svc w) in
  if cp_online cp then
    (disconnected_event at_ id reason :: (on_disconnect at_ reason cp).2,
     with_cp id (on_disconnect at_ reason cp).1 w)
  else ([], ensured id w).
Proof.
  unfold Disconnected_locked, on_disconnect. rewrite M_bind_eq, ensure_eq. simpl.
  destruct (cp_online _); simpl; [|done].
  destruct (recompute _ _) as [cp' es]. simpl. by rewrite M_bind_eq, put_cp_ensured.
Qed.

(** The charge point after a StatusNotification, before recomputing. *)
Definition on_status (c : option Config) (id : string) (conn : Z) (st : EVSEStatus) (code : string)
    (at_ : Time) (cp : chargePointState) : chargePointState :=
  let cp := set_lastSeen at_ cp in
  if conn =? 0 then (if decide (cp_station cp = st) then cp else set_station st cp)
  else set_reported (evseUID c id conn) st code (addEVSE (evseUID c id conn) conn cp).

Definition station_events (id : string) (conn : Z) (st : EVSEStatus) (code : string)
    (at_ : Time) (cp : chargePointState) : list Event :=
  if (conn =? 0) && negb (bool_decide (cp_station cp = st)) then
    [mkEvent EventStationStatusChanged at_ id EmptyString (cp_station cp) st code
       EmptyString 0 EmptyString EmptyString]
  else [].

Lemma SetConnectorStatus_locked_eq id conn st code at_ w :
  SetConnectorStatus_locked id conn st code at_ w =
  let cp := cp_of id (svc w) in
  let cp1 := on_status (cfg (svc w)) id conn st code at_ cp in
  (station_events id conn st code at_ cp ++ (recompute at_ cp1).2,
   with_cp id (recompute at_ cp1).1 w).
Proof.
  unfold SetConnectorStatus_locked, on_status, station_events. rewrite M_bind_eq, ensure_eq. simpl.
  rewrite M_bind_eq. simpl.
  assert (Hc : cfg (svc (ensured id w)) = cfg (svc w)) by apply ensured_cfg.
  rewrite Hc. destruct (conn =? 0); simpl.
  - destruct (decide (_ = st)) as [Hd|Hd].
    + rewrite bool_decide_eq_true_2 by done. simpl. destruct (recompute _ _) as [cp' es]. simpl.
      by rewrite M_bind_eq, put_cp_ensured.
    + rewrite bool_decide_eq_false_2 by done. simpl. destruct (recompute _ _) as [cp' es]. simpl.
      by rewrite M_bind_eq, put_cp_ensured.
  - destruct (recompute _ _) as [cp' es]. simpl. by rewrite M_bind_eq, put_cp_ensured.
Qed.
End equations.

(** ** Every operation keeps the invariants *)

Section keeps.
Context `{MapOrder} `{Env}.

Lemma with_cp_core_ok id cp w : core_ok w -> cp_ok id cp -> core_ok (with_cp id cp w).
Proof. intros [H1 H2] Hcp. split; [by apply with_cp_ok | by apply (res_ok_same w)]. Qed.

Lemma ensured_core_ok id w : core_ok w -> core_ok (ensured id w).
Proof.
  intros [H1 H2]. split; [by apply ensured_ok|]. eapply res_ok_same; [apply ensured_same|done].
Qed.

Lemma keeps_now_core : keeps core_ok now.
Proof. intros w [H1 H2]. split; [done|]. by apply (res_ok_same w). Qed.

Lemma keeps_publish_core es : keeps core_ok (publish_events es).
Proof. intros w [H1 H2]. split; [done|]. by apply (res_ok_same w). Qed.

Lemma keeps_persist : keeps core_ok persist.
Proof.
  intros w [H1 H2]. destruct (persist_svc w) as (E & _ & Ht & Hn & He & _).
  split; [by rewrite E|]. eapply res_ok_same; [|done].
  unfold same_reservations. by rewrite E, Ht, Hn, He.
Qed.

Lemma keeps_persistOrLog : keeps core_ok persistOrLog.
Proof. apply keeps_bind; [apply keeps_persist | intros; apply keeps_ret]. Qed.

Lemma keeps_put_ensured id (f : chargePointState -> chargePointState) :
  (forall cp, cp_ok id cp -> cp_ok id (f cp)) ->
  keeps core_ok (cp <- ensure id ;; put_cp id (f cp)).
Proof.
  intros Hf w Hw. rewrite M_bind_eq, ensure_eq. cbn [fst snd]. rewrite put_cp_ensured.
  apply with_cp_core_ok; [done|]. apply Hf, cp_of_ok, Hw.
Qed.

Lemma keeps_Connected id : keeps core_ok (Connected id).
Proof.
  apply keeps_bind; [apply keeps_now_core|]. intros at_.
  apply keeps_bind; [|intros; apply keeps_publish_core].
  intros w Hw. rewrite Connected_locked_eq. simpl. apply with_cp_core_ok; [done|].
  apply recompute_ok. apply set_lastSeen_shape, set_online_shape, cp_ok_shape, cp_of_ok, Hw.
Qed.

Lemma keeps_Disconnected id reason : keeps core_ok (Disconnected id reason).
Proof.
  apply keeps_bind; [apply keeps_now_core|]. intros at_.
  apply keeps_bind; [|intros; apply keeps_publish_core].
  intros w Hw. rewrite Disconnected_locked_eq. simpl. destruct (cp_online _).
  - apply with_cp_core_ok; [done|]. apply recompute_ok.
    apply set_lastDisconnect_shape, set_online_shape, cp_ok_shape, cp_of_ok, Hw.
  - by apply ensured_core_ok.
Qed.

Lemma on_status_shape c id conn st code at_ cp :
  cp_ok id cp -> cp_shape id (on_status c id conn st code at_ cp).
Proof.
  intros Hok. unfold on_status. destruct (conn =? 0).
  - case_decide; [by apply cp_ok_shape, set_lastSeen_ok|].
    by apply set_station_shape, cp_ok_shape, set_lastSeen_ok.
  - apply set_reported_shape.
    + apply (addEVSE_order id); [by apply set_lastSeen_ok | by left].
    + by apply cp_ok_shape, addEVSE_ok, set_lastSeen_ok.
Qed.

Lemma keeps_SetConnectorStatus id conn st code : keeps core_ok (SetConnectorStatus id conn st code).
Proof.
  apply keeps_bind; [apply keeps_now_core|]. intros at_.
  apply keeps_bind; [|intros; apply keeps_publish_core].
  intros w Hw. rewrite SetConnectorStatus_locked_eq. simpl. apply with_cp_core_ok; [done|].
  apply recompute_ok, on_status_shape, cp_of_ok, Hw.
Qed.

(** [cp <- ensure id ;; put_cp id (f cp) ;; k] *)
Lemma keeps_ensure_put_then {B} id (f : chargePointState -> chargePointState) (k : M B) :
  (forall cp, cp_ok id cp -> cp_ok id (f cp)) -> keeps core_ok k ->
  keeps core_ok (cp <- ensure id ;; put_cp id (f cp) ;; k).
Proof.
  intros Hf Hk w Hw. rewrite M_bind_eq, ensure_eq. cbn [fst snd]. rewrite M_bind_eq, put_cp_ensured.
  apply Hk, with_cp_core_ok; [done|]. apply Hf, cp_of_ok, Hw.
Qed.

Lemma keeps_Booted id info : keeps core_ok (Booted id info).
Proof.
  apply keeps_bind; [apply keeps_now_core|]. intros at_.
  apply keeps_ensure_put_then; [|apply keeps_publish_core].
  intros cp Hcp. by apply set_lastSeen_ok, set_boot_ok.
Qed.

Lemma keeps_Seen id : keeps core_ok (Seen id).
Proof.
  apply keeps_bind; [apply keeps_now_core|]. intros at_.
  apply keeps_put_ensured. intros cp. apply set_lastSeen_ok.
Qed.

Lemma keeps_Heartbeat id : keeps core_ok (Heartbeat id).
Proof.
  apply keeps_bind; [apply keeps_now_core|]. intros at_.
  apply keeps_ensure_put_then; [|apply keeps_publish_core]. intros cp. apply set_lastSeen_ok.
Qed.

Lemma keeps_RecordMeterValues id conn summary : keeps core_ok (RecordMeterValues id conn summary).
Proof.
  apply keeps_bind; [apply keeps_now_core|]. intros at_ w Hw.
  rewrite M_bind_eq, ensure_eq. cbn [fst snd]. rewrite M_bind_eq. cbn [fst snd gets].
  rewrite M_bind_eq, put_cp_ensured. apply keeps_publish_core, with_cp_core_ok; [done|].
  apply set_lastSeen_ok, addEVSE_ok, cp_of_ok, Hw.
Qed.

(** *** Reservations *)

Lemma end_world_core_ok w id r :
  core_ok w -> reservations (svc w) !! id = Some r -> core_ok (end_world r w).
Proof.
  intros [H1 H2] E. split; [|by eapply res_ok_end].
  unfold end_world, stop_world. by destruct (timer r).
Qed.

Lemma reservationOnLocked_Some uid s r :
  reservationOnLocked uid s = Some r ->
  exists id, reservations s !! id = Some r /\ rv_EVSEUID (res r) = uid.
Proof.
  unfold reservationOnLocked. intros ((id & r') & E & ->)%fmap_Some.
  apply first_such_Some in E as [E1 E2]. apply elem_of_range in E1.
  apply bool_decide_eq_true in E2. by exists id.
Qed.

Lemma reservationOnLocked_None uid s :
  reservationOnLocked uid s = None <->
  forall id r, reservations s !! id = Some r -> rv_EVSEUID (res r) <> uid.
Proof.
  unfold reservationOnLocked. rewrite fmap_None, first_such_None. split.
  - intros Hx id r E. apply elem_of_range in E. specialize (Hx _ E).
    by apply bool_decide_eq_false in Hx.
  - intros Hx [id r] E. apply elem_of_range in E. apply bool_decide_eq_false. by eapply Hx.
Qed.

(** The world after a pending reservation has been recorded. *)
Definition begun (r : Reservation) (conn id : Z) (t : Time) : Reservation :=
  mkReservation id (rv_OCPIReservationID r) (rv_ChargePointID r) (rv_EVSEUID r)
    conn (rv_IDTag r) (rv_ExpiresAt r) t (rv_Source r) (rv_ResponseURL r) ReservationPending.

Definition begun_world (r : Reservation) (w : World) : World :=
  let s := svc w in
  tick (set_svc (set_reservations (<[rv_ID r := mkRes r None]> (reservations s))
                   (set_nextReservationID (wrap_int (nextReservationID s + 1)) s)) w).

Lemma Begin_locked_eq r w :
  Begin_locked r w =
  match connectorID (cfg (svc w)) (rv_EVSEUID r) with
  | None => (inr (EText ("unknown EVSE " +:+ Quote (rv_EVSEUID r))), w)
  | Some conn =>
    match reservationOnLocked (rv_EVSEUID r) (svc w) with
    | Some _ => (inr (wrap_colon (rv_EVSEUID r) (ESentinel ErrAlreadyReserved)), w)
    | None =>
      let r' := begun r conn (nextReservationID (svc w)) (clock (ticks w)) in
      (inl r', begun_world r' w)
    end
  end.
Proof.
  unfold Begin_locked. rewrite M_bind_eq. simpl.
  destruct (connectorID _ _); [|done]. by destruct (reservationOnLocked _ _).
Qed.

Lemma begun_world_ok w r conn :
  core_ok w -> nextReservationID (svc w) < int_max ->
  connectorID (cfg (svc w)) (rv_EVSEUID r) = Some conn ->
  (forall id r', reservations (svc w) !! id = Some r' -> rv_EVSEUID (res r') <> rv_EVSEUID r) ->
  core_ok (begun_world (begun r conn (nextReservationID (svc w)) (clock (ticks w))) w).
Proof.
  intros [H1 Hok] Hlt Hc Hne. split; [done|].
  pose proof (rk_next w Hok) as Hn1.
  assert (Hw : wrap_int (nextReservationID (svc w) + 1) = nextReservationID (svc w) + 1).
  { apply wrap_int_succ. lia. }
  split; simpl; rewrite ?Hw; [lia | | |].
  - intros id r' [[<- <-]|[Hid E]]%lookup_insert_Some.
    + split; simpl; rewrite ?Hw; try done. lia.
    + destruct (rk_res w Hok id r' E). split; simpl; rewrite ?Hw; try done. lia.
  - intros id1 id2 r1 r2 [[<- <-]|[N1 E1]]%lookup_insert_Some
      [[<- <-]|[N2 E2]]%lookup_insert_Some Heq; simpl in *.
    + done.
    + by destruct (Hne id2 r2 E2).
    + by destruct (Hne id1 r1 E1).
    + by eapply (rk_evse w Hok).
  - intros h t Ht. destruct (rk_timer w Hok h t Ht) as (Hh & r' & E & Hr'). split; [done|].
    exists r'. split; [|done]. rewrite lookup_insert_ne; [done|]. intros Heq.
    destruct (rk_res w Hok _ _ E) as [_ ? _ _ _]. lia.
Qed.

(** The step before which the id counter has room. *)
Definition has_ids (w : World) : Prop := nextReservationID (svc w) < int_max.

Lemma Begin_locked_ok r :
  triple (fun w => core_ok w /\ has_ids w) (Begin_locked r)
    (fun b w => core_ok w /\ match b with
       | inl r' => reservations (svc w) !! rv_ID r' = Some (mkRes r' None)
       | inr _ => True end).
Proof.
  intros w [Hw Hid]. rewrite Begin_locked_eq.
  destruct (connectorID _ _) as [conn|] eqn:Ec; [|done].
  destruct (reservationOnLocked _ _) eqn:Er; [done|]. simpl.
  rewrite reservationOnLocked_None in Er. split; [by apply begun_world_ok|].
  by rewrite lookup_insert_eq.
Qed.

Lemma delete_core_ok w id :
  core_ok w -> (forall r, reservations (svc w) !! id = Some r -> timer r = None) ->
  core_ok (delete_reservation id w).2.
Proof. intros [H1 H2] Hn. split; [done | by apply res_ok_delete]. Qed.

Lemma keeps_BeginReservation r :
  triple (fun w => core_ok w /\ has_ids w) (BeginReservation r) (fun _ => core_ok).
Proof.
  eapply triple_bind; [apply Begin_locked_ok|]. intros [r'|e]; [|by intros w []].
  intros w [Hw Hr]. destruct (persist_svc w) as (E & _).
  rewrite M_bind_eq. pose proof (keeps_persist w Hw) as Hp.
  destruct (persist w).1 as [e|]; [|done].
  rewrite M_bind_eq. simpl. apply (delete_core_ok _ (rv_ID r')); [done|].
  rewrite E, Hr. by intros r0 [= <-].
Qed.

Lemma Activate_locked_eq id w :
  res_ok w ->
  Activate_locked id w =
  match reservations (svc w) !! id with
  | Some r =>
    if decide (rv_Status (res r) = ReservationPending) then
      let r' := set_status ReservationActive (res r) in (Some r', armed_world r' w)
    else (None, w)
  | None => (None, w)
  end.
Proof.
  intros Hok. unfold Activate_locked. rewrite M_bind_eq. simpl.
  destruct (reservations (svc w) !! id) as [r|] eqn:E; [|done].
  case_decide as Hp; [|done]. rewrite M_bind_eq.
  assert (timer r = None) as ->.
  { pose proof (re_timer _ _ _ (rk_res w Hok id r E)) as Ht. unfold timer_ok in Ht.
    by rewrite Hp in Ht. }
  by rewrite armLocked_eq.
Qed.

Lemma pending_no_timer w id r :
  res_ok w -> reservations (svc w) !! id = Some r -> rv_Status (res r) <> ReservationActive ->
  timer r = None.
Proof.
  intros Hok E Hp. pose proof (re_timer _ _ _ (rk_res w Hok id r E)) as Ht.
  unfold timer_ok in Ht. by rewrite decide_False in Ht.
Qed.

Lemma activated_world_ok w id r :
  core_ok w -> reservations (svc w) !! id = Some r -> rv_Status (res r) = ReservationPending ->
  core_ok (armed_world (set_status ReservationActive (res r)) w).
Proof.
  intros [H1 Hok] E Hp. split; [done|].
  pose proof (rk_res w Hok id r E) as [I1 I2 I3 I4 I5].
  apply res_ok_armed; simpl; try done.
  - by rewrite I1.
  - intros id' r' E' Heq. rewrite I1. by eapply (rk_evse w Hok).
  - rewrite I1. intros r'. rewrite E. intros [= <-].
    eapply pending_no_timer; [done|done|]. by rewrite Hp.
Qed.

Lemma keeps_Activate_locked id : keeps core_ok (Activate_locked id).
Proof.
  intros w Hw. rewrite Activate_locked_eq by apply Hw.
  destruct (reservations (svc w) !! id) as [r|] eqn:E; [|done].
  case_decide; [|done]. by eapply activated_world_ok.
Qed.

Lemma keeps_ActivateReservation id : keeps core_ok (ActivateReservation id).
Proof.
  apply keeps_bind; [apply keeps_Activate_locked|]. intros [out|]; [|apply keeps_ret].
  apply keeps_bind; [apply keeps_persistOrLog|]. intros _.
  apply keeps_bind; [apply keeps_now_core|]. intros at_.
  apply keeps_bind; [apply keeps_publish_core|]. intros _. apply keeps_ret.
Qed.

Lemma End_locked_eq id reason w :
  End_locked id reason w =
  match reservations (svc w) !! id with
  | Some r => (Some (res r, ended_event (clock (ticks w)) (res r) reason), end_world r w)
  | None => (None, w)
  end.
Proof.
  unfold End_locked. rewrite M_bind_eq. simpl. destruct (reservations (svc w) !! id) as [r|]; [|done].
  by rewrite M_bind_eq, endLocked_eq.
Qed.

Lemma keeps_End_locked id reason : keeps core_ok (End_locked id reason).
Proof.
  intros w Hw. rewrite End_locked_eq. destruct (reservations (svc w) !! id) as [r|] eqn:E; [|done].
  by eapply end_world_core_ok.
Qed.

Lemma keeps_EndReservation id reason : keeps core_ok (EndReservation id reason).
Proof.
  apply keeps_bind; [apply keeps_End_locked|]. intros [[r e]|]; [|apply keeps_ret].
  case_decide; [apply keeps_ret|].
  apply keeps_bind; [apply keeps_persistOrLog|]. intros _.
  apply keeps_bind; [apply keeps_publish_core|]. intros _. apply keeps_ret.
Qed.

Lemma Orphan_locked_eq id w :
  res_ok w ->
  Orphan_locked id w =
  match reservations (svc w) !! id with
  | Some r =>
    if decide (rv_Status (res r) = ReservationPending) then
      let out := set_status ReservationCancelling (res r) in
      (Some out, (put_reservation (mkRes out None) w).2)
    else (None, w)
  | None => (None, w)
  end.
Proof.
  intros Hok. unfold Orphan_locked. rewrite M_bind_eq. simpl.
  destruct (reservations (svc w) !! id) as [r|] eqn:E; [|done].
  case_decide as Hp; [|done]. rewrite M_bind_eq, stopTimer_eq. unfold stop_world.
  rewrite (pending_no_timer w id r Hok E) by by rewrite Hp. done.
Qed.

Lemma keeps_Orphan_locked id : keeps core_ok (Orphan_locked id).
Proof.
  intros w Hw. rewrite Orphan_locked_eq by apply Hw.
  destruct (reservations (svc w) !! id) as [r|] eqn:E; [|done].
  case_decide as Hp; [|done]. destruct Hw as [H1 Hok]. split; [done|].
  eapply res_ok_put; try done. eapply pending_no_timer; [done..|]. by rewrite Hp.
Qed.

Lemma keeps_OrphanReservation id reason : keeps core_ok (OrphanReservation id reason).
Proof.
  apply keeps_bind; [apply keeps_Orphan_locked|]. intros [out|]; [|apply keeps_ret].
  apply keeps_bind; [apply keeps_now_core|]. intros at_.
  apply keeps_bind; [apply keeps_publish_core|]. intros _. apply keeps_ret.
Qed.

Lemma expire_locked_eq id at_ w :
  expire_locked id at_ w =
  match reservations (svc w) !! id with
  | Some r =>
    if decide (rv_Status (res r) = ReservationActive /\ TimeEqual (rv_ExpiresAt (res r)) at_ = true)
    then (Some (ended_event (clock (ticks w)) (res r) ReservationExpired), end_world r w)
    else (None, w)
  | None => (None, w)
  end.
Proof.
  unfold expire_locked. rewrite M_bind_eq. simpl. destruct (reservations (svc w) !! id) as [r|]; [|done].
  case_bool_decide as H1; simpl; [|by rewrite decide_False by tauto].
  destruct (TimeEqual _ _); simpl; [|by rewrite decide_False by (intros []; done)].
  rewrite decide_True by done. by rewrite M_bind_eq, endLocked_eq.
Qed.

Lemma keeps_expire_locked id at_ : keeps core_ok (expire_locked id at_).
Proof.
  intros w Hw. rewrite expire_locked_eq. destruct (reservations (svc w) !! id) as [r|] eqn:E; [|done].
  case_decide; [|done]. by eapply end_world_core_ok.
Qed.

Lemma keeps_expire id at_ : keeps core_ok (expire id at_).
Proof.
  apply keeps_bind; [apply keeps_expire_locked|]. intros [e|]; [|apply keeps_ret].
  apply keeps_bind; [apply keeps_persistOrLog|]. intros _. apply keeps_publish_core.
Qed.

Lemma keeps_fire h : keeps core_ok (fire h).
Proof.
  intros w [H1 Hok]. unfold fire. rewrite M_bind_eq. simpl.
  destruct (timers w !! h) as [t|] eqn:Et; [|done]. split; [done|].
  destruct Hok as [K1 K2 K3 K4]. split; simpl; try done.
  - intros id r E. destruct (K2 id r E) as [I1 I2 I3 I4 I5]. split; try done.
    unfold timer_ok in *. case_decide; [|done]. destruct I5 as (h' & Hh & Hlt & Ht).
    exists h'. split; [done|]. split; [done|]. simpl.
    destruct (decide (h' = h)) as [->|Hne].
    + right. rewrite lookup_delete_eq. split; [done|].
      destruct Ht as [[d Ht]|[Ht _]]; [|congruence]. rewrite Ht in Et. injection Et as <-. by left.
    + rewrite lookup_delete_ne by done. destruct Ht as [?|[? ?]]; [by left|]. right.
      split; [done|]. by right.
  - intros h' t' [Hne Ht]%lookup_delete_Some. by apply K4.
Qed.

(** The callback of a fired timer runs: one of the calls on their way. *)
Fixpoint remove_first (p : Z * Time) (l : list (Z * Time)) : list (Z * Time) :=
  match l with
  | [] => []
  | q :: l' => if decide (q = p) then l' else q :: remove_first p l'
  end.

Lemma elem_of_remove_first p q l : q ∈ l -> q <> p -> q ∈ remove_first p l.
Proof.
  induction l as [|x l IH]; intros Hq Hne; [done|]. simpl.
  apply elem_of_cons in Hq as [->|Hq]; case_decide; try done; [by left|]. right. by apply IH.
Qed.

Definition run_expiring (id : Z) (at_ : Time) : M unit :=
  pending <- gets (fun w => bool_decide ((id, at_) ∈ expiring w)) ;;
  if (pending : bool) then
    ended <- expire_locked id at_ ;;
    modify (fun w => set_expiring (remove_first (id, at_) (expiring w)) w) ;;
    match ended with
    | None => M_ret tt
    | Some e => persistOrLog ;; publish_events [e]
    end
  else M_ret tt.

Lemma end_world_fields r w :
  reservations (svc (end_world r w)) = delete (rv_ID (res r)) (reservations (svc w)) /\
  expiring (end_world r w) = expiring w /\ next_timer (end_world r w) = next_timer w /\
  cps (svc (end_world r w)) = cps (svc w) /\
  nextReservationID (svc (end_world r w)) = nextReservationID (svc w) /\
  cfg (svc (end_world r w)) = cfg (svc w).
Proof. unfold end_world, stop_world. by destruct (timer r). Qed.

(** After the callback ran, no active reservation relies on it any more. *)
Lemma drop_expiring_ok w id at_ :
  core_ok w ->
  (forall r, reservations (svc w) !! id = Some r -> rv_Status (res r) = ReservationActive ->
     rv_ExpiresAt (res r) <> at_) ->
  core_ok (set_expiring (remove_first (id, at_) (expiring w)) w).
Proof.
  intros [H1 [K1 K2 K3 K4]] Hn. split; [done|]. split; simpl; try done.
  intros id' r E. destruct (K2 id' r E) as [I1 I2 I3 I4 I5]. split; try done.
  unfold timer_ok in *. case_decide as Ha; [|done]. destruct I5 as (h' & Hh & Hlt & Ht).
  exists h'. split; [done|]. split; [done|]. destruct Ht as [?|[Ht Hin]]; [by left|].
  right. split; [done|]. apply elem_of_remove_first; [done|].
  intros [= Hid He]. subst. by apply (Hn r E).
Qed.

Lemma keeps_run_expiring id at_ : keeps core_ok (run_expiring id at_).
Proof.
  intros w Hw. unfold run_expiring. rewrite M_bind_eq. simpl. case_bool_decide; [|done].
  rewrite M_bind_eq, M_bind_eq. pose proof (keeps_expire_locked id at_ w Hw) as Hk.
  assert (core_ok (modify (fun w => set_expiring (remove_first (id, at_) (expiring w)) w)
                     (expire_locked id at_ w).2).2) as Hd.
  { apply drop_expiring_ok; [done|]. intros r. rewrite expire_locked_eq.
    destruct (reservations (svc w) !! id) as [r0|] eqn:E; cbn [fst snd]; [|congruence].
    case_decide as Hd; cbn [fst snd].
    - destruct (end_world_fields r0 w) as [-> _].
      rewrite (re_id _ _ _ (rk_res w (proj2 Hw) id r0 E)), lookup_delete_eq. done.
    - intros Hr Ha Hat. rewrite E in Hr. injection Hr as ->. apply Hd. split; [done|].
      rewrite <- Hat. apply Z.eqb_refl. }
  destruct (expire_locked id at_ w).1 as [e|]; [|done].
  by apply (keeps_bind core_ok persistOrLog (fun _ => publish_events [e]) keeps_persistOrLog
              (fun _ => keeps_publish_core [e])).
Qed.
End keeps.
