(* ===== verification/CoreTx.v ===== *)
(** * Transactions, loading and every action: the invariants hold in every
    reachable state

    [action] is one call of the service's API, the expiry callbacks included;
    [run] executes it; [core_ok] holds after any sequence of actions from a
    freshly built service ([reachable_ok]). *)

From S2P Require Import Prelude GoLib GoTime Ocpp Errors Config State Bus World Core.
From S2P Require Import Persist Reservations Transactions Load CoreFacts CoreInv CoreOps.

Section transactions.
Context `{MapOrder} `{Env}.

Lemma put_cp_eq id cp w : put_cp id cp w = (tt, with_cp id cp w).
Proof. done. Qed.

(** ** Counters *)

Lemma keeps_counters (f : Service -> Service) :
  (forall s, cps (f s) = cps s /\ reservations (f s) = reservations s /\ cfg (f s) = cfg s /\
             nextReservationID (f s) = nextReservationID s) ->
  keeps core_ok (modify_svc f).
Proof.
  intros Hf w [H1 H2]. unfold modify_svc, modify, core_ok, cps_ok; simpl.
  destruct (Hf (svc w)) as (E1 & E2 & E3 & E4). split; [by rewrite E1|].
  apply (res_ok_same w); [|done]. unfold same_reservations; simpl. by rewrite E2, E3, E4.
Qed.

Lemma keeps_NextTransactionID : keeps core_ok NextTransactionID.
Proof.
  apply keeps_bind.
  - apply keeps_bind; [apply keeps_gets|]. intros id.
    apply keeps_bind; [by apply keeps_counters|]. intros _. apply keeps_ret.
  - intros id. apply keeps_bind; [apply keeps_persistOrLog|]. intros _. apply keeps_ret.
Qed.

Lemma keeps_NextRemoteStartID : keeps core_ok NextRemoteStartID.
Proof.
  apply keeps_bind.
  - apply keeps_bind; [apply keeps_gets|]. intros id.
    apply keeps_bind; [by apply keeps_counters|]. intros _. apply keeps_ret.
  - intros id. apply keeps_bind; [apply keeps_persist|]. intros e. apply keeps_ret.
Qed.

(** ** Redemption *)

Lemma same_tag_true cpID uid tag r :
  same_tag cpID uid tag r = true <->
  rv_ChargePointID (res r) = cpID /\ rv_Status (res r) = ReservationActive /\
  rv_EVSEUID (res r) = uid /\ EqualFold (rv_IDTag (res r)) tag = true.
Proof. unfold same_tag. rewrite !andb_true_iff, !bool_decide_eq_true. tauto. Qed.

(** An active reservation of the charge point. *)
Definition held_active (cpID : string) (s : Service) (id : Z) (r : reservation) : Prop :=
  reservations s !! id = Some r /\ rv_ChargePointID (res r) = cpID /\ rv_Status (res r) = ReservationActive.

(** The reservation a starting session redeems: the active one of the charge point
    that the station names, or else one on the session's EVSE for the session's
    tag, up to case. *)
Definition redeems (cpID uid : string) (t : TransactionStart) (s : Service) (id : Z) (r : reservation) : Prop :=
  held_active cpID s id r /\
  (id = ts_ReservationID t /\ id <> 0 \/
   ((forall r', ts_ReservationID t <> 0 -> ~ held_active cpID s (ts_ReservationID t) r') /\
    rv_EVSEUID (res r) = uid /\ EqualFold (rv_IDTag (res r)) (ts_IDTag t) = true)).

Lemma redeemedLocked_redeems cpID uid t s r :
  redeemedLocked cpID uid t s = Some r -> exists id, redeems cpID uid t s id r.
Proof.
  unfold redeemedLocked.
  assert (Htag : (forall r', ts_ReservationID t <> 0 -> ~ held_active cpID s (ts_ReservationID t) r') ->
     snd <$> first_such (fun kr => same_tag cpID uid (ts_IDTag t) kr.2) (range (reservations s)) = Some r ->
     exists id, redeems cpID uid t s id r).
  { intros Hno ((id & r') & E & ->)%fmap_Some. apply first_such_Some in E as [E1 (H1 & H2 & H3 & H4)%same_tag_true].
    apply elem_of_range in E1. exists id. split; [done|]. by right. }
  destruct (Z.eqb_spec (ts_ReservationID t) 0) as [Hz|Hz]; [by apply Htag|].
  destruct (reservations s !! ts_ReservationID t) as [r0|] eqn:E.
  - destruct (_ && _) eqn:Eb; [apply andb_true_iff in Eb as [E2 E3]; apply bool_decide_eq_true in E2, E3|].
    + intros [= ->]. exists (ts_ReservationID t). split; [done|]. by left.
    + apply Htag. intros r' _ (E1 & E2 & E3). rewrite E in E1. injection E1 as ->.
      by rewrite E2, E3, !bool_decide_eq_true_2 in Eb.
  - apply Htag. intros r' _ (E1 & _). congruence.
Qed.

Lemma redeemedLocked_None cpID uid t s :
  redeemedLocked cpID uid t s = None -> forall id r, ~ redeems cpID uid t s id r.
Proof.
  unfold redeemedLocked. intros Hn id r [(E1 & E2 & E3) Hwhy].
  assert (Htag : snd <$> first_such (fun kr => same_tag cpID uid (ts_IDTag t) kr.2) (range (reservations s)) = None ->
     rv_EVSEUID (res r) = uid -> EqualFold (rv_IDTag (res r)) (ts_IDTag t) = true -> False).
  { rewrite fmap_None, first_such_None. intros Hf Hu Ht. specialize (Hf (id, r) (proj2 (elem_of_range _ _ _) E1)).
    cbn in Hf. rewrite (proj2 (same_tag_true cpID uid (ts_IDTag t) r)) in Hf by done. done. }
  destruct (Z.eqb_spec (ts_ReservationID t) 0) as [Hz|Hz];
    [destruct Hwhy as [[-> ?]|(_ & ? & ?)]; [done|by apply Htag]|].
  destruct (reservations s !! ts_ReservationID t) as [r0|] eqn:E.
  - destruct (_ && _) eqn:Eb; [done|]. destruct Hwhy as [[-> _]|(_ & ? & ?)]; [|by apply Htag].
    rewrite E in E1. injection E1 as ->. by rewrite E2, E3, !bool_decide_eq_true_2 in Eb.
  - destruct Hwhy as [[-> _]|(_ & ? & ?)]; [congruence|by apply Htag].
Qed.

Lemma redeemedLocked_Some cpID uid t s r :
  redeemedLocked cpID uid t s = Some r ->
  exists id, reservations s !! id = Some r /\ rv_ChargePointID (res r) = cpID /\
    rv_Status (res r) = ReservationActive /\
    ((id = ts_ReservationID t /\ id <> 0) \/
     (rv_EVSEUID (res r) = uid /\ EqualFold (rv_IDTag (res r)) (ts_IDTag t) = true)).
Proof. intros (id & (? & ? & ?) & Hwhy)%redeemedLocked_redeems. exists id. naive_solver. Qed.

Lemma reservationOnEVSELocked_Some cpID uid s r :
  reservationOnEVSELocked cpID uid s = Some r ->
  exists id, reservations s !! id = Some r /\ rv_ChargePointID (res r) = cpID /\
    rv_EVSEUID (res r) = uid /\ rv_Status (res r) = ReservationActive.
Proof.
  unfold reservationOnEVSELocked. intros ((id & r') & E & ->)%fmap_Some.
  apply first_such_Some in E as [E1 E2]. apply elem_of_range in E1. simpl in E2.
  apply andb_true_iff in E2 as [E2 E4]. apply andb_true_iff in E2 as [E2 E3].
  apply bool_decide_eq_true in E2, E3, E4. by exists id.
Qed.

Lemma reservationOnEVSELocked_None cpID uid s :
  reservationOnEVSELocked cpID uid s = None ->
  forall id r, reservations s !! id = Some r -> rv_ChargePointID (res r) = cpID ->
    rv_EVSEUID (res r) = uid -> rv_Status (res r) <> ReservationActive.
Proof.
  unfold reservationOnEVSELocked. rewrite fmap_None, first_such_None.
  intros Hx id r E H1 H2 H3. apply elem_of_range in E. specialize (Hx _ E). simpl in Hx.
  by rewrite H1, H2, H3, !bool_decide_eq_true_2 in Hx.
Qed.

Definition redeem_target (cpID uid : string) (t : TransactionStart) (s : Service)
    : option (reservation * bool) :=
  match redeemedLocked cpID uid t s with
  | Some r => Some (r, true)
  | None => (fun r => (r, false)) <$> reservationOnEVSELocked cpID uid s
  end.

Definition redeemed_id (t : TransactionStart) (target : option (reservation * bool)) : Z :=
  match target with Some (r, true) => rv_ID (res r) | _ => ts_ReservationID t end.

Definition redeem_reason (consumed : bool) : string :=
  if consumed then ReservationConsumed else ReservationFailed.

Lemma redeem_eq cpID uid t w :
  redeem cpID uid t w =
  match redeem_target cpID uid t (svc w) with
  | Some (r, consumed) =>
    ((redeemed_id t (Some (r, consumed)),
      [ended_event (clock (ticks w)) (res r) (redeem_reason consumed)]), end_world r w)
  | None => ((ts_ReservationID t, []), w)
  end.
Proof.
  unfold redeem, redeem_target. rewrite M_bind_eq. cbn [fst snd gets].
  destruct (redeemedLocked _ _ _ _) as [r|]; [by rewrite M_bind_eq, endLocked_eq|].
  destruct (reservationOnEVSELocked _ _ _) as [r|]; [|done].
  simpl. by rewrite M_bind_eq, endLocked_eq.
Qed.

Lemma redeem_target_Some cpID uid t s r b :
  redeem_target cpID uid t s = Some (r, b) ->
  exists id, reservations s !! id = Some r /\ rv_ChargePointID (res r) = cpID /\
    rv_Status (res r) = ReservationActive.
Proof.
  unfold redeem_target. destruct (redeemedLocked _ _ _ _) as [r'|] eqn:E.
  - intros [= -> <-]. apply redeemedLocked_Some in E as (id & ? & ? & ? & _). by exists id.
  - intros (r' & E' & [= -> ->])%fmap_Some.
    apply reservationOnEVSELocked_Some in E' as (id & ? & ? & ? & ?). by exists id.
Qed.

Lemma redeem_keeps cpID uid t w :
  core_ok w -> core_ok (redeem cpID uid t w).2 /\
    cps (svc (redeem cpID uid t w).2) = cps (svc w) /\ cfg (svc (redeem cpID uid t w).2) = cfg (svc w).
Proof.
  intros Hw. rewrite redeem_eq. destruct (redeem_target _ _ _ _) as [[r b]|] eqn:E; [|done].
  cbn [fst snd]. destruct (end_world_fields r w) as (_ & _ & _ & E2 & _ & E3).
  apply redeem_target_Some in E as (id & E & _). split; [by eapply end_world_core_ok|done].
Qed.

(** ** StartTransaction and StopTransaction *)

Definition seq_world (id : string) (w : World) : World :=
  set_svc (set_txSeq (wrap_uint64 (txSeq (svc w) + 1)) (svc (ensured id w))) (ensured id w).

Lemma ensured_txSeq id w : txSeq (svc (ensured id w)) = txSeq (svc w).
Proof. unfold ensured. by destruct (cps (svc w) !! id). Qed.

Lemma StartTransaction_locked_eq cpID t at_ w :
  StartTransaction_locked cpID t at_ w =
  let uid := evseUID (cfg (svc w)) cpID (ts_ConnectorID t) in
  let r := redeem cpID uid t (seq_world cpID w) in
  let tx := started t uid r.1.1 (wrap_uint64 (txSeq (svc w) + 1)) at_ in
  ((tx, r.1.2),
   with_cp cpID (set_lastSeen (clock (ticks r.2))
                   (put_transaction tx (addEVSE uid (ts_ConnectorID t) (cp_of cpID (svc w)))))
     (tick r.2)).
Proof.
  unfold StartTransaction_locked. rewrite M_bind_eq, ensure_eq. cbn [fst snd].
  rewrite M_bind_eq. cbn [fst snd gets]. rewrite M_bind_eq. cbn [fst snd gets].
  rewrite M_bind_eq. rewrite M_bind_eq. cbn [fst snd modify_svc modify].
  rewrite ensured_cfg, ensured_txSeq. reflexivity.
Qed.

Lemma keeps_seq_world id w : core_ok w -> core_ok (seq_world id w).
Proof.
  intros Hw. pose proof (ensured_core_ok id w Hw) as [H1 H2]. split; [done|].
  by apply (res_ok_same (ensured id w)).
Qed.

Lemma keeps_StartTransaction_locked cpID t at_ : keeps core_ok (StartTransaction_locked cpID t at_).
Proof.
  intros w Hw. rewrite StartTransaction_locked_eq. cbn zeta. cbn [fst snd].
  destruct (redeem_keeps cpID (evseUID (cfg (svc w)) cpID (ts_ConnectorID t)) t _
              (keeps_seq_world cpID w Hw)) as (Hr & _).
  apply with_cp_core_ok; [by apply keeps_now_core in Hr|].
  apply set_lastSeen_ok, put_transaction_ok.
  - apply (addEVSE_order cpID); [apply cp_of_ok, Hw | by left].
  - apply addEVSE_ok, cp_of_ok, Hw.
Qed.

Lemma keeps_time (at_ : Time) : keeps core_ok (if IsZero at_ then now else M_ret at_).
Proof. destruct (IsZero at_); [apply keeps_now_core | apply keeps_ret]. Qed.

Lemma keeps_StartTransaction cpID t : keeps core_ok (StartTransaction cpID t).
Proof.
  apply keeps_bind; [apply keeps_time|]. intros at_.
  apply keeps_bind; [apply keeps_StartTransaction_locked|]. intros [tx es].
  apply keeps_bind; [apply keeps_persistOrLog|]. intros _.
  apply keeps_bind; [apply keeps_publish_core|]. intros _. apply keeps_ret.
Qed.

Lemma StopTransaction_locked_eq cpID txID meterStop reason at_ w :
  StopTransaction_locked cpID txID meterStop reason at_ w =
  let cp := cp_of cpID (svc w) in
  match cp_transactions cp !! txID with
  | Some tx =>
    if Active tx then
      let tx' := stopped tx at_ meterStop reason in
      (Some tx', with_cp cpID (set_lastSeen (clock (ticks w)) (put_transaction tx' cp)) (tick w))
    else (None, ensured cpID w)
  | None => (None, ensured cpID w)
  end.
Proof.
  unfold StopTransaction_locked. rewrite M_bind_eq, ensure_eq. cbn [fst snd]. cbn zeta.
  destruct (cp_transactions _ !! txID) as [tx|]; [|done]. destruct (Active tx); [|done].
  rewrite M_bind_eq. unfold now. cbn [fst snd]. rewrite M_bind_eq.
  assert (Ht : ticks (ensured cpID w) = ticks w).
  { unfold ensured. by destruct (cps (svc w) !! cpID). }
  assert (tick (ensured cpID w) = ensured cpID (tick w)) as ->.
  { unfold ensured; simpl. by destruct (cps (svc w) !! cpID). }
  rewrite Ht, put_cp_ensured. reflexivity.
Qed.

Lemma keeps_StopTransaction_locked cpID txID meterStop reason at_ :
  keeps core_ok (StopTransaction_locked cpID txID meterStop reason at_).
Proof.
  intros w Hw. rewrite StopTransaction_locked_eq. cbn zeta.
  pose proof (cp_of_ok cpID (svc w) (proj1 Hw)) as Hcp.
  destruct (cp_transactions _ !! txID) as [tx|] eqn:E; [|by apply ensured_core_ok].
  destruct (Active tx); [|by apply ensured_core_ok]. cbn [snd].
  apply with_cp_core_ok; [by apply (keeps_now_core w)|].
  apply set_lastSeen_ok, put_transaction_ok; [|done].
  by destruct (ok_tx _ _ Hcp _ _ E).
Qed.

Lemma keeps_StopTransaction cpID txID meterStop reason at_ :
  keeps core_ok (StopTransaction cpID txID meterStop reason at_).
Proof.
  apply keeps_bind; [apply keeps_time|]. intros at0.
  apply keeps_bind; [apply keeps_StopTransaction_locked|]. intros [tx|]; [|apply keeps_ret].
  apply keeps_bind; [apply keeps_persistOrLog|]. intros _.
  apply keeps_bind; [apply keeps_publish_core|]. intros _. apply keeps_ret.
Qed.
End transactions.
