(* ===== verification/CoreReach.v ===== *)
(** * Loading, and every reachable state of core.Service

    [file_ok]: what a state file written by [persist] satisfies, and what [load]
    needs.  [action]: one call of the service's API, or a timer firing or its
    callback running.  [core_ok] holds in every state a service built from such
    a file reaches. *)

From S2P Require Import Prelude GoLib GoTime Ocpp Errors Config State Bus World Core.
From S2P Require Import Persist Reservations Transactions Load CoreFacts CoreInv CoreOps.
From S2P Require Import CoreTx.

(** ** Loading *)

(** Reservation ids are positive, in range and distinct, and no EVSE has two. *)
Definition file_ok (st : State.State) : Prop :=
  NoDup (sr_ID <$> ss_Reservations st) /\ NoDup (sr_EVSEUID <$> ss_Reservations st) /\
  (forall r, r ∈ ss_Reservations st -> 1 <= sr_ID r < int_max).

Section load.
Context `{MapOrder} `{Env}.

Lemma configured_ok c : cp_ok (ch_ID (cf_Charger c)) (configured c).
Proof.
  unfold configured. generalize (newChargePoint_ok (ch_ID (cf_Charger c))).
  generalize (newChargePoint (ch_ID (cf_Charger c))).
  induction (lo_EVSEs (cf_Location c)) as [|e l IH]; intros cp Hcp; [done|].
  simpl. apply IH. by apply addEVSE_ok.
Qed.

Lemma initial_world_ok c st : core_ok (initial_world c st).
Proof.
  split.
  - intros id cp. simpl. destruct c as [c|]; [|done].
    intros [<- <-]%lookup_singleton_Some. apply configured_ok.
  - split; simpl; [lia|..]; intros; by simplify_map_eq.
Qed.

(** Raising the counter keeps everything. *)
Lemma raise_ok w n :
  core_ok w -> nextReservationID (svc w) <= n ->
  core_ok (set_svc (set_nextReservationID n (svc w)) w).
Proof.
  intros [H1 [K1 K2 K3 K4]] Hn. split; [done|]. split; simpl; try done; [lia|].
  intros id r E. destruct (K2 id r E). split; try done. simpl. lia.
Qed.

Lemma keeps_load_transaction t : keeps core_ok (load_transaction t).
Proof.
  intros w Hw. unfold load_transaction. rewrite M_bind_eq, ensure_eq. cbn [fst snd].
  rewrite M_bind_eq. cbn [fst snd gets]. rewrite M_bind_eq, M_bind_eq. rewrite put_cp_eq. cbn [snd].
  assert (Hf : core_ok (with_cp (st_ChargePointID t)
     (put_transaction (loaded_transaction t (wrap_uint64 (txSeq (svc (ensured (st_ChargePointID t) w)) + 1)))
        (addEVSE (st_EVSEUID t) (st_ConnectorID t) (cp_of (st_ChargePointID t) (svc w))))
     (modify_svc (set_txSeq (wrap_uint64 (txSeq (svc (ensured (st_ChargePointID t) w)) + 1)))
        (ensured (st_ChargePointID t) w)).2)).
  { apply with_cp_core_ok.
    - apply (keeps_counters (set_txSeq _)); [done|]. by apply ensured_core_ok.
    - apply put_transaction_ok.
      + apply (addEVSE_order (st_ChargePointID t)); [apply cp_of_ok, Hw | by left].
      + apply addEVSE_ok, cp_of_ok, Hw. }
  destruct (Atoi (st_ID t)); [|done].
  apply (keeps_counters (fun s => set_nextTransactionID _ s)); done.
Qed.

(** What a loaded reservation leaves: a restored, armed reservation. *)
Definition restored_world (r : State.Reservation) (conn : Z) (w : World) : World :=
  armed_world (loaded_reservation r conn)
    (set_svc (set_nextReservationID (Z.max (nextReservationID (svc w)) (wrap_int (sr_ID r + 1))) (svc w)) w).

Lemma load_reservation_eq t r w :
  load_reservation t r w =
  match connectorID (cfg (svc w)) (sr_EVSEUID r) with
  | Some conn => if After (sr_ExpiresAt r) t then (false, restored_world r conn w) else (true, w)
  | None => (true, w)
  end.
Proof.
  unfold load_reservation. rewrite M_bind_eq. cbn [fst snd gets].
  destruct (After _ _); simpl; destruct (connectorID _ _) as [conn|]; try done.
  rewrite M_bind_eq, M_bind_eq, armLocked_eq, M_bind_eq. cbn. f_equal.
  unfold restored_world, armed_world, put_reservation, modify_svc, modify, set_svc, set_reservations,
    set_nextReservationID, set_counters, set_timers, tick. cbn. by rewrite insert_insert_eq.
Qed.

(** Every reservation held comes from one of [done]. *)
Definition held_from (loaded : list State.Reservation) (w : World) : Prop :=
  forall id r, reservations (svc w) !! id = Some r ->
    exists x, x ∈ loaded /\ sr_ID x = id /\ sr_EVSEUID x = rv_EVSEUID (res r).

Lemma restored_ok r conn loaded w :
  core_ok w -> held_from loaded w -> connectorID (cfg (svc w)) (sr_EVSEUID r) = Some conn ->
  1 <= sr_ID r < int_max ->
  (forall x, x ∈ loaded -> sr_ID x <> sr_ID r /\ sr_EVSEUID x <> sr_EVSEUID r) ->
  core_ok (restored_world r conn w) /\ held_from (loaded ++ [r]) (restored_world r conn w).
Proof.
  intros Hw Hh Hc Hid Hne.
  assert (Hwr : wrap_int (sr_ID r + 1) = sr_ID r + 1) by (apply wrap_int_succ; lia).
  split.
  - pose proof (raise_ok w (Z.max (nextReservationID (svc w)) (wrap_int (sr_ID r + 1))) Hw) as Hr.
    rewrite Hwr in Hr. destruct Hr as [Hr1 Hr2]; [lia|].
    unfold restored_world. rewrite Hwr. split; [done|]. apply res_ok_armed; simpl; try done; [lia| |].
    + intros id r' E Heq. destruct (Hh id r' E) as (x & Hx & _ & Hxe).
      destruct (Hne x Hx) as [_ Hu]. congruence.
    + intros r' E. destruct (Hh _ r' E) as (x & Hx & Hxi & _). by destruct (Hne x Hx).
  - intros id r'. simpl. intros [[<- <-]|[_ E]]%lookup_insert_Some.
    + exists r. split; [|done]. apply elem_of_app. right. by apply list_elem_of_singleton.
    + destruct (Hh id r' E) as (x & Hx & Hxi & Hxe). exists x. split; [|done].
      apply elem_of_app. by left.
Qed.

Lemma for_any_load_ok t l : forall loaded w,
  core_ok w -> held_from loaded w ->
  NoDup (sr_ID <$> loaded ++ l) -> NoDup (sr_EVSEUID <$> loaded ++ l) ->
  (forall r, r ∈ l -> 1 <= sr_ID r < int_max) ->
  core_ok (for_any (load_reservation t) l w).2.
Proof.
  induction l as [|r l IH]; intros loaded w Hw Hh Hn1 Hn2 Hr; [done|].
  cbn [for_any]. rewrite M_bind_eq, M_bind_eq. cbn [snd M_ret].
  assert (Hc : core_ok (load_reservation t r w).2 /\ held_from (loaded ++ [r]) (load_reservation t r w).2).
  { assert (Hh' : held_from (loaded ++ [r]) w).
    { intros id r' E. destruct (Hh id r' E) as (x & Hx & Hx'). exists x. split; [|done].
      apply elem_of_app. by left. }
    rewrite load_reservation_eq. destruct (connectorID _ _) as [conn|] eqn:Ec; [|done].
    destruct (After _ _); [|done]. cbn [snd]. apply restored_ok; try done; [apply Hr; left|].
    intros x Hx. rewrite fmap_app in Hn1. rewrite fmap_app in Hn2.
    apply NoDup_app in Hn1 as (_ & Hn1 & _). apply NoDup_app in Hn2 as (_ & Hn2 & _).
    split; intros Heq.
    - apply (Hn1 (sr_ID x)); [by apply list_elem_of_fmap_2|]. rewrite Heq. left.
    - apply (Hn2 (sr_EVSEUID x)); [by apply list_elem_of_fmap_2|]. rewrite Heq. left. }
  destruct Hc as [Hc1 Hc2]. apply (IH (loaded ++ [r])); try done.
  - by rewrite <- app_assoc.
  - by rewrite <- app_assoc.
  - intros x Hx. apply Hr. by right.
Qed.

Lemma keeps_load_transactions ts w :
  core_ok w -> reservations (svc w) = ∅ ->
  core_ok (for_each load_transaction ts w).2 /\
  reservations (svc (for_each load_transaction ts w).2) = ∅.
Proof.
  intros Hw Hr. split.
  { by apply (keeps_for_each core_ok load_transaction ts (fun t _ => keeps_load_transaction t)). }
  assert (Hk : keeps (fun w => reservations (svc w) = ∅) (for_each load_transaction ts)).
  { apply keeps_for_each. intros t _ w' Hw'. unfold load_transaction.
    rewrite M_bind_eq, ensure_eq. cbn [fst snd]. rewrite M_bind_eq. cbn [fst snd gets].
    rewrite M_bind_eq, M_bind_eq, put_cp_eq. cbn [snd].
    assert (He : reservations (svc (ensured (st_ChargePointID t) w')) = ∅).
    { by destruct (ensured_same (st_ChargePointID t) w') as (_ & -> & _). }
    by destruct (Atoi (st_ID t)). }
  by apply Hk.
Qed.

Lemma loadLocked_ok st w :
  core_ok w -> reservations (svc w) = ∅ -> timers w = ∅ -> file_ok st -> core_ok (loadLocked st w).2.
Proof.
  intros Hw Hr Ht (Hn1 & Hn2 & Hid). unfold loadLocked. rewrite M_bind_eq, M_bind_eq, M_bind_eq.
  set (w1 := (modify_svc _ w).2).
  assert (Hw1 : core_ok w1 /\ reservations (svc w1) = ∅).
  { split; [|done]. destruct Hw as [H1 [K1 K2 K3 K4]]. split; [done|].
    split; simpl; rewrite ?Hr, ?Ht; [lia|..]; intros; by simplify_map_eq. }
  destruct Hw1 as [Hw1 Hr1]. destruct (keeps_load_transactions (ss_Transactions st) w1 Hw1 Hr1) as [Hw2 Hr2].
  apply (for_any_load_ok _ _ []); try done.
  - by apply keeps_now_core.
  - intros id r E. change (reservations (svc (for_each load_transaction (ss_Transactions st) w1).2) !! id
      = Some r) in E. rewrite Hr2 in E. by simplify_map_eq.
Qed.

(** A service built from a file that [persist] could have written is sound. *)
Lemma New_ok c st : (forall s, st = Some s -> file_ok (state s)) -> core_ok (New c st).
Proof.
  intros Hf. unfold New, load. rewrite M_bind_eq. cbn [fst snd gets store initial_world].
  destruct st as [s|]; [|apply initial_world_ok]. cbn [fmap option_fmap option_map].
  rewrite M_bind_eq.
  pose proof (loadLocked_ok (Get s) (initial_world c (Some s)) (initial_world_ok c (Some s))
                eq_refl eq_refl (Hf s eq_refl)) as Hl.
  destruct (loadLocked _ _).1; [|done]. by apply keeps_persistOrLog.
Qed.
End load.

(** ** Actions

    What happens to a service: its operations, its timers, and a reading of the
    clock by one of its users (they share [time.Now]). *)

Inductive action :=
| AConnected (id : string)
| ADisconnected (id reason : string)
| ABooted (id : string) (info : BootInfo)
| ASeen (id : string)
| AHeartbeat (id : string)
| AStatus (id : string) (conn : Z) (st : EVSEStatus) (code : string)
| AMeterValues (id : string) (conn : Z) (summary : string)
| ABegin (r : Reservation)
| AActivate (id : Z)
| AEnd (id : Z) (reason : string)
| AOrphan (id : Z) (reason : string)
| ANextTransactionID
| ANextRemoteStartID
| AStart (id : string) (t : TransactionStart)
| AStop (id tx : string) (meterStop : Z) (reason : string) (at_ : Time)
| AFire (h : nat)
| AExpire (id : Z) (at_ : Time)
| ANow.

Section actions.
Context `{MapOrder} `{Env}.

Definition discard {A} (m : M A) : M unit := m ;; M_ret tt.

Definition run (a : action) : M unit :=
  match a with
  | AConnected id => Connected id
  | ADisconnected id reason => Disconnected id reason
  | ABooted id info => Booted id info
  | ASeen id => Seen id
  | AHeartbeat id => Heartbeat id
  | AStatus id conn st code => SetConnectorStatus id conn st code
  | AMeterValues id conn summary => RecordMeterValues id conn summary
  | ABegin r => discard (BeginReservation r)
  | AActivate id => discard (ActivateReservation id)
  | AEnd id reason => discard (EndReservation id reason)
  | AOrphan id reason => discard (OrphanReservation id reason)
  | ANextTransactionID => discard NextTransactionID
  | ANextRemoteStartID => discard NextRemoteStartID
  | AStart id t => discard (StartTransaction id t)
  | AStop id tx meterStop reason at_ => discard (StopTransaction id tx meterStop reason at_)
  | AFire h => fire h
  | AExpire id at_ => run_expiring id at_
  | ANow => discard now
  end.

Inductive reachable (w0 : World) : World -> Prop :=
| reach_refl : reachable w0 w0
| reach_step w a : reachable w0 w -> has_ids w -> reachable w0 (run a w).2.

Lemma keeps_discard {A} (I : World -> Prop) (m : M A) : keeps I m -> keeps I (discard m).
Proof. intros Hm. apply keeps_bind; [done | intros; apply keeps_ret]. Qed.

(** The actions that hand out no reservation id. *)
Definition no_begin (a : action) : Prop := match a with ABegin _ => False | _ => True end.

Lemma run_no_begin_ok a : no_begin a -> keeps core_ok (run a).
Proof.
  intros Ha. destruct a; try done; unfold run;
    (* every operation but BeginReservation keeps them unconditionally *)
    try (apply keeps_discard;
         first [apply keeps_ActivateReservation | apply keeps_EndReservation
                | apply keeps_OrphanReservation | apply keeps_NextTransactionID
                | apply keeps_NextRemoteStartID | apply keeps_StartTransaction
                | apply keeps_StopTransaction | apply keeps_now_core]).
  - apply keeps_Connected.
  - apply keeps_Disconnected.
  - apply keeps_Booted.
  - apply keeps_Seen.
  - apply keeps_Heartbeat.
  - apply keeps_SetConnectorStatus.
  - apply keeps_RecordMeterValues.
  - apply keeps_fire.
  - apply keeps_run_expiring.
Qed.

(** One action keeps the invariants, as long as there is an id left to hand out. *)
Lemma run_ok a w : core_ok w -> has_ids w -> core_ok (run a w).2.
Proof.
  intros Hw Hid. destruct a; try by apply run_no_begin_ok.
  unfold run, discard. rewrite M_bind_eq. cbn [snd M_ret]. by apply keeps_BeginReservation.
Qed.

Lemma reachable_ok w0 w : core_ok w0 -> reachable w0 w -> core_ok w.
Proof. intros Hw0. induction 1; [done | by apply run_ok]. Qed.
End actions.
