(* ===== verification/Samples.v ===== *)
(** * A concrete station, for evaluating the definitions

    A configuration with two EVSEs, a clock that advances a second per reading,
    a disk that always succeeds (and one that always fails), and an order of map
    iteration. *)

From S2P Require Import Prelude GoLib GoTime Ocpp Errors Config State Bus World Core.
From S2P Require Import Persist Reservations Transactions Load CoreFacts CoreInv CoreOps.
From S2P Require Import CoreTx CoreReach.

Definition sample_evse (uid : string) (conn : Z) : EVSE := mkEVSE uid uid conn [].

Definition sample_config : Config :=
  applyDefaults (mkConfig
    (mkCharger "CP1" "192.0.2.7" "" (mkDuration "" 0) (mkDuration "" 0) (mkDuration "" 0))
    (mkServer "" "") (mkAuth "OFFICE")
    (mkOCPI "DE" "ABC" "http://cpms/ocpi" "a" "c" (mkPush (mkDuration "" 0) 0))
    (mkLocation "L1" "Office" "Street 1" "Berlin" "10115" "DEU" (mkCoordinates "52.5" "13.4")
       [sample_evse "EVSE-1" 1; sample_evse "EVSE-2" 2])).

(** 2026-01-01T00:00:00Z plus a second per reading. *)
Definition sample_time (n : nat) : Time :=
  mkTime ((days_of_date (mkDate 2026 1 1) * seconds_per_day + Z.of_nat n) * second) 0.

Definition sample_env : Env := {| clock := sample_time; disk_result := fun _ => all_well |}.
Definition full_disk_env : Env :=
  {| clock := sample_time; disk_result := fun _ => failing StageWrite (EText "no space left on device") |}.

Definition sample_store : Store := mkStore "state.json" State.empty no_file.

Definition sample_reservation (uid tag : string) (minutes : Z) : Reservation :=
  mkReservation 0 EmptyString "CP1" uid 0 tag (TimeAdd (sample_time 0) (minutes * minute)) zeroTime
    "cli" EmptyString ReservationUnset.

Section running.
Context `{MapOrder} `{Env}.

Definition run_all (acts : list action) (w : World) : World := foldl (fun w a => (run a w).2) w acts.

Lemma run_all_reachable w0 acts w :
  reachable w0 w ->
  (forall pre, pre `prefix_of` acts -> has_ids (run_all pre w)) -> reachable w0 (run_all acts w).
Proof.
  revert w. induction acts as [|a acts IH]; intros w Hr Hid; [done|]. simpl. apply IH.
  - apply reach_step; [done|]. apply (Hid []). apply prefix_nil.
  - intros pre Hpre. apply (Hid (a :: pre)). by apply prefix_cons.
Qed.
End running.

(** A day at the station: it connects, reports its connectors, an EVSE is
    reserved and the reservation is redeemed. *)
Definition sample_actions : list action :=
  [AConnected "CP1"; AStatus "CP1" 1 StatusAvailable "NoError"; AStatus "CP1" 2 StatusCharging "NoError";
   ABegin (sample_reservation "EVSE-1" "OFFICE" 15); AActivate 1].

Definition sample_world : World :=
  @run_all key_order sample_env sample_actions (@New key_order sample_env (Some sample_config) (Some sample_store)).

Lemma sample_store_ok s : Some sample_store = Some s -> file_ok (state s).
Proof. intros [= <-]. split; [|split]; simpl; [apply NoDup_nil_2..|]. by intros r ?%not_elem_of_nil. Qed.

Lemma sample_reachable :
  @reachable key_order sample_env (@New key_order sample_env (Some sample_config) (Some sample_store)) sample_world.
Proof.
  repeat (apply reach_step; [|vm_compute; done]). apply reach_refl.
Qed.
