(* ===== verification/CoreEvents.v ===== *)
(** * The event stream tells the truth (core/service.go, core/event.go)

    [tells m]: whatever [m] publishes, a subscriber that folds the status events
    over what the service showed before knows what it shows afterwards.  It
    holds of every action, so the OCPI push client never has to read the
    service's state to be up to date. *)

From S2P Require Import Prelude GoLib GoTime Ocpp Errors Config State Bus World Core.
From S2P Require Import Persist Reservations Transactions Load CoreFacts CoreInv CoreOps.
From S2P Require Import CoreTx CoreReach.

(** The status a reader sees of any EVSE of any charge point. *)
Definition shown (w : World) : belief := fun id uid => view (cp_of id (svc w)) uid.

Lemma view_unregistered id uid : view (newChargePoint id) uid = StatusUnknown.
Proof. done. Qed.

Lemma shown_with_cp id cp w k uid :
  shown (with_cp id cp w) k uid = if decide (k = id) then view cp uid else shown w k uid.
Proof.
  unfold shown, cp_of, with_cp; simpl. destruct (decide (k = id)) as [->|Hk].
  - by rewrite lookup_insert_eq.
  - by rewrite lookup_insert_ne.
Qed.

Lemma shown_ensured id w k uid : shown (ensured id w) k uid = shown w k uid.
Proof.
  unfold shown, cp_of. destruct (decide (k = id)) as [->|Hk].
  - rewrite ensured_lookup. done.
  - by rewrite ensured_other.
Qed.

Definition tells {A} (m : M A) : Prop := forall w, core_ok w -> has_ids w ->
  exists es, w_bus (m w).2 = publishAll es (w_bus w) /\
    forall id uid, foldl observe (shown w) es id uid = shown (m w).2 id uid.

(** [m] publishes nothing and changes no status. *)
Definition silent {A} (m : M A) : Prop := forall w,
  w_bus (m w).2 = w_bus w /\ forall id uid, shown (m w).2 id uid = shown w id uid.

(** Like [tells], for the critical section: it returns the events. *)
Definition tells_in {A} (m : M A) (events : A -> list Event) : Prop := forall w, core_ok w ->
  w_bus (m w).2 = w_bus w /\
  forall id uid, foldl observe (shown w) (events (m w).1) id uid = shown (m w).2 id uid.

Lemma observe_ext es (b1 b2 : belief) :
  (forall id uid, b1 id uid = b2 id uid) -> forall id uid, foldl observe b1 es id uid = foldl observe b2 es id uid.
Proof.
  revert b1 b2. induction es as [|e es IH]; intros b1 b2 Hb; [done|]. simpl. apply IH.
  intros id uid. unfold observe. case_match; [done|apply Hb].
Qed.

Section rules.
Context `{MapOrder} `{Env}.

Lemma silent_bind {A B} (m : M A) (f : A -> M B) :
  silent m -> (forall a, silent (f a)) -> silent (M_bind m f).
Proof.
  intros Hm Hf w. rewrite M_bind_eq. destruct (Hm w) as [H1 H2].
  destruct (Hf (m w).1 (m w).2) as [H3 H4]. split; [congruence|].
  intros id uid. by rewrite H4, H2.
Qed.

Lemma silent_tells {A} (m : M A) : silent m -> tells m.
Proof. intros Hm w _ _. exists []. destruct (Hm w) as [H1 H2]. by split; [|intros; rewrite H2]. Qed.

Lemma silent_ret {A} (a : A) : silent (M_ret a).
Proof. by intros w. Qed.
Lemma silent_gets {A} (f : World -> A) : silent (gets f).
Proof. by intros w. Qed.
Lemma silent_now : silent now.
Proof. by intros w. Qed.

Lemma silent_persist : silent persist.
Proof.
  intros w. destruct (persist_svc w) as (E1 & E2 & _). split; [done|].
  intros id uid. unfold shown. by rewrite E1.
Qed.

Lemma silent_persistOrLog : silent persistOrLog.
Proof. apply silent_bind; [apply silent_persist | intros; apply silent_ret]. Qed.

Lemma silent_modify_svc f : (forall s, cps (f s) = cps s) -> silent (modify_svc f).
Proof. intros Hf w. split; [done|]. intros id uid. unfold shown, cp_of. simpl. by rewrite Hf. Qed.

Lemma silent_stopTimer r : silent (stopTimer r).
Proof. intros w. rewrite stopTimer_eq. unfold stop_world. by destruct (timer r). Qed.

Lemma silent_endLocked r reason : silent (endLocked r reason).
Proof. intros w. rewrite endLocked_eq. unfold end_world, stop_world. by destruct (timer r). Qed.

(** [m] publishes events of other kinds only, and changes no status. *)
Definition quiet {A} (m : M A) : Prop := forall w, exists es,
  w_bus (m w).2 = publishAll es (w_bus w) /\
  Forall (fun e => Kind e <> EventEVSEStatusChanged) es /\
  forall id uid, shown (m w).2 id uid = shown w id uid.

Lemma silent_quiet {A} (m : M A) : silent m -> quiet m.
Proof. intros Hm w. exists []. destruct (Hm w) as [H1 H2]. by split. Qed.

Lemma quiet_bind {A B} (m : M A) (f : A -> M B) :
  quiet m -> (forall a, quiet (f a)) -> quiet (M_bind m f).
Proof.
  intros Hm Hf w. rewrite M_bind_eq. destruct (Hm w) as (es1 & H1 & F1 & V1).
  destruct (Hf (m w).1 (m w).2) as (es2 & H2 & F2 & V2). exists (es1 ++ es2). split; [|split].
  - by rewrite H2, H1, publishAll_app.
  - by apply Forall_app.
  - intros id uid. by rewrite V2, V1.
Qed.

Lemma quiet_publish es :
  Forall (fun e => Kind e <> EventEVSEStatusChanged) es -> quiet (publish_events es).
Proof. intros Hes w. by exists es. Qed.

Lemma quiet_ret {A} (a : A) : quiet (M_ret a).
Proof. apply silent_quiet, silent_ret. Qed.

Lemma quiet_tells {A} (m : M A) : quiet m -> tells m.
Proof.
  intros Hm w _ _. destruct (Hm w) as (es & H1 & F & V). exists es. split; [done|].
  intros id uid. by rewrite observe_others, V.
Qed.

(** One recompute of a charge point that was in shape. *)
Lemma recompute_tells w id cp at_ pre :
  cp_shape id cp -> (forall uid, view cp uid = shown w id uid) ->
  Forall (fun e => Kind e <> EventEVSEStatusChanged) pre ->
  forall k uid, foldl observe (shown w) (pre ++ (recompute at_ cp).2) k uid =
                shown (with_cp id (recompute at_ cp).1 w) k uid.
Proof.
  intros Hs Hv Hpre k uid. rewrite foldl_app.
  rewrite (observe_ext (recompute at_ cp).2 _ (shown w)) by (intros; by apply observe_others).
  rewrite (recompute_observed at_ cp id) by done. by rewrite shown_with_cp.
Qed.
End rules.

Section operations.
Context `{MapOrder} `{Env}.

(** An operation of service.go: one clock reading, one critical section, its
    events. *)
Lemma tells_timed (m : Time -> M (list Event)) :
  (forall t, tells_in (m t) (fun es => es)) -> tells (t <- now ;; es <- m t ;; publish_events es).
Proof.
  intros Hm w Hw Hid. rewrite M_bind_eq. cbn [fst snd now]. rewrite M_bind_eq.
  destruct (Hm (clock (ticks w)) (tick w)) as [H1 H2]; [by apply keeps_now_core|].
  eexists. split; [|exact H2]. simpl. by rewrite H1.
Qed.

Lemma tells_Connected id : tells (Connected id).
Proof.
  apply (tells_timed (Connected_locked id)). intros t w Hw. rewrite Connected_locked_eq.
  split; [done|]. apply (recompute_tells w id _ t [event EventChargePointConnected t id]).
  - apply set_lastSeen_shape, set_online_shape, cp_ok_shape, cp_of_ok, Hw.
  - done.
  - by apply Forall_singleton.
Qed.

Lemma tells_Disconnected id reason : tells (Disconnected id reason).
Proof.
  apply (tells_timed (Disconnected_locked id reason)). intros t w Hw.
  rewrite Disconnected_locked_eq. cbn zeta. destruct (cp_online _); cbn [fst snd].
  - split; [done|]. apply (recompute_tells w id _ t [disconnected_event t id reason]).
    + apply set_lastDisconnect_shape, set_online_shape, cp_ok_shape, cp_of_ok, Hw.
    + done.
    + by apply Forall_singleton.
  - split; [unfold ensured; by destruct (cps (svc w) !! id)|]. intros k uid. by rewrite shown_ensured.
Qed.

Lemma on_status_view c id conn st code t cp uid :
  view (on_status c id conn st code t cp) uid = view cp uid.
Proof.
  unfold on_status. destruct (conn =? 0); [by case_decide|].
  change (view (addEVSE (evseUID c id conn) conn (set_lastSeen t cp)) uid = view cp uid).
  by rewrite addEVSE_view.
Qed.

Lemma tells_SetConnectorStatus id conn st code : tells (SetConnectorStatus id conn st code).
Proof.
  apply (tells_timed (SetConnectorStatus_locked id conn st code)). intros t w Hw.
  rewrite SetConnectorStatus_locked_eq. cbn zeta. cbn [fst snd]. split; [done|].
  apply (recompute_tells w id).
  - apply on_status_shape, cp_of_ok, Hw.
  - intros uid. apply on_status_view.
  - unfold station_events. case_match; [by apply Forall_singleton | done].
Qed.

Lemma silent_put_view id (f : chargePointState -> chargePointState) :
  (forall cp uid, view (f cp) uid = view cp uid) -> silent (cp <- ensure id ;; put_cp id (f cp)).
Proof.
  intros Hf w. rewrite M_bind_eq, ensure_eq. cbn [fst snd]. rewrite put_cp_ensured. split; [done|].
  intros k uid. cbn [snd]. rewrite shown_with_cp. case_decide as Hk; [|done]. subst k. apply Hf.
Qed.

(** An operation that updates a charge point without touching its statuses and
    publishes one event of another kind. *)
Lemma tells_note (id : string) (f : Time -> World -> chargePointState -> chargePointState)
    (e : Time -> World -> Event) (op : M unit) :
  (forall w, op w = let t := clock (ticks w) in
     (tt, set_bus (publish (e t w) (w_bus w)) (with_cp id (f t w (cp_of id (svc w))) (tick w)))) ->
  (forall t w cp uid, view (f t w cp) uid = view cp uid) ->
  (forall t w, Kind (e t w) <> EventEVSEStatusChanged) -> tells op.
Proof.
  intros Hop Hf Hk w _ _. rewrite Hop. cbn zeta. exists [e (clock (ticks w)) w]. split; [done|].
  intros k uid. simpl. rewrite observe_other by apply Hk.
  change (shown w k uid = shown (with_cp id (f (clock (ticks w)) w (cp_of id (svc w))) w) k uid).
  rewrite shown_with_cp. case_decide as Hd; [|done]. subst k. by rewrite Hf.
Qed.

Lemma ensured_tick id w : ensured id (tick w) = tick (ensured id w).
Proof. unfold ensured; simpl. by destruct (cps (svc w) !! id). Qed.

Lemma tells_Heartbeat id : tells (Heartbeat id).
Proof.
  eapply (tells_note id (fun t _ cp => set_lastSeen t cp) (fun t _ => event EventHeartbeat t id));
    try done.
  intros w. unfold Heartbeat. rewrite M_bind_eq. cbn [fst snd now].
  rewrite M_bind_eq, ensure_eq. cbn [fst snd]. by rewrite M_bind_eq, put_cp_ensured.
Qed.

Lemma tells_Booted id info : tells (Booted id info).
Proof.
  eapply (tells_note id
    (fun t _ cp => set_lastSeen t (set_boot (mkBootInfo (bi_Vendor info) (bi_Model info)
                      (bi_SerialNumber info) (bi_FirmwareVersion info) t) cp))
    (fun t _ => mkEvent EventBootNotified t id EmptyString StatusNone StatusNone EmptyString
                  EmptyString 0 EmptyString (BootInfo_String info))); try done.
  intros w. unfold Booted. rewrite M_bind_eq. cbn [fst snd now].
  rewrite M_bind_eq, ensure_eq. cbn [fst snd]. by rewrite M_bind_eq, put_cp_ensured.
Qed.

Lemma tells_RecordMeterValues id conn summary : tells (RecordMeterValues id conn summary).
Proof.
  eapply (tells_note id
    (fun t w cp => set_lastSeen t (addEVSE (evseUID (cfg (svc w)) id conn) conn cp))
    (fun t w => mkEvent EventMeterValues t id (evseUID (cfg (svc w)) id conn) StatusNone StatusNone
                  EmptyString EmptyString 0 EmptyString summary)).
  - intros w. unfold RecordMeterValues. rewrite M_bind_eq. cbn [fst snd now].
    rewrite M_bind_eq, ensure_eq. cbn [fst snd]. rewrite M_bind_eq. cbn [fst snd gets].
    by rewrite M_bind_eq, put_cp_ensured, ensured_cfg.
  - intros t w cp uid. change (view (addEVSE (evseUID (cfg (svc w)) id conn) conn cp) uid = view cp uid).
    apply addEVSE_view.
  - done.
Qed.

Lemma tells_Seen id : tells (Seen id).
Proof.
  apply silent_tells, silent_bind; [apply silent_now|]. intros t. by apply silent_put_view.
Qed.

(** *** Reservations: no status changes *)

Lemma silent_put_reservation r : silent (put_reservation r).
Proof. by apply silent_modify_svc. Qed.
Lemma silent_delete_reservation id : silent (delete_reservation id).
Proof. by apply silent_modify_svc. Qed.
Lemma silent_afterFunc d id t : silent (afterFunc d id t).
Proof. by intros w. Qed.

Lemma silent_armLocked r : silent (armLocked r).
Proof.
  apply silent_bind; [apply silent_stopTimer|]. intros r'.
  apply silent_bind; [apply silent_now|]. intros t.
  apply silent_bind; [apply silent_afterFunc|]. intros h.
  apply silent_bind; [apply silent_put_reservation|]. intros _. apply silent_ret.
Qed.

Lemma silent_Begin_locked r : silent (Begin_locked r).
Proof.
  intros w. rewrite Begin_locked_eq. destruct (connectorID _ _); [|done].
  by destruct (reservationOnLocked _ _).
Qed.

Lemma silent_BeginReservation r : silent (BeginReservation r).
Proof.
  apply silent_bind; [apply silent_Begin_locked|]. intros [r'|e]; [|apply silent_ret].
  apply silent_bind; [apply silent_persist|]. intros [e|]; [|apply silent_ret].
  apply silent_bind; [apply silent_delete_reservation|]. intros _. apply silent_ret.
Qed.

Lemma silent_Activate_locked id : silent (Activate_locked id).
Proof.
  apply silent_bind; [apply silent_gets|]. intros [r|]; [|apply silent_ret].
  case_decide; [|apply silent_ret].
  apply silent_bind; [apply silent_armLocked|]. intros r'. apply silent_ret.
Qed.

Lemma silent_End_locked id reason : silent (End_locked id reason).
Proof.
  apply silent_bind; [apply silent_gets|]. intros [r|]; [|apply silent_ret].
  apply silent_bind; [apply silent_endLocked|]. intros e. apply silent_ret.
Qed.

Lemma silent_Orphan_locked id : silent (Orphan_locked id).
Proof.
  apply silent_bind; [apply silent_gets|]. intros [r|]; [|apply silent_ret].
  case_decide; [|apply silent_ret].
  apply silent_bind; [apply silent_stopTimer|]. intros r'.
  apply silent_bind; [apply silent_put_reservation|]. intros _. apply silent_ret.
Qed.

Lemma silent_expire_locked id t : silent (expire_locked id t).
Proof.
  apply silent_bind; [apply silent_gets|]. intros [r|]; [|apply silent_ret].
  case_match; [apply silent_ret|].
  apply silent_bind; [apply silent_endLocked|]. intros e. apply silent_ret.
Qed.

Lemma quiet_publish1 e : Kind e <> EventEVSEStatusChanged -> quiet (publish_events [e]).
Proof. intros He. by apply quiet_publish, Forall_singleton. Qed.

Lemma quiet_ActivateReservation id : quiet (ActivateReservation id).
Proof.
  apply quiet_bind; [apply silent_quiet, silent_Activate_locked|]. intros [out|]; [|apply quiet_ret].
  apply quiet_bind; [apply silent_quiet, silent_persistOrLog|]. intros _.
  apply quiet_bind; [apply silent_quiet, silent_now|]. intros t.
  apply quiet_bind; [by apply quiet_publish1|]. intros _. apply quiet_ret.
Qed.

(** Every [EventReservationEnded] comes from [ended_event]. *)
Lemma End_locked_event id reason w r e :
  (End_locked id reason w).1 = Some (r, e) -> Kind e = EventReservationEnded.
Proof. rewrite End_locked_eq. destruct (reservations (svc w) !! id); [|done]. by intros [= <- <-]. Qed.

Lemma expire_locked_event id t w e :
  (expire_locked id t w).1 = Some e -> Kind e = EventReservationEnded.
Proof.
  rewrite expire_locked_eq. destruct (reservations (svc w) !! id); [|done].
  case_decide; [|done]. by intros [= <-].
Qed.

(** [quiet_bind] when the continuation depends on what the result can be. *)
Lemma quiet_bind_post {A B} (m : M A) (f : A -> M B) (post : A -> Prop) :
  quiet m -> (forall w, post (m w).1) -> (forall a, post a -> quiet (f a)) -> quiet (M_bind m f).
Proof.
  intros Hm Hp Hf w. rewrite M_bind_eq. destruct (Hm w) as (es1 & H1 & F1 & V1).
  destruct (Hf (m w).1 (Hp w) (m w).2) as (es2 & H2 & F2 & V2). exists (es1 ++ es2). split; [|split].
  - by rewrite H2, H1, publishAll_app.
  - by apply Forall_app.
  - intros id uid. by rewrite V2, V1.
Qed.

Lemma quiet_EndReservation id reason : quiet (EndReservation id reason).
Proof.
  eapply (quiet_bind_post _ _ (fun o => forall r e, o = Some (r, e) -> Kind e = EventReservationEnded)).
  - apply silent_quiet, silent_End_locked.
  - intros w r e. apply End_locked_event.
  - intros [[r e]|] He; [|apply quiet_ret]. case_decide; [apply quiet_ret|].
    apply quiet_bind; [apply silent_quiet, silent_persistOrLog|]. intros _.
    apply quiet_bind; [|intros; apply quiet_ret]. apply quiet_publish1. by rewrite (He r e).
Qed.

Lemma quiet_OrphanReservation id reason : quiet (OrphanReservation id reason).
Proof.
  apply quiet_bind; [apply silent_quiet, silent_Orphan_locked|]. intros [out|]; [|apply quiet_ret].
  apply quiet_bind; [apply silent_quiet, silent_now|]. intros t.
  apply quiet_bind; [by apply quiet_publish1|]. intros _. apply quiet_ret.
Qed.

Lemma silent_set_expiring f : silent (modify (fun w => set_expiring (f w) w)).
Proof. by intros w. Qed.

Lemma quiet_run_expiring id t : quiet (run_expiring id t).
Proof.
  apply quiet_bind; [apply silent_quiet, silent_gets|]. intros [|]; [|apply quiet_ret].
  eapply (quiet_bind_post _ _ (fun o => forall e, o = Some e -> Kind e = EventReservationEnded)).
  - apply silent_quiet, silent_expire_locked.
  - intros w e. apply expire_locked_event.
  - intros o He. apply quiet_bind; [apply silent_quiet, silent_set_expiring|]. intros _.
    destruct o as [e|]; [|apply quiet_ret].
    apply quiet_bind; [apply silent_quiet, silent_persistOrLog|]. intros _.
    apply quiet_publish1. by rewrite (He e).
Qed.

Lemma quiet_fire h : quiet (fire h).
Proof.
  apply quiet_bind; [apply silent_quiet, silent_gets|]. intros [t|]; [|apply quiet_ret].
  by apply silent_quiet.
Qed.

(** *** Transactions *)

Lemma quiet_NextTransactionID : quiet NextTransactionID.
Proof.
  apply quiet_bind; [|intros; apply quiet_bind; [apply silent_quiet, silent_persistOrLog |
    intros; apply quiet_ret]].
  apply silent_quiet, silent_bind; [apply silent_gets|]. intros id.
  apply silent_bind; [by apply silent_modify_svc | intros; apply silent_ret].
Qed.

Lemma quiet_NextRemoteStartID : quiet NextRemoteStartID.
Proof.
  apply quiet_bind; [|intros; apply quiet_bind; [apply silent_quiet, silent_persist |
    intros; apply quiet_ret]].
  apply silent_quiet, silent_bind; [apply silent_gets|]. intros id.
  apply silent_bind; [by apply silent_modify_svc | intros; apply silent_ret].
Qed.

Lemma redeem_shown cpID uid t w :
  w_bus (redeem cpID uid t w).2 = w_bus w /\
  (forall k u, shown (redeem cpID uid t w).2 k u = shown w k u) /\
  Forall (fun e => Kind e <> EventEVSEStatusChanged) (redeem cpID uid t w).1.2.
Proof.
  rewrite redeem_eq. destruct (redeem_target _ _ _ _) as [[r b]|]; [|done]. cbn [fst snd].
  unfold end_world, stop_world. split; [by destruct (timer r)|]. split; [by destruct (timer r)|].
  by apply Forall_singleton.
Qed.

Lemma seq_world_shown id w : w_bus (seq_world id w) = w_bus w /\
  forall k u, shown (seq_world id w) k u = shown w k u.
Proof.
  split; [unfold seq_world, ensured; by destruct (cps (svc w) !! id)|].
  intros k u. by rewrite <- (shown_ensured id w k u).
Qed.

Lemma StartTransaction_locked_quiet cpID t t0 :
  silent (StartTransaction_locked cpID t t0) /\
  forall w, Forall (fun e => Kind e <> EventEVSEStatusChanged) (StartTransaction_locked cpID t t0 w).1.2.
Proof.
  split; intros w; rewrite StartTransaction_locked_eq; cbn zeta; cbn [fst snd];
    destruct (redeem_shown cpID (evseUID (cfg (svc w)) cpID (ts_ConnectorID t)) t (seq_world cpID w))
      as (R1 & R2 & R3); [|exact R3].
  destruct (seq_world_shown cpID w) as [S1 S2]. split; [simpl; by rewrite R1|].
  intros k u. rewrite shown_with_cp. case_decide as Hk.
  - subst k. change (view (addEVSE (evseUID (cfg (svc w)) cpID (ts_ConnectorID t)) (ts_ConnectorID t)
      (cp_of cpID (svc w))) u = shown w cpID u). by rewrite addEVSE_view.
  - rewrite <- S2, <- R2. done.
Qed.

Lemma quiet_time (t : Time) : quiet (if IsZero t then now else M_ret t).
Proof. destruct (IsZero t); apply silent_quiet; [apply silent_now | apply silent_ret]. Qed.

Lemma quiet_StartTransaction cpID t : quiet (StartTransaction cpID t).
Proof.
  apply quiet_bind; [apply quiet_time|]. intros t0.
  destruct (StartTransaction_locked_quiet cpID t t0) as [Hs He].
  apply (quiet_bind_post _ _ (fun r => Forall (fun e => Kind e <> EventEVSEStatusChanged) r.2));
    [by apply silent_quiet | exact He |]. intros [tx es] Hes.
  apply quiet_bind; [apply silent_quiet, silent_persistOrLog|]. intros _.
  apply quiet_bind; [by apply quiet_publish, Forall_cons|]. intros _. apply quiet_ret.
Qed.

Lemma silent_StopTransaction_locked cpID txID m reason t :
  silent (StopTransaction_locked cpID txID m reason t).
Proof.
  intros w. rewrite StopTransaction_locked_eq. cbn zeta.
  assert (silent_e : w_bus (ensured cpID w) = w_bus w /\
  forall k u, shown (ensured cpID w) k u = shown w k u).
  { split; [unfold ensured; by destruct (cps (svc w) !! cpID)|]. intros. apply shown_ensured. }
  destruct (cp_transactions _ !! txID); [|done]. destruct (Active _); [|done]. cbn [snd].
  split; [done|]. intros k u. rewrite shown_with_cp. case_decide as Hk; [|done]. by subst k.
Qed.

Lemma quiet_StopTransaction cpID txID m reason t : quiet (StopTransaction cpID txID m reason t).
Proof.
  apply quiet_bind; [apply quiet_time|]. intros t0.
  apply quiet_bind; [apply silent_quiet, silent_StopTransaction_locked|].
  intros [tx|]; [|apply quiet_ret].
  apply quiet_bind; [apply silent_quiet, silent_persistOrLog|]. intros _.
  apply quiet_bind; [by apply quiet_publish1|]. intros _. apply quiet_ret.
Qed.

Lemma quiet_discard {A} (m : M A) : quiet m -> quiet (discard m).
Proof. intros Hm. apply quiet_bind; [done|]. intros _. apply quiet_ret. Qed.

Lemma run_tells a : tells (run a).
Proof.
  destruct a.
  - apply tells_Connected.
  - apply tells_Disconnected.
  - apply tells_Booted.
  - apply tells_Seen.
  - apply tells_Heartbeat.
  - apply tells_SetConnectorStatus.
  - apply tells_RecordMeterValues.
  - apply quiet_tells, quiet_discard, silent_quiet, silent_BeginReservation.
  - apply quiet_tells, quiet_discard, quiet_ActivateReservation.
  - apply quiet_tells, quiet_discard, quiet_EndReservation.
  - apply quiet_tells, quiet_discard, quiet_OrphanReservation.
  - apply quiet_tells, quiet_discard, quiet_NextTransactionID.
  - apply quiet_tells, quiet_discard, quiet_NextRemoteStartID.
  - apply quiet_tells, quiet_discard, quiet_StartTransaction.
  - apply quiet_tells, quiet_discard, quiet_StopTransaction.
  - apply quiet_tells, quiet_fire.
  - apply quiet_tells, quiet_run_expiring.
  - apply quiet_tells, quiet_discard, silent_quiet. by intros w.
Qed.
End operations.
