(* ===== verification/CoreCounters.v ===== *)
(** * What no action ever undoes, and what a charge point has been heard to say

    [keeps_svc] walks through an operation's definition and leaves the updates
    of the service it makes; it shows that the reservation id counter never goes
    back and the configuration never changes.  [hears_walk] does the same for what
    the service holds of a charge point's own words, which is the last of them in
    every [trace] of actions. *)

From S2P Require Import Prelude GoLib GoTime Ocpp Errors Config State Bus World Core.
From S2P Require Import Persist Reservations Transactions Load CoreFacts CoreInv CoreOps.
From S2P Require Import CoreTx CoreReach.

(** A predicate on the service that only the reservation counter and the
    configuration can break. *)
Definition counts (c : option Config) (R : Z -> Prop) (w : World) : Prop :=
  cfg (svc w) = c /\ R (nextReservationID (svc w)).

Abbreviation upto c n := (counts c (Z.le n)).

Definition harmless (f : Service -> Service) : Prop :=
  forall s, cfg (f s) = cfg s /\ nextReservationID (f s) = nextReservationID s.

Section primitives.
Context `{MapOrder} `{Env} (c : option Config) (R : Z -> Prop).

Lemma upto_same w w' :
  cfg (svc w') = cfg (svc w) -> nextReservationID (svc w') = nextReservationID (svc w) ->
  counts c R w -> counts c R w'.
Proof. unfold counts. by intros -> ->. Qed.

Lemma upto_svc f : harmless f -> keeps (counts c R) (modify_svc f).
Proof. intros Hf w. apply upto_same; apply Hf. Qed.
Lemma upto_now : keeps (counts c R) now.
Proof. by intros w. Qed.
Lemma upto_publish es : keeps (counts c R) (publish_events es).
Proof. by intros w. Qed.
Lemma upto_persist : keeps (counts c R) persist.
Proof. intros w. destruct (persist_svc w) as [E _]. apply upto_same; by rewrite E. Qed.
Lemma upto_persistOrLog : keeps (counts c R) persistOrLog.
Proof. apply keeps_bind; [apply upto_persist | intros; apply keeps_ret]. Qed.
Lemma upto_ensure id : keeps (counts c R) (ensure id).
Proof.
  intros w. rewrite ensure_eq. cbn [snd]. destruct (ensured_same id w) as (E1 & _ & E2 & _).
  by apply upto_same.
Qed.
Lemma upto_put_cp id cp : keeps (counts c R) (put_cp id cp).
Proof. by apply upto_svc. Qed.
Lemma upto_put_reservation r : keeps (counts c R) (put_reservation r).
Proof. by apply upto_svc. Qed.
Lemma upto_delete_reservation id : keeps (counts c R) (delete_reservation id).
Proof. by apply upto_svc. Qed.
Lemma upto_stopTimer r : keeps (counts c R) (stopTimer r).
Proof. intros w. rewrite stopTimer_eq. unfold stop_world. by destruct (timer r). Qed.
Lemma upto_endLocked r reason : keeps (counts c R) (endLocked r reason).
Proof. intros w. rewrite endLocked_eq. unfold end_world, stop_world. by destruct (timer r). Qed.
Lemma upto_afterFunc d id t : keeps (counts c R) (afterFunc d id t).
Proof. by intros w. Qed.
Lemma upto_set_expiring f : keeps (counts c R) (modify (fun w => set_expiring (f w) w)).
Proof. by intros w. Qed.
End primitives.

Create HintDb upto discriminated.
#[export] Hint Resolve keeps_ret keeps_gets upto_now upto_publish upto_persist upto_persistOrLog
  upto_ensure upto_put_cp upto_put_reservation upto_delete_reservation upto_stopTimer
  upto_endLocked upto_afterFunc upto_set_expiring : upto.

Ltac keeps_svc := keeps_walk ltac:(try (by apply upto_svc)) ltac:(try solve [auto with upto]).

Section operations.
Context `{MapOrder} `{Env} (c : option Config) (R : Z -> Prop) (n : Z).

Lemma upto_armLocked r : keeps (counts c R) (armLocked r).
Proof. unfold armLocked. keeps_svc. Qed.

Lemma upto_redeem cpID uid t : keeps (counts c R) (redeem cpID uid t).
Proof. unfold redeem. keeps_svc. Qed.

Lemma upto_Begin r :
  triple (fun w => upto c n w /\ core_ok w /\ has_ids w) (BeginReservation r) (fun _ => upto c n).
Proof.
  unfold BeginReservation. eapply (triple_bind _ _ _ (fun _ => upto c n)).
  - intros w (Hu & Hw & Hid). rewrite Begin_locked_eq. destruct (connectorID _ _); [|done].
    destruct (reservationOnLocked _ _); [done|]. destruct Hu as [Hc Hn]. split; [done|]. simpl.
    unfold has_ids in Hid. pose proof (rk_next w (proj2 Hw)).
    rewrite wrap_int_succ by lia. lia.
  - intros b. change (keeps (upto c n) (match b with
      | inr e => M_ret (inr e)
      | inl r => err <- persist ;; match err with
          | Some e => delete_reservation (rv_ID r) ;; M_ret (inr (EWrap "recording the reservation: " e EmptyString))
          | None => M_ret (inl r) end end)). keeps_svc.
Qed.
End operations.

#[export] Hint Resolve upto_armLocked upto_redeem : upto.

Section run.
Context `{MapOrder} `{Env}.

(** Every action but [BeginReservation] leaves the reservation counter alone. *)
Lemma run_counts c R a : no_begin a -> keeps (counts c R) (run a).
Proof.
  intros Hb. destruct a; try done; unfold run, discard;
    unfold Connected, Connected_locked, Disconnected, Disconnected_locked, Booted, Seen, Heartbeat,
      SetConnectorStatus, SetConnectorStatus_locked, RecordMeterValues, ActivateReservation,
      Activate_locked, EndReservation, End_locked, OrphanReservation, Orphan_locked,
      NextTransactionID, NextTransactionID_locked, NextRemoteStartID, NextRemoteStartID_locked,
      StartTransaction, StartTransaction_locked, StopTransaction, StopTransaction_locked, fire,
      run_expiring, expire_locked; cbv zeta; keeps_svc; by intros v.
Qed.

Lemma run_upto c n a w :
  core_ok w -> has_ids w -> upto c n w -> upto c n (run a w).2.
Proof.
  intros Hw Hid Hu. destruct a; try by apply run_counts.
  unfold run, discard. rewrite M_bind_eq. cbn [snd M_ret]. by apply (upto_Begin c n).
Qed.

(** The counter never goes back and the configuration never changes.  [hears_walk] does the same for what
    the service holds of a charge point's own words, which is the last of them in
    every [trace] of actions. *)
Lemma reachable_upto w0 w :
  core_ok w0 -> reachable w0 w -> upto (cfg (svc w0)) (nextReservationID (svc w0)) w.
Proof.
  intros Hw0 Hr. induction Hr as [|w a Hr IH Hid]; [by split|].
  apply run_upto; [by eapply reachable_ok | done | done].
Qed.
End run.

(** ** What a charge point has been heard to say *)

(** What actions there have been, the newest first. *)
Inductive trace `{MapOrder} `{Env} (w0 : World) : list action -> World -> Prop :=
| trace_nil : trace w0 [] w0
| trace_step l w a : trace w0 l w -> has_ids w -> trace w0 (a :: l) (run a w).2.

Lemma trace_reachable `{MapOrder} `{Env} w0 w : reachable w0 w <-> exists l, trace w0 l w.
Proof.
  split.
  - induction 1 as [|w a Hr [l Hl] Hid]; [by exists []; constructor|]. exists (a :: l). by constructor.
  - intros [l Hl]. induction Hl; [constructor|by constructor].
Qed.

(** The last word about the connection. *)
Fixpoint last_online (id : string) (l : list action) : bool :=
  match l with
  | [] => false
  | AConnected k :: l => if decide (k = id) then true else last_online id l
  | ADisconnected k _ :: l => if decide (k = id) then false else last_online id l
  | _ :: l => last_online id l
  end.

(** The last report about the station as a whole. *)
Fixpoint last_station (id : string) (l : list action) : EVSEStatus :=
  match l with
  | [] => StatusAvailable
  | AStatus k conn st _ :: l => if decide (k = id /\ conn = 0) then st else last_station id l
  | _ :: l => last_station id l
  end.

(** The last report about the connector that is the EVSE [uid]. *)
Fixpoint last_report (c : option Config) (id uid : string) (l : list action) : option EVSEStatus :=
  match l with
  | [] => None
  | AStatus k conn st _ :: l =>
    if decide (k = id /\ conn <> 0 /\ evseUID c id conn = uid) then Some st else last_report c id uid l
  | _ :: l => last_report c id uid l
  end.

(** The fields of a charge point that hold what it has said. *)
Definition heard (cp : chargePointState) : bool * EVSEStatus * gmap string EVSEStatus :=
  (cp_online cp, cp_station cp, cp_reported cp).

Definition hears (T : string -> bool * EVSEStatus * gmap string EVSEStatus) (w : World) : Prop :=
  forall id, heard (cp_of id (svc w)) = T id.

Lemma heard_addEVSE uid conn cp : heard (addEVSE uid conn cp) = heard cp.
Proof. unfold addEVSE. by case_match. Qed.

Section hearing.
Context `{MapOrder} `{Env} (T : string -> bool * EVSEStatus * gmap string EVSEStatus).

Lemma hears_same w w' : cps (svc w') = cps (svc w) -> hears T w -> hears T w'.
Proof. unfold hears, cp_of. by intros ->. Qed.

Lemma hears_with_cp id cp w : heard cp = T id -> hears T w -> hears T (with_cp id cp w).
Proof.
  intros Hcp Hw k. unfold cp_of, with_cp. simpl. destruct (decide (k = id)) as [->|Hk].
  - by rewrite lookup_insert_eq.
  - rewrite lookup_insert_ne by done. apply Hw.
Qed.

Lemma hears_put id cp : heard cp = T id -> keeps (hears T) (put_cp id cp).
Proof. intros Hcp w. by apply (hears_with_cp id cp w). Qed.

(** The charge point [ensure] gives has said what it has said. *)
Lemma hears_ensure {A} id (k : chargePointState -> M A) :
  (forall cp, heard cp = T id -> keeps (hears T) (k cp)) -> keeps (hears T) (M_bind (ensure id) k).
Proof.
  intros Hk w Hw. rewrite M_bind_eq, ensure_eq. cbn [fst snd]. apply Hk; [by apply Hw|].
  unfold ensured. destruct (cps (svc w) !! id) eqn:E; [done|]. apply (hears_with_cp id _ w); [|done].
  specialize (Hw id). unfold cp_of in Hw. by rewrite E in Hw.
Qed.

Lemma hears_svc f : (forall s, cps (f s) = cps s) -> keeps (hears T) (modify_svc f).
Proof. intros Hf w. by apply hears_same, Hf. Qed.
Lemma hears_now : keeps (hears T) now.
Proof. by intros w. Qed.
Lemma hears_publish es : keeps (hears T) (publish_events es).
Proof. by intros w. Qed.
Lemma hears_persist : keeps (hears T) persist.
Proof. intros w. destruct (persist_svc w) as [E _]. apply hears_same. by rewrite E. Qed.
Lemma hears_persistOrLog : keeps (hears T) persistOrLog.
Proof. apply keeps_bind; [apply hears_persist | intros; apply keeps_ret]. Qed.
Lemma hears_put_reservation r : keeps (hears T) (put_reservation r).
Proof. by apply hears_svc. Qed.
Lemma hears_delete_reservation id : keeps (hears T) (delete_reservation id).
Proof. by apply hears_svc. Qed.
Lemma hears_stopTimer r : keeps (hears T) (stopTimer r).
Proof. intros w. rewrite stopTimer_eq. unfold stop_world. by destruct (timer r). Qed.
Lemma hears_endLocked r reason : keeps (hears T) (endLocked r reason).
Proof. intros w. rewrite endLocked_eq. unfold end_world, stop_world. by destruct (timer r). Qed.
Lemma hears_afterFunc d id t : keeps (hears T) (afterFunc d id t).
Proof. by intros w. Qed.
Lemma hears_set_expiring f : keeps (hears T) (modify (fun w => set_expiring (f w) w)).
Proof. by intros w. Qed.
End hearing.

Create HintDb hears discriminated.
#[export] Hint Resolve keeps_ret keeps_gets hears_now hears_publish hears_persist hears_persistOrLog
  hears_put_reservation hears_delete_reservation hears_stopTimer hears_endLocked hears_afterFunc
  hears_set_expiring : hears.

(** [keeps_walk], keeping in mind what [ensure] gave. *)
Ltac hears_walk :=
  lazymatch goal with
  | |- keeps _ (M_bind (ensure _) _) => apply hears_ensure; intros ? ?; hears_walk
  | |- keeps _ (M_bind _ _) => apply keeps_bind; [hears_walk | intros ?; hears_walk]
  | |- keeps _ (match ?x with _ => _ end) => destruct x; hears_walk
  | |- keeps _ (put_cp _ _) => apply hears_put; try unfold addEVSE; repeat case_match; assumption
  | |- keeps _ (modify_svc _) => by apply hears_svc
  | |- _ => solve [auto with hears | by intros ?]
  end.

Section heard_runs.
Context `{MapOrder} `{Env}.
Implicit Types (T : string -> bool * EVSEStatus * gmap string EVSEStatus).

Lemma hears_armLocked T r : keeps (hears T) (armLocked r).
Proof. unfold armLocked. hears_walk. Qed.
Lemma hears_redeem T cpID uid t : keeps (hears T) (redeem cpID uid t).
Proof. unfold redeem. hears_walk. Qed.
#[local] Hint Resolve hears_armLocked hears_redeem : hears.

(** The actions that say something about a connection or a status. *)
Definition says (a : action) : bool :=
  match a with AConnected _ | ADisconnected _ _ | AStatus _ _ _ _ => true | _ => false end.

Lemma hears_nothing T a : says a = false -> keeps (hears T) (run a).
Proof.
  intros Ha. destruct a; try done; unfold run, discard;
    unfold Booted, Seen, Heartbeat, RecordMeterValues, BeginReservation, Begin_locked, ActivateReservation,
      Activate_locked, EndReservation, End_locked, OrphanReservation, Orphan_locked,
      NextTransactionID, NextTransactionID_locked, NextRemoteStartID, NextRemoteStartID_locked,
      StartTransaction, StartTransaction_locked, StopTransaction, StopTransaction_locked, fire,
      run_expiring, expire_locked; cbv zeta; hears_walk.
Qed.

(** What is heard of a charge point after an action that says something. *)
Definition told (c : option Config) (a : action) (id : string)
    (h : bool * EVSEStatus * gmap string EVSEStatus) : bool * EVSEStatus * gmap string EVSEStatus :=
  let '(online, station, reported) := h in
  match a with
  | AConnected k => (if decide (k = id) then true else online, station, reported)
  | ADisconnected k _ => (if decide (k = id) then false else online, station, reported)
  | AStatus k conn st _ =>
    if decide (k = id) then
      if decide (conn = 0) then (online, st, reported)
      else (online, station, <[evseUID c id conn := st]> reported)
    else h
  | _ => h
  end.

Lemma heard_recompute at_ cp : heard (recompute at_ cp).1 = heard cp.
Proof.
  unfold recompute. enough (Hf : forall l acc, heard (foldl (recompute_step at_) acc l).1 = heard acc.1) by apply Hf.
  induction l as [|u l IH]; intros [c es]; [done|]. cbn [foldl]. rewrite IH.
  unfold recompute_step. by case_match.
Qed.

Lemma heard_with_cp id cp w k :
  heard (cp_of k (svc (with_cp id cp w))) = if decide (id = k) then heard cp else heard (cp_of k (svc w)).
Proof.
  unfold cp_of, with_cp. simpl. case_decide as Hk; [subst; by rewrite lookup_insert_eq|].
  by rewrite lookup_insert_ne.
Qed.

Lemma heard_ensured id w k : heard (cp_of k (svc (ensured id w))) = heard (cp_of k (svc w)).
Proof.
  unfold cp_of. destruct (decide (k = id)) as [->|Hk]; [by rewrite ensured_lookup | by rewrite ensured_other].
Qed.

(** An action is heard as [told] says. *)
Lemma run_heard a w id :
  heard (cp_of id (svc (run a w).2)) = told (cfg (svc w)) a id (heard (cp_of id (svc w))).
Proof.
  destruct (says a) eqn:Hs.
  2:{ rewrite (hears_nothing (fun k => heard (cp_of k (svc w))) a Hs w) by done. by destruct a. }
  destruct a as [k|k reason| | | |k conn st code| | | | | | | | | | | |]; try done;
    unfold run, Connected, Disconnected, SetConnectorStatus;
    rewrite M_bind_eq; cbn [fst snd now]; rewrite M_bind_eq; cbn [snd publish_events modify set_bus svc].
  - rewrite Connected_locked_eq. cbn [snd]. rewrite heard_with_cp. unfold on_connect. rewrite heard_recompute.
    unfold told. by case_decide as Hk; [subst|].
  - rewrite Disconnected_locked_eq. cbn zeta. unfold told.
    destruct (cp_online (cp_of k (svc (tick w)))) eqn:Eo; cbn [snd].
    + rewrite heard_with_cp. unfold on_disconnect. rewrite heard_recompute. by case_decide as Hk; [subst|].
    + rewrite heard_ensured. case_decide as Hk; [subst|done]. unfold heard. cbn in Eo |- *. by rewrite Eo.
  - rewrite SetConnectorStatus_locked_eq. cbn zeta. cbn [snd]. rewrite heard_with_cp, heard_recompute.
    unfold told, on_status. case_decide as Hk; [subst|done]. destruct (Z.eqb_spec conn 0) as [Hc|Hc].
    + destruct (decide (conn = 0)); [|done]. case_decide as Hst; [|done].
      unfold heard. cbn in Hst |- *. by rewrite Hst.
    + destruct (decide (conn = 0)); [done|].
      unfold heard, addEVSE. cbn. by case_match.
Qed.

(** What a cpms that starts has heard: nothing. *)
Lemma initial_heard c st : hears (fun _ => (false, StatusAvailable, ∅)) (initial_world c st).
Proof.
  intros id. unfold cp_of, initial_world, initial_service. cbn [svc cps]. destruct c as [c|]; [|done].
  destruct (decide (id = ch_ID (cf_Charger c))) as [->|Hne]; [|by rewrite lookup_singleton_ne].
  rewrite lookup_singleton_eq. unfold configured. cbn [default].
  assert (Hf : forall l cp, heard cp = (false, StatusAvailable, ∅) ->
    heard (foldl (fun cp e => addEVSE (ev_UID e) (ev_OCPPConnectorID e) cp) cp l) = (false, StatusAvailable, ∅)).
  { induction l as [|e l IH]; intros cp Hcp; [done|]. apply IH. by rewrite heard_addEVSE. }
  by apply Hf.
Qed.

Lemma New_heard c st : hears (fun _ => (false, StatusAvailable, ∅)) (New c st).
Proof.
  unfold New. set (T := fun _ : string => _). enough (Hk : keeps (hears T) load) by apply Hk, initial_heard.
  assert (Htx : forall l, keeps (hears T) (for_each load_transaction l)).
  { induction l as [|t l IH]; [apply keeps_ret|]. cbn [for_each]. apply keeps_bind; [|done].
    unfold load_transaction. hears_walk. }
  assert (Hrs : forall t l, keeps (hears T) (for_any (load_reservation t) l)).
  { intros t. induction l as [|r l IH]; [apply keeps_ret|]. cbn [for_any]. apply keeps_bind.
    - unfold load_reservation. cbv zeta. pose proof (hears_armLocked T). hears_walk.
    - intros b. apply keeps_bind; [done|]. intros. apply keeps_ret. }
  unfold load, loadLocked. hears_walk.
Qed.

(** Loading a file leaves the configuration alone. *)
Lemma New_cfg c st : cfg (svc (New c st)) = c.
Proof.
  unfold New. enough (Hk : keeps (counts c (fun _ => True)) load) by (by apply Hk).
  assert (Htx : forall l, keeps (counts c (fun _ => True)) (for_each load_transaction l)).
  { induction l as [|t l IH]; [apply keeps_ret|]. cbn [for_each]. apply keeps_bind; [|done].
    unfold load_transaction. keeps_walk ltac:(by intros v [? _]; split) ltac:(solve [auto with upto]). }
  assert (Hrs : forall t l, keeps (counts c (fun _ => True)) (for_any (load_reservation t) l)).
  { intros t. induction l as [|r l IH]; [apply keeps_ret|]. cbn [for_any]. apply keeps_bind.
    - unfold load_reservation. cbv zeta. keeps_walk ltac:(by intros v [? _]; split) ltac:(solve [auto with upto]).
    - intros b. apply keeps_bind; [done|]. intros. apply keeps_ret. }
  unfold load, loadLocked. keeps_walk ltac:(by intros v [? _]; split) ltac:(solve [auto with upto]).
Qed.

(** The service has kept the last of everything it was told. *)
Lemma trace_heard c st l w id :
  core_ok (New c st) -> trace (New c st) l w ->
  let cp := cp_of id (svc w) in
  cp_online cp = last_online id l /\ cp_station cp = last_station id l /\
  forall uid, cp_reported cp !! uid = last_report c id uid l.
Proof.
  intros Hok Hl. cbn zeta. induction Hl as [|l w a Hl IH Hid].
  - pose proof (New_heard c st id) as Hn. unfold heard in Hn. injection Hn as -> -> ->. split_and!; try done.
  - assert (Hc : cfg (svc w) = cfg (svc (New c st))).
    { apply (reachable_upto _ _ Hok). apply trace_reachable. by exists l. }
    rewrite New_cfg in Hc.
    pose proof (run_heard a w id) as Hr. rewrite Hc in Hr. unfold heard, told in Hr. destruct IH as (IH1 & IH2 & IH3).
    revert Hr. generalize (cp_of id (svc (run a w).2)). intros cp Hr.
    destruct a; cbn [last_online last_station last_report];
      repeat case_decide; injection Hr as -> -> ->; split_and!; try done; try tauto;
      intros uid; rewrite ?lookup_insert; repeat case_decide; try done; try tauto.
Qed.
End heard_runs.
