(* ===== verification/Restart.v ===== *)
(** * Persisting and coming back: what survives a restart

    What [persist] writes, membership by membership; what loading a file leaves
    in memory; and the two composed in CoreProps.v. *)

From S2P Require Import Prelude GoLib GoTime Ocpp Errors Config State Bus World Core.
From S2P Require Import Persist Reservations Transactions Load CoreFacts CoreInv CoreOps.
From S2P Require Import CoreTx CoreReach CoreCounters.

(** A transaction of a charge point. *)
Definition tx_of (id tid : string) (s : Service) : option Transaction :=
  match cps s !! id with Some cp => cp_transactions cp !! tid | None => None end.

Section writing.
Context `{MapOrder}.

Lemma elem_of_active_transactions s id t :
  cps_ok s ->
  (id, t) ∈ active_transactions s <-> exists tid, tx_of id tid s = Some t /\ Active t = true.
Proof.
  intros Hok. unfold active_transactions, tx_of. rewrite list_elem_of_bind. split.
  - intros ([k cp] & Hin & Hk). apply elem_of_range in Hk. simpl in Hin.
    apply list_elem_of_fmap in Hin as ([tid t'] & [= -> ->] & Hin).
    apply list_elem_of_filter in Hin as [Ha Hin]. apply elem_of_range in Hin. simpl in *.
    exists tid. rewrite (ok_id _ _ (Hok k cp Hk)), Hk. done.
  - intros (tid & Ht & Ha). destruct (cps s !! id) as [cp|] eqn:E; [|done].
    exists (id, cp). split; [|by apply elem_of_range]. simpl.
    rewrite (ok_id _ _ (Hok id cp E)). apply list_elem_of_fmap. exists (tid, t). split; [done|].
    apply list_elem_of_filter. split; [done|]. by apply elem_of_range.
Qed.

Lemma elem_of_persistable_reservations s x :
  x ∈ (persistableLocked s).1 <->
  exists id r, reservations s !! id = Some r /\ rv_Status (res r) = ReservationActive /\
               x = persisted_reservation (res r).
Proof.
  unfold persistableLocked. cbn [fst]. rewrite elem_of_sort_by, list_elem_of_fmap. split.
  - intros (r & -> & Hr). apply list_elem_of_filter in Hr as [Ha Hr].
    apply list_elem_of_fmap in Hr as ([id r'] & -> & Hin). apply elem_of_range in Hin. eauto.
  - intros (id & r & E & Ha & ->). exists (res r). split; [done|].
    apply list_elem_of_filter. split; [done|]. apply list_elem_of_fmap. exists (id, r).
    split; [done|]. by apply elem_of_range.
Qed.

Lemma elem_of_persistable_transactions s x :
  cps_ok s ->
  x ∈ (persistableLocked s).2 <->
  exists id tid t, tx_of id tid s = Some t /\ Active t = true /\ x = persisted_transaction (id, t).
Proof.
  intros Hok. unfold persistableLocked. cbn [snd]. rewrite list_elem_of_fmap. split.
  - intros ([id t] & -> & Hin). apply elem_of_sort_by in Hin.
    apply elem_of_active_transactions in Hin as (tid & ? & ?); [|done]. eauto 6.
  - intros (id & tid & t & Ht & Ha & ->). exists (id, t). split; [done|].
    apply elem_of_sort_by, elem_of_active_transactions; [done|]. by exists tid.
Qed.

(** The reservations written are filed under distinct ids and EVSEs. *)
Lemma NoDup_active_by {B} (f : State.Reservation -> B) w :
  res_ok w ->
  (forall id1 id2 r1 r2, reservations (svc w) !! id1 = Some r1 -> reservations (svc w) !! id2 = Some r2 ->
     f (persisted_reservation (res r1)) = f (persisted_reservation (res r2)) -> id1 = id2) ->
  NoDup (f <$> (persistableLocked (svc w)).1).
Proof.
  intros Hok Hf. unfold persistableLocked. cbn [fst].
  rewrite (sort_by_perm sr_ID). rewrite <- list_fmap_compose.
  assert (Hr : forall (l : list (Z * reservation)), NoDup l ->
    (forall kr, kr ∈ l -> reservations (svc w) !! kr.1 = Some kr.2) ->
    NoDup ((f ∘ persisted_reservation) <$>
      filter (fun r => rv_Status r = ReservationActive) ((fun kr => res kr.2) <$> l))).
  { induction l as [|[k r] l IH]; intros Hnd Hl; [apply NoDup_nil_2|].
    apply NoDup_cons in Hnd as [Hk Hnd]. cbn [fmap list_fmap].
    assert (Hl' : forall kr, kr ∈ l -> reservations (svc w) !! kr.1 = Some kr.2)
      by (intros kr Hkr; apply Hl; by right).
    rewrite filter_cons. case_decide; [|by apply IH]. cbn [fmap list_fmap]. apply NoDup_cons.
    split; [|by apply IH].
    intros (r' & Heq & Hin)%list_elem_of_fmap. apply list_elem_of_filter in Hin as [_ Hin].
    apply list_elem_of_fmap in Hin as ([k' r''] & -> & Hin). cbn in Heq.
    pose proof (Hl (k, r) (list_elem_of_here _ _)) as E1. pose proof (Hl' _ Hin) as E2. cbn in E1, E2.
    pose proof (Hf _ _ _ _ E1 E2 Heq) as ->. apply Hk. congruence. }
  apply Hr; [apply NoDup_range|]. intros [k r]. apply elem_of_range.
Qed.

Lemma persistable_file_ok w st :
  core_ok w -> nextReservationID (svc w) <= int_max -> file_ok (normalize (persist_update (svc w) st)).
Proof.
  intros [Hc Hok] Hn. unfold persist_update.
  destruct (persistableLocked (svc w)) as [rs ts] eqn:E. unfold file_ok; simpl.
  assert (Hrs : rs = (persistableLocked (svc w)).1) by by rewrite E.
  rewrite <- !list_fmap_compose. split; [|split].
  - rewrite Hrs. apply (NoDup_active_by (sr_ID ∘ normalize_reservation)); [done|].
    intros id1 id2 r1 r2 E1 E2 Heq. simpl in Heq.
    by rewrite (re_id _ _ _ (rk_res w Hok _ _ E1)), (re_id _ _ _ (rk_res w Hok _ _ E2)) in Heq.
  - rewrite Hrs. apply (NoDup_active_by (sr_EVSEUID ∘ normalize_reservation)); [done|].
    intros id1 id2 r1 r2 E1 E2 Heq. by apply (rk_evse w Hok id1 id2 r1 r2).
  - intros r (x & -> & Hx)%list_elem_of_fmap. rewrite Hrs in Hx.
    apply elem_of_persistable_reservations in Hx as (id & r' & E' & _ & ->). simpl.
    destruct (rk_res w Hok id r' E') as [-> Hb _ _ _]. lia.
Qed.
End writing.

(** ** Loading *)

Section reading.
Context `{MapOrder} `{Env}.

(** Whether a persisted reservation comes back, and on which connector. *)
Definition restorable (c : option Config) (t : Time) (x : State.Reservation) : option Z :=
  if After (sr_ExpiresAt x) t then connectorID c (sr_EVSEUID x) else None.

Lemma load_reservation_restorable t x w :
  load_reservation t x w =
  match restorable (cfg (svc w)) t x with
  | Some conn => (false, restored_world x conn w)
  | None => (true, w)
  end.
Proof.
  rewrite load_reservation_eq. unfold restorable.
  destruct (connectorID _ _); by destruct (After _ _).
Qed.

Lemma restored_lookup x conn w id :
  reservations (svc (restored_world x conn w)) !! id =
  if decide (id = sr_ID x) then Some (mkRes (loaded_reservation x conn) (Some (next_timer w)))
  else reservations (svc w) !! id.
Proof.
  unfold restored_world, armed_world. simpl. case_decide as Hd.
  - subst id. by rewrite lookup_insert_eq.
  - by rewrite lookup_insert_ne.
Qed.

Lemma for_any_load_lookup c t l w :
  cfg (svc w) = c -> NoDup (sr_ID <$> l) ->
  (forall x conn, x ∈ l -> restorable c t x = Some conn ->
     res <$> reservations (svc (for_any (load_reservation t) l w).2) !! sr_ID x =
       Some (loaded_reservation x conn)) /\
  (forall id, (forall x, x ∈ l -> sr_ID x = id -> restorable c t x = None) ->
     reservations (svc (for_any (load_reservation t) l w).2) !! id = reservations (svc w) !! id).
Proof.
  revert w. induction l as [|y l IH]; intros w Hc Hnd.
  { split; [by intros x conn ?%not_elem_of_nil | done]. }
  apply NoDup_cons in Hnd as [Hy Hnd].
  cbn [for_any]. rewrite M_bind_eq, M_bind_eq. cbn [snd M_ret].
  rewrite load_reservation_restorable, Hc.
  assert (Hc' : cfg (svc (match restorable c t y with
      | Some conn => (false, restored_world y conn w) | None => (true, w) end).2) = c)
    by by destruct (restorable c t y).
  destruct (IH _ Hc' Hnd) as [I1 I2]. split.
  - intros x conn [->|Hx]%elem_of_cons Hr; [|by apply I1].
    rewrite I2; [|intros z Hz Heq; destruct Hy; rewrite <- Heq; by apply list_elem_of_fmap_2].
    rewrite Hr. cbn [snd]. rewrite restored_lookup. by rewrite decide_True.
  - intros id Hid. rewrite I2 by (intros x Hx; apply Hid; by right).
    destruct (restorable c t y) as [conn|] eqn:Ey; [|done]. cbn [snd].
    rewrite restored_lookup, decide_False; [done|]. intros ->.
    rewrite (Hid y) in Ey; [done|left|done].
Qed.

Definition tx_loaded (w : World) (t : State.Transaction) : World :=
  (load_transaction t w).2.

Lemma load_transaction_tx t w id tid :
  persisted_transaction <$> ((fun x => (id, x)) <$> tx_of id tid (svc (load_transaction t w).2)) =
  if decide (id = st_ChargePointID t /\ tid = st_ID t) then Some t
  else persisted_transaction <$> ((fun x => (id, x)) <$> tx_of id tid (svc w)).
Proof.
  unfold load_transaction. rewrite M_bind_eq, ensure_eq. cbn [fst snd].
  rewrite M_bind_eq. cbn [fst snd gets]. rewrite M_bind_eq, M_bind_eq, put_cp_eq. cbn [snd].
  set (w1 := with_cp _ _ _).
  assert (Hw : svc (match Atoi (st_ID t) with
     | Some n => modify_svc (fun s => set_nextTransactionID (Z.max (nextTransactionID s) (wrap_int (n + 1))) s)
     | None => M_ret tt end w1).2 = svc w1 \/
     cps (svc (match Atoi (st_ID t) with
     | Some n => modify_svc (fun s => set_nextTransactionID (Z.max (nextTransactionID s) (wrap_int (n + 1))) s)
     | None => M_ret tt end w1).2) = cps (svc w1)) by (destruct (Atoi (st_ID t)); by auto).
  assert (Hcps : cps (svc (match Atoi (st_ID t) with
     | Some n => modify_svc (fun s => set_nextTransactionID (Z.max (nextTransactionID s) (wrap_int (n + 1))) s)
     | None => M_ret tt end w1).2) = cps (svc w1)) by (destruct Hw as [->|]; done).
  unfold tx_of. rewrite Hcps. unfold w1, with_cp. simpl.
  destruct (decide (id = st_ChargePointID t)) as [->|Hne].
  - rewrite lookup_insert_eq. cbn [cp_transactions put_transaction].
    assert (Hadd : forall u c0 cp, cp_transactions (addEVSE u c0 cp) = cp_transactions cp).
    { intros u c0 cp. unfold addEVSE. by destruct (cp_effective cp !! u). }
    rewrite Hadd. cbn [loaded_transaction tx_ID]. destruct (decide (tid = st_ID t)) as [->|Ht].
    + rewrite lookup_insert_eq, decide_True by done. simpl. by destruct t.
    + rewrite lookup_insert_ne, decide_False by (done || naive_solver).
      unfold cp_of. by destruct (cps (svc w) !! st_ChargePointID t).
  - rewrite lookup_insert_ne by done. rewrite decide_False by naive_solver.
    by rewrite ensured_other.
Qed.

Definition tx_key (t : State.Transaction) : string * string := (st_ChargePointID t, st_ID t).

Lemma for_each_load_tx l w id tid :
  NoDup (tx_key <$> l) ->
  persisted_transaction <$> ((fun x => (id, x)) <$>
    tx_of id tid (svc (for_each load_transaction l w).2)) =
  match first_such (fun t => bool_decide (tx_key t = (id, tid))) l with
  | Some t => Some t
  | None => persisted_transaction <$> ((fun x => (id, x)) <$> tx_of id tid (svc w))
  end.
Proof.
  revert w. induction l as [|t l IH]; intros w Hnd; [done|].
  apply NoDup_cons in Hnd as [Ht Hnd]. cbn [for_each]. rewrite M_bind_eq, (IH _ Hnd).
  rewrite load_transaction_tx.
  destruct (decide (tx_key t = (id, tid))) as [Heq|Hne].
  - assert (Hf : first_such (fun t => bool_decide (tx_key t = (id, tid))) (t :: l) = Some t).
    { unfold first_such. cbn [list_find]. by rewrite decide_True by by apply bool_decide_spec. }
    rewrite Hf. injection Heq as <- <-. rewrite decide_True by done.
    destruct (first_such _ l) as [t'|] eqn:E; [|done]. apply first_such_Some in E as [E1 E2].
    apply bool_decide_eq_true in E2. destruct Ht. change (tx_key t' = tx_key t) in E2.
    rewrite <- E2. by apply list_elem_of_fmap_2.
  - assert (Hf : first_such (fun t => bool_decide (tx_key t = (id, tid))) (t :: l) =
                 first_such (fun t => bool_decide (tx_key t = (id, tid))) l).
    { unfold first_such. cbn [list_find]. rewrite decide_False by by rewrite bool_decide_spec.
      by destruct (list_find _ l) as [[]|]. }
    rewrite Hf. destruct (first_such _ l); [done|]. rewrite decide_False; [done|].
    intros [-> ->]. by apply Hne.
Qed.

(** Loading transactions leaves the reservations and what guards them alone. *)
Lemma for_each_load_same l w :
  same_reservations w (for_each load_transaction l w).2 /\
  ticks (for_each load_transaction l w).2 = ticks w.
Proof.
  revert w. induction l as [|t l IH]; intros w; [done|]. cbn [for_each]. rewrite M_bind_eq.
  assert (Hs : same_reservations w (load_transaction t w).2 /\ ticks (load_transaction t w).2 = ticks w).
  { unfold load_transaction. rewrite M_bind_eq, ensure_eq. cbn [fst snd].
    rewrite M_bind_eq. cbn [fst snd gets]. rewrite M_bind_eq, M_bind_eq, put_cp_eq. cbn [snd].
    assert (Hk : ticks (ensured (st_ChargePointID t) w) = ticks w)
      by (unfold ensured; by destruct (cps (svc w) !! st_ChargePointID t)).
    pose proof (ensured_same (st_ChargePointID t) w) as He. by destruct (Atoi (st_ID t)). }
  destruct Hs as [Hs Ht]. destruct (IH (load_transaction t w).2) as [Hs' Ht'].
  split; [|congruence]. destruct Hs as (?&?&?&?&?&?), Hs' as (?&?&?&?&?&?).
  repeat split; congruence.
Qed.
End reading.

(** ** The written transactions have distinct keys *)

Lemma NoDup_active_transactions `{MapOrder} s : cps_ok s -> NoDup (active_transactions s).
Proof.
  intros Hok. unfold active_transactions. apply NoDup_bind.
  - intros [k1 c1] [k2 c2] [id t] H1 H2 Hf1 Hf2. apply elem_of_range in H1, H2. simpl in *.
    apply list_elem_of_fmap in Hf1 as (x1 & E1 & _). apply list_elem_of_fmap in Hf2 as (x2 & E2 & _).
    injection E1 as -> ->. injection E2 as E2 _.
    rewrite (ok_id _ _ (Hok _ _ H1)), (ok_id _ _ (Hok _ _ H2)) in E2. subst. congruence.
  - intros [k c] Hk. apply elem_of_range in Hk. simpl. apply NoDup_fmap_2_strong.
    + intros [t1 x1] [t2 x2] Hx1 Hx2 Heq. apply list_elem_of_filter in Hx1 as [_ Hx1].
      apply list_elem_of_filter in Hx2 as [_ Hx2]. apply elem_of_range in Hx1, Hx2. simpl in *.
      injection Heq as Heq. destruct (ok_tx _ _ (Hok k c Hk) _ _ Hx1) as [<- _].
      destruct (ok_tx _ _ (Hok k c Hk) _ _ Hx2) as [<- _]. congruence.
    + apply NoDup_filter, NoDup_range.
  - apply NoDup_range.
Qed.

Lemma NoDup_persisted_keys `{MapOrder} s :
  cps_ok s -> NoDup (tx_key <$> (normalize_transaction <$> (persistableLocked s).2)).
Proof.
  intros Hok. unfold persistableLocked. cbn [snd]. rewrite <- !list_fmap_compose.
  apply NoDup_fmap_2_strong.
  - intros [i1 t1] [i2 t2] H1 H2 Heq. cbn in Heq. injection Heq as -> Heq.
    apply elem_of_sort_by, elem_of_active_transactions in H1 as (tid1 & H1 & _); [|done].
    apply elem_of_sort_by, elem_of_active_transactions in H2 as (tid2 & H2 & _); [|done].
    unfold tx_of in *. destruct (cps s !! i2) as [cp|] eqn:E; [|done].
    destruct (ok_tx _ _ (Hok _ _ E) _ _ H1) as [<- _]. destruct (ok_tx _ _ (Hok _ _ E) _ _ H2) as [<- _].
    congruence.
  - rewrite sort_by_perm. by apply NoDup_active_transactions.
Qed.

(** ** A whole load *)

Section loading.
Context `{MapOrder} `{Env}.

Lemma for_any_load_cps t l w :
  cps (svc (for_any (load_reservation t) l w).2) = cps (svc w).
Proof.
  revert w. induction l as [|x l IH]; intros w; [done|]. cbn [for_any].
  rewrite M_bind_eq, M_bind_eq. cbn [snd M_ret]. rewrite IH, load_reservation_restorable.
  by destruct (restorable _ _ _).
Qed.

Lemma configured_transactions c : cp_transactions (configured c) = ∅.
Proof.
  unfold configured.
  assert (Hn : cp_transactions (newChargePoint (ch_ID (cf_Charger c))) = ∅) by done. revert Hn.
  generalize (newChargePoint (ch_ID (cf_Charger c))).
  induction (lo_EVSEs (cf_Location c)) as [|e l IH]; intros cp Hcp; [done|]. simpl. apply IH.
  unfold addEVSE. by destruct (cp_effective cp !! ev_UID e).
Qed.

Lemma initial_tx c st id tid : tx_of id tid (svc (initial_world c st)) = None.
Proof.
  unfold tx_of. simpl. destruct c as [c|]; [|done].
  destruct (decide (id = ch_ID (cf_Charger c))) as [->|Hne].
  - by rewrite lookup_singleton_eq, configured_transactions.
  - by rewrite lookup_singleton_ne.
Qed.

(** The service a load leaves, before the write-back. *)
Lemma New_svc c s : svc (New c (Some s)) = svc (loadLocked (state s) (initial_world c (Some s))).2.
Proof.
  unfold New, load. rewrite M_bind_eq. cbn [fst snd gets store initial_world fmap option_fmap option_map].
  rewrite M_bind_eq. change (Get s) with (state s).
  destruct (loadLocked _ _).1; [|done]. unfold persistOrLog. rewrite M_bind_eq. cbn [snd M_ret].
  apply persist_svc.
Qed.

Lemma New_reservations c s :
  NoDup (sr_ID <$> ss_Reservations (state s)) ->
  (forall x conn, x ∈ ss_Reservations (state s) -> restorable c (clock 0) x = Some conn ->
     res <$> reservations (svc (New c (Some s))) !! sr_ID x = Some (loaded_reservation x conn)) /\
  (forall id, (forall x, x ∈ ss_Reservations (state s) -> sr_ID x = id -> restorable c (clock 0) x = None) ->
     reservations (svc (New c (Some s))) !! id = None).
Proof.
  intros Hnd. rewrite New_svc. unfold loadLocked. rewrite M_bind_eq, M_bind_eq, M_bind_eq.
  set (w1 := (modify_svc _ _).2).
  destruct (for_each_load_same (ss_Transactions (state s)) w1) as [(Hc & Hr & _) Ht].
  cbn [fst snd now]. rewrite Ht.
  destruct (for_any_load_lookup c (clock (ticks w1)) (ss_Reservations (state s))
              (tick (for_each load_transaction (ss_Transactions (state s)) w1).2)) as [I1 I2].
  - simpl. by rewrite Hc.
  - done.
  - split; [exact I1|]. intros id Hid. rewrite (I2 id Hid). simpl. by rewrite Hr.
Qed.

Lemma New_transactions c s id tid :
  NoDup (tx_key <$> ss_Transactions (state s)) ->
  persisted_transaction <$> ((fun x => (id, x)) <$> tx_of id tid (svc (New c (Some s)))) =
  first_such (fun t => bool_decide (tx_key t = (id, tid))) (ss_Transactions (state s)).
Proof.
  intros Hnd. rewrite New_svc. unfold loadLocked. rewrite M_bind_eq, M_bind_eq, M_bind_eq.
  set (w1 := (modify_svc _ _).2). cbn [fst snd now].
  assert (He : forall t l w, tx_of id tid (svc (for_any (load_reservation t) l w).2) = tx_of id tid (svc w)).
  { intros t l w. unfold tx_of. by rewrite for_any_load_cps. }
  rewrite He.
  change (tx_of id tid (svc (tick (for_each load_transaction (ss_Transactions (state s)) w1).2)))
    with (tx_of id tid (svc (for_each load_transaction (ss_Transactions (state s)) w1).2)).
  rewrite for_each_load_tx by done. destruct (first_such _ _); [done|].
  assert (Hw1 : tx_of id tid (svc w1) = None) by apply (initial_tx c (Some s)). by rewrite Hw1.
Qed.
End loading.
