(* ===== verification/CoreProps.v ===== *)
(** * What core.Service promises

    The properties of the domain state in every reachable state, and of single
    operations: honest statuses, a complete event stream, one reservation per
    EVSE, expiry, fresh ids, the outcomes of every reservation operation, and
    redemption. *)

From S2P Require Import Prelude GoLib GoTime Ocpp Errors Config State Bus World Core.
From S2P Require Import Persist Reservations Transactions Load CoreFacts CoreInv CoreOps.
From S2P Require Import CoreTx CoreReach Samples CoreEvents CoreCounters Restart.

(** A service built with [New] from a file that a cpms wrote. *)
Definition started_from `{MapOrder} `{Env} (c : option Config) (st : option Store) (w : World) : Prop :=
  (forall s, st = Some s -> file_ok (state s)) /\ reachable (New c st) w.

Section reachable_states.
Context `{MapOrder} `{Env}.

Lemma started_ok c st w : started_from c st w -> core_ok w.
Proof. intros [Hf Hr]. eapply reachable_ok; [by apply New_ok | done]. Qed.

(** C1: whatever has happened, a status that tells a driver the EVSE works
    (available, charging, reserved, blocked) is what the station itself last
    reported for that connector - it may have done so before it reconnected, or
    while it was out of service - and is shown only while the last word about the
    station's connection is that it is up, and its last report about itself as a
    whole, if there is one, is neither out of order nor inoperative. *)
Theorem statuses_honest c st l w id cp uid s :
  (forall s, st = Some s -> file_ok (state s)) -> trace (New c st) l w ->
  cps (svc w) !! id = Some cp -> cp_effective cp !! uid = Some s -> usable s = true ->
  last_online id l = true /\ last_station id l <> StatusOutOfOrder /\ last_station id l <> StatusInoperative /\
  last_report c id uid l = Some s.
Proof.
  intros Hf Hl Ecp Es Hu. assert (Hs : started_from c st w) by (split; [done|apply trace_reachable; by exists l]).
  destruct (started_ok _ _ _ Hs) as [Hc _]. pose proof (trace_heard c st l w id (New_ok c st Hf) Hl) as Hh.
  assert (Ecp' : cp_of id (svc w) = cp) by (unfold cp_of; by rewrite Ecp).
  cbn zeta in Hh. rewrite Ecp' in Hh. destruct Hh as (<- & <- & H3). rewrite <- H3.
  destruct (ok_status _ _ (Hc id cp Ecp) uid s Es) as [->|[-> _]]; [|done].
  unfold wanted in *. destruct (effectiveStatus_usable _ _ _ Hu) as (H1 & H2 & H3' & H4).
  split_and!; try done. rewrite H4 in Hu |- *. by destruct (cp_reported cp !! uid).
Qed.

(** C4: every action publishes exactly the status changes it makes.  Folding
    the published events over the statuses shown before an action gives the
    statuses shown after it, for every EVSE of every charge point. *)
Theorem events_complete c st w a :
  started_from c st w -> has_ids w ->
  exists es, w_bus (run a w).2 = publishAll es (w_bus w) /\
    forall id uid, foldl observe (shown w) es id uid = shown (run a w).2 id uid.
Proof. intros Hs Hid. apply run_tells; [by eapply started_ok | done]. Qed.

(** C2: at most one reservation, in whatever status, holds an EVSE. *)
Theorem one_reservation_per_evse c st w id1 id2 r1 r2 :
  started_from c st w ->
  reservations (svc w) !! id1 = Some r1 -> reservations (svc w) !! id2 = Some r2 ->
  rv_EVSEUID (res r1) = rv_EVSEUID (res r2) -> id1 = id2 /\ r1 = r2.
Proof.
  intros Hs E1 E2 He. pose proof (rk_evse w (proj2 (started_ok _ _ _ Hs)) _ _ _ _ E1 E2 He) as ->.
  split; congruence.
Qed.

(** C13: every active reservation has its own expiry scheduled, or its callback
    on the way, for exactly its id and expiry time; and a scheduled timer
    always belongs to a reservation that is held. *)
Theorem reservations_expire c st w :
  started_from c st w ->
  (forall id r, reservations (svc w) !! id = Some r -> rv_Status (res r) = ReservationActive ->
     exists h, timer r = Some h /\
       ((exists d, timers w !! h = Some (mkTimer d id (rv_ExpiresAt (res r)))) \/
        (id, rv_ExpiresAt (res r)) ∈ expiring w)) /\
  (forall h t, timers w !! h = Some t ->
     exists r, reservations (svc w) !! tm_id t = Some r /\ timer r = Some h).
Proof.
  intros Hs. destruct (started_ok _ _ _ Hs) as [_ Hok]. split.
  - intros id r E Ha. destruct (rk_res w Hok id r E) as [<- _ _ _ Ht]. unfold timer_ok in Ht.
    rewrite decide_True in Ht by done. destruct Ht as (h & Hh & _ & [Ht|[_ Ht]]); eauto 6.
  - intros h t Ht. by destruct (rk_timer w Hok h t Ht) as [_ ?].
Qed.

(** When an active reservation's callback runs, the reservation is gone and
    its end is announced as expired; no other reservation is touched. *)
Theorem expiry_ends c st w id r t :
  started_from c st w -> reservations (svc w) !! id = Some r ->
  rv_Status (res r) = ReservationActive -> TimeEqual (rv_ExpiresAt (res r)) t = true ->
  reservations (svc (expire id t w).2) = delete id (reservations (svc w)) /\
  exists at_, w_bus (expire id t w).2 = publishAll [ended_event at_ (res r) ReservationExpired] (w_bus w).
Proof.
  intros Hs E Ha Ht. destruct (started_ok _ _ _ Hs) as [_ Hok].
  pose proof (re_id _ _ _ (rk_res w Hok id r E)) as Hid.
  unfold expire. rewrite M_bind_eq, expire_locked_eq, E, decide_True by done. cbn [fst snd].
  rewrite M_bind_eq. unfold persistOrLog. rewrite M_bind_eq. cbn [snd M_ret].
  destruct (persist_svc (end_world r w)) as (P1 & P2 & _).
  destruct (end_world_fields r w) as (F1 & _). split.
  - simpl. by rewrite P1, F1, Hid.
  - exists (clock (ticks w)). cbn [publish_events modify snd w_bus set_bus]. rewrite P2.
    unfold end_world, stop_world. by destruct (timer r).
Qed.

(** A callback that comes too late, after its reservation has ended, was
    replaced by one with another expiry, or is not active, changes nothing at
    all. *)
Theorem late_expiry_harmless w id t :
  (forall r, reservations (svc w) !! id = Some r ->
     rv_Status (res r) <> ReservationActive \/ TimeEqual (rv_ExpiresAt (res r)) t = false) ->
  (expire id t w).2 = w.
Proof.
  intros Hn. unfold expire. rewrite M_bind_eq, expire_locked_eq.
  destruct (reservations (svc w) !! id) as [r|] eqn:E; [|done].
  rewrite decide_False; [done|]. intros [Ha Ht]. destruct (Hn r eq_refl); congruence.
Qed.
End reachable_states.

(** ** Single operations *)

Section operations.
Context `{MapOrder} `{Env}.

(** What BeginReservation owes its caller, branch by branch. *)
Definition Begin_contract (w : World) (r : Reservation) : Prop :=
  let s := svc w in
  let id := nextReservationID s in
  let (out, w') := BeginReservation r w in
  match connectorID (cfg s) (rv_EVSEUID r) with
  | None => out = inr (EText ("unknown EVSE " +:+ Quote (rv_EVSEUID r))) /\ w' = w
  | Some conn =>
    match reservationOnLocked (rv_EVSEUID r) s with
    | Some _ => (exists e, out = inr e /\ errors_is e ErrAlreadyReserved = true) /\ w' = w
    | None =>
      let r' := begun r conn id (clock (ticks w)) in
      nextReservationID (svc w') = id + 1 /\ timers w' = timers w /\ w_bus w' = w_bus w /\
      match (persist (begun_world r' w)).1 with
      | Some e => out = inr (EWrap "recording the reservation: " e EmptyString) /\
                  reservations (svc w') = reservations s
      | None => out = inl r' /\ reservations (svc w') = <[id := mkRes r' None]> (reservations s)
      end
    end
  end.

(** C12: BeginReservation, on every branch.  An unknown EVSE and an EVSE that is
    already held are refused and nothing changes; a failed write is returned
    and leaves no reservation behind (only the id is used up); otherwise the
    reservation is held, pending, under the next id. *)
Theorem BeginReservation_outcomes w r : core_ok w -> has_ids w -> Begin_contract w r.
Proof.
  intros [_ Hok] Hid. unfold Begin_contract. cbn zeta. unfold BeginReservation.
  rewrite M_bind_eq, Begin_locked_eq.
  destruct (connectorID _ _) as [conn|]; [|done].
  destruct (reservationOnLocked _ _) as [r0|] eqn:Er.
  { cbn. split; [|done]. by eexists. }
  cbn [fst snd]. rewrite M_bind_eq. set (r' := begun r conn _ _).
  destruct (persist_svc (begun_world r' w)) as (P1 & P2 & P3 & _).
  pose proof (rk_next w Hok) as Hn. unfold has_ids in Hid.
  assert (Hw : wrap_int (nextReservationID (svc w) + 1) = nextReservationID (svc w) + 1)
    by (apply wrap_int_succ; lia).
  assert (Hfree : reservations (svc w) !! nextReservationID (svc w) = None).
  { destruct (reservations (svc w) !! nextReservationID (svc w)) as [rr|] eqn:E; [|done].
    destruct (rk_res w Hok _ rr E) as [_ ? _ _ _]. lia. }
  destruct (persist (begun_world r' w)) as [[e|] wp] eqn:Ep; cbn [fst snd] in *.
  - rewrite M_bind_eq. cbn. rewrite P1, P2, P3. cbn. rewrite Hw.
    repeat split. by rewrite delete_insert_id.
  - cbn. rewrite P1, P2, P3. cbn. by rewrite Hw.
Qed.

(** Reservation ids are never reused: whatever happens between two
    successful BeginReservation calls, the later id is larger. *)
Theorem reservation_ids_fresh w r1 r2 b1 b2 w' :
  core_ok w -> has_ids w -> (BeginReservation r1 w).1 = inl b1 ->
  reachable (BeginReservation r1 w).2 w' -> has_ids w' -> (BeginReservation r2 w').1 = inl b2 ->
  rv_ID b1 < rv_ID b2.
Proof.
  intros Hw Hid H1 Hr Hid' H2.
  assert (Hb : forall r b v, core_ok v -> has_ids v -> (BeginReservation r v).1 = inl b ->
            rv_ID b = nextReservationID (svc v) /\
            nextReservationID (svc (BeginReservation r v).2) = nextReservationID (svc v) + 1).
  { intros r b v [Hv1 Hv] Hidv. unfold BeginReservation. rewrite M_bind_eq, Begin_locked_eq.
    destruct (connectorID _ _) as [conn|]; [|done].
    destruct (reservationOnLocked _ _); [done|]. cbn [fst snd]. rewrite M_bind_eq.
    destruct (persist_svc (begun_world (begun r conn (nextReservationID (svc v)) (clock (ticks v))) v))
      as (P1 & _).
    destruct (persist _) as [[e|] wp]; cbn [fst snd] in *; [done|]. intros [= <-].
    cbn. rewrite P1. cbn.
    split; [done|]. apply wrap_int_succ. pose proof (rk_next v Hv). unfold has_ids in Hidv. lia. }
  pose proof (keeps_BeginReservation r1 w (conj Hw Hid)) as Hw1. cbv beta in Hw1.
  destruct (Hb r1 b1 w Hw Hid H1) as [-> E1].
  destruct (Hb r2 b2 w' (reachable_ok _ _ Hw1 Hr) Hid' H2) as [-> _].
  destruct (reachable_upto _ _ Hw1 Hr) as [_ Hle]. lia.
Qed.

(** A successful [persist] writes exactly the active reservations (never a
    pending or a cancelling one) and the active transactions, the counters,
    and leaves the OCPI registration as it was; the file then equals what is
    in memory, and a cpms started from it is sound. *)
Theorem persist_writes_active w st :
  core_ok w -> has_ids w -> store w = Some st -> (persist w).1 = None ->
  exists st', store (persist w).2 = Some st' /\ file (disk st') = Some (whole (state st')) /\
    file_ok (state st') /\ ss_OCPI (state st') = normalize_registration <$> ss_OCPI (state st) /\
    ss_NextReservationID (state st') = nextReservationID (svc w) /\
    ss_NextTransactionID (state st') = nextTransactionID (svc w) /\
    ss_NextRemoteStartID (state st') = nextRemoteStartID (svc w) /\
    (forall x, x ∈ ss_Reservations (state st') <-> exists id r, reservations (svc w) !! id = Some r /\
       rv_Status (res r) = ReservationActive /\ x = normalize_reservation (persisted_reservation (res r))) /\
    (forall x, x ∈ ss_Transactions (state st') <-> exists id tid t, tx_of id tid (svc w) = Some t /\
       Active t = true /\ x = normalize_transaction (persisted_transaction (id, t))).
Proof.
  intros Hw Hid Hst Hp.
  pose proof (persistable_file_ok w (state st) Hw) as Hf. unfold has_ids in Hid.
  specialize (Hf ltac:(lia)). revert Hp Hf. unfold persist. rewrite M_bind_eq. cbn [fst snd gets].
  rewrite Hst, M_bind_eq. cbn [fst snd gets]. unfold store_Update. rewrite Hst.
  destruct (Update _ _ st) as [st' err] eqn:Eu. cbn. intros ->. intros Hf.
  destruct (Update_success (fun s => inl (persist_update (svc w) s)) (disk_result (writes w)) st _ eq_refl) as [Es Ef];
    [by rewrite Eu|]. rewrite Eu in Es, Ef. cbn in Es, Ef. exists st'. rewrite Ef, Es. split; [done|]. split; [done|].
  split; [done|]. cbn. repeat (split; [done|]). split; intros x; rewrite list_elem_of_fmap.
  - split.
    + intros (y & -> & Hy). apply (elem_of_persistable_reservations (svc w)) in Hy
        as (id & r & ? & ? & ->). eauto.
    + intros (id & r & ? & ? & ->). eexists. split; [done|].
      apply (elem_of_persistable_reservations (svc w)). eauto.
  - split.
    + intros (y & -> & Hy). apply (elem_of_persistable_transactions (svc w)) in Hy
        as (id & tid & t & ? & ? & ->); [eauto 6|apply Hw].
    + intros (id & tid & t & ? & ? & ->). eexists. split; [done|].
      apply (elem_of_persistable_transactions (svc w)); [apply Hw|]. eauto 6.
Qed.
End operations.

(** ** Restart *)

(** A reservation as it comes back: the same, its times in UTC. *)
Definition in_utc (r : Reservation) : Reservation :=
  mkReservation (rv_ID r) (rv_OCPIReservationID r) (rv_ChargePointID r) (rv_EVSEUID r)
    (rv_ConnectorID r) (rv_IDTag r) (UTC (rv_ExpiresAt r)) (UTC (rv_CreatedAt r)) (rv_Source r)
    (rv_ResponseURL r) (rv_Status r).

(** What a persisted form tells of a charge point's transaction. *)
Definition recorded (id : string) (t : option Transaction) : option State.Transaction :=
  persisted_transaction <$> ((fun x => (id, x)) <$> t).

Section restart.
Context `{O : MapOrder} `{E : Env}.

Lemma persisted_state w st st' :
  store w = Some st -> (persist w).1 = None -> store (persist w).2 = Some st' ->
  state st' = normalize (persist_update (svc w) (state st)).
Proof.
  intros Hst. unfold persist. rewrite M_bind_eq. cbn [fst snd gets].
  rewrite Hst, M_bind_eq. cbn [fst snd gets]. unfold store_Update. rewrite Hst.
  destruct (Update _ _ st) as [st1 err] eqn:Eu. cbn. intros -> [= <-].
  destruct (Update_success (fun s => inl (persist_update (svc w) s)) (disk_result (writes w)) st _ eq_refl) as [Es _];
    [by rewrite Eu|]. by rewrite Eu in Es.
Qed.

Lemma written_reservations w st st' :
  store w = Some st -> (@persist O E w).1 = None -> store (@persist O E w).2 = Some st' ->
  forall x, x ∈ ss_Reservations (state st') <->
    exists id r, reservations (svc w) !! id = Some r /\
      rv_Status (res r) = ReservationActive /\ x = normalize_reservation (persisted_reservation (res r)).
Proof.
  intros Hst Hp Hst' x. rewrite (persisted_state w st st' Hst Hp Hst').
  unfold persist_update, normalize. simpl. rewrite list_elem_of_fmap. split.
  - intros (y & -> & (id & r & ? & ? & ->)%(@elem_of_persistable_reservations O)). eauto.
  - intros (id & r & ? & ? & ->). eexists. split; [done|]. apply (@elem_of_persistable_reservations O). eauto.
Qed.

(** What a restart makes of the written reservations. *)
Lemma restarted_reservations (O' : MapOrder) (E' : Env) w st' id :
  res_ok w -> NoDup (sr_ID <$> ss_Reservations (state st')) ->
  (forall x, x ∈ ss_Reservations (state st') <->
    exists id r, reservations (svc w) !! id = Some r /\
      rv_Status (res r) = ReservationActive /\ x = normalize_reservation (persisted_reservation (res r))) ->
  res <$> reservations (svc (@New O' E' (cfg (svc w)) (Some st'))) !! id =
    match reservations (svc w) !! id with
    | Some r => if bool_decide (rv_Status (res r) = ReservationActive) &&
                   After (rv_ExpiresAt (res r)) (@clock E' 0)
                then Some (in_utc (res r)) else None
    | None => None
    end.
Proof.
  intros Hw Hn Hrs. destruct (@New_reservations O' E' (cfg (svc w)) st' Hn) as [N1 N2].
  destruct (reservations (svc w) !! id) as [r|] eqn:Er;
    [case_bool_decide as Ha; simpl; [destruct (After _ _) eqn:Eaf|]|].
  { destruct (rk_res w Hw id r Er) as [Hrid _ Hconn _ _].
    set (x := normalize_reservation (persisted_reservation (res r))).
    assert (Hx : restorable (cfg (svc w)) (@clock E' 0) x = Some (rv_ConnectorID (res r))).
    { change (restorable _ _ x) with (if After (rv_ExpiresAt (res r)) (@clock E' 0)
        then connectorID (cfg (svc w)) (rv_EVSEUID (res r)) else None). by rewrite Eaf, Hconn. }
    pose proof (N1 x _ (proj2 (Hrs x) (ex_intro _ id (ex_intro _ r (conj Er (conj Ha eq_refl))))) Hx) as N.
    change (sr_ID x) with (rv_ID (res r)) in N. rewrite Hrid in N. rewrite N.
    unfold loaded_reservation, in_utc. simpl. by rewrite Ha. }
  all: rewrite N2; [done|]; intros y (id' & r' & Er' & Ha' & ->)%Hrs Hy; simpl in Hy;
    rewrite (re_id _ _ _ (rk_res w Hw id' r' Er')) in Hy; subst id'; simplify_eq.
  change (restorable _ _ _) with (if After (rv_ExpiresAt (res r)) (@clock E' 0)
    then connectorID (cfg (svc w)) (rv_EVSEUID (res r)) else None). by rewrite Eaf.
Qed.

(** What a restart makes of the written transactions. *)
Lemma restarted_transactions (O' : MapOrder) (E' : Env) w st' id tid :
  cps_ok (svc w) ->
  ss_Transactions (state st') = normalize_transaction <$> (@persistableLocked O (svc w)).2 ->
  recorded id (tx_of id tid (svc (@New O' E' (cfg (svc w)) (Some st')))) =
    match tx_of id tid (svc w) with
    | Some t => if Active t then normalize_transaction <$> recorded id (Some t) else None
    | None => None
    end.
Proof.
  intros Hw Hts.
  unfold recorded at 1. rewrite New_transactions, Hts.
  2: { rewrite Hts. by apply (@NoDup_persisted_keys O). }
  assert (Hel : forall t, t ∈ normalize_transaction <$> (@persistableLocked O (svc w)).2 <->
    exists id tid x, tx_of id tid (svc w) = Some x /\ Active x = true /\
      t = normalize_transaction (persisted_transaction (id, x))).
  { intros t. rewrite list_elem_of_fmap. split.
    - intros (y & -> & (i & j & x & ? & ? & ->)%(@elem_of_persistable_transactions O)); [eauto 6|done].
    - intros (i & j & x & ? & ? & ->). eexists. split; [done|].
      apply (@elem_of_persistable_transactions O); [done|]. eauto 6. }
  assert (Hkey : forall i j x, tx_of i j (svc w) = Some x -> tx_ID x = j).
  { intros i j x. unfold tx_of. destruct (cps (svc w) !! i) as [cp|] eqn:Ec; [|done].
    intros Ex. by destruct (ok_tx _ _ (Hw i cp Ec) j x Ex). }
  destruct (first_such _ _) as [t|] eqn:Ef.
  - apply first_such_Some in Ef as [(i & j & x & Ex & Ha & ->)%Hel Ek].
    apply bool_decide_eq_true in Ek. cbn in Ek. injection Ek as -> <-.
    rewrite (Hkey _ _ _ Ex), Ex, Ha. done.
  - rewrite first_such_None in Ef. destruct (tx_of id tid (svc w)) as [x|] eqn:Ex; [|done].
    destruct (Active x) eqn:Ha; [|done]. exfalso.
    specialize (Ef (normalize_transaction (persisted_transaction (id, x)))).
    rewrite bool_decide_eq_false in Ef. apply Ef; [apply Hel; eauto 6|].
    unfold tx_key. cbn. by rewrite (Hkey _ _ _ Ex).
Qed.

(** C5: restarting loses nothing that should last and invents nothing.  A
    service built from what [persist] wrote holds exactly the active
    reservations that have not expired in the meantime, with the same ids,
    tags and connectors, and exactly the running transactions; it satisfies
    every invariant of a running service. *)
Theorem restart_restores (O' : MapOrder) (E' : Env) w st st' :
  core_ok w -> has_ids w -> store w = Some st ->
  (@persist O E w).1 = None -> store (@persist O E w).2 = Some st' ->
  let w' := @New O' E' (cfg (svc w)) (Some st') in
  (forall id, res <$> reservations (svc w') !! id =
     match reservations (svc w) !! id with
     | Some r => if bool_decide (rv_Status (res r) = ReservationActive) &&
                    After (rv_ExpiresAt (res r)) (@clock E' 0)
                 then Some (in_utc (res r)) else None
     | None => None
     end) /\
  (forall id tid, recorded id (tx_of id tid (svc w')) =
     match tx_of id tid (svc w) with
     | Some t => if Active t then normalize_transaction <$> recorded id (Some t) else None
     | None => None
     end) /\
  core_ok w'.
Proof.
  intros Hw Hid Hst Hp Hst'. cbn zeta.
  pose proof (persisted_state w st st' Hst Hp Hst') as Hs.
  pose proof (@persistable_file_ok O w (state st) Hw ltac:(unfold has_ids in Hid; lia)) as Hf.
  rewrite <- Hs in Hf. split; [|split].
  - intros id. apply restarted_reservations; [apply Hw|apply Hf|].
    by apply (written_reservations w st).
  - intros id tid. apply restarted_transactions; [apply Hw|]. by rewrite Hs.
  - apply New_ok. by intros s [= <-].
Qed.
End restart.

(** ** Sessions *)

Section sessions.
Context `{MapOrder} `{Env}.

Lemma seq_world_same id w :
  reservations (svc (seq_world id w)) = reservations (svc w) /\ w_bus (seq_world id w) = w_bus w.
Proof. unfold seq_world, ensured. by destruct (cps (svc w) !! id). Qed.

Lemma redeem_target_seq cpID uid t id w :
  redeem_target cpID uid t (svc (seq_world id w)) = redeem_target cpID uid t (svc w).
Proof.
  destruct (seq_world_same id w) as [E _].
  unfold redeem_target, redeemedLocked, reservationOnEVSELocked. by rewrite E.
Qed.

Lemma persistOrLog_svc w : svc (persistOrLog w).2 = svc w /\ w_bus (persistOrLog w).2 = w_bus w.
Proof. unfold persistOrLog. rewrite M_bind_eq. cbn [snd M_ret]. by destruct (persist_svc w) as (-> & -> & _). Qed.

(** The reservations, the bus and the transaction after StartTransaction. *)
Lemma StartTransaction_world cpID t w :
  let uid := evseUID (cfg (svc w)) cpID (ts_ConnectorID t) in
  let target := redeem_target cpID uid t (svc w) in
  let (tx, w') := StartTransaction cpID t w in
  tx_of cpID (ts_ID t) (svc w') = Some tx /\ tx_EVSEUID tx = uid /\ Active tx = true /\
  tx_ReservationID tx = redeemed_id t target /\
  reservations (svc w') = match target with
                          | Some (r, _) => delete (rv_ID (res r)) (reservations (svc w))
                          | None => reservations (svc w) end /\
  exists at_, w_bus w' = publishAll (started_event cpID tx ::
     match target with Some (r, c) => [ended_event at_ (res r) (redeem_reason c)] | None => [] end) (w_bus w).
Proof.
  cbn zeta. unfold StartTransaction. rewrite M_bind_eq.
  assert (Ht : exists t0 w0, (if IsZero (ts_At t) then now else M_ret (ts_At t)) w = (t0, w0) /\
            svc w0 = svc w /\ w_bus w0 = w_bus w).
  { destruct (IsZero (ts_At t)); [by exists (clock (ticks w)), (tick w) | by exists (ts_At t), w]. }
  destruct Ht as (t0 & w0 & -> & Es & Eb). cbn [fst snd]. rewrite M_bind_eq, StartTransaction_locked_eq.
  cbn zeta. rewrite Es, redeem_eq, redeem_target_seq, Es.
  destruct (seq_world_same cpID w0) as [Sr Sb]. rewrite Es in Sr. rewrite Eb in Sb.
  set (uid := evseUID _ _ _).
  destruct (redeem_target cpID uid t (svc w)) as [[r c]|] eqn:Et; cbn [fst snd];
    rewrite M_bind_eq; set (wl := with_cp _ _ _); destruct (persistOrLog_svc wl) as [P1 P2];
    rewrite M_bind_eq; cbn [fst snd publish_events modify M_ret set_bus w_bus svc];
    rewrite P1, P2; unfold wl, with_cp; cbn [svc set_svc set_cps reservations w_bus].
  - unfold tx_of. cbn [cps set_bus svc set_svc set_cps]. rewrite lookup_insert_eq.
    cbn [cp_transactions set_lastSeen put_transaction tx_ID started].
    rewrite lookup_insert_eq. repeat (split; [done|]).
    destruct (end_world_fields r (seq_world cpID w0)) as (F1 & _).
    cbn [tick svc]. split; [by rewrite F1, Sr|]. eexists. f_equal.
    unfold end_world, stop_world. rewrite <- Sb. by destruct (timer r).
  - unfold tx_of. cbn [cps set_bus svc set_svc set_cps]. rewrite lookup_insert_eq.
    cbn [cp_transactions set_lastSeen put_transaction tx_ID started].
    rewrite lookup_insert_eq. do 5 (split; [done|]). exists zeroTime.
    cbn [tick w_bus]. by rewrite Sb.
Qed.

(** At most one reservation is redeemed. *)
Lemma redeems_unique cpID uid t w id1 id2 r1 r2 :
  core_ok w -> redeems cpID uid t (svc w) id1 r1 -> redeems cpID uid t (svc w) id2 r2 -> id1 = id2 /\ r1 = r2.
Proof.
  intros Hw [H1 W1] [H2 W2]. assert (id1 = id2) as ->.
  { destruct W1 as [[-> Hz]|(N1 & U1 & _)], W2 as [[-> Hz']|(N2 & U2 & _)]; try done.
    - by destruct (N2 r1 Hz).
    - by destruct (N1 r2 Hz').
    - eapply (rk_evse w (proj2 Hw)); [apply H1|apply H2|congruence]. }
  split; [done|]. destruct H1 as [E1 _], H2 as [E2 _]. congruence.
Qed.

(** What StartTransaction does to the reservations and the bus. *)
Definition Start_contract (cpID : string) (t : TransactionStart) (w : World) : Prop :=
  let uid := evseUID (cfg (svc w)) cpID (ts_ConnectorID t) in
  let (tx, w') := StartTransaction cpID t w in
  (tx_of cpID (ts_ID t) (svc w') = Some tx /\ tx_EVSEUID tx = uid /\ Active tx = true) /\
  (forall id r, redeems cpID uid t (svc w) id r ->
     tx_ReservationID tx = id /\ reservations (svc w') = delete id (reservations (svc w)) /\
     exists at_, w_bus w' =
       publishAll [started_event cpID tx; ended_event at_ (res r) ReservationConsumed] (w_bus w)) /\
  ((forall id r, ~ redeems cpID uid t (svc w) id r) ->
     tx_ReservationID tx = ts_ReservationID t /\
     (forall id r, reservations (svc w) !! id = Some r ->
        ~ (held_active cpID (svc w) id r /\ rv_EVSEUID (res r) = uid) ->
        reservations (svc w') !! id = Some r) /\
     ((forall id r, held_active cpID (svc w) id r -> rv_EVSEUID (res r) <> uid) ->
        reservations (svc w') = reservations (svc w) /\
        w_bus w' = publishAll [started_event cpID tx] (w_bus w))).

(** C11: a starting session is recorded as running on its connector's EVSE.  If the
    station names an active reservation of that charge point, or names no such one and the
    EVSE is reserved for the session's tag (up to case), the session redeems it:
    that reservation ends as consumed, its id is the session's, every other
    reservation stays and exactly the start and the end are published.  Otherwise
    nothing is redeemed, every reservation but the one on that very EVSE stays,
    and if there is none on it only the start is published.  (What becomes of one
    on it, for another tag, is C18.) *)
Theorem StartTransaction_redeems cpID t w : core_ok w -> Start_contract cpID t w.
Proof.
  intros Hw. unfold Start_contract. cbn zeta.
  pose proof (StartTransaction_world cpID t w) as Hs. cbn zeta in Hs.
  destruct (StartTransaction cpID t w) as [tx w'].
  destruct Hs as (H1 & H2 & H3 & H4 & H5 & at_ & H6). split; [done|].
  unfold redeem_target in *. destruct (redeemedLocked _ _ _ _) as [r|] eqn:Er; cbn in H4, H5, H6.
  - apply redeemedLocked_redeems in Er as (id & Hr). split; [|by intros Hno; destruct (Hno id r)].
    intros id' r' Hr'. destruct (redeems_unique _ _ _ _ _ _ _ _ Hw Hr' Hr) as [-> ->].
    rewrite <- (re_id _ _ _ (rk_res w (proj2 Hw) id r (proj1 (proj1 Hr)))).
    split; [done|]. split; [done|]. by exists at_.
  - pose proof (redeemedLocked_None _ _ _ _ Er) as Hno. split; [by intros id r ?%Hno|]. intros _.
    destruct (reservationOnEVSELocked _ _ _) as [r|] eqn:Eo; cbn in H4, H5, H6; [|by rewrite H5, H6].
    apply reservationOnEVSELocked_Some in Eo as (id & E & Hcp & Hu & Ha). split; [done|]. split.
    + intros id' r' E' Hn. rewrite H5, (re_id _ _ _ (rk_res w (proj2 Hw) id r E)).
      rewrite lookup_delete_ne; [done|]. intros <-. apply Hn. rewrite E in E'. by injection E' as <-.
    + intros Hnone. by destruct (Hnone id r).
Qed.

(** C18: a session with another tag on a reserved EVSE, whose station names no
    active reservation of its own, ends that reservation as failed and redeems
    nothing: exactly the start and that end are published.  The comments of
    StartTransaction and of ReservationFailed say so, and the test
    TestAnotherTagStartingEndsTheReservationAsFailed; the sentence of README.md
    that a different tag leaves the reservation in place does not hold. *)
Theorem other_tag_ends_reservation cpID t w id r :
  core_ok w ->
  let uid := evseUID (cfg (svc w)) cpID (ts_ConnectorID t) in
  held_active cpID (svc w) id r -> rv_EVSEUID (res r) = uid ->
  EqualFold (rv_IDTag (res r)) (ts_IDTag t) = false ->
  (forall r', ts_ReservationID t <> 0 -> ~ held_active cpID (svc w) (ts_ReservationID t) r') ->
  let (tx, w') := StartTransaction cpID t w in
  tx_ReservationID tx = ts_ReservationID t /\
  reservations (svc w') = delete id (reservations (svc w)) /\
  exists at_, w_bus w' =
    publishAll [started_event cpID tx; ended_event at_ (res r) ReservationFailed] (w_bus w).
Proof.
  intros Hw. cbn zeta. intros Hr Hu Ht Hnamed.
  pose proof (StartTransaction_world cpID t w) as Hs. cbn zeta in Hs.
  destruct (StartTransaction cpID t w) as [tx w'].
  destruct Hs as (_ & _ & _ & H4 & H5 & at_ & H6). unfold redeem_target in *.
  assert (Hsame : forall id1 r1, held_active cpID (svc w) id1 r1 ->
            rv_EVSEUID (res r1) = evseUID (cfg (svc w)) cpID (ts_ConnectorID t) -> id1 = id /\ r1 = r).
  { intros id1 r1 H1 Hu1. assert (id1 = id) as ->.
    { eapply (rk_evse w (proj2 Hw)); [apply H1|apply Hr|congruence]. }
    split; [done|]. destruct H1 as [E1 _], Hr as [E _]. congruence. }
  destruct (redeemedLocked _ _ _ _) as [r1|] eqn:Er.
  - exfalso. apply redeemedLocked_redeems in Er as (id1 & H1 & [[-> Hz]|(_ & Hu1 & Ht1)]).
    + by destruct (Hnamed r1 Hz).
    + destruct (Hsame id1 r1 H1 Hu1) as [-> ->]. congruence.
  - destruct (reservationOnEVSELocked _ _ _) as [r1|] eqn:Eo; cbn in H4, H5, H6.
    + apply reservationOnEVSELocked_Some in Eo as (id1 & E1 & Hcp1 & Hu1 & Ha1).
      destruct (Hsame id1 r1) as [-> ->]; [done..|].
      rewrite <- (re_id _ _ _ (rk_res w (proj2 Hw) id r E1)). split; [done|]. split; [done|]. by exists at_.
    + destruct Hr as (E & Hcp & Ha). by destruct (reservationOnEVSELocked_None _ _ _ Eo id r E Hcp Hu).
Qed.

(** The time of a stop: the message's own, or the clock's. *)
Lemma stop_time (at_ : Time) w :
  (forall n, IsZero (clock n) = false) ->
  exists t0 w0, (if IsZero at_ then now else M_ret at_) w = (t0, w0) /\
    svc w0 = svc w /\ w_bus w0 = w_bus w /\ IsZero t0 = false /\ (IsZero at_ = false -> t0 = at_).
Proof.
  intros Hclk. destruct (IsZero at_) eqn:Ez; [|by exists at_, w].
  exists (clock (ticks w)), (tick w). repeat split; [apply Hclk | done].
Qed.

Lemma tx_of_cp cpID txID s : tx_of cpID txID s = cp_transactions (cp_of cpID s) !! txID.
Proof. unfold tx_of, cp_of. by destruct (cps s !! cpID). Qed.

Lemma ensured_session cpID txID w :
  reservations (svc (ensured cpID w)) = reservations (svc w) /\ w_bus (ensured cpID w) = w_bus w /\
  tx_of cpID txID (svc (ensured cpID w)) = tx_of cpID txID (svc w).
Proof.
  rewrite (tx_of_cp cpID txID (svc w)). unfold tx_of. rewrite ensured_lookup. unfold ensured.
  by destruct (cps (svc w) !! cpID).
Qed.

(** A running transaction is stopped. *)
Lemma StopTransaction_running cpID txID meterStop reason at_ w tx :
  core_ok w -> (forall n, IsZero (clock n) = false) ->
  tx_of cpID txID (svc w) = Some tx -> Active tx = true ->
  exists t0 w', StopTransaction cpID txID meterStop reason at_ w = (Some (stopped tx t0 meterStop reason), w') /\
    IsZero t0 = false /\ (IsZero at_ = false -> t0 = at_) /\
    reservations (svc w') = reservations (svc w) /\
    tx_of cpID txID (svc w') = Some (stopped tx t0 meterStop reason) /\
    w_bus w' = publishAll [stopped_event cpID (stopped tx t0 meterStop reason)] (w_bus w).
Proof.
  intros Hw Hclk E Ha. destruct (stop_time at_ w Hclk) as (t0 & w0 & Et & Es & Eb & Hz & Hat).
  rewrite tx_of_cp in E. destruct (ok_tx _ _ (cp_of_ok cpID (svc w) (proj1 Hw)) _ _ E) as [Hid _].
  unfold StopTransaction. rewrite M_bind_eq, Et. cbn [fst snd].
  rewrite M_bind_eq, StopTransaction_locked_eq. cbn zeta. rewrite Es, E, Ha. cbn [fst snd].
  rewrite M_bind_eq. set (wl := with_cp _ _ _). destruct (persistOrLog_svc wl) as [P1 P2].
  rewrite M_bind_eq. exists t0. eexists. split; [reflexivity|].
  cbn [fst snd publish_events modify M_ret set_bus w_bus svc]. rewrite P1, P2.
  unfold wl, with_cp. cbn [svc set_svc set_cps reservations w_bus tick]. rewrite Es, Eb.
  do 3 (split; [done|]). split; [|done].
  unfold tx_of. cbn [cps set_svc set_cps]. rewrite lookup_insert_eq.
  cbn [cp_transactions set_lastSeen put_transaction stopped tx_ID]. by rewrite Hid, lookup_insert_eq.
Qed.

(** Anything else leaves the transactions alone. *)
Lemma StopTransaction_idle cpID txID meterStop reason at_ w :
  (forall tx, tx_of cpID txID (svc w) = Some tx -> Active tx = false) ->
  exists w', StopTransaction cpID txID meterStop reason at_ w = (None, w') /\
    reservations (svc w') = reservations (svc w) /\
    tx_of cpID txID (svc w') = tx_of cpID txID (svc w) /\ w_bus w' = w_bus w.
Proof.
  intros Hi. unfold StopTransaction. rewrite M_bind_eq.
  assert (Ht : exists t0 w0, (if IsZero at_ then now else M_ret at_) w = (t0, w0) /\
            svc w0 = svc w /\ w_bus w0 = w_bus w) by (destruct (IsZero at_); eauto 6).
  destruct Ht as (t0 & w0 & -> & Es & Eb). cbn [fst snd].
  rewrite M_bind_eq, StopTransaction_locked_eq. cbn zeta. rewrite Es.
  pose proof (tx_of_cp cpID txID (svc w)) as Hcp. exists (ensured cpID w0).
  destruct (ensured_session cpID txID w0) as (N1 & N2 & N3). rewrite Es in N1, N3. rewrite Eb in N2.
  split; [|done]. rewrite <- Hcp.
  destruct (tx_of cpID txID (svc w)) as [tx|] eqn:E; [|done]. by rewrite (Hi tx).
Qed.

(** What StopTransaction owes its caller, branch by branch. *)
Definition Stop_contract (cpID txID : string) (meterStop : Z) (reason : string) (at_ : Time)
    (w : World) : Prop :=
  let (out, w') := StopTransaction cpID txID meterStop reason at_ w in
  reservations (svc w') = reservations (svc w) /\
  match tx_of cpID txID (svc w) with
  | Some tx =>
    if Active tx then
      exists tx', out = Some tx' /\ tx_of cpID txID (svc w') = Some tx' /\ Active tx' = false /\
        tx_ID tx' = txID /\ tx_EVSEUID tx' = tx_EVSEUID tx /\ tx_MeterStop tx' = meterStop /\
        tx_Reason tx' = reason /\ (IsZero at_ = false -> tx_StoppedAt tx' = at_) /\
        w_bus w' = publishAll [stopped_event cpID tx'] (w_bus w)
    else out = None /\ tx_of cpID txID (svc w') = Some tx /\ w_bus w' = w_bus w
  | None => out = None /\ tx_of cpID txID (svc w') = None /\ w_bus w' = w_bus w
  end.

(** StopTransaction closes a running transaction and announces it, and
    closes it once: an unknown or already stopped id changes no transaction
    and announces nothing. *)
Theorem StopTransaction_outcomes cpID txID meterStop reason at_ w :
  core_ok w -> (forall n, IsZero (clock n) = false) -> Stop_contract cpID txID meterStop reason at_ w.
Proof.
  intros Hw Hclk. unfold Stop_contract. destruct (tx_of cpID txID (svc w)) as [tx|] eqn:E;
    [destruct (Active tx) eqn:Ha|].
  - destruct (StopTransaction_running cpID txID meterStop reason at_ w tx Hw Hclk E Ha)
      as (t0 & w' & -> & Hz & Hat & Hr & Htx & Hb).
    split; [done|]. exists (stopped tx t0 meterStop reason). repeat split; try done.
    rewrite tx_of_cp in E. by destruct (ok_tx _ _ (cp_of_ok cpID (svc w) (proj1 Hw)) _ _ E).
  - destruct (StopTransaction_idle cpID txID meterStop reason at_ w) as (w' & -> & Hr & Htx & Hb);
      [congruence | by rewrite Htx].
  - destruct (StopTransaction_idle cpID txID meterStop reason at_ w) as (w' & -> & Hr & Htx & Hb);
      [congruence | by rewrite Htx].
Qed.

(** A report's run: the events it publishes and the charge point it leaves. *)
Lemma SetConnectorStatus_run id conn st code v : exists v' es at_,
  (SetConnectorStatus id conn st code v).2 = set_bus (publishAll es (w_bus v)) v' /\
  cfg (svc v') = cfg (svc v) /\
  let cp := on_status (cfg (svc v)) id conn st code at_ (cp_of id (svc v)) in
  es = station_events id conn st code at_ (cp_of id (svc v)) ++ (recompute at_ cp).2 /\
  cp_of id (svc v') = (recompute at_ cp).1.
Proof.
  unfold SetConnectorStatus. rewrite M_bind_eq. cbn [fst snd now].
  rewrite M_bind_eq, SetConnectorStatus_locked_eq. cbn zeta. cbn [fst snd].
  eexists (with_cp id _ (tick v)), _, _. split; [reflexivity|]. split; [done|]. split; [done|].
  unfold cp_of, with_cp. cbn [svc set_svc set_cps cps]. by rewrite lookup_insert_eq.
Qed.

(** The same report again changes no status. *)
Lemma reported_again c id conn st code t1 t2 cp :
  cp_ok id cp ->
  let cp1 := (recompute t1 (on_status c id conn st code t1 cp)).1 in
  station_events id conn st code t2 cp1 = [] /\
  (recompute t2 (on_status c id conn st code t2 cp1)).2 = [].
Proof.
  intros Hcp. pose proof (on_status_shape c id conn st code t1 _ Hcp) as Hsh.
  destruct (recompute_ok id t1 _ Hsh) as [Hok Hex]. destruct Hsh as (_ & Hnd & _).
  destruct (recompute_spec t1 _ Hnd) as (m & Erc & _). cbn zeta.
  apply (f_equal fst) in Erc. cbn [fst] in Erc.
  set (cp1 := (recompute _ _).1) in *. clearbody cp1.
  pose proof (on_status_shape c id conn st code t2 _ Hok) as (_ & Hnd2 & _).
  unfold station_events. unfold on_status in Erc, Hnd2 |- *.
  revert Erc Hnd2. destruct (Z.eqb_spec conn 0) as [Hc|Hc]; cbn [andb]; intros Erc Hnd2.
  - assert (Hst : cp_station cp1 = st) by (rewrite Erc; cbn; by destruct (decide _)).
    rewrite bool_decide_eq_true_2 by done. split; [done|].
    cbv zeta in Hnd2 |- *. rewrite decide_True in Hnd2 |- * by exact Hst. by apply recompute_quiet.
  - split; [done|]. apply recompute_quiet; [done|]. set (u := evseUID c id conn) in *.
    assert (Hin : u ∈ cp_order cp1) by
      (rewrite Erc; apply (addEVSE_order id); [by apply set_lastSeen_ok | by left]).
    assert (Hrep : cp_reported cp1 !! u = Some st) by (rewrite Erc; cbn; by rewrite lookup_insert_eq).
    assert (Hadd : addEVSE u conn (set_lastSeen t2 cp1) = set_lastSeen t2 cp1)
      by (unfold addEVSE; cbn; apply (ok_effective _ _ Hok) in Hin; by destruct Hin as [x ->]).
    cbv zeta. rewrite Hadd. intros uid Hu. change (uid ∈ cp_order cp1) in Hu.
    pose proof (Hex uid Hu) as He. cbn in He |- *. rewrite He. f_equal.
    unfold wanted. cbn. destruct (decide (uid = u)) as [->|Hne].
    + by rewrite lookup_insert_eq, Hrep.
    + by rewrite lookup_insert_ne.
Qed.

(** Stations repeat their reports liberally; a report equal to the last
    one publishes nothing, so the push client sends nothing. *)
Theorem repeated_report_silent id conn st code w :
  core_ok w ->
  w_bus (SetConnectorStatus id conn st code (SetConnectorStatus id conn st code w).2).2 =
  w_bus (SetConnectorStatus id conn st code w).2.
Proof.
  intros Hw.
  destruct (SetConnectorStatus_run id conn st code w) as (v1 & es1 & t1 & -> & Ec1 & _ & Ecp1).
  destruct (SetConnectorStatus_run id conn st code (set_bus (publishAll es1 (w_bus w)) v1))
    as (v2 & es2 & t2 & -> & _ & Ees2 & _).
  cbn [svc set_bus] in Ees2. rewrite Ec1, Ecp1 in Ees2.
  destruct (reported_again (cfg (svc w)) id conn st code t1 t2 (cp_of id (svc w))) as [E1 E2];
    [by apply cp_of_ok, Hw|].
  rewrite E1, E2 in Ees2. by rewrite Ees2.
Qed.
End sessions.

(** ** Instances: the properties applied to a day at the station of Samples.v *)

#[local] Existing Instance key_order.
#[local] Existing Instance sample_env.

Lemma sample_started : started_from (Some sample_config) (Some sample_store) sample_world.
Proof. split; [apply sample_store_ok | apply sample_reachable]. Defined.

Lemma sample_trace :
  trace (New (Some sample_config) (Some sample_store)) (reverse sample_actions) sample_world.
Proof. repeat (apply (trace_step _ _ _); [|vm_compute; done]). apply trace_nil. Defined.

Lemma sample_core_ok : core_ok sample_world.
Proof. apply (started_ok _ _ _ sample_started). Defined.

Definition sample_cp : chargePointState := cp_of "CP1" (svc sample_world).
Definition sample_held : reservation :=
  default (mkRes zeroReservation None) (reservations (svc sample_world) !! 1).

Lemma sample_held_eq : reservations (svc sample_world) !! 1 = Some sample_held.
Proof. vm_compute. reflexivity. Defined.

Lemma statuses_honest_witness :
  last_online "CP1" (reverse sample_actions) = true /\
  last_report (Some sample_config) "CP1" "EVSE-2" (reverse sample_actions) = Some StatusCharging.
Proof.
  destruct (statuses_honest (Some sample_config) (Some sample_store) (reverse sample_actions) sample_world "CP1"
              sample_cp "EVSE-2" StatusCharging sample_store_ok sample_trace) as (H1 & _ & _ & H2);
    [vm_compute; reflexivity..|].
  exact (conj H1 H2).
Defined.

Lemma events_complete_witness :
  exists es, w_bus (run (ADisconnected "CP1" "gone") sample_world).2 = publishAll es (w_bus sample_world) /\
    forall id uid, foldl observe (shown sample_world) es id uid =
                   shown (run (ADisconnected "CP1" "gone") sample_world).2 id uid.
Proof.
  apply (events_complete (Some sample_config) (Some sample_store) sample_world _ sample_started).
  vm_compute. reflexivity.
Defined.

Lemma one_reservation_per_evse_witness : 1 = 1 /\ sample_held = sample_held.
Proof.
  apply (one_reservation_per_evse (Some sample_config) (Some sample_store) sample_world 1 1 _ _ sample_started
           sample_held_eq sample_held_eq eq_refl).
Defined.

Lemma reservations_expire_witness :
  exists h, timer sample_held = Some h /\
    ((exists d, timers sample_world !! h = Some (mkTimer d 1 (rv_ExpiresAt (res sample_held)))) \/
     (1, rv_ExpiresAt (res sample_held)) ∈ expiring sample_world).
Proof.
  apply (proj1 (reservations_expire (Some sample_config) (Some sample_store) sample_world sample_started)
           1 sample_held sample_held_eq).
  vm_compute. reflexivity.
Defined.

Lemma expiry_ends_witness :
  reservations (svc (expire 1 (rv_ExpiresAt (res sample_held)) sample_world).2) =
    delete 1 (reservations (svc sample_world)) /\
  exists at_, w_bus (expire 1 (rv_ExpiresAt (res sample_held)) sample_world).2 =
    publishAll [ended_event at_ (res sample_held) ReservationExpired] (w_bus sample_world).
Proof.
  apply (expiry_ends (Some sample_config) (Some sample_store) sample_world 1 sample_held
           (rv_ExpiresAt (res sample_held)) sample_started sample_held_eq);
    vm_compute; reflexivity.
Defined.

Lemma late_expiry_harmless_witness : (expire 7 zeroTime sample_world).2 = sample_world.
Proof.
  apply (late_expiry_harmless sample_world 7 zeroTime).
  intros r Hr. vm_compute in Hr. discriminate.
Defined.

Lemma BeginReservation_outcomes_witness :
  Begin_contract sample_world (sample_reservation "EVSE-2" "OFFICE" 15).
Proof. apply (BeginReservation_outcomes _ _ sample_core_ok). vm_compute. reflexivity. Defined.

Definition sample_begun (w : World) (uid : string) : Reservation :=
  match (BeginReservation (sample_reservation uid "OFFICE" 15) w).1 with
  | inl b => b | inr _ => zeroReservation end.
Definition sample_initial : World := New (Some sample_config) (Some sample_store).

Lemma sample_initial_ok : core_ok sample_initial.
Proof. apply New_ok. apply sample_store_ok. Defined.

Definition sample_ended : World :=
  (run (AEnd 1 "cancelled") (BeginReservation (sample_reservation "EVSE-1" "OFFICE" 15) sample_initial).2).2.

Lemma reservation_ids_fresh_witness :
  rv_ID (sample_begun sample_initial "EVSE-1") < rv_ID (sample_begun sample_ended "EVSE-1").
Proof.
  apply (reservation_ids_fresh sample_initial (sample_reservation "EVSE-1" "OFFICE" 15)
           (sample_reservation "EVSE-1" "OFFICE" 15) _ _ sample_ended sample_initial_ok);
    [vm_compute; reflexivity | vm_compute; reflexivity | | vm_compute; reflexivity | vm_compute; reflexivity].
  apply reach_step; [apply reach_refl | vm_compute; reflexivity].
Defined.

Definition sample_file (w : World) : Store := default sample_store (store w).

Lemma persist_writes_active_witness :
  exists st', store (persist sample_world).2 = Some st' /\
    normalize_reservation (persisted_reservation (res sample_held)) ∈ ss_Reservations (state st').
Proof.
  destruct (persist_writes_active sample_world (sample_file sample_world) sample_core_ok)
    as (st' & H1 & _ & _ & _ & _ & _ & _ & H2 & _); [vm_compute; reflexivity..|].
  exists st'. split; [exact H1|]. apply H2. exists 1, sample_held.
  split; [exact sample_held_eq|]. split; [vm_compute; reflexivity | reflexivity].
Defined.

Lemma restart_restores_witness :
  res <$> reservations (svc (@New key_order sample_env (cfg (svc sample_world))
                               (Some (sample_file (persist sample_world).2)))) !! 1 =
  Some (in_utc (res sample_held)).
Proof.
  destruct (restart_restores key_order sample_env sample_world (sample_file sample_world)
              (sample_file (persist sample_world).2) sample_core_ok) as [Hr _];
    [vm_compute; reflexivity..|].
  specialize (Hr 1). rewrite sample_held_eq in Hr. rewrite Hr. vm_compute. reflexivity.
Defined.

Definition sample_start : TransactionStart :=
  mkTransactionStart "1" 1 "office" 100 0 zeroTime.

Lemma StartTransaction_redeems_witness : Start_contract "CP1" sample_start sample_world.
Proof. apply (StartTransaction_redeems _ _ _ sample_core_ok). Defined.

Definition sample_guest : TransactionStart := mkTransactionStart "9" 1 "GUEST" 0 0 zeroTime.

Lemma other_tag_ends_reservation_witness :
  let (tx, w') := StartTransaction "CP1" sample_guest sample_world in
  tx_ReservationID tx = 0 /\ reservations (svc w') = delete 1 (reservations (svc sample_world)) /\
  exists at_, w_bus w' =
    publishAll [started_event "CP1" tx; ended_event at_ (res sample_held) ReservationFailed] (w_bus sample_world).
Proof.
  apply (other_tag_ends_reservation "CP1" sample_guest sample_world 1 sample_held sample_core_ok).
  - split; [exact sample_held_eq | split; vm_compute; reflexivity].
  - vm_compute. reflexivity.
  - vm_compute. reflexivity.
  - intros r' Hz. destruct Hz. reflexivity.
Defined.

Definition sample_running : World := (StartTransaction "CP1" sample_start sample_world).2.

Lemma sample_clock n : IsZero (clock n) = false.
Proof.
  change (IsZero (sample_time n) = false). unfold IsZero, sample_time. cbn [instant]. apply Z.eqb_neq.
  assert (days_of_date (mkDate 2026 1 1) * seconds_per_day = 63902822400) as -> by (vm_compute; reflexivity).
  unfold second. lia.
Defined.

Lemma StopTransaction_outcomes_witness : Stop_contract "CP1" "1" 250 "Local" zeroTime sample_running.
Proof.
  apply (StopTransaction_outcomes "CP1" "1" 250 "Local" zeroTime sample_running
           (keeps_StartTransaction "CP1" sample_start sample_world sample_core_ok) sample_clock).
Defined.

Lemma repeated_report_silent_witness :
  w_bus (SetConnectorStatus "CP1" 1 StatusBlocked "NoError"
           (SetConnectorStatus "CP1" 1 StatusBlocked "NoError" sample_world).2).2 =
  w_bus (SetConnectorStatus "CP1" 1 StatusBlocked "NoError" sample_world).2.
Proof. apply (repeated_report_silent "CP1" 1 StatusBlocked "NoError" sample_world sample_core_ok). Defined.

(** The same day, evaluated. *)
Example sample_values :
  rv_ID (sample_begun sample_world "EVSE-2") = 2 /\
  (BeginReservation (sample_reservation "EVSE-1" "OFFICE" 15) sample_world).1 =
    inr (wrap_colon "EVSE-1" (ESentinel ErrAlreadyReserved)) /\
  tx_ReservationID (StartTransaction "CP1" sample_start sample_world).1 = 1 /\
  option_map tx_MeterStop (StopTransaction "CP1" "1" 250 "Local" zeroTime sample_running).1 = Some 250 /\
  option_map tx_MeterStop (StopTransaction "CP1" "1" 250 "Local" zeroTime
    (StopTransaction "CP1" "1" 250 "Local" zeroTime sample_running).2).1 = None /\
  EVSEStatus_of "EVSE-1" (svc sample_world) = Some StatusAvailable.
Proof. vm_compute. repeat split. Qed.
