(* ===== verification/Edges.v ===== *)
(** * Behaviour at the edges, on concrete inputs

    Evaluated runs that show where the code and what it, its comments or the
    documentation intend part ways; the reconnect race is in Csms.v. *)

From S2P Require Import Prelude GoLib GoTime Json Ocpp Errors Config State Bus World Core.
From S2P Require Import Persist Reservations Transactions Load CoreFacts CoreInv CoreOps.
From S2P Require Import CoreTx CoreReach Samples CoreEvents CoreCounters Restart CoreProps.

#[local] Existing Instance key_order.
#[local] Existing Instance sample_env.

(** A session with another tag does not leave the reservation in place: it is
    dropped, as failed. *)
Theorem other_tag_drops_reservation :
  rv_IDTag (res sample_held) = "OFFICE" /\
  reservations (svc (StartTransaction "CP1" (mkTransactionStart "9" 1 "GUEST" 0 0 zeroTime) sample_world).2) !! 1 = None.
Proof. vm_compute. done. Qed.

(** A file from before the counters existed, with an expired reservation. *)
Definition old_file : Store :=
  mkStore "state.json"
    (State.mkState 1 None 1 1 1
       [State.mkReservation 50 "" "CP1" "EVSE-1" "OFFICE" (TimeAdd (sample_time 0) (- hour)) zeroTime "cli" ""] [])
    no_file.

(** The id of a reservation that expired while cpms was down is not kept clear
    of: the counter only moves past the ids that are still held. *)
Theorem expired_ids_reused :
  nextReservationID (svc (New (Some sample_config) (Some old_file))) = 1.
Proof. vm_compute. done. Qed.

(** An EVSE first heard of through meter values, while the station is out of
    order, is shown as UNKNOWN until its next report. *)
Theorem meter_values_hide_fault :
  EVSEStatus_of "CP1-7"
    (svc (run_all [AConnected "CP1"; AStatus "CP1" 0 StatusOutOfOrder "GroundFailure"; AMeterValues "CP1" 7 "1 Wh"]
            (New (Some sample_config) None))) = Some StatusUnknown /\
  EVSEStatus_of "CP1-7"
    (svc (run_all [AConnected "CP1"; AStatus "CP1" 0 StatusOutOfOrder "GroundFailure"; AMeterValues "CP1" 7 "1 Wh";
                   AConnected "CP1"]
            (New (Some sample_config) None))) = Some StatusOutOfOrder.
Proof. vm_compute. done. Qed.

(** The uid made up for an unconfigured connector can be one that is configured
    for another. *)
Definition clashing_config : Config :=
  mkConfig (cf_Charger sample_config) (cf_Server sample_config) (cf_Auth sample_config) (cf_OCPI sample_config)
    (mkLocation "L1" "Office" "Street 1" "Berlin" "10115" "DEU" (mkCoordinates "52.5" "13.4") [sample_evse "CP1-3" 1]).

Theorem made_up_uid_clashes :
  evseUID (Some clashing_config) "CP1" 3 = "CP1-3" /\ evseUID (Some clashing_config) "CP1" 1 = "CP1-3".
Proof. vm_compute. done. Qed.
