(* ===== verification/Acts.v ===== *)
(** * Code that acts on the domain state only through core's operations

    [acts_as P m]: whatever world [m] starts in, it leaves the one a sequence of
    core's own actions, all satisfying [P], would leave.  The OCPP handler and
    the control layer are shown to be of this kind, so every invariant of the
    reachable states holds in the states they produce too. *)

From S2P Require Import Prelude GoLib GoTime Ocpp Errors Config State Bus World Core.
From S2P Require Import Persist Reservations Transactions Load CoreFacts CoreInv CoreOps.
From S2P Require Import CoreTx CoreReach Samples CoreCounters.

Section acts.
Context `{MapOrder} `{Env}.

Definition acts_as {A} (P : action -> Prop) (m : M A) : Prop :=
  forall w, exists acts, Forall P acts /\ (m w).2 = run_all acts w.

Lemma run_all_app l1 l2 w : run_all (l1 ++ l2) w = run_all l2 (run_all l1 w).
Proof. apply foldl_app. Qed.

Section combinators.
Context {A B : Type} (P : action -> Prop).

Lemma acts_ret (a : A) : acts_as P (M_ret a).
Proof. intros w. by exists []. Qed.

Lemma acts_gets (f : World -> A) : acts_as P (gets f).
Proof. intros w. by exists []. Qed.

Lemma acts_bind (m : M A) (f : A -> M B) :
  acts_as P m -> (forall a, acts_as P (f a)) -> acts_as P (M_bind m f).
Proof.
  intros Hm Hf w. rewrite M_bind_eq. destruct (Hm w) as (l1 & H1 & ->).
  destruct (Hf (m w).1 (run_all l1 w)) as (l2 & H2 & E2). exists (l1 ++ l2).
  split; [by apply Forall_app | by rewrite run_all_app].
Qed.

Lemma acts_weaken (Q : action -> Prop) (m : M A) :
  (forall a, P a -> Q a) -> acts_as P m -> acts_as Q m.
Proof.
  intros HPQ Hm w. destruct (Hm w) as (l & Hl & ->). exists l. split; [|done].
  by eapply Forall_impl.
Qed.

Lemma acts_run a : P a -> acts_as P (run a).
Proof. intros Ha w. exists [a]. split; [by apply Forall_singleton | done]. Qed.

Lemma acts_discarded (m : M A) : acts_as P (discard m) -> acts_as P m.
Proof.
  intros Hm w. destruct (Hm w) as (l & Hl & E). exists l. split; [done|].
  unfold discard in E. by rewrite M_bind_eq in E.
Qed.
End combinators.

(** One operation of core whose result is used. *)
Lemma acts_op {A} (P : action -> Prop) (m : M A) a : run a = discard m -> P a -> acts_as P m.
Proof. intros E Ha. apply acts_discarded. rewrite <- E. by apply acts_run. Qed.

(** ** What such code keeps *)

Lemma run_all_invariant (I : World -> Prop) (P : action -> Prop) acts w :
  (forall a w, P a -> I w -> I (run a w).2) -> Forall P acts -> I w -> I (run_all acts w).
Proof.
  intros Ha Hf. revert w. induction Hf as [|a acts Hp Hf IH]; intros w Hw; [done|].
  simpl. by apply IH, Ha.
Qed.

Lemma acts_keeps {A} (I : World -> Prop) (P : action -> Prop) (m : M A) :
  (forall a w, P a -> I w -> I (run a w).2) -> acts_as P m -> keeps I m.
Proof.
  intros Ha Hm w Hw. destruct (Hm w) as (l & Hl & ->). by eapply run_all_invariant.
Qed.

Lemma run_has_ids a w : no_begin a -> has_ids w -> has_ids (run a w).2.
Proof. intros Ha Hid. by apply (run_counts (cfg (svc w)) (fun n => n < int_max) a Ha w). Qed.

(** Code that begins no reservation leads from reachable states to reachable
    states: it cannot exhaust the reservation ids. *)
Lemma acts_reachable {A} (m : M A) w0 w :
  acts_as no_begin m -> reachable w0 w -> has_ids w -> reachable w0 (m w).2 /\ has_ids (m w).2.
Proof.
  intros Hm Hr Hid.
  apply (acts_keeps (fun w => reachable w0 w /\ has_ids w) no_begin m); [|done|done].
  intros a w' Ha [Hr' Hid']. split; [by apply reach_step | by apply run_has_ids].
Qed.
(** ** Runs of permitted actions

    [steps P w w']: from [w], actions satisfying [P] lead to [w'].  It is what
    one thread is told of the others while it waits. *)

Inductive steps (P : action -> Prop) (w0 : World) : World -> Prop :=
| steps_refl : steps P w0 w0
| steps_step w a : steps P w0 w -> has_ids w -> P a -> steps P w0 (run a w).2.

Lemma steps_reachable P w0 w w' : reachable w0 w -> steps P w w' -> reachable w0 w'.
Proof. intros Hr. induction 1; [done | by apply reach_step]. Qed.

Lemma steps_ok P w w' : core_ok w -> steps P w w' -> core_ok w'.
Proof. intros Hw Hs. eapply reachable_ok; [done|]. eapply steps_reachable; [apply reach_refl | done]. Qed.

Lemma steps_invariant (I : World -> Prop) P w w' :
  (forall a w, P a -> core_ok w -> has_ids w -> I w -> I (run a w).2) ->
  core_ok w -> I w -> steps P w w' -> I w'.
Proof.
  intros Ha Hw Hi Hs. induction Hs as [|v a Hs IH Hid Hp]; [done|].
  apply Ha; try done. by apply (steps_ok P w).
Qed.

Lemma acts_steps {A} (m : M A) P w :
  (forall a, P a -> no_begin a) -> acts_as P m -> has_ids w -> steps P w (m w).2 /\ has_ids (m w).2.
Proof.
  intros HP Hm Hid.
  apply (acts_keeps (fun w' => steps P w w' /\ has_ids w') P m); [|done|by split; [apply steps_refl|]].
  intros a w' Ha [Hs Hid']. split; [by apply steps_step | by apply run_has_ids; [apply HP|]].
Qed.
End acts.

Create HintDb acts discriminated.
#[export] Hint Resolve acts_ret acts_gets : acts.
