(* ===== verification/ReservationFacts.v ===== *)
(** * What each operation does to the reservations

    An equation per operation of the reservation lifecycle, and what follows
    for a thread that owns a reservation the station has not confirmed: nobody
    else touches it ([steps_spared]). *)

From S2P Require Import Prelude GoLib GoTime Ocpp Errors Config State Bus World Core.
From S2P Require Import Persist Reservations Transactions Load CoreFacts CoreInv CoreOps.
From S2P Require Import CoreTx CoreReach Samples CoreEvents CoreCounters Restart CoreProps Acts.

Section reservations.
Context `{MapOrder} `{Env}.

Lemma Activate_reservations id w :
  core_ok w ->
  match reservations (svc w) !! id with
  | Some r =>
    if decide (rv_Status (res r) = ReservationPending) then
      (ActivateReservation id w).1 = Some (set_status ReservationActive (res r)) /\
      reservations (svc (ActivateReservation id w).2) =
        <[id := mkRes (set_status ReservationActive (res r)) (Some (next_timer w))]> (reservations (svc w))
    else ActivateReservation id w = (None, w)
  | None => ActivateReservation id w = (None, w)
  end.
Proof.
  intros [_ Hok]. unfold ActivateReservation. rewrite M_bind_eq, Activate_locked_eq by done.
  destruct (reservations (svc w) !! id) as [r|] eqn:E; [|done]. case_decide; [|done].
  cbn [fst snd]. rewrite M_bind_eq. set (wa := armed_world _ _).
  destruct (persistOrLog_svc wa) as [P _]. rewrite M_bind_eq. cbn [fst snd now].
  rewrite M_bind_eq. cbn [fst snd publish_events modify M_ret]. split; [done|].
  cbn [svc set_bus tick]. rewrite P. unfold wa, armed_world. cbn.
  by rewrite (re_id _ _ _ (rk_res w Hok id r E)).
Qed.

Lemma End_reservations id reason w :
  core_ok w ->
  (EndReservation id reason w).1 = res <$> reservations (svc w) !! id /\
  reservations (svc (EndReservation id reason w).2) = delete id (reservations (svc w)).
Proof.
  intros [_ Hok]. unfold EndReservation. rewrite M_bind_eq, End_locked_eq.
  destruct (reservations (svc w) !! id) as [r|] eqn:E; [|by rewrite delete_id].
  destruct (end_world_fields r w) as (F & _).
  rewrite (re_id _ _ _ (rk_res w Hok id r E)) in F. cbn [fst snd]. case_decide; [done|].
  rewrite M_bind_eq. destruct (persistOrLog_svc (end_world r w)) as [P _].
  rewrite M_bind_eq. cbn [fst snd publish_events modify M_ret svc set_bus]. by rewrite P.
Qed.

Lemma Orphan_reservations id reason w :
  core_ok w ->
  match reservations (svc w) !! id with
  | Some r =>
    if decide (rv_Status (res r) = ReservationPending) then
      (OrphanReservation id reason w).1 = Some (set_status ReservationCancelling (res r)) /\
      reservations (svc (OrphanReservation id reason w).2) =
        <[id := mkRes (set_status ReservationCancelling (res r)) None]> (reservations (svc w))
    else OrphanReservation id reason w = (None, w)
  | None => OrphanReservation id reason w = (None, w)
  end.
Proof.
  intros [_ Hok]. unfold OrphanReservation. rewrite M_bind_eq, Orphan_locked_eq by done.
  destruct (reservations (svc w) !! id) as [r|] eqn:E; [|done]. case_decide; [|done].
  cbn [fst snd]. rewrite M_bind_eq. cbn [fst snd now]. rewrite M_bind_eq. split; [done|].
  cbn. by rewrite (re_id _ _ _ (rk_res w Hok id r E)).
Qed.

Lemma Begin_reservations r w :
  core_ok w -> has_ids w ->
  match (BeginReservation r w).1 with
  | inl b =>
    rv_ID b = nextReservationID (svc w) /\ rv_Status b = ReservationPending /\
    rv_EVSEUID b = rv_EVSEUID r /\ rv_IDTag b = rv_IDTag r /\ rv_ExpiresAt b = rv_ExpiresAt r /\
    rv_ChargePointID b = rv_ChargePointID r /\
    reservations (svc w) !! rv_ID b = None /\
    reservations (svc (BeginReservation r w).2) = <[rv_ID b := mkRes b None]> (reservations (svc w))
  | inr _ => reservations (svc (BeginReservation r w).2) = reservations (svc w)
  end.
Proof.
  intros [_ Hok] Hid. unfold BeginReservation. rewrite M_bind_eq, Begin_locked_eq.
  destruct (connectorID _ _) as [conn|]; [|done]. destruct (reservationOnLocked _ _); [done|].
  cbn [fst snd]. rewrite M_bind_eq. set (r' := begun r conn _ _).
  destruct (persist_svc (begun_world r' w)) as (P1 & _).
  assert (Hfree : reservations (svc w) !! nextReservationID (svc w) = None).
  { destruct (reservations (svc w) !! nextReservationID (svc w)) as [rr|] eqn:E; [|done].
    destruct (rk_res w Hok _ rr E) as [_ ? _ _ _]. lia. }
  destruct (persist (begun_world r' w)) as [[e|] wp]; cbn [fst snd] in *.
  - rewrite M_bind_eq. cbn. rewrite P1. cbn. by rewrite delete_insert_id.
  - cbn. by rewrite P1.
Qed.

Lemma Begin_next r w :
  core_ok w -> has_ids w ->
  nextReservationID (svc (BeginReservation r w).2) <= nextReservationID (svc w) + 1.
Proof.
  intros [_ Hok] Hid. unfold BeginReservation. rewrite M_bind_eq, Begin_locked_eq.
  destruct (connectorID _ _) as [conn|]; [|cbn; lia]. destruct (reservationOnLocked _ _); [cbn; lia|].
  cbn [fst snd]. rewrite M_bind_eq. set (r' := begun r conn _ _).
  destruct (persist_svc (begun_world r' w)) as (P1 & _).
  pose proof (rk_next w Hok). unfold has_ids in Hid.
  assert (Hn : nextReservationID (svc (persist (begun_world r' w)).2) = nextReservationID (svc w) + 1).
  { rewrite P1. cbn. apply wrap_int_succ. lia. }
  destruct (persist (begun_world r' w)) as [[e|] wp]; cbn [fst snd] in *; [rewrite M_bind_eq; cbn|cbn]; lia.
Qed.

Lemma expiring_reservations id at_ w :
  core_ok w ->
  reservations (svc (run_expiring id at_ w).2) = reservations (svc w) \/
  exists r, reservations (svc w) !! id = Some r /\ rv_Status (res r) = ReservationActive /\
    reservations (svc (run_expiring id at_ w).2) = delete id (reservations (svc w)).
Proof.
  intros [_ Hok]. unfold run_expiring. rewrite M_bind_eq. cbn [fst snd gets].
  case_bool_decide; [|by left]. rewrite M_bind_eq, expire_locked_eq.
  destruct (reservations (svc w) !! id) as [r|] eqn:E; [|by left]. case_decide as Hd; [|by left].
  right. exists r. split; [done|]. split; [apply Hd|].
  cbn [fst snd]. rewrite M_bind_eq. cbn [fst snd modify]. rewrite M_bind_eq.
  match goal with |- context [persistOrLog ?v] => destruct (persistOrLog_svc v) as [P _] end.
  cbn [publish_events modify snd svc set_bus]. rewrite P. cbn [svc set_expiring].
  destruct (end_world_fields r w) as (F & _). rewrite F.
  by rewrite (re_id _ _ _ (rk_res w Hok id r E)).
Qed.

(** The actions that leave the reservations alone. *)
Definition not_about_reservations (a : action) : Prop :=
  match a with
  | ABegin _ | AActivate _ | AEnd _ _ | AOrphan _ _ | AStart _ _ | AExpire _ _ => False
  | _ => True
  end.

Lemma run_same_reservations a m :
  not_about_reservations a -> keeps (fun w => reservations (svc w) = m) (run a).
Proof.
  intros Ha.
  assert (Hsvc : forall f, (forall s, reservations (f s) = reservations s) ->
    keeps (fun w => reservations (svc w) = m) (modify_svc f)).
  { intros f Hf w Hw. cbn. by rewrite Hf. }
  assert (Hens : forall id, keeps (fun w => reservations (svc w) = m) (ensure id)).
  { intros id w Hw. rewrite ensure_eq. cbn [snd]. by destruct (ensured_same id w) as (_ & -> & _). }
  assert (Hper : keeps (fun w => reservations (svc w) = m) persist).
  { intros w Hw. by destruct (persist_svc w) as [-> _]. }
  destruct a; try done; unfold run, discard, Connected, Connected_locked, Disconnected,
    Disconnected_locked, Booted, Seen, Heartbeat, SetConnectorStatus, SetConnectorStatus_locked,
    RecordMeterValues, NextTransactionID, NextTransactionID_locked, NextRemoteStartID,
    NextRemoteStartID_locked, StopTransaction, StopTransaction_locked, fire, persistOrLog; cbv zeta;
    keeps_walk ltac:(by apply Hsvc)
      ltac:(first [apply keeps_ret | apply keeps_gets | exact Hper | apply Hens | by apply Hsvc | by intros w]).
Qed.

(** ** Reservations nobody else touches *)

(** Actions that do not decide about reservation [id]: only the thread that
    made it does. *)
Definition spares (id : Z) (a : action) : Prop :=
  match a with
  | AActivate i | AEnd i _ | AOrphan i _ => i <> id
  | _ => True
  end.

Lemma run_spared id r a w :
  core_ok w -> has_ids w -> spares id a ->
  reservations (svc w) !! id = Some r -> rv_Status (res r) <> ReservationActive ->
  reservations (svc (run a w).2) !! id = Some r.
Proof.
  intros Hw Hid Ha E Hne.
  destruct a as [| | | | | | |b|i|i reason|i reason| | |cpID t| | |i at_|];
    try (match goal with |- context [run ?a] =>
           rewrite (run_same_reservations a (reservations (svc w)) I w eq_refl); exact E end).
  - unfold run, discard. rewrite M_bind_eq. cbn [snd M_ret].
    pose proof (Begin_reservations b w Hw Hid) as Hb. destruct (BeginReservation b w).1 as [b'|]; [|by rewrite Hb].
    destruct Hb as (_ & _ & _ & _ & _ & _ & Hfree & ->). rewrite lookup_insert_ne; [done|]. congruence.
  - unfold run, discard. rewrite M_bind_eq. cbn [snd M_ret].
    pose proof (Activate_reservations i w Hw) as Hb.
    destruct (reservations (svc w) !! i) as [r'|]; [case_decide|]; [|by rewrite Hb..].
    destruct Hb as [_ ->]. by rewrite lookup_insert_ne.
  - unfold run, discard. rewrite M_bind_eq. cbn [snd M_ret].
    destruct (End_reservations i reason w Hw) as [_ ->]. by rewrite lookup_delete_ne.
  - unfold run, discard. rewrite M_bind_eq. cbn [snd M_ret].
    pose proof (Orphan_reservations i reason w Hw) as Hb.
    destruct (reservations (svc w) !! i) as [r'|]; [case_decide|]; [|by rewrite Hb..].
    destruct Hb as [_ ->]. by rewrite lookup_insert_ne.
  - unfold run, discard. rewrite M_bind_eq. cbn [snd M_ret].
    pose proof (StartTransaction_world cpID t w) as Hs. cbn zeta in Hs.
    destruct (StartTransaction cpID t w) as [tx w']. destruct Hs as (_ & _ & _ & _ & Hr & _).
    cbn [snd]. rewrite Hr. destruct (redeem_target _ _ _ _) as [[r' c]|] eqn:Et; [|done].
    apply redeem_target_Some in Et as (k & Ek & _ & Hact).
    rewrite (re_id _ _ _ (rk_res w (proj2 Hw) k r' Ek)), lookup_delete_ne; [done|]. congruence.
  - unfold run. destruct (expiring_reservations i at_ w Hw) as [->|(r' & Er & Hact & ->)]; [done|].
    rewrite lookup_delete_ne; [done|]. congruence.
Qed.

Lemma steps_spared id r w w' :
  core_ok w -> steps (spares id) w w' ->
  reservations (svc w) !! id = Some r -> rv_Status (res r) <> ReservationActive ->
  reservations (svc w') !! id = Some r.
Proof.
  intros Hw Hs E Hne.
  apply (steps_invariant (fun w => reservations (svc w) !! id = Some r) (spares id) w w'); try done.
  intros a v Ha Hv Hid Ev. by apply run_spared.
Qed.
End reservations.
