(* ===== verification/Lifecycle.v ===== *)
(** * The reservation book: what core promises about reservations

    An abstract specification of reservations.go: a book of entries, an EVSE and
    a status each, and the five things that can happen to it.  Core refines it:
    whatever is called, in whatever order, and whenever a timer fires, the book
    core's state stands for makes a step of the specification, or none, or two.
    So what holds of every run of the book holds of core. *)

From S2P Require Import Prelude GoLib GoTime Ocpp Errors Config State Bus World Core.
From S2P Require Import Persist Reservations Transactions Load CoreFacts CoreInv CoreOps.
From S2P Require Import CoreTx CoreReach Samples CoreEvents CoreCounters Restart CoreProps Acts ReservationFacts.

(** ** The specification *)

(** The entries by id, and the next id. *)
Record book := mkBook { bk_entries : gmap Z (string * ReservationStatus); bk_next : Z }.

Inductive book_step : book -> book -> Prop :=
(** An EVSE nobody holds is held, under an id never used before. *)
| bk_hold b uid :
    (forall id e, bk_entries b !! id = Some e -> e.1 <> uid) ->
    book_step b (mkBook (<[bk_next b := (uid, ReservationPending)]> (bk_entries b)) (bk_next b + 1))
(** An id is used up by a reservation that could not be recorded. *)
| bk_skip b : book_step b (mkBook (bk_entries b) (bk_next b + 1))
(** The station accepts. *)
| bk_confirm b id uid :
    bk_entries b !! id = Some (uid, ReservationPending) ->
    book_step b (mkBook (<[id := (uid, ReservationActive)]> (bk_entries b)) (bk_next b))
(** The station does not answer. *)
| bk_lose b id uid :
    bk_entries b !! id = Some (uid, ReservationPending) ->
    book_step b (mkBook (<[id := (uid, ReservationCancelling)]> (bk_entries b)) (bk_next b))
(** It is over: refused, cancelled, expired, redeemed or cancelled late. *)
| bk_over b id e :
    bk_entries b !! id = Some e -> book_step b (mkBook (delete id (bk_entries b)) (bk_next b)).

(** ** What the specification promises *)

Record book_ok (b : book) : Prop := {
  bo_fresh : forall id e, bk_entries b !! id = Some e -> id < bk_next b;
  bo_single : forall i j x y, bk_entries b !! i = Some x -> bk_entries b !! j = Some y -> x.1 = y.1 -> i = j
}.

(** How far an entry is: held, decided, over. *)
Definition progress (s : ReservationStatus) (s' : option ReservationStatus) : Prop :=
  match s' with
  | None => True
  | Some s' => s' = s \/ (s = ReservationPending /\ (s' = ReservationActive \/ s' = ReservationCancelling))
  end.

(** What a later book may say of an id. *)
Definition follows (b b' : book) (id : Z) : Prop :=
  match bk_entries b !! id with
  | Some (uid, s) => progress s (snd <$> bk_entries b' !! id) /\ forall e, bk_entries b' !! id = Some e -> e.1 = uid
  | None => id < bk_next b -> bk_entries b' !! id = None
  end.

Lemma book_ok_step b b' : book_ok b -> book_step b b' -> book_ok b'.
Proof.
  intros [H1 H2] Hs. destruct Hs as [b uid Hf|b|b id uid E|b id uid E|b id e E]; split; cbn.
  - intros id e [[<- _]|[_ E]]%lookup_insert_Some; [lia|]. apply H1 in E. lia.
  - intros i j x y [[<- <-]|[Hi Ex]]%lookup_insert_Some [[<- <-]|[Hj Ey]]%lookup_insert_Some Hxy; try done.
    + by destruct (Hf j y Ey).
    + by destruct (Hf i x Ex).
    + by eapply H2.
  - intros id e E. apply H1 in E. lia.
  - exact H2.
  - intros i e [[<- _]|[_ Ei]]%lookup_insert_Some; [by eapply H1|by eapply H1].
  - intros i j x y [[<- <-]|[Hi Ex]]%lookup_insert_Some [[<- <-]|[Hj Ey]]%lookup_insert_Some Hxy; try done;
      (eapply H2; [done|done|exact Hxy]).
  - intros i e [[<- _]|[_ Ei]]%lookup_insert_Some; [by eapply H1|by eapply H1].
  - intros i j x y [[<- <-]|[Hi Ex]]%lookup_insert_Some [[<- <-]|[Hj Ey]]%lookup_insert_Some Hxy; try done;
      (eapply H2; [done|done|exact Hxy]).
  - intros i e' [_ Ei]%lookup_delete_Some. by eapply H1.
  - intros i j x y [_ Ex]%lookup_delete_Some [_ Ey]%lookup_delete_Some. by eapply H2.
Qed.

Lemma book_next_step b b' : book_step b b' -> bk_next b <= bk_next b'.
Proof. destruct 1; cbn; lia. Qed.

Lemma follows_refl b id : follows b b id.
Proof.
  unfold follows. destruct (bk_entries b !! id) as [[uid s]|]; [|done]. split; [by left|]. by intros e [= <-].
Qed.

Lemma follows_step b b' id : book_ok b -> book_step b b' -> follows b b' id.
Proof.
  intros Hb Hs. unfold follows. destruct Hs as [b uid Hf|b|b i uid E|b i uid E|b i e E]; cbn; try apply follows_refl.
  - destruct (bk_entries b !! id) as [[u s]|] eqn:E.
    + pose proof (bo_fresh b Hb id _ E). rewrite lookup_insert_ne by lia. rewrite E.
      split; [by left|]. by intros e [= <-].
    + intros Hid. by rewrite lookup_insert_ne by lia.
  - destruct (decide (id = i)) as [->|Hn]; [|rewrite lookup_insert_ne by done; apply follows_refl].
    rewrite E, lookup_insert_eq. split; [right; auto|]. by intros e [= <-].
  - destruct (decide (id = i)) as [->|Hn]; [|rewrite lookup_insert_ne by done; apply follows_refl].
    rewrite E, lookup_insert_eq. split; [right; auto|]. by intros e [= <-].
  - destruct (decide (id = i)) as [->|Hn]; [|rewrite lookup_delete_ne by done; apply follows_refl].
    rewrite E, lookup_delete_eq. by destruct e.
Qed.

Lemma progress_trans s s' s'' : progress s (Some s') -> progress s' s'' -> progress s s''.
Proof. destruct s'' as [s''|]; cbn; naive_solver. Qed.

Lemma follows_trans b b' b'' id :
  book_ok b -> bk_next b <= bk_next b' -> follows b b' id -> follows b' b'' id -> follows b b'' id.
Proof.
  intros Hb Hn. unfold follows. destruct (bk_entries b !! id) as [[u s]|] eqn:E.
  - intros [Hp Hu]. destruct (bk_entries b' !! id) as [[u' s']|].
    + intros [Hp' Hu']. specialize (Hu _ eq_refl). cbn in Hu, Hp. subst u'. split; [by eapply progress_trans|done].
    + intros Hg. apply (bo_fresh b Hb) in E. by rewrite Hg by lia.
  - intros Hg Hg' Hid. rewrite (Hg Hid) in Hg'. apply Hg'. lia.
Qed.

Lemma book_runs b b' :
  rtc book_step b b' -> book_ok b -> book_ok b' /\ bk_next b <= bk_next b' /\ forall id, follows b b' id.
Proof.
  induction 1 as [b|b b1 b' Hs _ IH]; intros Hb; [split; [done|split; [lia|intros; apply follows_refl]]|].
  destruct (IH (book_ok_step _ _ Hb Hs)) as (Hb' & Hn & Hf). pose proof (book_next_step _ _ Hs). split; [done|].
  split; [lia|]. intros id. eapply follows_trans; [done| |by apply follows_step|by apply Hf]. lia.
Qed.

(** ** Core refines it *)

Definition entry_of (r : reservation) : string * ReservationStatus := (rv_EVSEUID (res r), rv_Status (res r)).

(** The book a state of core stands for. *)
Definition book_of (w : World) : book := mkBook (entry_of <$> reservations (svc w)) (nextReservationID (svc w)).

Section refinement.
Context `{MapOrder} `{Env}.

Lemma book_of_ok w : core_ok w -> book_ok (book_of w).
Proof.
  intros [_ Hok]. split; cbn.
  - intros id e (r & <- & E)%lookup_fmap_Some. apply (rk_res w Hok) in E as [_ Hb _ _ _]. lia.
  - intros i j x y (r & <- & Ei)%lookup_fmap_Some (r' & <- & Ej)%lookup_fmap_Some Hxy. by apply (rk_evse w Hok i j r r').
Qed.

(** A reservation that is over. *)
Lemma book_over w w' id :
  nextReservationID (svc w') = nextReservationID (svc w) ->
  reservations (svc w') = delete id (reservations (svc w)) -> rtc book_step (book_of w) (book_of w').
Proof.
  intros Hn Hr. unfold book_of. rewrite Hn, Hr, fmap_delete.
  destruct (reservations (svc w) !! id) as [r|] eqn:E.
  - apply rtc_once. apply (bk_over (book_of w) id (entry_of r)). cbn. by rewrite lookup_fmap, E.
  - by rewrite delete_id by (by rewrite lookup_fmap, E).
Qed.

Lemma book_unchanged w w' :
  nextReservationID (svc w') = nextReservationID (svc w) -> reservations (svc w') = reservations (svc w) ->
  rtc book_step (book_of w) (book_of w').
Proof. intros Hn Hr. unfold book_of. by rewrite Hn, Hr. Qed.

(** The counter after [BeginReservation]: one further, or as it was. *)
Lemma Begin_counter r w :
  core_ok w -> has_ids w ->
  let w' := (BeginReservation r w).2 in
  match (BeginReservation r w).1 with
  | inl _ => nextReservationID (svc w') = nextReservationID (svc w) + 1
  | inr _ => nextReservationID (svc w') = nextReservationID (svc w) \/
             nextReservationID (svc w') = nextReservationID (svc w) + 1
  end.
Proof.
  intros [_ Hok] Hid. unfold BeginReservation. rewrite M_bind_eq, Begin_locked_eq.
  destruct (connectorID _ _) as [conn|]; [|by left]. destruct (reservationOnLocked _ _); [by left|].
  cbn [fst snd]. rewrite M_bind_eq. set (r' := begun r conn _ _).
  destruct (persist_svc (begun_world r' w)) as (P1 & _). pose proof (rk_next w Hok). unfold has_ids in Hid.
  assert (Hn : nextReservationID (svc (persist (begun_world r' w)).2) = nextReservationID (svc w) + 1).
  { rewrite P1. cbn. apply wrap_int_succ. lia. }
  destruct (persist (begun_world r' w)) as [[e|] wp]; cbn [fst snd] in *; [rewrite M_bind_eq; cbn; by right|done].
Qed.

Lemma begin_refines r w :
  core_ok w -> has_ids w -> rtc book_step (book_of w) (book_of (BeginReservation r w).2).
Proof.
  intros Hw Hid. pose proof (Begin_reservations r w Hw Hid) as Hr. pose proof (Begin_counter r w Hw Hid) as Hn.
  pose proof (proj2 (keeps_BeginReservation r w (conj Hw Hid))) as Hok. cbn zeta in Hn.
  destruct (BeginReservation r w) as [[b|e] w'] eqn:E; cbn [fst snd] in *.
  - destruct Hr as (Hb & Hp & Hu & _ & _ & _ & Hfree & Hr). apply rtc_once. unfold book_of. rewrite Hn, Hr, fmap_insert.
    change (entry_of (mkRes b None)) with (rv_EVSEUID b, rv_Status b). rewrite Hp, Hb, Hu. apply (bk_hold (book_of w)). cbn.
    intros id x (r' & <- & Ex)%lookup_fmap_Some Hx. cbn in Hx.
    assert (id = rv_ID b) as ->; [|congruence].
    assert (E1 : reservations (svc w') !! rv_ID b = Some (mkRes b None)) by (rewrite Hr; apply lookup_insert_eq).
    destruct (decide (id = rv_ID b)) as [|Hne]; [done|].
    apply (rk_evse w' Hok id (rv_ID b) r' (mkRes b None)); [by rewrite Hr, lookup_insert_ne|done|cbn; congruence].
  - destruct Hn as [Hn|Hn]; [by apply book_unchanged|]. apply rtc_once. unfold book_of. rewrite Hn, Hr. apply (bk_skip (book_of w)).
Qed.

(** The reservation counter is [ABegin]'s alone. *)
Lemma run_same_counter a w :
  no_begin a -> nextReservationID (svc (run a w).2) = nextReservationID (svc w).
Proof. intros Ha. by apply (run_counts (cfg (svc w)) (fun n => n = nextReservationID (svc w)) a Ha w). Qed.

Lemma decided_refines w w' id r s :
  nextReservationID (svc w') = nextReservationID (svc w) ->
  reservations (svc w) !! id = Some r -> rv_Status (res r) = ReservationPending ->
  s = ReservationActive \/ s = ReservationCancelling ->
  (exists t, reservations (svc w') = <[id := mkRes (set_status s (res r)) t]> (reservations (svc w))) ->
  rtc book_step (book_of w) (book_of w').
Proof.
  intros Hn E Hp Hs [t Hr]. apply rtc_once. unfold book_of. rewrite Hn, Hr, fmap_insert.
  assert (Eb : bk_entries (book_of w) !! id = Some (rv_EVSEUID (res r), ReservationPending)).
  { cbn. rewrite lookup_fmap, E. cbn. unfold entry_of. by rewrite Hp. }
  destruct Hs as [->| ->]; [by apply (bk_confirm (book_of w))|by apply (bk_lose (book_of w))].
Qed.

Lemma run_refines a w : core_ok w -> has_ids w -> rtc book_step (book_of w) (book_of (run a w).2).
Proof.
  intros Hw Hid.
  assert (Hdisc : forall A (m : M A), (discard m w).2 = (m w).2) by (intros; unfold discard; by rewrite M_bind_eq).
  destruct a as [| | | | | | |b|i|i reason|i reason| | |cpID t| | |i at_|];
    try (match goal with |- context [run ?a] =>
      apply book_unchanged; [by apply run_same_counter|exact (run_same_reservations a (reservations (svc w)) I w eq_refl)] end).
  - unfold run. rewrite Hdisc. by apply begin_refines.
  - pose proof (run_same_counter (AActivate i) w I) as Hn. unfold run in Hn |- *. rewrite Hdisc in Hn |- *.
    pose proof (Activate_reservations i w Hw) as Hb.
    destruct (reservations (svc w) !! i) as [r|] eqn:E; [case_decide|]; [|by rewrite Hb..].
    eapply decided_refines; [done|exact E|done|by left|]. eexists. apply Hb.
  - apply (book_over w _ i); [by apply run_same_counter|]. unfold run. rewrite Hdisc.
    apply (End_reservations i reason w Hw).
  - pose proof (run_same_counter (AOrphan i reason) w I) as Hn. unfold run in Hn |- *. rewrite Hdisc in Hn |- *.
    pose proof (Orphan_reservations i reason w Hw) as Hb.
    destruct (reservations (svc w) !! i) as [r|] eqn:E; [case_decide|]; [|by rewrite Hb..].
    eapply decided_refines; [done|exact E|done|by right|]. eexists. apply Hb.
  - pose proof (run_same_counter (AStart cpID t) w I) as Hn. unfold run in Hn |- *. rewrite Hdisc in Hn |- *.
    pose proof (StartTransaction_world cpID t w) as Hs. cbn zeta in Hs.
    destruct (StartTransaction cpID t w) as [tx w']. destruct Hs as (_ & _ & _ & _ & Hr & _). cbn [snd] in *.
    destruct (redeem_target _ _ _ _) as [[r c]|]; [by eapply book_over|by apply book_unchanged].
  - pose proof (run_same_counter (AExpire i at_) w I) as Hn. unfold run in Hn |- *.
    destruct (expiring_reservations i at_ w Hw) as [Hr|(r & _ & _ & Hr)]; [by apply book_unchanged|by eapply book_over].
Qed.

(** C3: core implements the book: whatever is called on it and whenever its
    timers fire, the reservations it holds go through the steps of the
    specification and no others. *)
Theorem core_refines_book w0 w :
  core_ok w0 -> reachable w0 w -> rtc book_step (book_of w0) (book_of w).
Proof.
  intros Hw0 Hr. induction Hr as [|w a Hr IH Hid]; [done|].
  etrans; [exact IH|]. apply run_refines; [by eapply reachable_ok|done].
Qed.

(** C10: a reservation's life.  Between any two moments of core's life a
    reservation keeps its EVSE; it is confirmed or lost from pending only, and
    what is decided stays so until it is over; and what is over stays over, its
    id is never seen again. *)
Theorem reservation_life w0 w w' id :
  core_ok w0 -> reachable w0 w -> reachable w w' ->
  match reservations (svc w) !! id with
  | Some r =>
    match reservations (svc w') !! id with
    | Some r' =>
      rv_EVSEUID (res r') = rv_EVSEUID (res r) /\
      (rv_Status (res r') = rv_Status (res r) \/
       (rv_Status (res r) = ReservationPending /\
        (rv_Status (res r') = ReservationActive \/ rv_Status (res r') = ReservationCancelling)))
    | None => True
    end
  | None => id < nextReservationID (svc w) -> reservations (svc w') !! id = None
  end.
Proof.
  intros Hw0 Hr Hr'. assert (Hw : core_ok w) by by eapply reachable_ok.
  assert (Hrun : rtc book_step (book_of w) (book_of w')).
  { clear Hr. induction Hr' as [|v a Hr IH Hid]; [done|]. etrans; [exact IH|].
    apply run_refines; [by eapply reachable_ok|done]. }
  destruct (book_runs _ _ Hrun (book_of_ok w Hw)) as (_ & _ & Hf). specialize (Hf id). unfold follows in Hf. cbn in Hf.
  rewrite !lookup_fmap in Hf. destruct (reservations (svc w) !! id) as [r|]; cbn in Hf.
  - destruct Hf as [Hp Hu]. destruct (reservations (svc w') !! id) as [r'|]; [|done]. cbn in Hp, Hu.
    split; [by apply (Hu _ eq_refl)|done].
  - intros Hid. specialize (Hf Hid). by destruct (reservations (svc w') !! id).
Qed.
End refinement.

(** ** Instances: Samples.v's station, from its start *)

#[local] Existing Instance key_order.
#[local] Existing Instance sample_env.

Lemma core_refines_book_witness :
  rtc book_step (book_of sample_initial) (book_of (run (ABegin (sample_reservation "EVSE-1" "OFFICE" 15)) sample_initial).2) /\
  bk_next (book_of (run (ABegin (sample_reservation "EVSE-1" "OFFICE" 15)) sample_initial).2) = 2.
Proof.
  split; [|vm_compute; reflexivity]. apply (core_refines_book sample_initial _ sample_initial_ok).
  apply reach_step; [apply reach_refl|vm_compute; reflexivity].
Defined.

Definition cancelled_once : World := (run (AEnd 1 "cancelled") sample_world).2.

Lemma reservation_life_witness :
  (rv_Status ∘ res) <$> reservations (svc sample_world) !! 1 = Some ReservationActive /\
  (1 < nextReservationID (svc cancelled_once) -> reservations (svc (run ANow cancelled_once).2) !! 1 = None).
Proof.
  split; [vm_compute; reflexivity|].
  assert (Hc : reachable sample_world cancelled_once).
  { unfold cancelled_once. apply reach_step; [apply reach_refl|vm_compute; reflexivity]. }
  assert (Hn : reachable cancelled_once (run ANow cancelled_once).2).
  { apply reach_step; [apply reach_refl|vm_compute; reflexivity]. }
  assert (E : reservations (svc cancelled_once) !! 1 = None) by (vm_compute; reflexivity).
  pose proof (reservation_life sample_world cancelled_once (run ANow cancelled_once).2 1 sample_core_ok Hc Hn) as H.
  rewrite E in H. exact H.
Defined.
