(* ===== verification/Frame.v ===== *)
(** * OCPP-J frames (ocpp/ocppj/frame.go)

    A message is a JSON array; encoding/json reads and writes its text, so a
    frame here is parsed from a JSON value, or from the error its text gave, and
    encoded to a JSON value.  [null] leaves a Go variable at its zero value, as
    [json.Unmarshal] does. *)

From S2P Require Import Prelude GoLib Json Ocpp.

(** What a WebSocket message holds: a JSON value, or a syntax error's text. *)
Definition message : Type := json + string.

(** [MessageType]. *)
Definition MessageTypeCall : Z := 2.
Definition MessageTypeCallResult : Z := 3.
Definition MessageTypeCallError : Z := 4.

Definition UnknownMessageID : string := "-1".

(** [Frame]; a nil raw message is [None]. *)
Record Frame := mkFrame {
  fr_Type : Z;
  fr_ID : string;
  fr_Action : string;
  fr_Payload : option json;
  fr_ErrorCode : ErrorCode;
  fr_ErrorDescription : string;
  fr_ErrorDetails : option json
}.

Definition framework_error (text : string) : RPCError := Errorf ErrRpcFrameworkError text.

Definition count_text (n : nat) : string := Itoa (Z.of_nat n).

(** The cases of [ParseFrame]'s switch, for a frame whose type and id are known. *)
Definition parse_call (id : string) (raw : list json) : Frame + (string * RPCError) :=
  match raw with
  | [_; _; action; payload] =>
    match dec_string action "" with
    | None => inr (id, framework_error "action is not a string")
    | Some a =>
      if bool_decide (a = "") then inr (id, framework_error "action is empty")
      else inl (mkFrame MessageTypeCall id a (Some payload) "" "" None)
    end
  | _ => inr (id, framework_error ("CALL has " +:+ count_text (length raw) +:+ " elements, want 4"))
  end.

Definition parse_result (id : string) (raw : list json) : Frame + (string * RPCError) :=
  match raw with
  | [_; _; payload] => inl (mkFrame MessageTypeCallResult id "" (Some payload) "" "" None)
  | _ => inr (id, framework_error ("CALLRESULT has " +:+ count_text (length raw) +:+ " elements, want 3"))
  end.

(** Five elements, or four from a peer that omits the details; a description that
    is not a string is left empty. *)
Definition parse_error (id : string) (raw : list json) : Frame + (string * RPCError) :=
  match raw with
  | _ :: _ :: code :: description :: rest =>
    match dec_string code "" with
    | None => inr (id, framework_error "error code is not a string")
    | Some c => inl (mkFrame MessageTypeCallError id "" None c
                       (default "" (dec_string description "")) (head rest))
    end
  | _ => inr (id, framework_error ("CALLERROR has " +:+ count_text (length raw) +:+ " elements, want at least 4"))
  end.

(** [ParseFrame]: a frame, or the id to answer with and the error to send. *)
Definition ParseFrame `{JsonText} (data : message) : Frame + (string * RPCError) :=
  match data with
  | inr text => inr (UnknownMessageID, framework_error ("message is not a JSON array: " +:+ text))
  | inl j =>
    match dec_raw_array j with
    | None => inr (UnknownMessageID, framework_error ("message is not a JSON array: " +:+ unmarshal_error j))
    | Some raw =>
      match raw with
      | t :: i :: _ :: _ =>
        match dec_int t 0, dec_string i "" with
        | None, _ => inr (UnknownMessageID, framework_error "message type id is not a number")
        | _, None => inr (UnknownMessageID, framework_error "message id is not a string")
        | Some typ, Some id =>
          if bool_decide (id = "") then inr (UnknownMessageID, framework_error "message id is empty")
          else if typ =? MessageTypeCall then parse_call id raw
          else if typ =? MessageTypeCallResult then parse_result id raw
          else if typ =? MessageTypeCallError then parse_error id raw
          else inr (id, framework_error ("unknown message type id " +:+ Itoa typ))
        end
      | _ => inr (UnknownMessageID, framework_error
                    ("message has " +:+ count_text (length raw) +:+ " elements, want at least 3"))
      end
    end
  end.

(** A nil payload is sent as an empty object. *)
Definition payload_or_empty (payload : option json) : json := default (JObj []) payload.

Definition EncodeCall (id action : string) (payload : option json) : json :=
  JArr [JInt MessageTypeCall; JStr id; JStr action; payload_or_empty payload].

Definition EncodeCallResult (id : string) (payload : option json) : json :=
  JArr [JInt MessageTypeCallResult; JStr id; payload_or_empty payload].

Definition EncodeCallError (id : string) (e : RPCError) : json :=
  JArr [JInt MessageTypeCallError; JStr id; JStr (Code e); JStr (Description e);
        JObj (default [] (Details e))].

Section frames.
Context `{JsonText}.

(** What one end encodes the other end parses: calls, results and errors
    come back with their id, action, payload, code and description, whatever
    the strings hold, as long as the id and the action are not empty. *)
Theorem frames_roundtrip id action payload e :
  id <> "" -> action <> "" ->
  ParseFrame (inl (EncodeCall id action payload)) =
    inl (mkFrame MessageTypeCall id action (Some (payload_or_empty payload)) "" "" None) /\
  ParseFrame (inl (EncodeCallResult id payload)) =
    inl (mkFrame MessageTypeCallResult id "" (Some (payload_or_empty payload)) "" "" None) /\
  ParseFrame (inl (EncodeCallError id e)) =
    inl (mkFrame MessageTypeCallError id "" None (Code e) (Description e)
           (Some (JObj (default [] (Details e))))).
Proof.
  intros Hid Ha. unfold ParseFrame, EncodeCall, EncodeCallResult, EncodeCallError. cbn [dec_raw_array].
  rewrite !dec_int_JInt by (unfold int_ok, MessageTypeCall, MessageTypeCallResult, MessageTypeCallError,
    int_min, int_max; lia).
  cbn [dec_string]. rewrite (bool_decide_eq_false_2 (id = "")) by done. cbn.
  by rewrite (bool_decide_eq_false_2 (action = "")).
Qed.

Lemma parse_cases_error id raw i e :
  (parse_call id raw = inr (i, e) \/ parse_result id raw = inr (i, e) \/ parse_error id raw = inr (i, e)) ->
  i = id /\ Code e = ErrRpcFrameworkError.
Proof.
  unfold parse_call, parse_result, parse_error.
  intros [Hp|[Hp|Hp]]; repeat case_match; by simplify_eq.
Qed.

(** The id a frame carries, where one can be read: the frame is an array of at
    least three whose first element is a number and whose second a string. *)
Definition readable_id (data : message) : option string :=
  match data with
  | inl j => raw ← dec_raw_array j;
             match raw with
             | t :: i :: _ :: _ =>
               typ ← dec_int t 0;
               id ← dec_string i "";
               if bool_decide (id = "") then None else Some id
             | _ => None
             end
  | inr _ => None
  end.

(** A malformed frame is answered, against its own id whenever the frame
    lets it be read and against -1 otherwise, always with RpcFrameworkError, and
    the answer is itself a well-formed frame the peer can parse. *)
Theorem malformed_answered data id e :
  ParseFrame data = inr (id, e) ->
  id = default UnknownMessageID (readable_id data) /\ Code e = ErrRpcFrameworkError /\
  exists f, ParseFrame (inl (EncodeCallError id e)) = inl f /\ fr_ID f = id /\ fr_ErrorCode f = Code e.
Proof.
  intros Hp.
  assert (Hid : id = default UnknownMessageID (readable_id data) /\ id <> "" /\ Code e = ErrRpcFrameworkError).
  { unfold ParseFrame, readable_id in *. destruct data as [j|text]; [|by injection Hp as <- <-].
    destruct (dec_raw_array j) as [raw|]; [|by injection Hp as <- <-]. cbn [mbind option_bind].
    destruct raw as [|t [|i [|x l]]]; try by injection Hp as <- <-.
    destruct (dec_int t 0) as [typ|]; [|by injection Hp as <- <-]. cbn [mbind option_bind].
    destruct (dec_string i "") as [i'|]; [|by injection Hp as <- <-]. cbn [mbind option_bind].
    case_bool_decide as Hi; [by injection Hp as <- <-|]. cbn [default].
    destruct (typ =? MessageTypeCall); [|destruct (typ =? MessageTypeCallResult);
      [|destruct (typ =? MessageTypeCallError); [|by injection Hp as <- <-]]];
      destruct (parse_cases_error i' (t :: i :: x :: l) id e) as [-> ?]; auto. }
  destruct Hid as (Hid & Hne & Hc). split; [exact Hid|]. split; [exact Hc|].
  eexists. split.
  - unfold ParseFrame, EncodeCallError. cbn [dec_raw_array].
    rewrite dec_int_JInt by (unfold int_ok, MessageTypeCallError, int_min, int_max; lia).
    cbn [dec_string]. rewrite (bool_decide_eq_false_2 (id = "")) by done. reflexivity.
  - done.
Qed.
End frames.

(** ** Instances *)

Definition plain_text : JsonText := {| unmarshal_error := fun _ => "wrong type" |}.
#[local] Existing Instance plain_text.

Lemma frames_roundtrip_witness :
  ParseFrame (inl (EncodeCall "7" "Heartbeat" None)) =
  inl (mkFrame MessageTypeCall "7" "Heartbeat" (Some (JObj [])) "" "" None).
Proof. apply (frames_roundtrip "7" "Heartbeat" None (Errorf ErrGenericError "x")); discriminate. Defined.

Definition short_call : message := inl (JArr [JInt 2; JStr "7"; JStr "Heartbeat"]).

Lemma malformed_answered_witness :
  exists f, ParseFrame (inl (EncodeCallError "7" (framework_error "CALL has 3 elements, want 4"))) = inl f /\
    fr_ID f = "7" /\ fr_ErrorCode f = ErrRpcFrameworkError.
Proof.
  apply (malformed_answered short_call "7" (framework_error "CALL has 3 elements, want 4")).
  vm_compute. reflexivity.
Defined.

Example malformed_samples :
  ParseFrame (inl JNull) = inr ("-1", framework_error "message has 0 elements, want at least 3") /\
  ParseFrame (inl (JArr [JNull; JStr "9"; JNull])) = inr ("9", framework_error "unknown message type id 0") /\
  ParseFrame (inl (JArr [JNum "2.0"; JStr "9"; JNull])) =
    inr ("-1", framework_error "message type id is not a number").
Proof. vm_compute. repeat split. Qed.
