(* ===== verification/Conn.v ===== *)
(** * One OCPP-J connection (ocpp/ocppj/conn.go)

    The state of a [Conn] and its goroutines as a step relation: any number of
    [Call]s in flight, the reader, the handler loop, the writer and [Close], one
    channel operation or locked section per step.  A pending entry's channel has
    room for one result, so it is an option.  The socket is not modelled, nor the
    clock: a read or write that fails is the [Close] it leads to, and a timeout is
    the choice of its branch. *)

From S2P Require Import Prelude GoLib GoTime Json Ocpp Errors Frame.

Definition sendBuffer : nat := 32.
Definition callBuffer : nat := 64.

(** [callResult]: a payload, or the peer's error. *)
Definition callResult : Type := option json + RPCError.

(** The timeouts a connection is made with, and how often it is pinged: the
    clock that enforces them is not modelled. *)
Definition conn_timeouts (callTimeout idleTimeout : Z) : Z * Z :=
  (if callTimeout <=? 0 then 30 * second else callTimeout, if idleTimeout <=? 0 then 90 * second else idleTimeout).

Definition pingPeriod (idleTimeout : Z) : Z := if idleTimeout ÷ 3 <? second then second else idleTimeout ÷ 3.

(** Pings come well inside an idle timeout of more than a second. *)
Lemma pingPeriod_inside idle : second < idle -> 0 < pingPeriod idle < idle.
Proof.
  unfold pingPeriod, second. intros Hi. destruct (Z.ltb_spec (idle ÷ 3) 1000000000) as [Hl|Hl]; [lia|].
  rewrite Z.quot_div_nonneg in * by lia. split; [lia|]. apply Z.div_lt; lia.
Qed.

(** The ways a read ends, and the reason Run gives: a deadline, a close frame
    with its code, or anything else. *)
Inductive read_error := ReadTimeout | ReadClosed (code : Z) (text : string) | ReadFailed (text : string).

Definition closeReason (e : read_error) : string :=
  match e with
  | ReadTimeout => "heartbeat timeout"
  | ReadClosed code text => if bool_decide (code ∈ [1000; 1001]) then "closed by charge point" else text
  | ReadFailed text => text
  end.

Record conn := mkConn {
  cn_nextID : Z;
  pending : gmap string (option callResult);
  send : list json;
  calls : list Frame;
  cn_done : bool
}.

(** [New]. *)
Definition new_conn : conn := mkConn 0 ∅ [] [] false.

Definition set_pending (m : gmap string (option callResult)) (c : conn) : conn :=
  mkConn (cn_nextID c) m (send c) (calls c) (cn_done c).

Definition PendingCount (c : conn) : nat := size (pending c).

Definition forget (id : string) (c : conn) : conn := set_pending (delete id (pending c)) c.

(** [deliver]: dropped without a pending call, or when it has its answer. *)
Definition deliver (id : string) (r : callResult) (c : conn) : conn :=
  match pending c !! id with
  | Some None => set_pending (<[id := Some r]> (pending c)) c
  | _ => c
  end.

Definition conn_Close (c : conn) : conn := mkConn (cn_nextID c) (pending c) (send c) (calls c) true.

(** [Call] up to its first wait: the id, the encoded frame, the pending entry. *)
Record call := mkCall { ca_id : string; ca_action : string; ca_frame : json; ca_sent : bool }.

Definition begin_call (action : string) (payload : option json) (c : conn) : conn * call :=
  let n := wrap_uint64 (cn_nextID c + 1) in
  let id := Itoa n in
  (mkConn n (<[id := None]> (pending c)) (send c) (calls c) (cn_done c),
   mkCall id action (EncodeCall id action payload) false).

Definition push (d : json) (c : conn) : conn :=
  mkConn (cn_nextID c) (pending c) (send c ++ [d]) (calls c) (cn_done c).

(** [c.send <- data]: possible while there is room. *)
Definition send_room (c : conn) : Prop := (length (send c) < sendBuffer)%nat.

(** [enqueue]: queued while there is room, dropped once the connection is done. *)
Definition enqueued (d : json) (c c' : conn) : Prop :=
  (send_room c /\ c' = push d c) \/ (cn_done c = true /\ c' = c).

(** What a response frame carries to its call. *)
Definition response_of (f : Frame) : option callResult :=
  if fr_Type f =? MessageTypeCallResult then Some (inl (fr_Payload f))
  else if fr_Type f =? MessageTypeCallError then
    Some (inr (mkRPCError (fr_ErrorCode f) (fr_ErrorDescription f) None))
  else None.

(** [dispatch] and the answer of [handleLoop]; a handler that panics is [None]. *)
Definition handler_failed : RPCError := Errorf ErrInternalError "handler failed".

Definition answer_frame (id : string) (r : option (json + RPCError)) : json :=
  match r with
  | None => EncodeCallError id handler_failed
  | Some (inr e) => EncodeCallError id e
  | Some (inl j) => EncodeCallResult id (Some j)
  end.

(** What a finished [Call] returns. *)
Definition call_return (action : string) (r : callResult) : option json + error :=
  match r with inl p => inl p | inr e => inr (ERPC e) end.

(** ** The goroutines *)

(** The connection, the calls in flight, and what has happened: the frames
    read and the frames handled, in order, and the calls that have returned. *)
Record conn_system := mkConnSystem {
  cs_conn : conn;
  cs_callers : list call;
  cs_read : list Frame;
  cs_handled : list Frame;
  cs_returned : list (call * (option json + error))
}.

Definition push_call (f : Frame) (c : conn) : conn :=
  mkConn (cn_nextID c) (pending c) (send c) (calls c ++ [f]) (cn_done c).

Definition mark_sent (k : call) : call := mkCall (ca_id k) (ca_action k) (ca_frame k) true.

Section steps.
Context `{JsonText} (callTimeout : Z).

(** The errors a waiting [Call] can return without an answer. *)
Inductive gives_up (c : conn) (k : call) : error -> Prop :=
| up_closed : cn_done c = true -> gives_up c k EConnClosed
| up_canceled : gives_up c k (ESentinel Canceled)
| up_deadline : gives_up c k (ESentinel DeadlineExceeded)
| up_timeout : ca_sent k = true -> gives_up c k (ETimeoutError (ca_action k) callTimeout).

(** What a step does outside its own end: a frame written to the socket, a
    message read from it, or the handler's answer to a call. *)
Inductive conn_event :=
| Inside
| Wrote (d : json)
| Took (data : message)
| Answered (f : Frame) (r : option (json + RPCError)).

Inductive conn_step : conn_event -> conn_system -> conn_system -> Prop :=
(* the id counter is 64 bits wide: it does not wrap in the life of a connection *)
| cs_call action payload c ks fs hs rs :
    cn_nextID c + 1 < 2 ^ 64 ->
    conn_step Inside (mkConnSystem c ks fs hs rs)
      (mkConnSystem (begin_call action payload c).1 ((begin_call action payload c).2 :: ks) fs hs rs)
| cs_queue k c ks1 ks2 fs hs rs :
    ca_sent k = false -> send_room c ->
    conn_step Inside (mkConnSystem c (ks1 ++ k :: ks2) fs hs rs)
      (mkConnSystem (push (ca_frame k) c) (ks1 ++ mark_sent k :: ks2) fs hs rs)
| cs_answered k r c ks1 ks2 fs hs rs :
    ca_sent k = true -> pending c !! ca_id k = Some (Some r) ->
    conn_step Inside (mkConnSystem c (ks1 ++ k :: ks2) fs hs rs)
      (mkConnSystem (forget (ca_id k) c) (ks1 ++ ks2) fs hs ((k, call_return (ca_action k) r) :: rs))
| cs_gives_up k e c ks1 ks2 fs hs rs :
    gives_up c k e ->
    conn_step Inside (mkConnSystem c (ks1 ++ k :: ks2) fs hs rs)
      (mkConnSystem (forget (ca_id k) c) (ks1 ++ ks2) fs hs ((k, inr e) :: rs))
| cs_read_malformed data id e c c' ks fs hs rs :
    ParseFrame data = inr (id, e) -> enqueued (EncodeCallError id e) c c' ->
    conn_step (Took data) (mkConnSystem c ks fs hs rs) (mkConnSystem c' ks fs hs rs)
| cs_read_call data f c ks fs hs rs :
    ParseFrame data = inl f -> fr_Type f = MessageTypeCall -> (length (calls c) < callBuffer)%nat ->
    conn_step (Took data) (mkConnSystem c ks fs hs rs) (mkConnSystem (push_call f c) ks (fs ++ [f]) hs rs)
| cs_read_response data f r c ks fs hs rs :
    ParseFrame data = inl f -> response_of f = Some r ->
    conn_step (Took data) (mkConnSystem c ks fs hs rs) (mkConnSystem (deliver (fr_ID f) r c) ks (fs ++ [f]) hs rs)
| cs_handle f l r c c' ks fs hs rs :
    calls c = f :: l ->
    enqueued (answer_frame (fr_ID f) r) (mkConn (cn_nextID c) (pending c) (send c) l (cn_done c)) c' ->
    conn_step (Answered f r) (mkConnSystem c ks fs hs rs) (mkConnSystem c' ks fs (hs ++ [f]) rs)
| cs_write d l c ks fs hs rs :
    send c = d :: l ->
    conn_step (Wrote d) (mkConnSystem c ks fs hs rs)
      (mkConnSystem (mkConn (cn_nextID c) (pending c) l (calls c) (cn_done c)) ks fs hs rs)
| cs_close c ks fs hs rs :
    conn_step Inside (mkConnSystem c ks fs hs rs) (mkConnSystem (conn_Close c) ks fs hs rs).

Inductive conn_reachable : conn_system -> Prop :=
| cr_new : conn_reachable (mkConnSystem new_conn [] [] [] [])
| cr_step ev s s' : conn_reachable s -> conn_step ev s s' -> conn_reachable s'.
End steps.

(** ** Bookkeeping: one pending entry per call in flight *)

Definition ids (ks : list call) : list string := ca_id <$> ks.

Record book_ok (c : conn) (ks : list call) : Prop := {
  bk_next : 0 <= cn_nextID c < 2 ^ 64;
  bk_ids : forall id, id ∈ ids ks -> exists n, id = Itoa n /\ n <= cn_nextID c;
  bk_nodup : NoDup (ids ks);
  bk_pending : forall id, is_Some (pending c !! id) <-> id ∈ ids ks
}.

Lemma book_same c c' ks ks' :
  cn_nextID c' = cn_nextID c -> pending c' = pending c -> ids ks' = ids ks ->
  book_ok c ks -> book_ok c' ks'.
Proof. intros E1 E2 E3 [B1 B2 B3 B4]. split; rewrite ?E1, ?E2, ?E3; done. Qed.

Lemma book_call action payload c ks :
  cn_nextID c + 1 < 2 ^ 64 -> book_ok c ks ->
  book_ok (begin_call action payload c).1 ((begin_call action payload c).2 :: ks).
Proof.
  intros Hn [B1 B2 B3 B4]. unfold begin_call.
  assert (wrap_uint64 (cn_nextID c + 1) = cn_nextID c + 1) as -> by (apply Z.mod_small; lia).
  cbn. assert (Hfresh : Itoa (cn_nextID c + 1) ∉ ids ks).
  { intros (n & Heq & Hle)%B2. apply Itoa_inj in Heq. lia. }
  split; cbn; [lia | | by apply NoDup_cons |].
  - intros id [->|Hin]%elem_of_cons; [by eexists|]. destruct (B2 id Hin) as (n & -> & Hle).
    exists n. split; [done|lia].
  - intros id. rewrite elem_of_cons, <- B4. destruct (decide (id = Itoa (cn_nextID c + 1))) as [->|Hne].
    + rewrite lookup_insert_eq. split; [by left | by eexists].
    + rewrite lookup_insert_ne by done. split; [by right | by intros [?|?]].
Qed.

Lemma ids_middle ks1 k ks2 : ids (ks1 ++ k :: ks2) ≡ₚ ca_id k :: ids (ks1 ++ ks2).
Proof. unfold ids. by rewrite <- Permutation_middle. Qed.

Lemma book_forget k c ks1 ks2 :
  book_ok c (ks1 ++ k :: ks2) -> book_ok (forget (ca_id k) c) (ks1 ++ ks2).
Proof.
  intros [B1 B2 B3 B4]. rewrite ids_middle in B3. apply NoDup_cons in B3 as [Hout B3].
  split; cbn; [done | | done |].
  - intros id Hin. apply B2. rewrite ids_middle. by right.
  - intros id. destruct (decide (id = ca_id k)) as [->|Hne].
    + rewrite lookup_delete_eq. split; [by intros [] | by intros ?].
    + rewrite lookup_delete_ne by done. rewrite B4, ids_middle, elem_of_cons. naive_solver.
Qed.

Lemma book_deliver id r c ks : book_ok c ks -> book_ok (deliver id r c) ks.
Proof.
  intros [B1 B2 B3 B4]. unfold deliver. destruct (pending c !! id) as [[|]|] eqn:E; [done| |done].
  split; cbn; try done. intros id'. destruct (decide (id' = id)) as [->|Hne].
  - rewrite lookup_insert_eq, <- B4, E. split; intros _; by eexists.
  - by rewrite lookup_insert_ne.
Qed.

Lemma enqueued_same d c c' :
  enqueued d c c' -> cn_nextID c' = cn_nextID c /\ pending c' = pending c /\ calls c' = calls c /\
    cn_done c' = cn_done c.
Proof. by intros [[_ ->]|[_ ->]]. Qed.

(** ** Answers: nothing reaches a call but a frame with its id *)

Definition answered_by (fs : list Frame) (id : string) (r : callResult) : Prop :=
  exists f, f ∈ fs /\ fr_ID f = id /\ response_of f = Some r.

Record answers_ok (c : conn) (fs : list Frame) (rs : list (call * (option json + error))) : Prop := {
  an_pending : forall id r, pending c !! id = Some (Some r) -> answered_by fs id r;
  an_payload : forall k p, (k, inl p) ∈ rs -> answered_by fs (ca_id k) (inl p);
  an_error : forall k e, (k, inr (ERPC e)) ∈ rs -> answered_by fs (ca_id k) (inr e)
}.

Lemma answered_by_more fs gs id r : answered_by fs id r -> answered_by (fs ++ gs) id r.
Proof. intros (f & Hf & He). exists f. split; [|done]. apply elem_of_app. by left. Qed.

Lemma answers_more c fs gs rs : answers_ok c fs rs -> answers_ok c (fs ++ gs) rs.
Proof. intros [A1 A2 A3]. split; intros; apply answered_by_more; auto. Qed.

Lemma answers_pending c c' fs rs :
  (forall id r, pending c' !! id = Some (Some r) -> pending c !! id = Some (Some r)) ->
  answers_ok c fs rs -> answers_ok c' fs rs.
Proof. intros Hp [A1 A2 A3]. split; auto. Qed.

Lemma answers_return c fs rs k r :
  pending c !! ca_id k = Some (Some r) -> answers_ok c fs rs ->
  answers_ok c fs ((k, call_return (ca_action k) r) :: rs).
Proof.
  intros Hp [A1 A2 A3]. split; [done|..]; intros k' x [Heq|Hin]%elem_of_cons; auto;
    injection Heq as -> Hr; destruct r; simplify_eq/=; by apply A1.
Qed.

Lemma answers_give_up c fs rs k t e : gives_up t c k e -> answers_ok c fs rs -> answers_ok c fs ((k, inr e) :: rs).
Proof.
  intros Hg [A1 A2 A3]. split; [done|..]; intros k' x [Heq|Hin]%elem_of_cons; auto; simplify_eq.
  inversion Hg.
Qed.

Lemma answers_deliver f r c fs rs :
  response_of f = Some r -> answers_ok c fs rs -> answers_ok (deliver (fr_ID f) r c) (fs ++ [f]) rs.
Proof.
  intros Hr Ha. pose proof (answers_more c fs [f] rs Ha) as [A1 A2 A3].
  split; [|done|done]. intros id r'. unfold deliver.
  destruct (pending c !! fr_ID f) as [[|]|]; [by apply A1| |by apply A1]. cbn.
  intros [[<- [= <-]]|[_ E]]%lookup_insert_Some; [|by apply A1].
  exists f. split; [|done]. apply elem_of_app. right. by apply list_elem_of_singleton.
Qed.

(** ** Order and room *)

Definition is_call (f : Frame) : bool := fr_Type f =? MessageTypeCall.

Record queues_ok (c : conn) (fs hs : list Frame) : Prop := {
  qu_order : filter (fun f => is_call f = true) fs = hs ++ calls c;
  qu_calls : (length (calls c) <= callBuffer)%nat;
  qu_send : (length (send c) <= sendBuffer)%nat
}.

Lemma queues_same c c' fs hs : calls c' = calls c -> send c' = send c -> queues_ok c fs hs -> queues_ok c' fs hs.
Proof. intros E1 E2 [Q1 Q2 Q3]. split; by rewrite ?E1, ?E2. Qed.

Lemma queues_push d c fs hs : send_room c -> queues_ok c fs hs -> queues_ok (push d c) fs hs.
Proof. intros Hr [Q1 Q2 Q3]. split; cbn; try done. rewrite length_app. unfold send_room in Hr. cbn. lia. Qed.

Lemma queues_enqueued d c c' fs hs : enqueued d c c' -> queues_ok c fs hs -> queues_ok c' fs hs.
Proof. intros [[Hr ->]|[_ ->]]; [by apply queues_push | done]. Qed.

Lemma deliver_queues id r c : calls (deliver id r c) = calls c /\ send (deliver id r c) = send c.
Proof. unfold deliver. by destruct (pending c !! id) as [[|]|]. Qed.

Lemma response_not_call f r : response_of f = Some r -> is_call f = false.
Proof.
  unfold response_of, is_call, MessageTypeCall, MessageTypeCallResult, MessageTypeCallError.
  destruct (Z.eqb_spec (fr_Type f) 2) as [->|]; done.
Qed.

(** ** Every reachable state *)

Record conn_ok (s : conn_system) : Prop := {
  ck_book : book_ok (cs_conn s) (cs_callers s);
  ck_answers : answers_ok (cs_conn s) (cs_read s) (cs_returned s);
  ck_queues : queues_ok (cs_conn s) (cs_read s) (cs_handled s)
}.

Section reachable.
Context `{JsonText} (callTimeout : Z).

Lemma forget_pending id c id' r :
  pending (forget id c) !! id' = Some (Some r) -> pending c !! id' = Some (Some r).
Proof. cbn. by intros [_ E]%lookup_delete_Some. Qed.

Lemma conn_step_ok ev s s' : conn_ok s -> conn_step callTimeout ev s s' -> conn_ok s'.
Proof.
  intros [B A Q] Hs. destruct Hs as [action payload c ks fs hs rs Hn|k c ks1 ks2 fs hs rs Hk Hr
    |k r c ks1 ks2 fs hs rs Hk Hp|k e c ks1 ks2 fs hs rs Hg|data id e c c' ks fs hs rs Hp He
    |data f c ks fs hs rs Hp Ht Hl|data f r c ks fs hs rs Hp Hr|f l r c c' ks fs hs rs Hc He
    |d l c ks fs hs rs Hc|c ks fs hs rs]; cbn in *; split; cbn.
  - by apply book_call.
  - apply (answers_pending c); [|done]. intros id r. cbn. by intros [[_ ?]|[_ ?]]%lookup_insert_Some.
  - by apply (queues_same c).
  - apply (book_same c _ (ks1 ++ k :: ks2)); try done. unfold ids. by rewrite !fmap_app.
  - by apply (answers_pending c).
  - by apply queues_push.
  - by apply book_forget.
  - apply (answers_return c _ _ k r) in A; [|done]. by eapply answers_pending; [apply forget_pending|].
  - by apply (queues_same c).
  - by apply book_forget.
  - apply (answers_give_up c _ _ k callTimeout e) in A; [|done].
    by eapply answers_pending; [apply forget_pending|].
  - by apply (queues_same c).
  - destruct (enqueued_same _ _ _ He) as (E1 & E2 & _). by apply (book_same c _ ks).
  - destruct (enqueued_same _ _ _ He) as (_ & E2 & _). apply (answers_pending c); [|done]. by rewrite E2.
  - by eapply queues_enqueued.
  - by apply (book_same c _ ks).
  - by apply (answers_pending c), answers_more.
  - destruct Q as [Q1 Q2 Q3]. split; cbn; [|rewrite length_app; cbn; lia|done].
    rewrite filter_app, Q1, filter_cons_True by (unfold is_call; rewrite Ht; done).
    by rewrite filter_nil, app_assoc.
  - by apply book_deliver.
  - by apply answers_deliver.
  - destruct (deliver_queues (fr_ID f) r c) as [E1 E2]. apply (queues_same c); [done..|].
    destruct Q as [Q1 Q2 Q3]. split; [|done|done].
    rewrite filter_app, filter_cons_False by (by rewrite (response_not_call f r)).
    by rewrite filter_nil, app_nil_r.
  - destruct (enqueued_same _ _ _ He) as (E1 & E2 & _). by apply (book_same c _ ks).
  - destruct (enqueued_same _ _ _ He) as (_ & E2 & _). apply (answers_pending c); [|done]. by rewrite E2.
  - eapply queues_enqueued; [exact He|]. destruct Q as [Q1 Q2 Q3]. rewrite Hc in *. split; cbn in *.
    + by rewrite Q1, <- app_assoc.
    + lia.
    + done.
  - by apply (book_same c _ ks).
  - by apply (answers_pending c).
  - destruct Q as [Q1 Q2 Q3]. rewrite Hc in *. split; cbn in *; [done|done|lia].
  - by apply (book_same c _ ks).
  - by apply (answers_pending c).
  - by apply (queues_same c).
Qed.

Lemma conn_reachable_ok s : conn_reachable callTimeout s -> conn_ok s.
Proof.
  induction 1 as [|ev s s' _ IH Hs]; [|by eapply conn_step_ok].
  split; split; cbn; try done; try lia; try apply NoDup_nil_2.
  - by intros id ?%not_elem_of_nil.
  - intros id. rewrite lookup_empty. split; [by intros [] | by intros ?%not_elem_of_nil].
  - by intros k p ?%not_elem_of_nil.
  - by intros k e ?%not_elem_of_nil.
Qed.
End reachable.

(** ** What a connection promises *)

Section promises.
Context `{JsonText} (callTimeout : Z).

(** C16: calls cannot leak pending entries, however they end and whatever the
    peer sends.  In every reachable state there is one entry per call in flight
    and none else, so when every call has returned none is left; and once the
    connection is closed every waiting call can return, with an error that
    matches ErrNotConnected. *)
Theorem calls_do_not_leak s :
  conn_reachable callTimeout s ->
  (forall id, is_Some (pending (cs_conn s) !! id) <-> exists k, k ∈ cs_callers s /\ ca_id k = id) /\
  PendingCount (cs_conn s) = length (cs_callers s) /\
  (cn_done (cs_conn s) = true -> forall k, k ∈ cs_callers s ->
     exists s' e, conn_step callTimeout Inside s s' /\ (k, inr e) ∈ cs_returned s' /\ errors_is e ErrNotConnected = true).
Proof.
  intros Hr. destruct (ck_book s (conn_reachable_ok callTimeout s Hr)) as [B1 B2 B3 B4]. split; [|split].
  - intros id. rewrite B4. unfold ids. rewrite list_elem_of_fmap. split; intros (k & H1' & H2'); by exists k.
  - unfold PendingCount. rewrite <- size_dom, <- (length_fmap ca_id).
    assert (E : dom (pending (cs_conn s)) =@{gset string} list_to_set (ids (cs_callers s))).
    { apply set_eq. intros id. by rewrite elem_of_dom, elem_of_list_to_set. }
    rewrite E. by apply size_list_to_set.
  - intros Hd k Hin. apply list_elem_of_split in Hin as (ks1 & ks2 & Hks).
    destruct s as [c ks fs hs rs]. cbn in *. subst ks.
    eexists _, EConnClosed. split; [by apply (cs_gives_up callTimeout k EConnClosed), up_closed|].
    split; [left | done].
Qed.

(** A call returns only what the peer answered to that very call.  A
    payload it returns, or a CALLERROR, came in a frame with the call's own
    message id; late, repeated and unknown answers reach nobody. *)
Theorem answers_match_calls s k out :
  conn_reachable callTimeout s -> (k, out) ∈ cs_returned s ->
  match out with
  | inl p => exists f, f ∈ cs_read s /\ fr_ID f = ca_id k /\ fr_Type f = MessageTypeCallResult /\ fr_Payload f = p
  | inr (ERPC e) => exists f, f ∈ cs_read s /\ fr_ID f = ca_id k /\ fr_Type f = MessageTypeCallError /\
                      fr_ErrorCode f = Code e /\ fr_ErrorDescription f = Description e
  | inr _ => True
  end.
Proof.
  intros Hr Hin. destruct (ck_answers s (conn_reachable_ok callTimeout s Hr)) as [_ A2 A3].
  destruct out as [p|e]; [|destruct e; try done].
  - destruct (A2 k p Hin) as (f & Hf & Hid & Hre). exists f. unfold response_of in Hre.
    destruct (Z.eqb_spec (fr_Type f) MessageTypeCallResult); [|by case_match]. by simplify_eq.
  - destruct (A3 k e Hin) as (f & Hf & Hid & Hre). exists f. unfold response_of in Hre.
    destruct (Z.eqb_spec (fr_Type f) MessageTypeCallResult); [done|].
    destruct (Z.eqb_spec (fr_Type f) MessageTypeCallError); [|done]. by simplify_eq.
Qed.

(** The station's calls are handled one at a time in the order it sent
    them: the calls handled so far, then those queued, are exactly the calls
    read.  Neither queue outgrows its buffer. *)
Theorem calls_handled_in_order s :
  conn_reachable callTimeout s ->
  filter (fun f => is_call f = true) (cs_read s) = cs_handled s ++ calls (cs_conn s) /\
  (length (calls (cs_conn s)) <= callBuffer)%nat /\ (length (send (cs_conn s)) <= sendBuffer)%nat.
Proof. intros Hr. by destruct (ck_queues s (conn_reachable_ok callTimeout s Hr)). Qed.
End promises.

(** ** Instances: a Reset that is answered, and a Heartbeat handled *)

#[local] Existing Instance plain_text.

Definition conn1 : conn := (begin_call "Reset" None new_conn).1.
Definition call1 : call := (begin_call "Reset" None new_conn).2.
Definition conn2 : conn := push (ca_frame call1) conn1.
Definition reset_result : json := JObj [("status", JStr "Accepted")].
Definition result_frame : Frame := mkFrame MessageTypeCallResult "1" "" (Some reset_result) "" "" None.
Definition beat_frame : Frame := mkFrame MessageTypeCall "77" "Heartbeat" (Some (JObj [])) "" "" None.

Definition waiting_state : conn_system := mkConnSystem conn2 [mark_sent call1] [] [] [].
Definition delivered_state : conn_system :=
  mkConnSystem (deliver "1" (inl (Some reset_result)) conn2) [mark_sent call1] [result_frame] [] [].
Definition answered_state : conn_system :=
  mkConnSystem (forget "1" (deliver "1" (inl (Some reset_result)) conn2)) [] [result_frame] []
    [(mark_sent call1, inl (Some reset_result))].
Definition beating_state : conn_system :=
  mkConnSystem (push_call beat_frame (forget "1" (deliver "1" (inl (Some reset_result)) conn2))) []
    [result_frame; beat_frame] [] [(mark_sent call1, inl (Some reset_result))].

Lemma waiting_reachable : conn_reachable 30 waiting_state.
Proof.
  eapply cr_step; [eapply cr_step; [apply cr_new | apply (cs_call 30 "Reset" None)]|].
  - vm_compute. reflexivity.
  - apply (cs_queue 30 call1 conn1 [] []); [reflexivity | unfold send_room; vm_compute; lia].
Defined.

Lemma answered_reachable : conn_reachable 30 answered_state.
Proof.
  eapply (cr_step 30 _ delivered_state); [eapply (cr_step 30 _ waiting_state); [exact waiting_reachable|]|].
  - apply (cs_read_response 30 (inl (JArr [JInt 3; JStr "1"; reset_result])) result_frame (inl (Some reset_result))
             conn2 [mark_sent call1] []); vm_compute; reflexivity.
  - apply (cs_answered 30 (mark_sent call1) (inl (Some reset_result)) _ [] []); vm_compute; reflexivity.
Defined.

Lemma beating_reachable : conn_reachable 30 beating_state.
Proof.
  eapply (cr_step 30 _ answered_state); [exact answered_reachable|].
  apply (cs_read_call 30 (inl (JArr [JInt 2; JStr "77"; JStr "Heartbeat"; JObj []])) beat_frame _ [] [result_frame]);
    [vm_compute; reflexivity | reflexivity | vm_compute; lia].
Defined.

Lemma calls_do_not_leak_witness : PendingCount (cs_conn waiting_state) = 1%nat.
Proof. apply (calls_do_not_leak 30 waiting_state waiting_reachable). Defined.

Lemma answers_match_calls_witness :
  exists f, f ∈ cs_read answered_state /\ fr_ID f = "1" /\ fr_Type f = MessageTypeCallResult /\
    fr_Payload f = Some reset_result.
Proof.
  apply (answers_match_calls 30 answered_state (mark_sent call1) (inl (Some reset_result)) answered_reachable).
  left.
Defined.

Lemma calls_handled_in_order_witness :
  filter (fun f => is_call f = true) (cs_read beating_state) = cs_handled beating_state ++ [beat_frame].
Proof. apply (calls_handled_in_order 30 beating_state beating_reachable). Defined.
