(* ===== verification/V16Status.v ===== *)
(** * The OCPP 1.6 vocabulary (ocpp/v16/status.go and the constants of messages.go
    and commands.go) *)

From S2P Require Import Prelude GoLib Ocpp Bus.

(** ** Action names *)

Definition ActionBootNotification : string := "BootNotification".
Definition ActionHeartbeat : string := "Heartbeat".
Definition ActionStatusNotification : string := "StatusNotification".
Definition ActionAuthorize : string := "Authorize".
Definition ActionStartTransaction : string := "StartTransaction".
Definition ActionStopTransaction : string := "StopTransaction".
Definition ActionMeterValues : string := "MeterValues".
Definition ActionDataTransfer : string := "DataTransfer".
Definition ActionFirmwareStatusNotification : string := "FirmwareStatusNotification".
Definition ActionDiagnosticsStatusNotification : string := "DiagnosticsStatusNotification".

Definition ActionReserveNow : string := "ReserveNow".
Definition ActionCancelReservation : string := "CancelReservation".
Definition ActionRemoteStartTransaction : string := "RemoteStartTransaction".
Definition ActionRemoteStopTransaction : string := "RemoteStopTransaction".
Definition ActionUnlockConnector : string := "UnlockConnector".
Definition ActionTriggerMessage : string := "TriggerMessage".
Definition ActionGetConfiguration : string := "GetConfiguration".

(** The actions a station may call, in [HandleCall]'s order. *)
Definition inbound_actions : list string :=
  [ActionBootNotification; ActionHeartbeat; ActionStatusNotification; ActionAuthorize;
   ActionStartTransaction; ActionStopTransaction; ActionMeterValues; ActionDataTransfer;
   ActionFirmwareStatusNotification; ActionDiagnosticsStatusNotification].

(** ** Lookups in a map literal *)

Fixpoint assoc {A} (l : list (string * A)) (k : string) : option A :=
  match l with
  | [] => None
  | (k', a) :: l' => if bool_decide (k' = k) then Some a else assoc l' k
  end.

(** ** Connector statuses *)

Definition statusMap : list (string * EVSEStatus) := [
  ("Available", StatusAvailable);
  ("Preparing", StatusAvailable);
  ("Finishing", StatusAvailable);
  ("Charging", StatusCharging);
  ("SuspendedEV", StatusCharging);
  ("SuspendedEVSE", StatusCharging);
  ("Reserved", StatusReserved);
  ("Unavailable", StatusInoperative);
  ("Faulted", StatusOutOfOrder)].

Definition MapStatus (s : string) : EVSEStatus :=
  match assoc statusMap s with Some st => st | None => StatusUnknown end.

(** ** Command statuses *)

Definition commandStatusMap : list (string * list (string * CommandStatus)) := [
  (ActionReserveNow, [
    ("Accepted", CommandAccepted); ("Faulted", CommandFaulted); ("Occupied", CommandOccupied);
    ("Rejected", CommandRejected); ("Unavailable", CommandUnavailable)]);
  (ActionCancelReservation, [("Accepted", CommandAccepted); ("Rejected", CommandRejected)]);
  (ActionRemoteStartTransaction, [("Accepted", CommandAccepted); ("Rejected", CommandRejected)]);
  (ActionRemoteStopTransaction, [("Accepted", CommandAccepted); ("Rejected", CommandRejected)]);
  (ActionUnlockConnector, [
    ("Unlocked", CommandUnlocked); ("UnlockFailed", CommandUnlockFailed);
    ("NotSupported", CommandNotSupported)]);
  (ActionTriggerMessage, [
    ("Accepted", CommandAccepted); ("Rejected", CommandRejected);
    ("NotImplemented", CommandNotImplemented)])].

Definition MapCommandStatus (action status : string) : CommandStatus :=
  match assoc commandStatusMap action with
  | Some m => match assoc m status with Some st => st | None => CommandUnknown end
  | None => CommandUnknown
  end.

(** ** Facts *)

Lemma assoc_Some_in {A} (l : list (string * A)) k a : assoc l k = Some a -> (k, a) ∈ l.
Proof.
  induction l as [|[k' a'] l IH]; [done|]. simpl. case_bool_decide as Hk.
  - intros [= <-]. rewrite Hk. left.
  - intros H. right. by apply IH.
Qed.

(** A connector status is never mapped to one that would be UNKNOWN's opposite by
    guesswork: what is not in the table is UNKNOWN. *)
Lemma MapStatus_unlisted s : assoc statusMap s = None -> MapStatus s = StatusUnknown.
Proof. unfold MapStatus. by intros ->. Qed.

Lemma MapStatus_not_none s : MapStatus s <> StatusNone.
Proof.
  unfold MapStatus. destruct (assoc statusMap s) as [st|] eqn:E; [|done].
  apply assoc_Some_in in E. intros ->. unfold statusMap in E.
  repeat (apply elem_of_cons in E as [E|E]; [discriminate|]). by apply not_elem_of_nil in E.
Qed.
