(* ===== verification/V16Messages.v ===== *)
(** * The OCPP 1.6-J messages (ocpp/v16/messages.go, ocpp/v16/commands.go)

    The payload structs with their JSON names: how each is decoded from a JSON
    value and, for what cpms sends, how it is encoded. *)

From S2P Require Import Prelude GoLib GoTime Json Ocpp Bus V16Status.

(** [decode[T]]; an empty payload is the zero value. *)
Definition decode `{JsonText} {A} (fs : struct_fields A) (zero : A) (payload : option json)
    : A + RPCError :=
  match payload with
  | None => inl zero
  | Some j =>
    match Unmarshal fs zero j with
    | Some v => inl v
    | None => inr (Errorf ErrFormationViolation
                     ("payload does not match the action: " +:+ unmarshal_error j))
    end
  end.

Definition missing (field : string) : RPCError :=
  Errorf ErrOccurrenceConstraintViolation (field +:+ " is required").

Definition badValue (field value : string) : RPCError :=
  Errorf ErrPropertyConstraintViolation (field +:+ " has invalid value " +:+ Quote value).

Definition AuthAccepted : string := "Accepted".
Definition AuthInvalid : string := "Invalid".

(** ** BootNotification *)

Record BootNotificationReq := mkBootNotificationReq {
  bn_ChargePointVendor : string;
  bn_ChargePointModel : string;
  bn_ChargePointSerialNumber : string;
  bn_ChargeBoxSerialNumber : string;
  bn_FirmwareVersion : string;
  bn_ICCID : string;
  bn_IMSI : string;
  bn_MeterType : string;
  bn_MeterSerialNumber : string
}.

Definition zero_BootNotificationReq : BootNotificationReq :=
  mkBootNotificationReq "" "" "" "" "" "" "" "" "".

Definition BootNotificationReq_fields : struct_fields BootNotificationReq := [
  ("chargePointVendor", at_field bn_ChargePointVendor (fun v r => mkBootNotificationReq v (bn_ChargePointModel r) (bn_ChargePointSerialNumber r) (bn_ChargeBoxSerialNumber r) (bn_FirmwareVersion r) (bn_ICCID r) (bn_IMSI r) (bn_MeterType r) (bn_MeterSerialNumber r)) dec_string);
  ("chargePointModel", at_field bn_ChargePointModel (fun v r => mkBootNotificationReq (bn_ChargePointVendor r) v (bn_ChargePointSerialNumber r) (bn_ChargeBoxSerialNumber r) (bn_FirmwareVersion r) (bn_ICCID r) (bn_IMSI r) (bn_MeterType r) (bn_MeterSerialNumber r)) dec_string);
  ("chargePointSerialNumber", at_field bn_ChargePointSerialNumber (fun v r => mkBootNotificationReq (bn_ChargePointVendor r) (bn_ChargePointModel r) v (bn_ChargeBoxSerialNumber r) (bn_FirmwareVersion r) (bn_ICCID r) (bn_IMSI r) (bn_MeterType r) (bn_MeterSerialNumber r)) dec_string);
  ("chargeBoxSerialNumber", at_field bn_ChargeBoxSerialNumber (fun v r => mkBootNotificationReq (bn_ChargePointVendor r) (bn_ChargePointModel r) (bn_ChargePointSerialNumber r) v (bn_FirmwareVersion r) (bn_ICCID r) (bn_IMSI r) (bn_MeterType r) (bn_MeterSerialNumber r)) dec_string);
  ("firmwareVersion", at_field bn_FirmwareVersion (fun v r => mkBootNotificationReq (bn_ChargePointVendor r) (bn_ChargePointModel r) (bn_ChargePointSerialNumber r) (bn_ChargeBoxSerialNumber r) v (bn_ICCID r) (bn_IMSI r) (bn_MeterType r) (bn_MeterSerialNumber r)) dec_string);
  ("iccid", at_field bn_ICCID (fun v r => mkBootNotificationReq (bn_ChargePointVendor r) (bn_ChargePointModel r) (bn_ChargePointSerialNumber r) (bn_ChargeBoxSerialNumber r) (bn_FirmwareVersion r) v (bn_IMSI r) (bn_MeterType r) (bn_MeterSerialNumber r)) dec_string);
  ("imsi", at_field bn_IMSI (fun v r => mkBootNotificationReq (bn_ChargePointVendor r) (bn_ChargePointModel r) (bn_ChargePointSerialNumber r) (bn_ChargeBoxSerialNumber r) (bn_FirmwareVersion r) (bn_ICCID r) v (bn_MeterType r) (bn_MeterSerialNumber r)) dec_string);
  ("meterType", at_field bn_MeterType (fun v r => mkBootNotificationReq (bn_ChargePointVendor r) (bn_ChargePointModel r) (bn_ChargePointSerialNumber r) (bn_ChargeBoxSerialNumber r) (bn_FirmwareVersion r) (bn_ICCID r) (bn_IMSI r) v (bn_MeterSerialNumber r)) dec_string);
  ("meterSerialNumber", at_field bn_MeterSerialNumber (fun v r => mkBootNotificationReq (bn_ChargePointVendor r) (bn_ChargePointModel r) (bn_ChargePointSerialNumber r) (bn_ChargeBoxSerialNumber r) (bn_FirmwareVersion r) (bn_ICCID r) (bn_IMSI r) (bn_MeterType r) v) dec_string)].

Definition BootNotificationReq_validate (r : BootNotificationReq) : option RPCError :=
  if bool_decide (bn_ChargePointVendor r = "") then Some (missing "chargePointVendor")
  else if bool_decide (bn_ChargePointModel r = "") then Some (missing "chargePointModel")
  else None.

Definition BootNotificationConf (status currentTime : string) (interval : Z) : json :=
  JObj [("status", JStr status); ("currentTime", JStr currentTime); ("interval", JInt interval)].

Definition HeartbeatConf (currentTime : string) : json := JObj [("currentTime", JStr currentTime)].

(** ** StatusNotification *)

Record StatusNotificationReq := mkStatusNotificationReq {
  sn_ConnectorID : Z;
  sn_ErrorCode : string;
  sn_Status : string;
  sn_Info : string;
  sn_Timestamp : string;
  sn_VendorID : string;
  sn_VendorErrorCode : string
}.

Definition zero_StatusNotificationReq : StatusNotificationReq :=
  mkStatusNotificationReq 0 "" "" "" "" "" "".

Definition StatusNotificationReq_fields : struct_fields StatusNotificationReq := [
  ("connectorId", at_field sn_ConnectorID (fun v r => mkStatusNotificationReq v (sn_ErrorCode r) (sn_Status r) (sn_Info r) (sn_Timestamp r) (sn_VendorID r) (sn_VendorErrorCode r)) dec_int);
  ("errorCode", at_field sn_ErrorCode (fun v r => mkStatusNotificationReq (sn_ConnectorID r) v (sn_Status r) (sn_Info r) (sn_Timestamp r) (sn_VendorID r) (sn_VendorErrorCode r)) dec_string);
  ("status", at_field sn_Status (fun v r => mkStatusNotificationReq (sn_ConnectorID r) (sn_ErrorCode r) v (sn_Info r) (sn_Timestamp r) (sn_VendorID r) (sn_VendorErrorCode r)) dec_string);
  ("info", at_field sn_Info (fun v r => mkStatusNotificationReq (sn_ConnectorID r) (sn_ErrorCode r) (sn_Status r) v (sn_Timestamp r) (sn_VendorID r) (sn_VendorErrorCode r)) dec_string);
  ("timestamp", at_field sn_Timestamp (fun v r => mkStatusNotificationReq (sn_ConnectorID r) (sn_ErrorCode r) (sn_Status r) (sn_Info r) v (sn_VendorID r) (sn_VendorErrorCode r)) dec_string);
  ("vendorId", at_field sn_VendorID (fun v r => mkStatusNotificationReq (sn_ConnectorID r) (sn_ErrorCode r) (sn_Status r) (sn_Info r) (sn_Timestamp r) v (sn_VendorErrorCode r)) dec_string);
  ("vendorErrorCode", at_field sn_VendorErrorCode (fun v r => mkStatusNotificationReq (sn_ConnectorID r) (sn_ErrorCode r) (sn_Status r) (sn_Info r) (sn_Timestamp r) (sn_VendorID r) v) dec_string)].

Definition StatusNotificationReq_validate (r : StatusNotificationReq) : option RPCError :=
  if sn_ConnectorID r <? 0 then Some (badValue "connectorId" (Itoa (sn_ConnectorID r)))
  else if bool_decide (sn_Status r = "") then Some (missing "status")
  else match assoc statusMap (sn_Status r) with
       | None => Some (badValue "status" (sn_Status r))
       | Some _ => None
       end.

(** ** Authorize *)

Definition AuthorizeReq_fields : struct_fields string := [("idTag", dec_string)].

(** [IDTagInfo] with only a status. *)
Definition IDTagInfo (status : string) : json := JObj [("status", JStr status)].
Definition AuthorizeConf (status : string) : json := JObj [("idTagInfo", IDTagInfo status)].

(** ** Transactions *)

Record StartTransactionReq := mkStartTransactionReq {
  sq_ConnectorID : Z;
  sq_IDTag : string;
  sq_MeterStart : Z;
  sq_Timestamp : string;
  sq_ReservationID : option Z
}.

Definition zero_StartTransactionReq : StartTransactionReq := mkStartTransactionReq 0 "" 0 "" None.

Definition StartTransactionReq_fields : struct_fields StartTransactionReq := [
  ("connectorId", at_field sq_ConnectorID (fun v r => mkStartTransactionReq v (sq_IDTag r) (sq_MeterStart r) (sq_Timestamp r) (sq_ReservationID r)) dec_int);
  ("idTag", at_field sq_IDTag (fun v r => mkStartTransactionReq (sq_ConnectorID r) v (sq_MeterStart r) (sq_Timestamp r) (sq_ReservationID r)) dec_string);
  ("meterStart", at_field sq_MeterStart (fun v r => mkStartTransactionReq (sq_ConnectorID r) (sq_IDTag r) v (sq_Timestamp r) (sq_ReservationID r)) dec_int);
  ("timestamp", at_field sq_Timestamp (fun v r => mkStartTransactionReq (sq_ConnectorID r) (sq_IDTag r) (sq_MeterStart r) v (sq_ReservationID r)) dec_string);
  ("reservationId", at_field sq_ReservationID (fun v r => mkStartTransactionReq (sq_ConnectorID r) (sq_IDTag r) (sq_MeterStart r) (sq_Timestamp r) v) (dec_ptr dec_int 0))].

Definition StartTransactionReq_validate (r : StartTransactionReq) : option RPCError :=
  if sq_ConnectorID r <? 1 then Some (badValue "connectorId" (Itoa (sq_ConnectorID r)))
  else if bool_decide (sq_IDTag r = "") then Some (missing "idTag")
  else None.

Definition StartTransactionConf (transactionID : Z) (status : string) : json :=
  JObj [("transactionId", JInt transactionID); ("idTagInfo", IDTagInfo status)].

Record StopTransactionReq := mkStopTransactionReq {
  pq_TransactionID : Z;
  pq_MeterStop : Z;
  pq_Timestamp : string;
  pq_IDTag : string;
  pq_Reason : string
}.

Definition zero_StopTransactionReq : StopTransactionReq := mkStopTransactionReq 0 0 "" "" "".

Definition StopTransactionReq_fields : struct_fields StopTransactionReq := [
  ("transactionId", at_field pq_TransactionID (fun v r => mkStopTransactionReq v (pq_MeterStop r) (pq_Timestamp r) (pq_IDTag r) (pq_Reason r)) dec_int);
  ("meterStop", at_field pq_MeterStop (fun v r => mkStopTransactionReq (pq_TransactionID r) v (pq_Timestamp r) (pq_IDTag r) (pq_Reason r)) dec_int);
  ("timestamp", at_field pq_Timestamp (fun v r => mkStopTransactionReq (pq_TransactionID r) (pq_MeterStop r) v (pq_IDTag r) (pq_Reason r)) dec_string);
  ("idTag", at_field pq_IDTag (fun v r => mkStopTransactionReq (pq_TransactionID r) (pq_MeterStop r) (pq_Timestamp r) v (pq_Reason r)) dec_string);
  ("reason", at_field pq_Reason (fun v r => mkStopTransactionReq (pq_TransactionID r) (pq_MeterStop r) (pq_Timestamp r) (pq_IDTag r) v) dec_string)].

(** [StopTransactionConf{}] and [emptyConf{}]: an object without fields. *)
Definition StopTransactionConf : json := JObj [].
Definition emptyConf : json := JObj [].

(** ** MeterValues *)

Record SampledValue := mkSampledValue {
  sv_Value : string;
  sv_Measurand : string;
  sv_Unit : string;
  sv_Context : string;
  sv_Phase : string;
  sv_Location : string;
  sv_Format : string
}.

Definition SampledValue_fields : struct_fields SampledValue := [
  ("value", at_field sv_Value (fun v r => mkSampledValue v (sv_Measurand r) (sv_Unit r) (sv_Context r) (sv_Phase r) (sv_Location r) (sv_Format r)) dec_string);
  ("measurand", at_field sv_Measurand (fun v r => mkSampledValue (sv_Value r) v (sv_Unit r) (sv_Context r) (sv_Phase r) (sv_Location r) (sv_Format r)) dec_string);
  ("unit", at_field sv_Unit (fun v r => mkSampledValue (sv_Value r) (sv_Measurand r) v (sv_Context r) (sv_Phase r) (sv_Location r) (sv_Format r)) dec_string);
  ("context", at_field sv_Context (fun v r => mkSampledValue (sv_Value r) (sv_Measurand r) (sv_Unit r) v (sv_Phase r) (sv_Location r) (sv_Format r)) dec_string);
  ("phase", at_field sv_Phase (fun v r => mkSampledValue (sv_Value r) (sv_Measurand r) (sv_Unit r) (sv_Context r) v (sv_Location r) (sv_Format r)) dec_string);
  ("location", at_field sv_Location (fun v r => mkSampledValue (sv_Value r) (sv_Measurand r) (sv_Unit r) (sv_Context r) (sv_Phase r) v (sv_Format r)) dec_string);
  ("format", at_field sv_Format (fun v r => mkSampledValue (sv_Value r) (sv_Measurand r) (sv_Unit r) (sv_Context r) (sv_Phase r) (sv_Location r) v) dec_string)].

Record MeterValue := mkMeterValue { mv_Timestamp : string; mv_SampledValue : list SampledValue }.

Definition MeterValue_fields : struct_fields MeterValue := [
  ("timestamp", at_field mv_Timestamp (fun v r => mkMeterValue v (mv_SampledValue r)) dec_string);
  ("sampledValue", at_field mv_SampledValue (fun v r => mkMeterValue (mv_Timestamp r) v)
     (dec_slice (dec_struct SampledValue_fields) (mkSampledValue "" "" "" "" "" "" "")))].

Record MeterValuesReq := mkMeterValuesReq {
  mq_ConnectorID : Z;
  mq_TransactionID : option Z;
  mq_MeterValue : list MeterValue
}.

Definition zero_MeterValuesReq : MeterValuesReq := mkMeterValuesReq 0 None [].

Definition MeterValuesReq_fields : struct_fields MeterValuesReq := [
  ("connectorId", at_field mq_ConnectorID (fun v r => mkMeterValuesReq v (mq_TransactionID r) (mq_MeterValue r)) dec_int);
  ("transactionId", at_field mq_TransactionID (fun v r => mkMeterValuesReq (mq_ConnectorID r) v (mq_MeterValue r)) (dec_ptr dec_int 0));
  ("meterValue", at_field mq_MeterValue (fun v r => mkMeterValuesReq (mq_ConnectorID r) (mq_TransactionID r) v)
     (dec_slice (dec_struct MeterValue_fields) (mkMeterValue "" [])))].

(** ** DataTransfer and the status-only notifications *)

Record DataTransferReq := mkDataTransferReq {
  dt_VendorID : string;
  dt_MessageID : string;
  dt_Data : string
}.

Definition DataTransferReq_fields : struct_fields DataTransferReq := [
  ("vendorId", at_field dt_VendorID (fun v r => mkDataTransferReq v (dt_MessageID r) (dt_Data r)) dec_string);
  ("messageId", at_field dt_MessageID (fun v r => mkDataTransferReq (dt_VendorID r) v (dt_Data r)) dec_string);
  ("data", at_field dt_Data (fun v r => mkDataTransferReq (dt_VendorID r) (dt_MessageID r) v) dec_string)].

Definition DataTransferConf (status : string) : json := JObj [("status", JStr status)].

(** What a station answers a command with. *)
Definition CmdAccepted : string := "Accepted".
Definition CmdRejected : string := "Rejected".
Definition v16_ReservationAccepted : string := "Accepted".
Definition v16_ReservationFaulted : string := "Faulted".
Definition v16_ReservationOccupied : string := "Occupied".
Definition v16_ReservationRejected : string := "Rejected".
Definition v16_ReservationUnavailable : string := "Unavailable".
Definition UnlockUnlocked : string := "Unlocked".
Definition UnlockFailed : string := "UnlockFailed".
Definition TriggerAccepted : string := "Accepted".
Definition TriggerNotImplemented : string := "NotImplemented".
Definition AvailabilityInoperative : string := "Inoperative".

(** [StatusOnlyReq], and the bare status every command is answered with. *)
Definition StatusOnly_fields : struct_fields string := [("status", dec_string)].

(** ** Times *)

Definition formatTime (t : Time) : string := FormatRFC3339 (UTC t).

Definition parseTime (s : string) (fallback : Time) : Time :=
  if bool_decide (s = "") then fallback
  else match ParseRFC3339 s with Some t => t | None => fallback end.

(** ** Commands to the station (commands.go) *)

Definition ReserveNowReq (connectorID : Z) (expiryDate idTag : string) (reservationID : Z) : json :=
  JObj [("connectorId", JInt connectorID); ("expiryDate", JStr expiryDate); ("idTag", JStr idTag);
        ("reservationId", JInt reservationID)].

Definition CancelReservationReq (reservationID : Z) : json :=
  JObj [("reservationId", JInt reservationID)].

Definition RemoteStartTransactionReq (connectorID : Z) (idTag : string) : json :=
  JObj [("connectorId", JInt connectorID); ("idTag", JStr idTag)].

Definition RemoteStopTransactionReq (transactionID : Z) : json :=
  JObj [("transactionId", JInt transactionID)].

Definition UnlockConnectorReq (connectorID : Z) : json := JObj [("connectorId", JInt connectorID)].

Definition TriggerMessageReq (requestedMessage : string) (connectorID : Z) : json :=
  JObj [("requestedMessage", JStr requestedMessage); ("connectorId", JInt connectorID)].

(** An empty key list is left out, which asks for every key. *)
Definition GetConfigurationReq (keys : list string) : json :=
  JObj (match keys with [] => [] | _ => [("key", JArr (JStr <$> keys))] end).

Record ConfigurationKey := mkConfigurationKey { ck_Key : string; ck_Readonly : bool; ck_Value : string }.

Definition ConfigurationKey_fields : struct_fields ConfigurationKey := [
  ("key", at_field ck_Key (fun v r => mkConfigurationKey v (ck_Readonly r) (ck_Value r)) dec_string);
  ("readonly", at_field ck_Readonly (fun v r => mkConfigurationKey (ck_Key r) v (ck_Value r)) dec_bool);
  ("value", at_field ck_Value (fun v r => mkConfigurationKey (ck_Key r) (ck_Readonly r) v) dec_string)].

Record GetConfigurationConf := mkGetConfigurationConf {
  gc_ConfigurationKey : list ConfigurationKey;
  gc_UnknownKey : list string
}.

Definition zero_GetConfigurationConf : GetConfigurationConf := mkGetConfigurationConf [] [].

Definition GetConfigurationConf_fields : struct_fields GetConfigurationConf := [
  ("configurationKey", at_field gc_ConfigurationKey (fun v r => mkGetConfigurationConf v (gc_UnknownKey r))
     (dec_slice (dec_struct ConfigurationKey_fields) (mkConfigurationKey "" false "")));
  ("unknownKey", at_field gc_UnknownKey (fun v r => mkGetConfigurationConf (gc_ConfigurationKey r) v)
     (dec_slice dec_string ""))].

Definition KeySupportedFeatureProfiles : string := "SupportedFeatureProfiles".
Definition KeyHeartbeatInterval : string := "HeartbeatInterval".
Definition KeyNumberOfConnectors : string := "NumberOfConnectors".
Definition KeyReserveConnectorZeroSupported : string := "ReserveConnectorZeroSupported".
Definition KeyAuthorizeRemoteTxRequests : string := "AuthorizeRemoteTxRequests".
Definition KeyLocalAuthListEnabled : string := "LocalAuthListEnabled".
Definition KeyLocalPreAuthorize : string := "LocalPreAuthorize".
Definition KeyLocalAuthorizeOffline : string := "LocalAuthorizeOffline".
Definition KeyConnectionTimeOut : string := "ConnectionTimeOut".
Definition KeyMeterValueSampleInterval : string := "MeterValueSampleInterval".
