(* ===== verification/V16Handler.v ===== *)
(** * The OCPP 1.6 handler (ocpp/v16/handler.go)

    One definition per action, in the monad of core.Service: it decodes and
    validates the payload, calls core, and gives the CALLRESULT payload or the
    CALLERROR.  The handler's clock is read through the same environment as
    core's (both are [time.Now]). *)

From S2P Require Import Prelude GoLib GoTime Json Ocpp Errors Config State Bus World Core.
From S2P Require Import Persist Reservations Transactions V16Status V16Messages.

Definition Response : Type := json + RPCError.

(** [decode], then [validate]. *)
Definition decode_valid `{JsonText} {A} (fs : struct_fields A) (zero : A)
    (validate : A -> option RPCError) (payload : option json) : A + RPCError :=
  match decode fs zero payload with
  | inr e => inr e
  | inl req => match validate req with Some e => inr e | None => inl req end
  end.

Definition no_check {A} (_ : A) : option RPCError := None.

(** [summariseMeterValues]. *)
Definition summarise_sample (sv : SampledValue) : string :=
  let measurand := if bool_decide (sv_Measurand sv = "") then "Energy.Active.Import.Register"
                   else sv_Measurand sv in
  measurand +:+ "=" +:+ sv_Value sv +:+ sv_Unit sv.

Definition summariseMeterValues (values : list MeterValue) : string :=
  match list.last values with
  | None => "no samples"
  | Some m =>
    match mv_SampledValue m with
    | [] => "no samples"
    | l => Join " " (summarise_sample <$> l)
    end
  end.

Section handler.
Context `{MapOrder} `{Env} `{JsonText} (cfg : Config).

Definition knownTag (tag : string) : bool := EqualFold tag (DefaultIDTag (cf_Auth cfg)).

(** [int(d.Seconds())]: truncated; the float division is exact for intervals
    below 48 days. *)
Definition interval_seconds (d : Duration) : Z := dur d ÷ second.

Definition bootNotification (cpID : string) (payload : option json) : M Response :=
  match decode_valid BootNotificationReq_fields zero_BootNotificationReq BootNotificationReq_validate payload with
  | inr e => M_ret (inr e)
  | inl req =>
    let serial := if bool_decide (bn_ChargePointSerialNumber req = "") then bn_ChargeBoxSerialNumber req
                  else bn_ChargePointSerialNumber req in
    Booted cpID (mkBootInfo (bn_ChargePointVendor req) (bn_ChargePointModel req) serial
                   (bn_FirmwareVersion req) zeroTime) ;;
    t <- now ;;
    M_ret (inl (BootNotificationConf "Accepted" (formatTime t)
                  (interval_seconds (ch_HeartbeatInterval (cf_Charger cfg)))))
  end.

Definition heartbeat (cpID : string) : M Response :=
  Heartbeat cpID ;;
  t <- now ;;
  M_ret (inl (HeartbeatConf (formatTime t))).

Definition statusNotification (cpID : string) (payload : option json) : M Response :=
  match decode_valid StatusNotificationReq_fields zero_StatusNotificationReq StatusNotificationReq_validate payload with
  | inr e => M_ret (inr e)
  | inl req =>
    SetConnectorStatus cpID (sn_ConnectorID req) (MapStatus (sn_Status req)) (sn_ErrorCode req) ;;
    M_ret (inl emptyConf)
  end.

Definition AuthorizeReq_validate (idTag : string) : option RPCError :=
  if bool_decide (idTag = "") then Some (missing "idTag") else None.

Definition authorize (cpID : string) (payload : option json) : M Response :=
  match decode_valid AuthorizeReq_fields "" AuthorizeReq_validate payload with
  | inr e => M_ret (inr e)
  | inl idTag =>
    Seen cpID ;;
    M_ret (inl (AuthorizeConf (if knownTag idTag then AuthAccepted else AuthInvalid)))
  end.

(** What core is told of a started session. *)
Definition transaction_start (req : StartTransactionReq) (txID : Z) (t : Time) : TransactionStart :=
  mkTransactionStart (Itoa txID) (sq_ConnectorID req) (sq_IDTag req) (sq_MeterStart req)
    (default 0 (sq_ReservationID req)) (parseTime (sq_Timestamp req) t).

Definition startTransaction (cpID : string) (payload : option json) : M Response :=
  match decode_valid StartTransactionReq_fields zero_StartTransactionReq StartTransactionReq_validate payload with
  | inr e => M_ret (inr e)
  | inl req =>
    if negb (knownTag (sq_IDTag req)) then
      Seen cpID ;;
      M_ret (inl (StartTransactionConf 0 AuthInvalid))
    else
      txID <- NextTransactionID ;;
      t <- now ;;
      StartTransaction cpID (transaction_start req txID t) ;;
      M_ret (inl (StartTransactionConf txID AuthAccepted))
  end.

Definition stopTransaction (cpID : string) (payload : option json) : M Response :=
  match decode_valid StopTransactionReq_fields zero_StopTransactionReq no_check payload with
  | inr e => M_ret (inr e)
  | inl req =>
    t <- now ;;
    StopTransaction cpID (Itoa (pq_TransactionID req)) (pq_MeterStop req) (pq_Reason req)
      (parseTime (pq_Timestamp req) t) ;;
    M_ret (inl StopTransactionConf)
  end.

Definition meterValues (cpID : string) (payload : option json) : M Response :=
  match decode_valid MeterValuesReq_fields zero_MeterValuesReq no_check payload with
  | inr e => M_ret (inr e)
  | inl req =>
    RecordMeterValues cpID (mq_ConnectorID req) (summariseMeterValues (mq_MeterValue req)) ;;
    M_ret (inl emptyConf)
  end.

Definition dataTransfer (cpID : string) (payload : option json) : M Response :=
  match decode_valid DataTransferReq_fields (mkDataTransferReq "" "" "") no_check payload with
  | inr e => M_ret (inr e)
  | inl req => Seen cpID ;; M_ret (inl (DataTransferConf "Rejected"))
  end.

Definition statusOnly (cpID : string) (payload : option json) : M Response :=
  match decode_valid StatusOnly_fields "" no_check payload with
  | inr e => M_ret (inr e)
  | inl status => Seen cpID ;; M_ret (inl emptyConf)
  end.

Definition HandleCall (cpID action : string) (payload : option json) : M Response :=
  if bool_decide (action = ActionBootNotification) then bootNotification cpID payload
  else if bool_decide (action = ActionHeartbeat) then heartbeat cpID
  else if bool_decide (action = ActionStatusNotification) then statusNotification cpID payload
  else if bool_decide (action = ActionAuthorize) then authorize cpID payload
  else if bool_decide (action = ActionStartTransaction) then startTransaction cpID payload
  else if bool_decide (action = ActionStopTransaction) then stopTransaction cpID payload
  else if bool_decide (action = ActionMeterValues) then meterValues cpID payload
  else if bool_decide (action = ActionDataTransfer) then dataTransfer cpID payload
  else if bool_decide (action = ActionFirmwareStatusNotification \/
                       action = ActionDiagnosticsStatusNotification) then statusOnly cpID payload
  else M_ret (inr (Errorf ErrNotImplemented ("action " +:+ Quote action +:+ " is not implemented"))).
End handler.
