(* ===== verification/V16ChargePoint.v ===== *)
(** * Commands to an OCPP 1.6 station (ocpp/v16/chargepoint.go, probe.go)

    [ocpp.ChargePoint] as a class of operations, the connection it sends over as
    a parameter ([Caller]), and its OCPP 1.6 instance.  A call runs in the
    world of core.Service, since messages from the station are handled while the
    call waits for its answer. *)

From S2P Require Import Prelude GoLib GoTime Json Ocpp Errors Config State Bus World.
From S2P Require Import V16Status V16Messages.

(** ** The interfaces *)

(** ocpp/chargepoint.go: [ocpp.ChargePoint]. *)
Class ChargePoint := {
  ID : string;
  cp_Version : Ocpp.Version;
  ReserveNow : ReserveRequest -> M (Result + error);
  CancelReservation : Z -> M (Result + error);
  RemoteStart : RemoteStartRequest -> M (Result + error);
  RemoteStop : string -> M (Result + error);
  UnlockConnector : string -> M (Result + error);
  TriggerStatus : string -> M (Result + error);
  CapabilitiesOf : M (Capabilities + error);
  Probe : M (ProbeReport + error)
}.

(** chargepoint.go: [Caller], one CALL at a time. *)
Class Caller := {
  caller_ID : string;
  caller_Version : Ocpp.Version;
  Call : string -> json -> M (json + error)
}.

(** ** Probing *)

Definition profileCore : string := "Core".
Definition profileReservation : string := "Reservation".
Definition profileRemoteTrigger : string := "RemoteTrigger".

Definition neededProfiles : list (string * list Capability) := [
  (profileCore, [CapRemoteStartStop; CapUnlock]);
  (profileReservation, [CapReservation]);
  (profileRemoteTrigger, [CapTriggerStatus])].

Definition probedSettings : list (string * string) := [
  (KeyReserveConnectorZeroSupported,
   "whether the whole station can be reserved at once; cpms always reserves one EVSE, so this is informational");
  (KeyAuthorizeRemoteTxRequests,
   "if true, the station asks cpms to Authorize the tag of a remote start; cpms accepts only auth.default_id_tag");
  (KeyLocalAuthListEnabled,
   "if true, a whitelist held on the station can let tags charge without asking cpms");
  (KeyLocalPreAuthorize,
   "if true, the station starts at once for tags it knows locally, before cpms answers");
  (KeyLocalAuthorizeOffline,
   "if true, the station lets tags it knows locally charge while cpms is unreachable");
  (KeyNumberOfConnectors,
   "how many connectors the station has; checked against the EVSEs in config");
  (KeyHeartbeatInterval,
   "seconds between heartbeats; cpms sets it at boot from charger.heartbeat_interval");
  (KeyConnectionTimeOut,
   "seconds the station waits for a cable after a remote start or a presented tag");
  (KeyMeterValueSampleInterval,
   "seconds between meter values during a session; 0 means none are sent")].

Definition parseProfiles (value : string) : list string :=
  filter (fun p => p <> "") (TrimSpace <$> Split value ","%char).

(** One needed profile: what the advertised list says about it. *)
Definition needed_feature (advertised : list string) (n : string * list Capability) : Feature :=
  let reported := negb (bool_decide (advertised = [])) in
  let assumed := negb reported && bool_decide (n.1 = profileCore) in
  let support :=
    if reported then (if bool_decide (n.1 ∈ advertised) then SupportYes else SupportNo)
    else if assumed then SupportYes else SupportUnknown in
  mkFeature n.1 support n.2 assumed.

Definition features (value : string) : list Feature :=
  let advertised := parseProfiles value in
  (needed_feature advertised <$> neededProfiles) ++
  ((fun p => mkFeature p SupportYes [] false) <$> filter (fun p => p ∉ neededProfiles.*1) advertised).

(** [values[k.Key] = k.Value] over the reported keys. *)
Definition config_values (keys : list ConfigurationKey) : gmap string string :=
  foldl (fun m k => <[ck_Key k := ck_Value k]> m) ∅ keys.

Definition intValue (values : gmap string string) (key : string) : option Z :=
  v ← values !! key;
  n ← Atoi (TrimSpace v);
  if n <? 0 then None else Some n.

Definition probe_report (v : Ocpp.Version) (keys : list ConfigurationKey) : ProbeReport :=
  let values := config_values keys in
  mkProbeReport v
    (features (default "" (values !! KeySupportedFeatureProfiles)))
    ((fun s => mkSetting s.1 (default "" (values !! s.1)) (bool_decide (is_Some (values !! s.1))) s.2)
       <$> probedSettings)
    (intValue values KeyNumberOfConnectors)
    ((fun n => wrap_int (n * second)) <$> intValue values KeyHeartbeatInterval)
    ((fun k => mkRawSetting (ck_Key k) (ck_Value k) (ck_Readonly k)) <$> keys).

(** ** The 1.6 adapter *)

Section adapter.
Context `{Caller} `{JsonText} (cfg : Config).

Definition connectorID_of (evseUID : string) : Z + error :=
  match EVSEByUID cfg evseUID with
  | None => inr (EWrap "" (ESentinel ErrUnknownEVSE) (" " +:+ Quote evseUID))
  | Some e => inl (ev_OCPPConnectorID e)
  end.

Definition response_error (action : string) (raw : json) : error :=
  EWrap (action +:+ " response: ") (EText (unmarshal_error raw)) "".

(** [command]: send a request answered by a bare status. *)
Definition command (action : string) (req : json) : M (Result + error) :=
  answer <- Call action req ;;
  M_ret (match answer with
         | inr e => inr e
         | inl raw =>
           match Unmarshal StatusOnly_fields "" raw with
           | None => inr (response_error action raw)
           | Some status => inl (mkResult (MapCommandStatus action status) status)
           end
         end).

(** A command addressed to an EVSE's connector. *)
Definition on_connector (evseUID : string) (k : Z -> M (Result + error)) : M (Result + error) :=
  match connectorID_of evseUID with inr e => M_ret (inr e) | inl conn => k conn end.

Definition v16_ReserveNow (r : ReserveRequest) : M (Result + error) :=
  on_connector (rq_EVSEUID r) (fun conn =>
    command ActionReserveNow
      (ReserveNowReq conn (FormatRFC3339 (UTC (rq_ExpiresAt r))) (rq_IDTag r) (rq_ReservationID r))).

Definition v16_CancelReservation (reservationID : Z) : M (Result + error) :=
  command ActionCancelReservation (CancelReservationReq reservationID).

Definition v16_RemoteStart (r : RemoteStartRequest) : M (Result + error) :=
  on_connector (rs_EVSEUID r) (fun conn =>
    command ActionRemoteStartTransaction (RemoteStartTransactionReq conn (rs_IDTag r))).

Definition v16_RemoteStop (transactionID : string) : M (Result + error) :=
  match Atoi transactionID with
  | None => M_ret (inr (EText ("ocpp 1.6: transaction id " +:+ Quote transactionID +:+ " is not an integer")))
  | Some id => command ActionRemoteStopTransaction (RemoteStopTransactionReq id)
  end.

Definition v16_UnlockConnector (evseUID : string) : M (Result + error) :=
  on_connector evseUID (fun conn => command ActionUnlockConnector (UnlockConnectorReq conn)).

Definition v16_TriggerStatus (evseUID : string) : M (Result + error) :=
  on_connector evseUID (fun conn =>
    command ActionTriggerMessage (TriggerMessageReq ActionStatusNotification conn)).

Definition GetConfiguration (keys : list string) : M (GetConfigurationConf + error) :=
  answer <- Call ActionGetConfiguration (GetConfigurationReq keys) ;;
  M_ret (match answer with
         | inr e => inr e
         | inl raw =>
           match Unmarshal GetConfigurationConf_fields zero_GetConfigurationConf raw with
           | None => inr (response_error ActionGetConfiguration raw)
           | Some conf => inl conf
           end
         end).

(** The last value reported for the profiles key. *)
Definition reported_profiles (keys : list ConfigurationKey) : string :=
  foldl (fun value k => if bool_decide (ck_Key k = KeySupportedFeatureProfiles) then ck_Value k else value)
    "" keys.

Definition v16_Capabilities : M (Capabilities + error) :=
  conf <- GetConfiguration [KeySupportedFeatureProfiles] ;;
  M_ret (match conf with
         | inr e => inr e
         | inl conf =>
           let report := mkProbeReport caller_Version (features (reported_profiles (gc_ConfigurationKey conf)))
                           [] None None [] in
           inl (mkCapabilities (report_support report CapReservation)
                  (report_support report CapTriggerStatus))
         end).

Definition v16_Probe : M (ProbeReport + error) :=
  conf <- GetConfiguration [] ;;
  M_ret (match conf with
         | inr e => inr e
         | inl conf => inl (probe_report caller_Version (gc_ConfigurationKey conf))
         end).

(** [NewChargePoint]: the adapter is an [ocpp.ChargePoint]. *)
Definition NewChargePoint : ChargePoint := {|
  ID := caller_ID;
  cp_Version := caller_Version;
  ReserveNow := v16_ReserveNow;
  CancelReservation := v16_CancelReservation;
  RemoteStart := v16_RemoteStart;
  RemoteStop := v16_RemoteStop;
  UnlockConnector := v16_UnlockConnector;
  TriggerStatus := v16_TriggerStatus;
  CapabilitiesOf := v16_Capabilities;
  Probe := v16_Probe
|}.
End adapter.
