(* ===== verification/V16Props.v ===== *)
(** * What the OCPP 1.6 layer promises

    A station's message acts on the domain state only through core's operations
    on that station; a CALLERROR changes nothing; a session's transaction id
    works on the wire; statuses and answers are read as the specification
    defines them; and a command goes to the configured connector or nowhere. *)

From S2P Require Import Prelude GoLib GoTime Json Ocpp Errors Config State Bus World Core.
From S2P Require Import Persist Reservations Transactions Load CoreFacts CoreInv CoreOps.
From S2P Require Import CoreTx CoreReach Samples CoreEvents CoreCounters Restart CoreProps Acts.
From S2P Require Import V16Status V16Messages V16Handler V16ChargePoint.

(** ** A station's messages *)

(** What a message of one station may make core do. *)
Definition station_action (cpID : string) (a : action) : Prop :=
  match a with
  | ABooted id _ | ASeen id | AHeartbeat id | AStatus id _ _ _ | AMeterValues id _ _ | AStart id _
  | AStop id _ _ _ _ => id = cpID
  | ANextTransactionID | ANow => True
  | _ => False
  end.

Lemma station_no_begin cpID a : station_action cpID a -> no_begin a.
Proof. by destruct a. Qed.

Section handler.
Context `{MapOrder} `{Env} `{JsonText} (cfg : Config) (cpID : string).

Lemma acts_station {A} (m : M A) a : run a = discard m -> station_action cpID a -> acts_as (station_action cpID) m.
Proof. apply acts_op. Qed.

Lemma acts_unit (m : M unit) a : run a = m -> station_action cpID a -> acts_as (station_action cpID) m.
Proof. intros <-. apply acts_run. Qed.

Ltac acts_walk :=
  lazymatch goal with
  | |- acts_as _ (M_bind _ _) => apply acts_bind; [acts_walk | intros ?; acts_walk]
  | |- acts_as _ (M_ret _) => apply acts_ret
  | |- acts_as _ (match ?x with _ => _ end) => destruct x; acts_walk
  | |- acts_as _ now => by apply (acts_station now ANow)
  | |- acts_as _ NextTransactionID => by apply (acts_station _ ANextTransactionID)
  | |- acts_as _ (StartTransaction ?id ?t) => by apply (acts_station _ (AStart id t))
  | |- acts_as _ (StopTransaction ?id ?tx ?m ?r ?t) => by apply (acts_station _ (AStop id tx m r t))
  | |- acts_as _ (Booted ?id ?i) => by apply (acts_unit _ (ABooted id i))
  | |- acts_as _ (Seen ?id) => by apply (acts_unit _ (ASeen id))
  | |- acts_as _ (Heartbeat ?id) => by apply (acts_unit _ (AHeartbeat id))
  | |- acts_as _ (SetConnectorStatus ?id ?c ?s ?e) => by apply (acts_unit _ (AStatus id c s e))
  | |- acts_as _ (RecordMeterValues ?id ?c ?s) => by apply (acts_unit _ (AMeterValues id c s))
  end.

Lemma acts_HandleCall action payload : acts_as (station_action cpID) (HandleCall cfg cpID action payload).
Proof.
  unfold HandleCall, bootNotification, heartbeat, statusNotification, authorize, startTransaction,
    stopTransaction, meterValues, dataTransfer, statusOnly. cbv zeta. acts_walk.
Qed.

Lemma startTransaction_core_ok payload : keeps core_ok (startTransaction cfg cpID payload).
Proof.
  apply (acts_keeps core_ok (station_action cpID)).
  - intros a w Ha. by apply run_no_begin_ok, (station_no_begin cpID).
  - unfold startTransaction. acts_walk.
Qed.

(** ** What a station's message leaves alone *)

(** Since [w0], only the station's own record changed, and reservations only
    ended, and only the station's own. *)
Record own_changes (w0 w : World) : Prop := {
  own_cps : forall id, id <> cpID -> cps (svc w) !! id = cps (svc w0) !! id;
  own_ended : forall id r, reservations (svc w) !! id = Some r -> reservations (svc w0) !! id = Some r;
  own_kept : forall id r, reservations (svc w0) !! id = Some r -> rv_ChargePointID (res r) <> cpID ->
    reservations (svc w) !! id = Some r
}.

Lemma own_refl w : own_changes w w.
Proof. by split. Qed.

Lemma own_same w0 w w' :
  (forall id, id <> cpID -> cps (svc w') !! id = cps (svc w) !! id) ->
  reservations (svc w') = reservations (svc w) -> own_changes w0 w -> own_changes w0 w'.
Proof.
  intros Hc Hr [O1 O2 O3]. split; rewrite ?Hr; try done. intros id Hid. by rewrite Hc, O1.
Qed.

Lemma own_svc w0 f :
  (forall s, cps (f s) = cps s /\ reservations (f s) = reservations s) ->
  keeps (own_changes w0) (modify_svc f).
Proof.
  intros Hf w. destruct (Hf (svc w)) as [E1 E2]. apply own_same; cbn; [by rewrite E1 | done].
Qed.

Lemma own_now w0 : keeps (own_changes w0) now.
Proof. intros w. by apply own_same. Qed.
Lemma own_publish w0 es : keeps (own_changes w0) (publish_events es).
Proof. intros w. by apply own_same. Qed.
Lemma own_persist w0 : keeps (own_changes w0) persist.
Proof. intros w. destruct (persist_svc w) as [E _]. apply own_same; by rewrite E. Qed.
Lemma own_persistOrLog w0 : keeps (own_changes w0) persistOrLog.
Proof. apply keeps_bind; [apply own_persist | intros; apply keeps_ret]. Qed.

Lemma own_ensure w0 : keeps (own_changes w0) (ensure cpID).
Proof.
  intros w. rewrite ensure_eq. cbn [snd]. destruct (ensured_same cpID w) as (_ & E & _).
  apply own_same; [|done]. intros id Hid. by apply ensured_other.
Qed.

Lemma own_put_cp w0 cp : keeps (own_changes w0) (put_cp cpID cp).
Proof.
  intros w. rewrite put_cp_eq. apply own_same; [|done]. intros id Hid. cbn.
  by rewrite lookup_insert_ne.
Qed.

Lemma own_redeem w0 uid t : core_ok w0 -> keeps (own_changes w0) (redeem cpID uid t).
Proof.
  intros Hw0 w Ho. rewrite redeem_eq. destruct (redeem_target _ _ _ _) as [[r b]|] eqn:E; [|done].
  apply redeem_target_Some in E as (id & E & Hcp & _). destruct Ho as [O1 O2 O3].
  pose proof (re_id _ _ _ (rk_res w0 (proj2 Hw0) id r (O2 _ _ E))) as Hid.
  destruct (end_world_fields r w) as (F1 & _ & _ & F2 & _). split; cbn [snd].
  - intros k Hk. rewrite F2. by apply O1.
  - intros k r'. rewrite F1, Hid. intros [_ Ek]%lookup_delete_Some. by apply O2.
  - intros k r' Ek Hne. rewrite F1, Hid, lookup_delete_ne; [by apply O3|].
    intros ->. apply Hne. rewrite (O2 _ _ E) in Ek. congruence.
Qed.

Lemma own_action w0 a : core_ok w0 -> station_action cpID a -> keeps (own_changes w0) (run a).
Proof.
  intros Hw0 Ha.
  destruct a; try done; cbn in Ha; subst; unfold run, discard, Booted, Seen, Heartbeat,
    SetConnectorStatus, SetConnectorStatus_locked, RecordMeterValues, NextTransactionID,
    NextTransactionID_locked, StartTransaction, StartTransaction_locked, StopTransaction,
    StopTransaction_locked; cbv zeta;
    keeps_walk ltac:(by apply own_svc)
      ltac:(first [apply keeps_ret | apply keeps_gets | apply own_now | apply own_publish
                  | apply own_persistOrLog | apply own_ensure | apply own_put_cp
                  | by apply own_redeem]).
Qed.
End handler.

(** ** Refusals *)

(** A CALLERROR from this handler comes before it has done anything. *)
Definition refuses_first (m : M Response) : Prop :=
  forall w e, (m w).1 = inr e -> (m w).2 = w /\ Code e <> ErrNotImplemented.

Definition answers (m : M Response) : Prop := forall w, exists j, (m w).1 = inl j.

Lemma answers_ret j : answers (M_ret (inl j)).
Proof. intros w. by exists j. Qed.

Lemma answers_bind {A} (m : M A) f : (forall a, answers (f a)) -> answers (M_bind m f).
Proof. intros Hf w. rewrite M_bind_eq. apply Hf. Qed.

Lemma refuses_answers m : answers m -> refuses_first m.
Proof. intros Hm w e. destruct (Hm w) as [j ->]. done. Qed.

Section refusals.
Context `{JsonText}.

Lemma decode_valid_code {A} (fs : struct_fields A) zero validate payload e :
  decode_valid fs zero validate payload = inr e ->
  (forall x e, validate x = Some e -> Code e <> ErrNotImplemented) -> Code e <> ErrNotImplemented.
Proof.
  unfold decode_valid, decode. intros Hd Hv.
  destruct payload as [j|]; [destruct (Unmarshal fs zero j) as [v|]|].
  - destruct (validate v) as [e'|] eqn:E; [|done]. injection Hd as <-. by apply (Hv v).
  - by injection Hd as <-.
  - destruct (validate zero) as [e'|] eqn:E; [|done]. injection Hd as <-. by apply (Hv zero).
Qed.

Lemma refuses_decode {A} (fs : struct_fields A) zero validate payload (k : A -> M Response) :
  (forall x e, validate x = Some e -> Code e <> ErrNotImplemented) -> (forall x, answers (k x)) ->
  refuses_first (match decode_valid fs zero validate payload with
                 | inr e => M_ret (inr e) | inl req => k req end).
Proof.
  intros Hv Hk. destruct (decode_valid fs zero validate payload) as [req|e] eqn:E.
  - by apply refuses_answers.
  - intros w e' [= <-]. split; [done|]. by eapply decode_valid_code.
Qed.
End refusals.

Ltac answers_walk :=
  lazymatch goal with
  | |- answers (M_bind _ _) => apply answers_bind; intros ?; answers_walk
  | |- answers (M_ret _) => apply answers_ret
  | |- answers (if ?b then _ else _) => destruct b; answers_walk
  end.

Ltac validate_codes :=
  intros ? ?; unfold no_check, BootNotificationReq_validate, StatusNotificationReq_validate,
    AuthorizeReq_validate, StartTransactionReq_validate;
  repeat case_match; intros; simplify_eq; discriminate.

Section handler_props.
Context `{MapOrder} `{Env} `{JsonText}.

(** C19: whatever a station sends, the service goes through core's own
    operations, so it stays in a reachable state; no other charge point's
    record changes, no reservation begins, and only the station's own
    reservations can end. *)
Theorem HandleCall_own_station c st w cfg cpID action payload :
  started_from c st w -> has_ids w ->
  started_from c st (HandleCall cfg cpID action payload w).2 /\
  own_changes cpID w (HandleCall cfg cpID action payload w).2.
Proof.
  intros Hs Hid. pose proof (started_ok _ _ _ Hs) as Hw. destruct Hs as [Hf Hr]. split.
  - split; [done|]. apply acts_reachable; [|done|done].
    eapply acts_weaken; [apply station_no_begin | apply acts_HandleCall].
  - apply (acts_keeps (own_changes cpID w) (station_action cpID)); [|apply acts_HandleCall|apply own_refl].
    intros a w' Ha. by apply own_action.
Qed.

Lemma HandleCall_known cfg cpID action payload :
  action ∈ inbound_actions -> refuses_first (HandleCall cfg cpID action payload).
Proof.
  intros Hin. unfold HandleCall.
  repeat (case_bool_decide;
    [unfold bootNotification, heartbeat, statusNotification, authorize, startTransaction,
       stopTransaction, meterValues, dataTransfer, statusOnly; cbv zeta;
     first [apply refuses_decode; [validate_codes | intros; cbv beta zeta; try answers_walk]
           | apply refuses_answers; answers_walk] |]).
  exfalso. unfold inbound_actions in Hin. set_solver.
Qed.

Lemma HandleCall_unknown cfg cpID action payload :
  action ∉ inbound_actions ->
  HandleCall cfg cpID action payload =
  M_ret (inr (Errorf ErrNotImplemented ("action " +:+ Quote action +:+ " is not implemented"))).
Proof.
  intros Hin. unfold HandleCall, inbound_actions in *.
  rewrite !bool_decide_eq_false_2 by (try intros [Ha|Ha]; try intros Ha; apply Hin; rewrite Ha; set_solver).
  done.
Qed.

(** C34: a message answered with a CALLERROR has changed nothing at all, and
    NotImplemented is the answer to exactly the actions cpms does not know. *)
Theorem HandleCall_error cfg cpID action payload w e :
  (HandleCall cfg cpID action payload w).1 = inr e ->
  (HandleCall cfg cpID action payload w).2 = w /\
  (Code e = ErrNotImplemented <-> action ∉ inbound_actions).
Proof.
  intros He. destruct (decide (action ∈ inbound_actions)) as [Hin|Hin].
  - destruct (HandleCall_known cfg cpID action payload Hin w e He). split; [done|]. naive_solver.
  - rewrite HandleCall_unknown in He |- * by done. injection He as <-. done.
Qed.

(** *** Sessions *)

Lemma keeps_txid n cpID t :
  keeps (fun w => nextTransactionID (svc w) = n) (StartTransaction cpID t).
Proof.
  assert (Hsvc : forall f, (forall s, nextTransactionID (f s) = nextTransactionID s) ->
    keeps (fun w => nextTransactionID (svc w) = n) (modify_svc f)).
  { intros f Hf w Hw. cbn. by rewrite Hf. }
  assert (Hens : keeps (fun w => nextTransactionID (svc w) = n) (ensure cpID)).
  { intros w Hw. rewrite ensure_eq. unfold ensured. by destruct (cps (svc w) !! cpID). }
  assert (Hend : forall r s, keeps (fun w => nextTransactionID (svc w) = n) (endLocked r s)).
  { intros r s w Hw. rewrite endLocked_eq. unfold end_world, stop_world. by destruct (timer r). }
  assert (Hper : keeps (fun w => nextTransactionID (svc w) = n) persistOrLog).
  { intros w Hw. by destruct (persistOrLog_svc w) as [-> _]. }
  unfold StartTransaction, StartTransaction_locked, redeem, put_cp. cbv zeta.
  keeps_walk ltac:(by apply Hsvc)
    ltac:(first [apply keeps_ret | apply keeps_gets | exact Hper | exact Hens | apply Hend | by intros w]).
Qed.

Lemma NextTransactionID_eq w :
  exists w', NextTransactionID w = (nextTransactionID (svc w), w') /\
    svc w' = set_nextTransactionID (wrap_int (nextTransactionID (svc w) + 1)) (svc w) /\ w_bus w' = w_bus w.
Proof.
  unfold NextTransactionID, NextTransactionID_locked. rewrite M_bind_eq, M_bind_eq. cbn [fst snd gets].
  rewrite M_bind_eq. cbn [fst snd modify_svc modify M_ret]. rewrite M_bind_eq.
  eexists. split; [reflexivity|]. cbn [fst snd M_ret].
  match goal with |- context [persistOrLog ?v] => by destruct (persistOrLog_svc v) as [-> ->] end.
Qed.

(** What the answer to a StartTransaction means in core. *)
Definition Session_contract (cfg : Config) (cpID : string) (payload : option json) (w : World) : Prop :=
  let (out, w') := startTransaction cfg cpID payload w in
  match decode_valid StartTransactionReq_fields zero_StartTransactionReq StartTransactionReq_validate payload with
  | inr e => out = inr e /\ w' = w
  | inl req =>
    if knownTag cfg (sq_IDTag req) then
      let n := nextTransactionID (svc w) in
      out = inl (StartTransactionConf n AuthAccepted) /\ nextTransactionID (svc w') = wrap_int (n + 1) /\
      exists tx, tx_of cpID (Itoa n) (svc w') = Some tx /\ Active tx = true /\
        tx_EVSEUID tx = evseUID (World.cfg (svc w)) cpID (sq_ConnectorID req)
    else
      out = inl (StartTransactionConf 0 AuthInvalid) /\
      reservations (svc w') = reservations (svc w) /\ w_bus w' = w_bus w /\
      forall id tid, tx_of id tid (svc w') = tx_of id tid (svc w)
  end.

Lemma startTransaction_contract cfg cpID payload w : Session_contract cfg cpID payload w.
Proof.
  unfold Session_contract, startTransaction.
  destruct (decode_valid _ _ _ _) as [req|e]; [|done]. destruct (knownTag _ _); cbn [negb].
  - rewrite M_bind_eq. destruct (NextTransactionID_eq w) as (w1 & -> & Es & Eb). cbn [fst snd].
    rewrite M_bind_eq. cbn [fst snd now]. rewrite M_bind_eq.
    set (t := transaction_start _ _ _).
    pose proof (StartTransaction_world cpID t (tick w1)) as Hst. cbn zeta in Hst.
    pose proof (keeps_txid (wrap_int (nextTransactionID (svc w) + 1)) cpID t (tick w1)) as Hn.
    destruct (StartTransaction cpID t (tick w1)) as [tx w2]. cbn [fst snd M_ret] in *.
    destruct Hst as (H1' & H2' & H3' & _). split; [done|]. split; [apply Hn; cbn; by rewrite Es|].
    exists tx. split; [exact H1'|]. split; [done|]. rewrite H2'. cbn. by rewrite Es.
  - rewrite M_bind_eq. cbn [fst snd M_ret]. split; [done|].
    unfold Seen. rewrite M_bind_eq, M_bind_eq, ensure_eq. cbn [fst snd now].
    rewrite put_cp_ensured. cbn [snd].
    split; [done|]. split; [done|]. intros id tid. unfold tx_of, with_cp. cbn.
    destruct (decide (id = cpID)) as [->|Hne].
    + rewrite lookup_insert_eq. cbn. by destruct (cps (svc w) !! cpID) eqn:Ec; unfold cp_of; rewrite Ec.
    + by rewrite lookup_insert_ne.
Qed.

(** The answer to a StartTransaction.  A known tag gets the next
    transaction id, and under that number core now runs a transaction on the
    reported connector; an unknown tag gets id 0 and Invalid, and starts,
    redeems, ends and announces nothing. *)
Theorem startTransaction_outcomes cfg cpID payload w : Session_contract cfg cpID payload w.
Proof. exact (startTransaction_contract cfg cpID payload w). Qed.

(** A station's StopTransaction message. *)
Definition stop_payload (n meterStop : Z) (timestamp reason : string) : json :=
  JObj [("transactionId", JInt n); ("meterStop", JInt meterStop); ("timestamp", JStr timestamp);
        ("reason", JStr reason)].

Lemma decode_stop n meterStop timestamp reason :
  int_ok n -> int_ok meterStop ->
  decode_valid StopTransactionReq_fields zero_StopTransactionReq no_check
    (Some (stop_payload n meterStop timestamp reason)) =
  inl (mkStopTransactionReq n meterStop timestamp "" reason).
Proof.
  intros Hn Hm. lazy -[Atoi Itoa unmarshal_error]. rewrite Atoi_Itoa by done.
  rewrite Atoi_Itoa by done. reflexivity.
Qed.

(** A transaction id survives the wire in both directions.  core keeps
    the id as a decimal string: a RemoteStop for it puts the number itself in
    the request, and the station's StopTransaction with that number stops the
    very transaction. *)
Theorem transaction_id_roundtrip `{Caller} cpID n tx meterStop timestamp reason w :
  core_ok w -> (forall i, IsZero (clock i) = false) -> int_ok n -> int_ok meterStop ->
  tx_of cpID (Itoa n) (svc w) = Some tx -> Active tx = true ->
  v16_RemoteStop (Itoa n) = command ActionRemoteStopTransaction (RemoteStopTransactionReq n) /\
  (stopTransaction cpID (Some (stop_payload n meterStop timestamp reason)) w).1 = inl StopTransactionConf /\
  exists at_, tx_of cpID (Itoa n)
      (svc (stopTransaction cpID (Some (stop_payload n meterStop timestamp reason)) w).2) =
    Some (stopped tx at_ meterStop reason) /\ Active (stopped tx at_ meterStop reason) = false.
Proof.
  intros Hw Hclk Hn Hm Htx Ha. split; [unfold v16_RemoteStop; by rewrite Atoi_Itoa|].
  unfold stopTransaction. rewrite decode_stop by done. rewrite M_bind_eq. cbn [fst snd now].
  cbn [pq_TransactionID pq_MeterStop pq_Reason pq_Timestamp]. rewrite M_bind_eq.
  destruct (StopTransaction_running cpID (Itoa n) meterStop reason (parseTime timestamp (clock (ticks w)))
              (tick w) tx) as (t0 & w' & -> & Hz & _ & _ & E & _); [by apply keeps_now_core|done..|].
  split; [done|]. by exists t0.
Qed.
End handler_props.

(** ** Reading a station's answers *)

Lemma MapCommandStatus_listed action status s :
  MapCommandStatus action status = s -> s <> CommandUnknown ->
  exists m, (action, m) ∈ commandStatusMap /\ (status, s) ∈ m.
Proof.
  unfold MapCommandStatus. destruct (assoc commandStatusMap action) as [m|] eqn:Em; [|congruence].
  destruct (assoc m status) as [s'|] eqn:Es; [|congruence]. intros <- _. exists m.
  split; by apply assoc_Some_in.
Qed.

(** Every entry of a list literal that fits. *)
Ltac listed_cases :=
  repeat match goal with
  | Hin : _ ∈ _ :: _ |- _ => apply elem_of_cons in Hin as [Hin|Hin]; [simplify_eq|]
  | Hin : _ ∈ [] |- _ => by apply not_elem_of_nil in Hin
  end.

(** A command counts as accepted only if the station answered with the
    one status the specification gives for success of that command: Unlocked
    for UnlockConnector, Accepted for every other one. *)
Theorem accepted_iff_said action status :
  (MapCommandStatus action status = CommandAccepted <->
     status = "Accepted" /\
     action ∈ [ActionReserveNow; ActionCancelReservation; ActionRemoteStartTransaction;
               ActionRemoteStopTransaction; ActionTriggerMessage]) /\
  (MapCommandStatus action status = CommandUnlocked <->
     status = "Unlocked" /\ action = ActionUnlockConnector).
Proof.
  split; split.
  - intros (m & Hm & Hs)%MapCommandStatus_listed; [|done]. unfold commandStatusMap in Hm. listed_cases; split; try done; set_solver.
  - intros [-> Hin]. repeat (apply elem_of_cons in Hin as [->|Hin]; [done|]). by apply not_elem_of_nil in Hin.
  - intros (m & Hm & Hs)%MapCommandStatus_listed; [|done]. unfold commandStatusMap in Hm. by listed_cases.
  - by intros [-> ->].
Qed.

(** What a station's feature profiles say about a capability. *)
Definition profile_of (c : Capability) : string :=
  match c with
  | CapRemoteStartStop | CapUnlock => profileCore
  | CapReservation => profileReservation
  | CapTriggerStatus => profileRemoteTrigger
  end.

(** Profiles beyond the needed ones grant nothing. *)
Lemma granted_features c ok fs (l : list string) :
  granted_with c ok (fs ++ ((fun p => mkFeature p SupportYes [] false) <$> l)) = granted_with c ok fs.
Proof.
  unfold granted_with. rewrite existsb_app.
  assert (E : existsb (fun f => grants c f && ok (FeatureSupport f))
            ((fun p => mkFeature p SupportYes [] false) <$> l) = false) by (by induction l).
  by rewrite E, orb_false_r.
Qed.

(** A capability is reported as supported exactly when the station
    advertises its profile, or advertises none and the profile is Core, which
    1.6 makes mandatory; as unsupported exactly when the station advertises
    profiles without it; and as unknown when it advertises none. *)
Lemma support_by_profile v keys c :
  report_support (probe_report v keys) c =
  match parseProfiles (default "" (config_values keys !! KeySupportedFeatureProfiles)) with
  | [] => if bool_decide (profile_of c = profileCore) then SupportYes else SupportUnknown
  | profiles => if bool_decide (profile_of c ∈ profiles) then SupportYes else SupportNo
  end.
Proof.
  unfold report_support, probe_report. cbn [Features].
  set (profiles := parseProfiles _). unfold features. fold profiles. clearbody profiles.
  rewrite report_support_fold, !granted_features. unfold granted_with, neededProfiles, needed_feature.
  destruct profiles as [|p l].
  - by destruct c.
  - rewrite (bool_decide_eq_false_2 (p :: l = [])) by done. cbn [negb].
    destruct c; unfold profile_of; cbn -[elem_of];
      repeat match goal with |- context [bool_decide (?x ∈ p :: l)] =>
        destruct (bool_decide (x ∈ p :: l)) end; reflexivity.
Qed.

(** ** Instances: messages of the station of Samples.v *)

#[local] Existing Instance key_order.
#[local] Existing Instance sample_env.

Definition sample_json_text : JsonText := {| unmarshal_error := fun _ => "invalid payload" |}.
#[local] Existing Instance sample_json_text.

Definition start_payload (conn : Z) (tag : string) : json :=
  JObj [("connectorId", JInt conn); ("idTag", JStr tag); ("meterStart", JInt 100);
        ("timestamp", JStr "2026-01-01T10:00:00Z")].

Definition sample_session : World :=
  (startTransaction sample_config "CP1" (Some (start_payload 1 "office")) sample_world).2.

Lemma HandleCall_own_station_witness :
  own_changes "CP1" sample_world
    (HandleCall sample_config "CP1" ActionStartTransaction (Some (start_payload 1 "office")) sample_world).2.
Proof.
  apply (HandleCall_own_station (Some sample_config) (Some sample_store) sample_world sample_config "CP1"
           ActionStartTransaction (Some (start_payload 1 "office")) sample_started).
  vm_compute. reflexivity.
Defined.

Definition bad_status : json := JObj [("connectorId", JInt 1); ("status", JStr "Exploded")].

Lemma HandleCall_error_witness :
  (HandleCall sample_config "CP1" ActionStatusNotification (Some bad_status) sample_world).2 = sample_world /\
  (Code (badValue "status" "Exploded") = ErrNotImplemented <-> ActionStatusNotification ∉ inbound_actions).
Proof.
  apply (HandleCall_error sample_config "CP1" ActionStatusNotification (Some bad_status) sample_world
           (badValue "status" "Exploded")).
  vm_compute. reflexivity.
Defined.

Definition sample_caller : Caller := {|
  caller_ID := "CP1";
  caller_Version := Version16;
  Call := fun action req => M_ret (inl (JObj [("status", JStr "Accepted")]))
|}.
#[local] Existing Instance sample_caller.

Definition sample_tx : Transaction :=
  default (mkTransaction "" "" 0 "" 0 zeroTime 0 zeroTime 0 "" 0) (tx_of "CP1" "1" (svc sample_session)).

Lemma sample_session_ok : core_ok sample_session.
Proof. apply (startTransaction_core_ok sample_config "CP1" (Some (start_payload 1 "office"))), sample_core_ok. Defined.

Lemma transaction_id_roundtrip_witness :
  exists at_, tx_of "CP1" "1"
      (svc (stopTransaction "CP1" (Some (stop_payload 1 250 "2026-01-01T11:00:00Z" "Local")) sample_session).2) =
    Some (stopped sample_tx at_ 250 "Local") /\ Active (stopped sample_tx at_ 250 "Local") = false.
Proof.
  apply (transaction_id_roundtrip "CP1" 1 sample_tx 250 "2026-01-01T11:00:00Z" "Local" sample_session
           sample_session_ok sample_clock); vm_compute; try done; reflexivity.
Defined.

(** The same messages, evaluated. *)
Example sample_messages :
  (HandleCall sample_config "CP1" ActionStartTransaction (Some (start_payload 1 "office")) sample_world).1 =
    inl (StartTransactionConf 1 AuthAccepted) /\
  (HandleCall sample_config "CP1" ActionStartTransaction (Some (start_payload 1 "thief")) sample_world).1 =
    inl (StartTransactionConf 0 AuthInvalid) /\
  (HandleCall sample_config "CP1" "Reset" None sample_world).1 =
    inr (Errorf ErrNotImplemented ("action " +:+ Quote "Reset" +:+ " is not implemented")) /\
  MapStatus "SuspendedEV" = StatusCharging /\ MapStatus "Exploded" = StatusUnknown /\
  map FeatureSupport (features "Core, Reservation,Vendor") = [SupportYes; SupportYes; SupportNo; SupportYes].
Proof. vm_compute. repeat split. Qed.
