(* ===== verification/Simulator.v ===== *)
(** * The simulated station (simulator/simulator.go, simulator/handlers.go)

    A charge point with its connectors' states.  [HandleCall] answers a command
    and gives the side effects it starts in the background ([after]); each side
    effect is an action of [SimM], which threads the station's state through the
    world of the central system it calls ([Caller], the connection).  One locked
    section or one call per step; a run of [SimM] is one goroutine's, from start to
    end.  The pause before a side effect is not modelled; SimulatorRun.v has the
    dial and the heartbeats. *)

From S2P Require Import Prelude GoLib GoTime Json Ocpp Errors Bus World.
From S2P Require Import V16Status V16Messages V16Handler V16ChargePoint.

(** ** Options *)

Definition ScenarioNormal : string := "normal".
Definition ScenarioRejectReserve : string := "reject-reserve".
Definition ScenarioOccupied : string := "occupied".
Definition ScenarioSlow : string := "slow".
Definition ScenarioUnlockFails : string := "unlock-fails".
Definition ScenarioSilent : string := "silent".

Definition Scenarios : list string :=
  [ScenarioNormal; ScenarioRejectReserve; ScenarioOccupied; ScenarioSlow; ScenarioUnlockFails; ScenarioSilent].

Definition Valid (s : string) : bool := existsb (fun known => bool_decide (s = known)) Scenarios.

Definition defaultSlowDelay : Z := 45 * second.
Definition fallbackHeartbeat : Z := 60 * second.

(** An OCPP version as a string, as the flags give it. *)
Record Options := mkOptions {
  op_URL : string;
  op_ID : string;
  op_Version : string;
  op_Connectors : Z;
  op_Vendor : string;
  op_Model : string;
  op_Firmware : string;
  op_SerialNumber : string;
  op_IDTag : string;
  op_Scenario : string;
  op_SlowDelay : Z;
  op_UnreportedKeys : list string;
  op_FeatureProfiles : string
}.

Definition non_empty (s d : string) : string := if bool_decide (s = "") then d else s.

Definition Options_applyDefaults (o : Options) : Options :=
  mkOptions (op_URL o) (op_ID o)
    (non_empty (op_Version o) (version_string Version16))
    (if op_Connectors o <=? 0 then 1 else op_Connectors o)
    (non_empty (op_Vendor o) "Alpitronic")
    (non_empty (op_Model o) "HYC300")
    (non_empty (op_Firmware o) "simulator")
    (op_SerialNumber o) (op_IDTag o)
    (non_empty (op_Scenario o) ScenarioNormal)
    (if op_SlowDelay o <=? 0 then defaultSlowDelay else op_SlowDelay o)
    (op_UnreportedKeys o) (op_FeatureProfiles o).

Definition Options_validate (o : Options) : option error :=
  if bool_decide (op_URL o = "") then Some (EText "simulator: URL is required")
  else if bool_decide (op_ID o = "") then Some (EText "simulator: ID is required")
  else if negb (bool_decide (op_Version o = version_string Version16)) then
    Some (EText ("simulator: OCPP " +:+ op_Version o +:+ " is not implemented"))
  else if negb (Valid (op_Scenario o)) then
    Some (EText ("simulator: unknown scenario " +:+ Quote (op_Scenario o)))
  else None.

(** ** The station's state *)

Record connector := mkSimConnector { sc_status : string; sc_transactionID : Z; sc_reservationID : Z; sc_meter : Z }.

Record Sim := mkSim { opts : Options; sim_station : string; connectors : gmap Z connector; sim_heartbeat : Z }.

Definition set_connectors (m : gmap Z connector) (s : Sim) : Sim :=
  mkSim (opts s) (sim_station s) m (sim_heartbeat s).
Definition set_station_status (st : string) (s : Sim) : Sim :=
  mkSim (opts s) st (connectors s) (sim_heartbeat s).
Definition set_heartbeat (d : Z) (s : Sim) : Sim :=
  mkSim (opts s) (sim_station s) (connectors s) d.
Definition put_connector (i : Z) (c : connector) (s : Sim) : Sim :=
  set_connectors (<[i := c]> (connectors s)) s.

Definition with_status (st : string) (c : connector) : connector :=
  mkSimConnector st (sc_transactionID c) (sc_reservationID c) (sc_meter c).
Definition with_reservation (r : Z) (c : connector) : connector :=
  mkSimConnector (sc_status c) (sc_transactionID c) r (sc_meter c).
Definition with_transaction (t : Z) (c : connector) : connector :=
  mkSimConnector (sc_status c) t (sc_reservationID c) (sc_meter c).
Definition with_meter (m : Z) (c : connector) : connector :=
  mkSimConnector (sc_status c) (sc_transactionID c) (sc_reservationID c) m.

(** The connector numbers, 1 to [n]. *)
Definition numbers (n : Z) : list Z := Z.of_nat <$> seq 1 (Z.to_nat n).

Definition idle_connector : connector := mkSimConnector "Available" 0 0 0.

(** [New]: the options' error, or the station at rest. *)
Definition New (o : Options) : Sim + error :=
  let o := Options_applyDefaults o in
  match Options_validate o with
  | Some e => inr e
  | None =>
    inl (mkSim o "Available" (list_to_map ((fun i => (i, idle_connector)) <$> numbers (op_Connectors o)))
           fallbackHeartbeat)
  end.

Definition ConnectorStatus (i : Z) (s : Sim) : string :=
  match connectors s !! i with Some c => sc_status c | None => "" end.
Definition TransactionID (i : Z) (s : Sim) : Z :=
  match connectors s !! i with Some c => sc_transactionID c | None => 0 end.
Definition ReservationID (i : Z) (s : Sim) : Z :=
  match connectors s !! i with Some c => sc_reservationID c | None => 0 end.

(** The lowest-numbered idle connector. *)
Definition firstFreeConnector (s : Sim) : option Z :=
  first_such (fun i => match connectors s !! i with Some c => sc_transactionID c =? 0 | None => false end)
    (numbers (op_Connectors (opts s))).

(** ** The messages, as the station reads and writes them *)

Record ReserveNowMsg := mkReserveNowMsg {
  rn_ConnectorID : Z; rn_ExpiryDate : string; rn_IDTag : string; rn_ParentIDTag : string; rn_ReservationID : Z }.

Definition zero_ReserveNowMsg : ReserveNowMsg := mkReserveNowMsg 0 "" "" "" 0.

Definition ReserveNow_fields : struct_fields ReserveNowMsg := [
  ("connectorId", at_field rn_ConnectorID (fun v r => mkReserveNowMsg v (rn_ExpiryDate r) (rn_IDTag r) (rn_ParentIDTag r) (rn_ReservationID r)) dec_int);
  ("expiryDate", at_field rn_ExpiryDate (fun v r => mkReserveNowMsg (rn_ConnectorID r) v (rn_IDTag r) (rn_ParentIDTag r) (rn_ReservationID r)) dec_string);
  ("idTag", at_field rn_IDTag (fun v r => mkReserveNowMsg (rn_ConnectorID r) (rn_ExpiryDate r) v (rn_ParentIDTag r) (rn_ReservationID r)) dec_string);
  ("parentIdTag", at_field rn_ParentIDTag (fun v r => mkReserveNowMsg (rn_ConnectorID r) (rn_ExpiryDate r) (rn_IDTag r) v (rn_ReservationID r)) dec_string);
  ("reservationId", at_field rn_ReservationID (fun v r => mkReserveNowMsg (rn_ConnectorID r) (rn_ExpiryDate r) (rn_IDTag r) (rn_ParentIDTag r) v) dec_int)].

Definition CancelReservation_fields : struct_fields Z := [("reservationId", dec_int)].

Record RemoteStartMsg := mkRemoteStartMsg { rm_ConnectorID : option Z; rm_IDTag : string }.

Definition RemoteStart_fields : struct_fields RemoteStartMsg := [
  ("connectorId", at_field rm_ConnectorID (fun v r => mkRemoteStartMsg v (rm_IDTag r)) (dec_ptr dec_int 0));
  ("idTag", at_field rm_IDTag (fun v r => mkRemoteStartMsg (rm_ConnectorID r) v) dec_string)].

Definition RemoteStop_fields : struct_fields Z := [("transactionId", dec_int)].
Definition UnlockConnector_fields : struct_fields Z := [("connectorId", dec_int)].

Record TriggerMessageMsg := mkTriggerMessageMsg { tm_RequestedMessage : string; tm_ConnectorID : option Z }.

Definition TriggerMessage_fields : struct_fields TriggerMessageMsg := [
  ("requestedMessage", at_field tm_RequestedMessage (fun v r => mkTriggerMessageMsg v (tm_ConnectorID r)) dec_string);
  ("connectorId", at_field tm_ConnectorID (fun v r => mkTriggerMessageMsg (tm_RequestedMessage r) v) (dec_ptr dec_int 0))].

Definition GetConfiguration_fields : struct_fields (list string) := [("key", dec_slice dec_string "")].

Record ChangeAvailabilityMsg := mkChangeAvailabilityMsg { ca_ConnectorID : Z; ca_Type : string }.

Definition ChangeAvailability_fields : struct_fields ChangeAvailabilityMsg := [
  ("connectorId", at_field ca_ConnectorID (fun v r => mkChangeAvailabilityMsg v (ca_Type r)) dec_int);
  ("type", at_field ca_Type (fun v r => mkChangeAvailabilityMsg (ca_ConnectorID r) v) dec_string)].

Definition ActionChangeAvailability : string := "ChangeAvailability".
Definition ActionReset : string := "Reset".

(** Every confirmation but GetConfiguration's is a status. *)
Definition status_conf (status : string) : json := JObj [("status", JStr status)].

Definition ConfigurationKey_json (k : ConfigurationKey) : json :=
  JObj ([("key", JStr (ck_Key k)); ("readonly", JBool (ck_Readonly k))] ++ omit_empty "value" (ck_Value k)).

Definition GetConfigurationConf_json (c : GetConfigurationConf) : json :=
  JObj ((match gc_ConfigurationKey c with [] => [] | l => [("configurationKey", JArr (ConfigurationKey_json <$> l))] end) ++
        (match gc_UnknownKey c with [] => [] | l => [("unknownKey", JArr (JStr <$> l))] end)).

Definition BootNotificationReq_json (o : Options) : json :=
  JObj ([("chargePointVendor", JStr (op_Vendor o)); ("chargePointModel", JStr (op_Model o))] ++
        omit_empty "chargePointSerialNumber" (op_SerialNumber o) ++ omit_empty "firmwareVersion" (op_Firmware o)).

Definition StatusNotificationReq_json (conn : Z) (status timestamp : string) : json :=
  JObj ([("connectorId", JInt conn); ("errorCode", JStr "NoError"); ("status", JStr status)] ++
        omit_empty "timestamp" timestamp).

Definition StartTransactionReq_json (conn : Z) (idTag : string) (meterStart : Z) (timestamp : string) : json :=
  JObj [("connectorId", JInt conn); ("idTag", JStr idTag); ("meterStart", JInt meterStart);
        ("timestamp", JStr timestamp)].

Definition StopTransactionReq_json (tx meterStop : Z) (timestamp reason : string) : json :=
  JObj ([("transactionId", JInt tx); ("meterStop", JInt meterStop); ("timestamp", JStr timestamp)] ++
        omit_empty "reason" reason).

(** What the station reads of the central system's answers. *)
Record BootConf := mkBootConf { bc_Status : string; bc_CurrentTime : string; bc_Interval : Z }.

Definition BootConf_fields : struct_fields BootConf := [
  ("status", at_field bc_Status (fun v r => mkBootConf v (bc_CurrentTime r) (bc_Interval r)) dec_string);
  ("currentTime", at_field bc_CurrentTime (fun v r => mkBootConf (bc_Status r) v (bc_Interval r)) dec_string);
  ("interval", at_field bc_Interval (fun v r => mkBootConf (bc_Status r) (bc_CurrentTime r) v) dec_int)].

Record IDTagInfoMsg := mkIDTagInfoMsg { it_Status : string; it_ExpiryDate : string; it_ParentIDTag : string }.

Definition IDTagInfo_fields : struct_fields IDTagInfoMsg := [
  ("status", at_field it_Status (fun v r => mkIDTagInfoMsg v (it_ExpiryDate r) (it_ParentIDTag r)) dec_string);
  ("expiryDate", at_field it_ExpiryDate (fun v r => mkIDTagInfoMsg (it_Status r) v (it_ParentIDTag r)) dec_string);
  ("parentIdTag", at_field it_ParentIDTag (fun v r => mkIDTagInfoMsg (it_Status r) (it_ExpiryDate r) v) dec_string)].

Record StartConf := mkStartConf { sf_TransactionID : Z; sf_IDTagInfo : IDTagInfoMsg }.

Definition StartConf_fields : struct_fields StartConf := [
  ("transactionId", at_field sf_TransactionID (fun v r => mkStartConf v (sf_IDTagInfo r)) dec_int);
  ("idTagInfo", at_field sf_IDTagInfo (fun v r => mkStartConf (sf_TransactionID r) v) (dec_struct IDTagInfo_fields))].

(** ** Answering commands *)

(** A side effect, run in the background after the answer has gone out. *)
Inductive Task :=
| TaskSendStatus (connectorID : Z) (status : string)
| TaskStart (connectorID : Z) (idTag : string)
| TaskStop (connectorID : Z) (reason : string)
| TaskBoot
| TaskHeartbeat
| TaskSetStatus (connectorID : Z) (status : string).

(** The answer, the state it leaves, and what it started. *)
Definition Handled : Type := Response * Sim * list Task.

Section commands.
Context `{MapOrder} `{JsonText}.

(** [decodeCommand], and the handler's use of it. *)
Definition decoded {A} (fs : struct_fields A) (zero : A) (payload : option json) (s : Sim)
    (k : A -> Handled) : Handled :=
  match decode fs zero payload with inr e => (inr e, s, []) | inl req => k req end.

Definition answer (status : string) (s : Sim) (tasks : list Task) : Handled :=
  (inl (status_conf status), s, tasks).

Definition reserveNow (payload : option json) (s : Sim) : Handled :=
  decoded ReserveNow_fields zero_ReserveNowMsg payload s (fun req =>
    let scenario := op_Scenario (opts s) in
    if bool_decide (scenario = ScenarioRejectReserve) then answer v16_ReservationRejected s []
    else if bool_decide (scenario = ScenarioOccupied) then answer v16_ReservationOccupied s []
    else match connectors s !! rn_ConnectorID req with
    | None => answer v16_ReservationRejected s []
    | Some c =>
      if negb (sc_transactionID c =? 0) || bool_decide (sc_status c = "Charging") ||
         bool_decide (sc_status c = "Preparing") then answer v16_ReservationOccupied s []
      else if bool_decide (sc_status c = "Faulted") || bool_decide (sc_status c = "Unavailable") then
        answer (if bool_decide (sc_status c = "Unavailable") then v16_ReservationUnavailable else v16_ReservationFaulted) s []
      else
        answer v16_ReservationAccepted
          (put_connector (rn_ConnectorID req) (with_status "Reserved" (with_reservation (rn_ReservationID req) c)) s)
          [TaskSendStatus (rn_ConnectorID req) "Reserved"]
    end).

(** [for id, c := range s.connectors { if p(c) { target = id; break } }]; 0 is
    none. *)
Definition find_connector (p : connector -> bool) (s : Sim) : Z :=
  match first_such (fun ic => p ic.2) (range (connectors s)) with Some ic => ic.1 | None => 0 end.

Definition cancelReservation (payload : option json) (s : Sim) : Handled :=
  decoded CancelReservation_fields 0 payload s (fun id =>
    let target := find_connector (fun c => sc_reservationID c =? id) s in
    if target =? 0 then answer CmdRejected s []
    else match connectors s !! target with
    | None => answer CmdRejected s []
    | Some c =>
      answer CmdAccepted (put_connector target (with_status "Available" (with_reservation 0 c)) s)
        [TaskSendStatus target "Available"]
    end).

Definition remoteStart (payload : option json) (s : Sim) : Handled :=
  decoded RemoteStart_fields (mkRemoteStartMsg None "") payload s (fun req =>
    let connectorID :=
      match rm_ConnectorID req with
      | Some id => id
      | None => match firstFreeConnector s with Some id => id | None => 1 end
      end in
    match connectors s !! connectorID with
    | None => answer CmdRejected s []
    | Some c =>
      if negb (sc_transactionID c =? 0) then answer CmdRejected s []
      else answer CmdAccepted s [TaskStart connectorID (rm_IDTag req)]
    end).

Definition remoteStop (payload : option json) (s : Sim) : Handled :=
  decoded RemoteStop_fields 0 payload s (fun tx =>
    let target := find_connector (fun c => (sc_transactionID c =? tx) && negb (sc_transactionID c =? 0)) s in
    if target =? 0 then answer CmdRejected s []
    else answer CmdAccepted s [TaskStop target "Remote"]).

Definition unlockConnector (payload : option json) (s : Sim) : Handled :=
  decoded UnlockConnector_fields 0 payload s (fun conn =>
    if bool_decide (op_Scenario (opts s) = ScenarioUnlockFails) then answer UnlockFailed s []
    else match connectors s !! conn with
    | None => answer UnlockFailed s []
    | Some _ => answer UnlockUnlocked s []
    end).

Definition triggerMessage (payload : option json) (s : Sim) : Handled :=
  decoded TriggerMessage_fields (mkTriggerMessageMsg "" None) payload s (fun req =>
    let conn := default 0 (tm_ConnectorID req) in
    if bool_decide (tm_RequestedMessage req = ActionBootNotification) then answer TriggerAccepted s [TaskBoot]
    else if bool_decide (tm_RequestedMessage req = ActionHeartbeat) then answer TriggerAccepted s [TaskHeartbeat]
    else if bool_decide (tm_RequestedMessage req = ActionStatusNotification) then
      answer TriggerAccepted s [TaskSendStatus conn (if 0 <? conn then ConnectorStatus conn s else sim_station s)]
    else answer TriggerNotImplemented s []).

(** The keys the station knows, less the unreported ones. *)
Definition known_keys (s : Sim) : list ConfigurationKey :=
  let profiles := "Core,FirmwareManagement,RemoteTrigger,Reservation" in
  let profiles := if bool_decide (op_Scenario (opts s) = ScenarioRejectReserve)
                  then "Core,FirmwareManagement,RemoteTrigger" else profiles in
  let profiles := non_empty (op_FeatureProfiles (opts s)) profiles in
  filter (fun k => ck_Key k ∉ op_UnreportedKeys (opts s)) [
    mkConfigurationKey KeySupportedFeatureProfiles true profiles;
    mkConfigurationKey KeyNumberOfConnectors true (Itoa (op_Connectors (opts s)));
    mkConfigurationKey KeyHeartbeatInterval false (Itoa (sim_heartbeat s ÷ second));
    mkConfigurationKey KeyConnectionTimeOut false "60";
    mkConfigurationKey KeyMeterValueSampleInterval false "0";
    mkConfigurationKey KeyAuthorizeRemoteTxRequests false "false";
    mkConfigurationKey KeyLocalAuthListEnabled false "false";
    mkConfigurationKey KeyLocalPreAuthorize false "false";
    mkConfigurationKey KeyLocalAuthorizeOffline false "false";
    mkConfigurationKey KeyReserveConnectorZeroSupported true "false"].

(** The answer to a request for some keys: each is reported or unknown. *)
Definition look_up_keys (all : list ConfigurationKey) (wanted : list string) : GetConfigurationConf :=
  foldl (fun conf want =>
    match first_such (fun k => bool_decide (ck_Key k = want)) all with
    | Some k => mkGetConfigurationConf (gc_ConfigurationKey conf ++ [k]) (gc_UnknownKey conf)
    | None => mkGetConfigurationConf (gc_ConfigurationKey conf) (gc_UnknownKey conf ++ [want])
    end) zero_GetConfigurationConf wanted.

Definition getConfiguration (payload : option json) (s : Sim) : Handled :=
  decoded GetConfiguration_fields [] payload s (fun wanted =>
    let all := known_keys s in
    (inl (GetConfigurationConf_json
            (match wanted with [] => mkGetConfigurationConf all [] | _ => look_up_keys all wanted end)), s, [])).

Definition changeAvailability (payload : option json) (s : Sim) : Handled :=
  decoded ChangeAvailability_fields (mkChangeAvailabilityMsg 0 "") payload s (fun req =>
    let status := if bool_decide (ca_Type req = AvailabilityInoperative) then "Unavailable" else "Available" in
    answer CmdAccepted s [TaskSetStatus (ca_ConnectorID req) status]).

(** [HandleCall]; [cut] is what interrupts the slow scenario's delay, if
    anything does: the context or the station closing. *)
Definition Simulator_HandleCall (cut : option string) (action : string) (payload : option json) (s : Sim) : Handled :=
  if bool_decide (op_Scenario (opts s) = ScenarioSlow) && bool_decide (is_Some cut) then
    (inr (Errorf ErrInternalError (default "" cut)), s, [])
  else if bool_decide (action = ActionReserveNow) then reserveNow payload s
  else if bool_decide (action = ActionCancelReservation) then cancelReservation payload s
  else if bool_decide (action = ActionRemoteStartTransaction) then remoteStart payload s
  else if bool_decide (action = ActionRemoteStopTransaction) then remoteStop payload s
  else if bool_decide (action = ActionUnlockConnector) then unlockConnector payload s
  else if bool_decide (action = ActionTriggerMessage) then triggerMessage payload s
  else if bool_decide (action = ActionGetConfiguration) then getConfiguration payload s
  else if bool_decide (action = ActionChangeAvailability) then changeAvailability payload s
  else if bool_decide (action = ActionReset) then answer CmdAccepted s []
  else (inr (Errorf ErrNotImplemented ("action " +:+ Quote action +:+ " is not implemented")), s, []).
End commands.

(** ** Side effects: the station calling the central system *)

(** An action of the station: its state threaded through [M]. *)
Definition SimM (A : Type) : Type := Sim -> M (A * Sim).

Definition S_ret {A} (a : A) : SimM A := fun s => M_ret (a, s).
Definition S_bind {A B} (m : SimM A) (f : A -> SimM B) : SimM B := fun s => p <- m s ;; f p.1 p.2.
Definition locked {A} (f : Sim -> A * Sim) : SimM A := fun s => M_ret (f s).
Definition lifted {A} (m : M A) : SimM A := fun s => a <- m ;; M_ret (a, s).

(** [if err != nil { return err }] after a step that may fail. *)
Definition S_then (m : SimM (option error)) (k : SimM (option error)) : SimM (option error) :=
  S_bind m (fun e => match e with Some e => S_ret (Some e) | None => k end).

Section effects.
Context `{Env} `{JsonText} `{Caller}.

Definition timestamp (t : Time) : string := FormatRFC3339 (UTC t).

Definition sendStatus (conn : Z) (status : string) : SimM (option error) :=
  S_bind (lifted now) (fun t =>
  S_bind (lifted (Call ActionStatusNotification (StatusNotificationReq_json conn status (timestamp t)))) (fun a =>
  S_ret match a with
        | inr e => Some (EWrap ("simulator: StatusNotification(" +:+ Itoa conn +:+ "): ") e "")
        | inl _ => None
        end)).

(** The status a connector is given; false when there is no such connector. *)
Definition set_connector_status (conn : Z) (status : string) (s : Sim) : bool * Sim :=
  if conn =? 0 then (true, set_station_status status s)
  else match connectors s !! conn with
  | Some c => (true, put_connector conn (with_status status c) s)
  | None => (false, s)
  end.

Definition SetConnectorStatus (conn : Z) (status : string) : SimM (option error) :=
  S_bind (locked (set_connector_status conn status)) (fun ok =>
  if ok : bool then sendStatus conn status
  else S_ret (Some (EText ("simulator: no connector " +:+ Itoa conn)))).

Definition boot : SimM (option error) := fun s =>
  S_bind (lifted (Call ActionBootNotification (BootNotificationReq_json (opts s)))) (fun a =>
  match a with
  | inr e => S_ret (Some (EWrap "simulator: BootNotification: " e ""))
  | inl raw =>
    match Unmarshal BootConf_fields (mkBootConf "" "" 0) raw with
    | None => S_ret (Some (EWrap "simulator: BootNotification response: " (EText (unmarshal_error raw)) ""))
    | Some conf =>
      if negb (bool_decide (bc_Status conf = "Accepted")) then
        S_ret (Some (EText ("simulator: csms answered BootNotification with " +:+ Quote (bc_Status conf))))
      else if 0 <? bc_Interval conf then
        locked (fun s => (None, set_heartbeat (wrap_int (bc_Interval conf * second)) s))
      else S_ret None
    end
  end) s.

Fixpoint report_all (l : list Z) : SimM (option error) :=
  match l with
  | [] => S_ret None
  | i :: l => S_then (fun s => sendStatus i (ConnectorStatus i s) s) (report_all l)
  end.

Definition reportInitialStatus : SimM (option error) := fun s =>
  S_then (fun s => sendStatus 0 (sim_station s) s) (report_all (numbers (op_Connectors (opts s)))) s.

(** What [Connect] does once the connection is up. *)
Definition come_online : SimM (option error) := S_then boot reportInitialStatus.

Definition heartbeat_once : SimM (option error) :=
  S_bind (lifted (Call ActionHeartbeat (JObj []))) (fun a =>
  S_ret match a with inr e => Some e | inl _ => None end).

(** A transaction begun: it consumes the reservation on its connector. *)
Definition begin_session (conn tx : Z) (s : Sim) : Sim :=
  match connectors s !! conn with
  | Some c => put_connector conn (with_reservation 0 (with_transaction tx c)) s
  | None => s
  end.

Definition sim_startTransaction (conn : Z) (tag : string) : SimM (option error) := fun s =>
  let idTag := non_empty tag (op_IDTag (opts s)) in
  match connectors s !! conn with
  | None => S_ret (Some (EText ("no connector " +:+ Itoa conn))) s
  | Some c =>
    let meterStart := sc_meter c in
    S_then (SetConnectorStatus conn "Preparing")
      (S_bind (lifted now) (fun t =>
       S_bind (lifted (Call ActionStartTransaction (StartTransactionReq_json conn idTag meterStart (timestamp t)))) (fun a =>
       match a with
       | inr e => S_ret (Some (EWrap "StartTransaction: " e ""))
       | inl raw =>
         match Unmarshal StartConf_fields (mkStartConf 0 (mkIDTagInfoMsg "" "" "")) raw with
         | None => S_ret (Some (EWrap "StartTransaction response: " (EText (unmarshal_error raw)) ""))
         | Some conf =>
           if negb (bool_decide (it_Status (sf_IDTagInfo conf) = AuthAccepted)) then
             SetConnectorStatus conn "Available"
           else
             S_bind (locked (fun s => (tt, begin_session conn (sf_TransactionID conf) s))) (fun _ =>
             SetConnectorStatus conn "Charging")
         end
       end))) s
  end.

(** The transaction taken off its connector, with the meter it stopped at. *)
Definition end_session (conn : Z) (s : Sim) : option (Z * Z) * Sim :=
  match connectors s !! conn with
  | Some c =>
    if sc_transactionID c =? 0 then (None, s)
    else
      let m := wrap_int (sc_meter c + 1000) in
      (Some (sc_transactionID c, m), put_connector conn (with_transaction 0 (with_meter m c)) s)
  | None => (None, s)
  end.

Definition sim_stopTransaction (conn : Z) (reason : string) : SimM (option error) :=
  S_bind (locked (end_session conn)) (fun o =>
  match o with
  | None => S_ret (Some (EText ("no transaction on connector " +:+ Itoa conn)))
  | Some (tx, meterStop) =>
    S_bind (lifted now) (fun t =>
    S_bind (lifted (Call ActionStopTransaction (StopTransactionReq_json tx meterStop (timestamp t) reason))) (fun a =>
    match a with
    | inr e => S_ret (Some (EWrap "StopTransaction: " e ""))
    | inl _ => S_then (SetConnectorStatus conn "Finishing") (SetConnectorStatus conn "Available")
    end))
  end).

(** Someone holding a card to the reader, and stopping again. *)
Definition StartTransaction_local (conn : Z) : SimM (option error) := fun s =>
  sim_startTransaction conn (op_IDTag (opts s)) s.
Definition StopTransaction_local (conn : Z) : SimM (option error) := sim_stopTransaction conn "Local".

Definition run_task (t : Task) : SimM (option error) :=
  match t with
  | TaskSendStatus conn status => sendStatus conn status
  | TaskStart conn tag => sim_startTransaction conn tag
  | TaskStop conn reason => sim_stopTransaction conn reason
  | TaskBoot => boot
  | TaskHeartbeat => heartbeat_once
  | TaskSetStatus conn status => SetConnectorStatus conn status
  end.
End effects.
