(* ===== verification/SimulatorProps.v ===== *)
(** * What the simulated station promises, and the two ends together

    Each command cpms encodes is read back by the station as it was meant, and
    the station's answers are read back by cpms.  A session the station starts
    against the central system's own handler runs in core under the id the
    station holds, and stops there when the station stops it. *)

From S2P Require Import Prelude GoLib GoTime Json Ocpp Errors Config State Bus World Core.
From S2P Require Import Persist Reservations Transactions Load CoreFacts CoreInv CoreOps.
From S2P Require Import CoreTx CoreReach Samples CoreEvents CoreCounters Restart CoreProps Acts.
From S2P Require Import V16Status V16Messages V16Handler V16ChargePoint V16Props Simulator.

(** ** The central system as the station's peer *)

Section central.
Context `{MapOrder} `{Env} `{JsonText} (cfg : Config) (id : string).

(** A call of the station is handled by the central system. *)
Definition central : Caller := {|
  caller_ID := id;
  caller_Version := Version16;
  Call := fun action req =>
    out <- HandleCall cfg id action (Some req) ;;
    M_ret (match out with inl j => inl j | inr e => inr (ERPC e) end)
|}.

#[local] Existing Instance central.

Lemma Call_central action req w :
  Call action req w =
    (match (HandleCall cfg id action (Some req) w).1 with inl j => inl j | inr e => inr (ERPC e) end,
     (HandleCall cfg id action (Some req) w).2).
Proof. cbn [Call central]. by rewrite M_bind_eq. Qed.

(** *** What a status report leaves alone *)

Lemma recompute_transactions at_ cp : cp_shape id cp -> cp_transactions (recompute at_ cp).1 = cp_transactions cp.
Proof. intros (_ & Hnd & _). destruct (recompute_spec at_ cp Hnd) as (m & -> & _). done. Qed.

Lemma on_status_transactions c conn st code at_ cp :
  cp_transactions (on_status c id conn st code at_ cp) = cp_transactions cp.
Proof.
  unfold on_status. destruct (conn =? 0); [by destruct (decide _)|].
  unfold addEVSE. cbn. by destruct (cp_effective cp !! _).
Qed.

Lemma SetConnectorStatus_tx conn st code w tid :
  core_ok w -> tx_of id tid (svc (Core.SetConnectorStatus id conn st code w).2) = tx_of id tid (svc w).
Proof.
  intros Hw. destruct (SetConnectorStatus_run id conn st code w) as (v & es & at_ & -> & _ & _ & Ecp).
  rewrite !tx_of_cp. cbn [svc set_bus]. rewrite Ecp, recompute_transactions, on_status_transactions; [done|].
  apply on_status_shape, cp_of_ok, Hw.
Qed.

Lemma SetConnectorStatus_next conn st code w :
  nextTransactionID (svc (Core.SetConnectorStatus id conn st code w).2) = nextTransactionID (svc w).
Proof.
  revert w. assert (Hk : forall n, keeps (fun w => nextTransactionID (svc w) = n) (Core.SetConnectorStatus id conn st code)).
  { intros n. unfold Core.SetConnectorStatus. apply keeps_bind; [by intros w|]. intros at_.
    apply keeps_bind; [|by intros es w]. intros w Hw. rewrite SetConnectorStatus_locked_eq. exact Hw. }
  intros w. by apply (Hk _ w).
Qed.

(** *** The station's messages decode *)

Lemma HandleCall_status p : HandleCall cfg id ActionStatusNotification p = statusNotification id p.
Proof. reflexivity. Qed.
Lemma HandleCall_start p : HandleCall cfg id ActionStartTransaction p = startTransaction cfg id p.
Proof. reflexivity. Qed.
Lemma HandleCall_stop p : HandleCall cfg id ActionStopTransaction p = stopTransaction id p.
Proof. reflexivity. Qed.
Lemma HandleCall_boot p : HandleCall cfg id ActionBootNotification p = bootNotification cfg id p.
Proof. reflexivity. Qed.

Lemma decode_status conn status ts :
  int_ok conn ->
  exists ts', decode StatusNotificationReq_fields zero_StatusNotificationReq
    (Some (StatusNotificationReq_json conn status ts)) = inl (mkStatusNotificationReq conn "NoError" status "" ts' "" "").
Proof.
  intros Hc. unfold StatusNotificationReq_json, omit_empty. destruct (bool_decide (ts = "")).
  - eexists. lazy -[Atoi Itoa unmarshal_error]. rewrite Atoi_Itoa by done. reflexivity.
  - eexists. lazy -[Atoi Itoa unmarshal_error]. rewrite Atoi_Itoa by done. reflexivity.
Qed.

Lemma statusNotification_central conn status ts w :
  int_ok conn -> 0 <= conn -> is_Some (assoc statusMap status) ->
  statusNotification id (Some (StatusNotificationReq_json conn status ts)) w =
    (inl emptyConf, (Core.SetConnectorStatus id conn (MapStatus status) "NoError" w).2).
Proof.
  intros Hc Hn [st Hst]. destruct (decode_status conn status ts Hc) as [ts' Hd].
  unfold statusNotification, decode_valid. rewrite Hd.
  unfold StatusNotificationReq_validate. cbn [sn_ConnectorID sn_Status sn_ErrorCode].
  rewrite (proj2 (Z.ltb_ge conn 0)) by done. rewrite bool_decide_eq_false_2 by (intros ->; done).
  rewrite Hst. by rewrite M_bind_eq.
Qed.

(** No message changes the configuration core works with. *)
Lemma HandleCall_cfg e action p w :
  World.cfg (svc w) = e -> World.cfg (svc (HandleCall cfg id action p w).2) = e.
Proof.
  intros He. apply (acts_keeps (counts e (fun _ => True)) (station_action id)); [|apply acts_HandleCall|done].
  intros a v Ha. by apply run_counts, (station_no_begin id).
Qed.

Lemma HandleCall_core_ok action p : keeps core_ok (HandleCall cfg id action p).
Proof.
  apply (acts_keeps core_ok (station_action id)); [|apply acts_HandleCall].
  intros a v Ha. by apply run_no_begin_ok, (station_no_begin id).
Qed.

(** A report of a status the specification names reaches core. *)
Lemma sendStatus_central conn status s w :
  int_ok conn -> 0 <= conn -> is_Some (assoc statusMap status) ->
  sendStatus conn status s w =
    ((None, s), (Core.SetConnectorStatus id conn (MapStatus status) "NoError" (tick w)).2).
Proof.
  intros Hc Hn Hs. unfold sendStatus, S_bind, lifted, S_ret.
  rewrite M_bind_eq. cbn [fst snd]. rewrite M_bind_eq. cbn [fst snd now M_ret].
  rewrite M_bind_eq, M_bind_eq, Call_central, HandleCall_status, statusNotification_central by done. done.
Qed.
Lemma SetConnectorStatus_central conn status c s w :
  int_ok conn -> 1 <= conn -> is_Some (assoc statusMap status) -> connectors s !! conn = Some c ->
  SetConnectorStatus conn status s w =
    ((None, put_connector conn (with_status status c) s),
     (Core.SetConnectorStatus id conn (MapStatus status) "NoError" (tick w)).2).
Proof.
  intros Hc Hn Hs Hcn. unfold SetConnectorStatus, S_bind, locked. rewrite M_bind_eq. cbn [fst snd M_ret].
  unfold set_connector_status. rewrite (proj2 (Z.eqb_neq conn 0)) by lia. rewrite Hcn. cbn [fst snd].
  rewrite sendStatus_central by (done || lia). done.
Qed.

Lemma decode_start conn tag meter ts :
  int_ok conn -> int_ok meter -> 1 <= conn -> tag <> "" ->
  decode_valid StartTransactionReq_fields zero_StartTransactionReq StartTransactionReq_validate
    (Some (StartTransactionReq_json conn tag meter ts)) = inl (mkStartTransactionReq conn tag meter ts None).
Proof.
  intros Hc Hm Hn Ht. unfold decode_valid.
  assert (Hd : decode StartTransactionReq_fields zero_StartTransactionReq
    (Some (StartTransactionReq_json conn tag meter ts)) = inl (mkStartTransactionReq conn tag meter ts None)).
  { lazy -[Atoi Itoa unmarshal_error]. rewrite !Atoi_Itoa by done. reflexivity. }
  rewrite Hd. unfold StartTransactionReq_validate. cbn [sq_ConnectorID sq_IDTag].
  rewrite (proj2 (Z.ltb_ge conn 1)) by lia. by rewrite bool_decide_eq_false_2.
Qed.

Lemma decode_start_conf n :
  int_ok n ->
  Unmarshal StartConf_fields (mkStartConf 0 (mkIDTagInfoMsg "" "" "")) (StartTransactionConf n AuthAccepted) =
    Some (mkStartConf n (mkIDTagInfoMsg AuthAccepted "" "")).
Proof. intros Hn. lazy -[Atoi Itoa]. rewrite Atoi_Itoa by done. reflexivity. Qed.

(** The station and core agree on the session that runs on a connector. *)
Definition in_session (conn n : Z) (s : Sim) (w : World) : Prop :=
  TransactionID conn s = n /\ n <> 0 /\
  exists tx, tx_of id (Itoa n) (svc w) = Some tx /\ Active tx = true /\
    tx_EVSEUID tx = evseUID (World.cfg (svc w)) id conn.

Lemma S_then_None m k s w s' w' : m s w = ((None, s'), w') -> S_then m k s w = k s' w'.
Proof. intros Hm. unfold S_then, S_bind. rewrite M_bind_eq, Hm. done. Qed.

Lemma SetConnectorStatus_keeps conn st code w :
  core_ok w -> core_ok (Core.SetConnectorStatus id conn st code (tick w)).2 /\
  World.cfg (svc (Core.SetConnectorStatus id conn st code (tick w)).2) = World.cfg (svc w).
Proof.
  intros Hw. split; [by apply keeps_SetConnectorStatus, (keeps_now_core w)|].
  destruct (SetConnectorStatus_run id conn st code (tick w)) as (v & es & at_ & -> & E & _). exact E.
Qed.

Lemma in_session_status conn n s w st code c status :
  core_ok w -> connectors s !! conn = Some c -> in_session conn n s w ->
  in_session conn n (put_connector conn (with_status status c) s) (Core.SetConnectorStatus id conn st code (tick w)).2.
Proof.
  intros Hw Hc (Ht & Hn & tx & Htx & Ha & Hu). split; [|split; [done|]].
  - revert Ht. unfold TransactionID, put_connector. cbn. by rewrite Hc, lookup_insert_eq.
  - exists tx. destruct (SetConnectorStatus_keeps conn st code w Hw) as [_ ->].
    rewrite SetConnectorStatus_tx by (by apply (keeps_now_core w)). done.
Qed.

Lemma begin_session_lookup conn n c s :
  connectors s !! conn = Some c ->
  connectors (begin_session conn n s) !! conn = Some (with_reservation 0 (with_transaction n c)).
Proof. intros Hc. unfold begin_session. rewrite Hc. cbn. by rewrite lookup_insert_eq. Qed.

(** The station's StartTransaction, as core takes it. *)
Lemma StartTransaction_call conn tag meter ts w :
  core_ok w -> int_ok conn -> 1 <= conn -> int_ok meter -> tag <> "" -> knownTag cfg tag = true ->
  let n := nextTransactionID (svc w) in
  exists w', Call ActionStartTransaction (StartTransactionReq_json conn tag meter ts) w =
      (inl (StartTransactionConf n AuthAccepted), w') /\ core_ok w' /\ World.cfg (svc w') = World.cfg (svc w) /\
    exists tx, tx_of id (Itoa n) (svc w') = Some tx /\ Active tx = true /\
      tx_EVSEUID tx = evseUID (World.cfg (svc w)) id conn.
Proof.
  intros Hw Hc Hn Hm Ht Hk. cbn zeta. set (req := StartTransactionReq_json conn tag meter ts).
  pose proof (HandleCall_core_ok ActionStartTransaction (Some req) w Hw) as Hw'.
  pose proof (HandleCall_cfg _ ActionStartTransaction (Some req) w eq_refl) as Hcfg.
  pose proof (startTransaction_contract cfg id (Some req) w) as Hs.
  rewrite Call_central. rewrite HandleCall_start in *. unfold Session_contract in Hs. unfold req in Hs at 2.
  rewrite decode_start in Hs by done. cbn [sq_IDTag sq_ConnectorID] in Hs. rewrite Hk in Hs.
  destruct (startTransaction _ _ _ _) as [out w']. destruct Hs as (-> & _ & Htx). by exists w'.
Qed.

(** C23: a session the station starts is the session core runs.  Played against
    the central system's own handler, the station's start reports succeed; the
    transaction the station then holds is the id core just gave out, under that
    number core runs a transaction on the connector's EVSE, and the station has
    let go of its reservation. *)
Theorem session_agrees conn tag c s w :
  core_ok w -> int_ok conn -> 1 <= conn -> connectors s !! conn = Some c -> int_ok (sc_meter c) ->
  tag <> "" -> knownTag cfg tag = true ->
  let n := nextTransactionID (svc w) in
  int_ok n -> n <> 0 ->
  let r := sim_startTransaction conn tag s w in
  r.1.1 = None /\ in_session conn n r.1.2 r.2 /\ ReservationID conn r.1.2 = 0 /\
  ConnectorStatus conn r.1.2 = "Charging" /\ core_ok r.2.
Proof.
  intros Hw Hc Hn Hcn Hm Ht Hk n Hni Hn0. cbn zeta. unfold sim_startTransaction.
  rewrite Hcn. unfold non_empty. rewrite bool_decide_eq_false_2 by done.
  rewrite (S_then_None _ _ _ _ _ _ (SetConnectorStatus_central conn "Preparing" c s w Hc Hn (ex_intro _ _ eq_refl) Hcn)).
  set (s1 := put_connector _ _ _). destruct (SetConnectorStatus_keeps conn (MapStatus "Preparing") "NoError" w Hw) as [Hw1 Ec1].
  pose proof (SetConnectorStatus_next conn (MapStatus "Preparing") "NoError" (tick w)) as En1. cbn [tick svc] in En1.
  set (w1 := (Core.SetConnectorStatus _ _ _ _ _).2) in *.
  unfold S_bind, lifted, locked, S_ret. rewrite M_bind_eq. cbn [fst snd]. rewrite M_bind_eq. cbn [fst snd now M_ret].
  rewrite M_bind_eq, M_bind_eq.
  cbn [fst snd now M_ret].
  destruct (StartTransaction_call conn tag (sc_meter c) (timestamp (clock (ticks w1))) (tick w1))
    as (w2 & -> & Hw2 & Ec2 & Htx); [exact (keeps_now_core w1 Hw1)|done..|].
  change (svc (tick w1)) with (svc w1) in *. rewrite En1 in *. fold n in Htx |- *. cbn [fst snd M_ret].
  rewrite (decode_start_conf n Hni). cbn [it_Status sf_IDTagInfo sf_TransactionID].
  rewrite bool_decide_eq_true_2 by done. cbn [negb]. rewrite M_bind_eq. cbn [fst snd M_ret].
  assert (Hc2 : connectors (begin_session conn n s1) !! conn = Some (with_reservation 0 (with_transaction n (with_status "Preparing" c)))).
  { apply begin_session_lookup. unfold s1. cbn. by rewrite lookup_insert_eq. }
  rewrite (SetConnectorStatus_central conn "Charging" _ _ _ Hc Hn (ex_intro _ _ eq_refl) Hc2). cbn [fst snd].
  split; [done|]. split.
  - apply in_session_status; [done|done|]. split; [|split; [done|]].
    + unfold TransactionID. by rewrite Hc2.
    + rewrite Ec2. exact Htx.
  - unfold ReservationID, ConnectorStatus, put_connector. cbn. rewrite !lookup_insert_eq. split; [done|]. split; [done|].
    by apply SetConnectorStatus_keeps.
Qed.

Lemma decode_stop_json n m ts reason :
  int_ok n -> int_ok m ->
  decode_valid StopTransactionReq_fields zero_StopTransactionReq no_check
    (Some (StopTransactionReq_json n m ts reason)) = inl (mkStopTransactionReq n m ts "" reason).
Proof.
  intros Hn Hm. unfold StopTransactionReq_json, omit_empty. case_bool_decide as Hr; [subst reason|];
    lazy -[Atoi Itoa unmarshal_error]; rewrite (Atoi_Itoa n) by done; rewrite (Atoi_Itoa m) by done; reflexivity.
Qed.

(** The station's StopTransaction, as core takes it. *)
Lemma StopTransaction_call n m ts reason tx w :
  core_ok w -> (forall i, IsZero (clock i) = false) -> int_ok n -> int_ok m ->
  tx_of id (Itoa n) (svc w) = Some tx -> Active tx = true ->
  exists t0 w', Call ActionStopTransaction (StopTransactionReq_json n m ts reason) w = (inl StopTransactionConf, w') /\
    core_ok w' /\ tx_of id (Itoa n) (svc w') = Some (stopped tx t0 m reason) /\ IsZero t0 = false.
Proof.
  intros Hw Hclk Hn Hm Htx Ha. set (req := StopTransactionReq_json n m ts reason).
  pose proof (HandleCall_core_ok ActionStopTransaction (Some req) w Hw) as Hw'.
  rewrite Call_central. rewrite HandleCall_stop in *. unfold stopTransaction in *.
  unfold req in *. rewrite decode_stop_json in * by done. rewrite M_bind_eq in *. cbn [fst snd now] in *.
  cbn [pq_TransactionID pq_MeterStop pq_Reason pq_Timestamp] in *. rewrite M_bind_eq in *.
  destruct (StopTransaction_running id (Itoa n) m reason (parseTime ts (clock (ticks w))) (tick w) tx)
    as (t0 & w' & Es & Hz & _ & _ & Htx' & _); [exact (keeps_now_core w Hw)|done..|].
  rewrite Es in *. by exists t0, w'.
Qed.

(** The station stopping a session stops it in core.  Whatever happened
    since, while the two still agree on the session, the station's stop reports
    succeed, core's transaction of that number is over with the meter the
    station read, and the connector is free again. *)
Theorem session_stops conn reason n c s w :
  core_ok w -> (forall i, IsZero (clock i) = false) -> int_ok conn -> 1 <= conn -> int_ok n ->
  connectors s !! conn = Some c -> in_session conn n s w ->
  let r := sim_stopTransaction conn reason s w in
  r.1.1 = None /\ TransactionID conn r.1.2 = 0 /\ ConnectorStatus conn r.1.2 = "Available" /\
  exists tx, tx_of id (Itoa n) (svc r.2) = Some tx /\ Active tx = false /\
    tx_MeterStop tx = wrap_int (sc_meter c + 1000).
Proof.
  intros Hw Hclk Hc Hn Hni Hcn (Ht & Hn0 & tx & Htx & Ha & _). cbn zeta.
  unfold TransactionID in Ht. rewrite Hcn in Ht. set (m := wrap_int (sc_meter c + 1000)).
  unfold sim_stopTransaction, S_bind, locked, lifted, S_ret, end_session. rewrite M_bind_eq. cbn [fst snd M_ret].
  rewrite Hcn, Ht, (proj2 (Z.eqb_neq n 0)) by done. cbn [fst snd]. fold m.
  set (s1 := put_connector _ _ _). rewrite M_bind_eq. cbn [fst snd]. rewrite M_bind_eq. cbn [fst snd now M_ret].
  rewrite M_bind_eq, M_bind_eq. cbn [fst snd now M_ret].
  destruct (StopTransaction_call n m (timestamp (clock (ticks w))) reason tx (tick w))
    as (t0 & w2 & -> & Hw2 & Htx2 & Hz); [exact (keeps_now_core w Hw)|done|done|apply wrap_int_ok|done..|].
  cbn [fst snd M_ret].
  assert (Hc1 : connectors s1 !! conn = Some (with_transaction 0 (with_meter m c)))
    by (unfold s1; cbn; by rewrite lookup_insert_eq).
  rewrite (S_then_None _ _ _ _ _ _ (SetConnectorStatus_central conn "Finishing" _ _ _ Hc Hn (ex_intro _ _ eq_refl) Hc1)).
  destruct (SetConnectorStatus_keeps conn (MapStatus "Finishing") "NoError" w2 Hw2) as [Hw3 _].
  set (s2 := put_connector _ _ s1). set (w3 := (Core.SetConnectorStatus _ _ _ _ _).2) in *.
  assert (Hc2 : connectors s2 !! conn = Some (with_status "Finishing" (with_transaction 0 (with_meter m c))))
    by (unfold s2; cbn; by rewrite lookup_insert_eq).
  rewrite (SetConnectorStatus_central conn "Available" _ _ _ Hc Hn (ex_intro _ _ eq_refl) Hc2). cbn [fst snd].
  split; [done|]. unfold TransactionID, ConnectorStatus. cbn [connectors put_connector set_connectors].
  rewrite !lookup_insert_eq. split; [done|]. split; [done|].
  exists (stopped tx t0 m reason).
  rewrite SetConnectorStatus_tx by (by apply keeps_now_core). change (svc (tick w3)) with (svc w3). unfold w3.
  rewrite SetConnectorStatus_tx by (by apply keeps_now_core). split; [exact Htx2|]. split; [|done].
  exact Hz.
Qed.
End central.

(** ** Commands: what cpms asks, what the station does, what cpms reads *)

Section commands.
Context `{MapOrder} `{JsonText} (cfg : Config) (s : Sim).

(** The station in state [s] at the other end of cpms's connection; its answer
    does not wait for anything else, and errors are CALLERRORs. *)
Definition station_end : Caller := {|
  caller_ID := op_ID (opts s);
  caller_Version := Version16;
  Call := fun action req =>
    M_ret (match (Simulator_HandleCall None action (Some req) s).1.1 with inl j => inl j | inr e => inr (ERPC e) end)
|}.

#[local] Existing Instance station_end.

(** The state a command leaves the station in, and what it starts. *)
Definition after_command (action : string) (req : json) : Sim * list Task :=
  let '(_, s', tasks) := Simulator_HandleCall None action (Some req) s in (s', tasks).

Lemma Simulator_reserve payload :
  Simulator_HandleCall None ActionReserveNow payload s = reserveNow payload s.
Proof. unfold Simulator_HandleCall. rewrite (bool_decide_eq_false_2 (is_Some None)) by (by intros []). by rewrite andb_false_r. Qed.

Lemma Simulator_cancel payload :
  Simulator_HandleCall None ActionCancelReservation payload s = cancelReservation payload s.
Proof. unfold Simulator_HandleCall. rewrite (bool_decide_eq_false_2 (is_Some None)) by (by intros []). by rewrite andb_false_r. Qed.

Lemma decode_reserve conn expiry tag rid :
  int_ok conn -> int_ok rid ->
  decode ReserveNow_fields zero_ReserveNowMsg (Some (ReserveNowReq conn expiry tag rid)) =
    inl (mkReserveNowMsg conn expiry tag "" rid).
Proof.
  intros Hc Hr. lazy -[Atoi Itoa unmarshal_error]. rewrite (Atoi_Itoa conn) by done.
  by rewrite (Atoi_Itoa rid) by done.
Qed.

Lemma decode_cancel rid :
  int_ok rid -> decode CancelReservation_fields 0 (Some (CancelReservationReq rid)) = inl rid.
Proof. intros Hr. lazy -[Atoi Itoa unmarshal_error]. by rewrite Atoi_Itoa by done. Qed.

(** cpms reads the status the station wrote. *)
Lemma command_station action req status s' tasks w :
  Simulator_HandleCall None action (Some req) s = answer status s' tasks ->
  command action req w = (inl (mkResult (MapCommandStatus action status) status), w).
Proof. intros Ha. unfold command. rewrite M_bind_eq. cbn [Call station_end M_ret fst snd]. rewrite Ha. done. Qed.

(** What accepting a reservation means at the station. *)
Definition now_reserved (conn rid : Z) (s' : Sim) (tasks : list Task) : Prop :=
  ReservationID conn s' = rid /\ ConnectorStatus conn s' = "Reserved" /\ TransactionID conn s' = 0 /\
  (forall i, i <> conn -> connectors s' !! i = connectors s !! i) /\ tasks = [TaskSendStatus conn "Reserved"].

(** How the station answers a ReserveNow. *)
Lemma reserveNow_answers conn expiry tag rid :
  int_ok conn -> int_ok rid ->
  exists status s' tasks, reserveNow (Some (ReserveNowReq conn expiry tag rid)) s = answer status s' tasks /\
    MapCommandStatus ActionReserveNow status <> CommandUnknown /\
    (if decide (status = "Accepted") then now_reserved conn rid s' tasks else s' = s /\ tasks = []) /\
    (MapCommandStatus ActionReserveNow status = CommandAccepted <-> status = "Accepted").
Proof.
  intros Hc Hr. unfold reserveNow, decoded. rewrite decode_reserve by done. cbn [rn_ConnectorID rn_ReservationID].
  destruct (bool_decide (op_Scenario (opts s) = ScenarioRejectReserve)); [by exists "Rejected", s, []|].
  destruct (bool_decide (op_Scenario (opts s) = ScenarioOccupied)); [by exists "Occupied", s, []|].
  destruct (connectors s !! conn) as [c|] eqn:Ec; [|by exists "Rejected", s, []].
  destruct (negb _ || _ || _) eqn:Eb; [by exists "Occupied", s, []|].
  destruct (bool_decide _ || bool_decide _) eqn:Ef.
  { destruct (bool_decide (sc_status c = "Unavailable")); [by exists "Unavailable", s, []|by exists "Faulted", s, []]. }
  eexists "Accepted", _, _. split; [reflexivity|]. split; [done|]. split; [|done]. cbn [decide].
  unfold now_reserved, ReservationID, ConnectorStatus, TransactionID. cbn [connectors put_connector set_connectors].
  rewrite lookup_insert_eq. apply orb_false_elim in Eb as [[Eb _]%orb_false_elim _].
  rewrite negb_false_iff, Z.eqb_eq in Eb.
  repeat split; try done. intros i Hi. by rewrite lookup_insert_ne.
Qed.

(** ReserveNow means the same at both ends.  A reservation for a configured
    EVSE always gets one of the specification's answers; cpms reads it as
    accepted exactly when the station now holds the reservation on that EVSE's
    connector under the id cpms recorded, with no session there, nothing else
    changed, and its report on the way; any other answer left the station as it
    was. *)
Theorem reserve_understood r e w :
  EVSEByUID cfg (rq_EVSEUID r) = Some e -> int_ok (ev_OCPPConnectorID e) -> int_ok (rq_ReservationID r) ->
  let conn := ev_OCPPConnectorID e in
  let '(s', tasks) := after_command ActionReserveNow
    (ReserveNowReq conn (FormatRFC3339 (UTC (rq_ExpiresAt r))) (rq_IDTag r) (rq_ReservationID r)) in
  exists result, v16_ReserveNow cfg r w = (inl result, w) /\ Status result <> CommandUnknown /\
    (Status result = CommandAccepted -> now_reserved conn (rq_ReservationID r) s' tasks) /\
    (Status result <> CommandAccepted -> s' = s /\ tasks = []).
Proof.
  intros He Hc Hr. cbn zeta. unfold after_command, v16_ReserveNow, on_connector, connectorID_of.
  rewrite He, Simulator_reserve.
  destruct (reserveNow_answers (ev_OCPPConnectorID e) (FormatRFC3339 (UTC (rq_ExpiresAt r))) (rq_IDTag r) (rq_ReservationID r) Hc Hr)
    as (status & s' & tasks & Ha & Hk & Hs & Hiff).
  rewrite Ha. unfold answer. eexists. split; [by rewrite (command_station _ _ status s' tasks) by (by rewrite Simulator_reserve)|].
  cbn [Status]. split; [done|]. rewrite Hiff. by destruct (decide (status = "Accepted")).
Qed.

(** CancelReservation means the same at both ends.  cpms reads it as
    accepted exactly when a connector of the station held that reservation;
    that one connector is then free, and otherwise nothing changed. *)
Theorem cancel_understood rid w :
  int_ok rid -> (forall i c, connectors s !! i = Some c -> i <> 0) ->
  let '(s', tasks) := after_command ActionCancelReservation (CancelReservationReq rid) in
  exists result, v16_CancelReservation rid w = (inl result, w) /\
    ((Status result = CommandAccepted /\ exists i, ReservationID i s = rid /\ is_Some (connectors s !! i) /\
        ReservationID i s' = 0 /\ ConnectorStatus i s' = "Available" /\
        (forall j, j <> i -> connectors s' !! j = connectors s !! j) /\ tasks = [TaskSendStatus i "Available"]) \/
     (Status result = CommandRejected /\ (forall i c, connectors s !! i = Some c -> sc_reservationID c <> rid) /\
        s' = s /\ tasks = [])).
Proof.
  intros Hr Hnz. unfold after_command, v16_CancelReservation. rewrite Simulator_cancel.
  assert (Ha : exists status s' tasks, cancelReservation (Some (CancelReservationReq rid)) s = answer status s' tasks /\
    ((status = "Accepted" /\ exists i, ReservationID i s = rid /\ is_Some (connectors s !! i) /\
        ReservationID i s' = 0 /\ ConnectorStatus i s' = "Available" /\
        (forall j, j <> i -> connectors s' !! j = connectors s !! j) /\ tasks = [TaskSendStatus i "Available"]) \/
     (status = "Rejected" /\ (forall i c, connectors s !! i = Some c -> sc_reservationID c <> rid) /\
        s' = s /\ tasks = []))).
  { unfold cancelReservation, decoded. rewrite decode_cancel by done. unfold find_connector.
    destruct (first_such _ _) as [[i c]|] eqn:Ef; cbn [fst].
    - apply first_such_Some in Ef as [Ei%elem_of_range Ep]. apply Z.eqb_eq in Ep. cbn in Ep.
      rewrite (proj2 (Z.eqb_neq i 0)) by (by apply (Hnz i c)). rewrite Ei.
      eexists "Accepted", _, _. split; [reflexivity|]. left. split; [done|]. exists i.
      unfold ReservationID, ConnectorStatus. cbn [connectors put_connector set_connectors].
      rewrite Ei, lookup_insert_eq. repeat split; try done. intros j Hj. by rewrite lookup_insert_ne.
    - exists "Rejected", s, []. split; [done|]. right. split; [done|]. split; [|done].
      rewrite first_such_None in Ef. intros i c Ei. specialize (Ef (i, c) (proj2 (elem_of_range _ _ _) Ei)).
      by apply Z.eqb_neq in Ef. }
  destruct Ha as (status & s' & tasks & Ha & Hout). rewrite Ha. unfold answer. eexists.
  split; [by rewrite (command_station _ _ status s' tasks) by (by rewrite Simulator_cancel)|]. cbn [Status].
  destruct Hout as [[-> ?]|[-> ?]]; [by left|by right].
Qed.
End commands.

(** ** Instances: a simulated station with two connectors at the sample system *)

#[local] Existing Instance key_order.
#[local] Existing Instance sample_env.
#[local] Existing Instance sample_json_text.

Definition sample_options : Options :=
  mkOptions "ws://localhost:9000" "CP1" "" 2 "" "" "" "" "CARD" "" 0 [] "".

Definition sample_sim : Sim :=
  match New sample_options with inl s => s | inr _ => mkSim sample_options "" ∅ 0 end.

Example sample_sim_connectors :
  connectors sample_sim !! 1 = Some idle_connector /\ connectors sample_sim !! 2 = Some idle_connector /\
  connectors sample_sim !! 3 = None /\ connectors sample_sim !! 0 = None /\ firstFreeConnector sample_sim = Some 1.
Proof. vm_compute. done. Qed.

(** A card is held to the reader of connector 1: what core and the station
    know afterwards. *)
Lemma session_agrees_witness :
  let r := @sim_startTransaction sample_env sample_json_text (central sample_config "CP1") 1 "OFFICE" sample_sim sample_world in
  r.1.1 = None /\ in_session "CP1" 1 (nextTransactionID (svc sample_world)) r.1.2 r.2.
Proof.
  assert (Hc : connectors sample_sim !! 1 = Some idle_connector) by (vm_compute; reflexivity).
  assert (Hk : knownTag sample_config "OFFICE" = true) by (vm_compute; reflexivity).
  assert (Hn : int_ok (nextTransactionID (svc sample_world)) /\ nextTransactionID (svc sample_world) <> 0)
    by (vm_compute; done).
  assert (H1 : int_ok 1) by (vm_compute; done). assert (H0 : int_ok (sc_meter idle_connector)) by (vm_compute; done).
  pose proof (session_agrees sample_config "CP1" 1 "OFFICE" idle_connector sample_sim sample_world sample_core_ok
    H1 ltac:(lia) Hc H0 ltac:(discriminate) Hk (proj1 Hn) (proj2 Hn)) as H.
  split; [exact (proj1 H)|exact (proj1 (proj2 H))].
Defined.

Definition sample_in_session : Sim := put_connector 1 (with_transaction 1 idle_connector) sample_sim.

Lemma sample_in_session_ok : in_session "CP1" 1 1 sample_in_session sample_session.
Proof.
  split; [done|]. split; [done|]. exists sample_tx. split; [vm_compute; reflexivity|].
  split; [vm_compute; reflexivity|vm_compute; reflexivity].
Defined.

Lemma session_stops_witness :
  let r := @sim_stopTransaction sample_env (central sample_config "CP1") 1 "Local" sample_in_session sample_session in
  TransactionID 1 r.1.2 = 0 /\ exists tx, tx_of "CP1" "1" (svc r.2) = Some tx /\ Active tx = false /\
    tx_MeterStop tx = wrap_int (sc_meter (with_transaction 1 idle_connector) + 1000).
Proof.
  assert (Hc : connectors sample_in_session !! 1 = Some (with_transaction 1 idle_connector)) by (vm_compute; reflexivity).
  assert (H1 : int_ok 1) by (vm_compute; done).
  pose proof (session_stops sample_config "CP1" 1 "Local" 1 (with_transaction 1 idle_connector) sample_in_session sample_session
    sample_session_ok sample_clock H1 ltac:(lia) H1 Hc sample_in_session_ok) as H.
  split; [exact (proj1 (proj2 H))|exact (proj2 (proj2 (proj2 H)))].
Defined.

Definition sample_request : ReserveRequest := mkReserveRequest 5 "EVSE-2" "OFFICE" (sample_time 900).

Lemma reserve_understood_witness :
  let s' := (after_command sample_sim ActionReserveNow
    (ReserveNowReq 2 (FormatRFC3339 (UTC (sample_time 900))) "OFFICE" 5)).1 in
  exists result, @v16_ReserveNow (station_end sample_sim) sample_json_text sample_config sample_request sample_world =
      (inl result, sample_world) /\ Status result <> CommandUnknown /\
    (Status result = CommandAccepted -> ReservationID 2 s' = 5).
Proof.
  pose proof (reserve_understood sample_config sample_sim sample_request (sample_evse "EVSE-2" 2) sample_world) as H.
  destruct H as (result & H1 & H2 & H3 & _); [vm_compute; reflexivity|vm_compute; done|vm_compute; done|].
  exists result. split; [exact H1|]. split; [exact H2|]. intros Ha. exact (proj1 (H3 Ha)).
Defined.

Definition sample_reserved : Sim := put_connector 2 (with_status "Reserved" (with_reservation 5 idle_connector)) sample_sim.

Lemma cancel_understood_witness :
  exists result, @v16_CancelReservation (station_end sample_reserved) sample_json_text 5 sample_world = (inl result, sample_world).
Proof.
  pose proof (cancel_understood sample_reserved 5 sample_world) as H.
  destruct (after_command _ _ _) as [s' tasks].
  destruct H as (result & H1 & _); [vm_compute; done| |exists result; exact H1].
  intros i c Hc ->. vm_compute in Hc. discriminate.
Defined.

(** Evaluated: a reservation for a charging connector is refused, a started
    session consumes the reservation, and the whole exchange leaves core with
    the statuses the station reported. *)
Example sample_exchange :
  let busy := put_connector 1 (with_status "Charging" idle_connector) sample_sim in
  let asked := @v16_ReserveNow (station_end busy) sample_json_text sample_config
                 (mkReserveRequest 6 "EVSE-1" "OFFICE" (sample_time 900)) sample_world in
  let r := @sim_startTransaction sample_env sample_json_text (central sample_config "CP1") 2 "OFFICE" sample_reserved sample_world in
  asked.1 = inl (mkResult CommandOccupied "Occupied") /\ ReservationID 2 r.1.2 = 0 /\
  EVSEStatus_of "EVSE-2" (svc r.2) = Some StatusCharging /\
  (@come_online sample_env sample_json_text (central sample_config "CP1") sample_sim sample_world).1.1 = None.
Proof. vm_compute. repeat split. Qed.

(** A CancelReservation without an id matches a connector that holds none, and
    frees it in the middle of a session; a RemoteStop without an id does not. *)
Lemma cancel_zero_frees :
  let charging := put_connector 1 (mkSimConnector "Charging" 7 0 0) (set_connectors ∅ sample_sim) in
  (after_command charging ActionCancelReservation (JObj [])).1 =
    put_connector 1 (mkSimConnector "Available" 7 0 0) charging /\
  Simulator_HandleCall None ActionRemoteStopTransaction (Some (JObj [])) charging = answer "Rejected" charging [].
Proof. vm_compute. done. Qed.

(** A connector that is held already is reserved again, for the new id. *)
Lemma held_reserved_again :
  ReservationID 2 (after_command sample_reserved ActionReserveNow (ReserveNowReq 2 "2026-01-01T00:00:00Z" "OTHER" 6)).1 = 6.
Proof. vm_compute. done. Qed.
