(* ===== verification/Csms.v ===== *)
(** * The central system's connections (ocpp/csms/server.go)

    The handshake as functions of the request, and the registry of connections
    with the goroutine of each ([serveConn]) as a step relation over the world of
    core.Service: a locked section or a call of core per step, any number of
    connections, interleaved with everything else.  CsmsShutdown.v adds what
    surrounds it: listening, the handshakes under way, and Shutdown. *)

From S2P Require Import Prelude GoLib GoTime Json Ocpp Errors Config State Bus World Core.
From S2P Require Import Persist Reservations Transactions Load CoreFacts CoreInv CoreOps.
From S2P Require Import CoreTx CoreReach Samples V16ChargePoint.

(** ** The handshake *)

(** [path.Clean] of a rooted path, as its segments. *)
Definition clean_step (segs : list string) (s : string) : list string :=
  if bool_decide (s = "") || bool_decide (s = ".") then segs
  else if bool_decide (s = "..") then removelast segs
  else segs ++ [s].

Definition clean_segments (p : string) : list string := foldl clean_step [] (Split p "/"%char).

(** [chargePointID]: the last segment; [path.Base] of the root is no identity. *)
Definition chargePointID (urlPath : string) : string :=
  default "" (list.last (clean_segments urlPath)).

(** [versionList]: the supported versions' subprotocols, in preference order. *)
Definition versionList (handlers : list Ocpp.Version) : list string :=
  Subprotocol <$> filter (fun v => v ∈ handlers) [Version16; Version201].

(** [negotiate]: the first subprotocol offered that has a handler. *)
Fixpoint negotiate (handlers : list Ocpp.Version) (offers : list string) : option (Ocpp.Version * string) :=
  match offers with
  | [] => None
  | offered :: rest =>
    match VersionFromSubprotocol offered with
    | None => negotiate handlers rest
    | Some v => if bool_decide (v ∈ handlers) then Some (v, offered) else negotiate handlers rest
    end
  end.

Definition StatusNotFound : Z := 404.
Definition StatusBadRequest : Z := 400.

(** [ServeHTTP]: an HTTP error, or the connection to upgrade. *)
Definition ServeHTTP (accept : option (string -> bool)) (handlers : list Ocpp.Version)
    (urlPath : string) (offers : list string) : (string * Ocpp.Version * string) + (Z * string) :=
  let id := chargePointID urlPath in
  if bool_decide (id = "") then inr (StatusNotFound, "charge point id missing from path")
  else if negb (match accept with Some f => f id | None => true end) then
    inr (StatusNotFound, "unknown charge point")
  else match negotiate handlers offers with
       | None => inr (StatusBadRequest, "no supported OCPP subprotocol offered")
       | Some (v, sub) => inl (id, v, sub)
       end.

(** ** New *)

(** What is read of the options, and what New makes of them. *)
Record csms_Options := mkCsmsOptions {
  so_Bind : string; so_Core : bool; so_Handlers : list Ocpp.Version; so_CallTimeout : Z; so_IdleTimeout : Z }.

Definition csms_New (o : csms_Options) : csms_Options + error :=
  if negb (so_Core o) then inr (EText "csms: Core is required")
  else match so_Handlers o with
  | [] => inr (EText "csms: at least one handler is required")
  | _ => inl (mkCsmsOptions (so_Bind o) (so_Core o) (so_Handlers o)
                (if so_CallTimeout o <=? 0 then 30 * second else so_CallTimeout o)
                (if so_IdleTimeout o <=? 0 then 90 * second else so_IdleTimeout o))
  end.

(** The handshake upgrades a request only for the identity in the last
    path segment, accepted, and speaking the first version it offered that cpms
    has a handler for; nothing it offered before that one would have done. *)
Theorem ServeHTTP_upgrades accept handlers urlPath offers id v sub :
  ServeHTTP accept handlers urlPath offers = inl (id, v, sub) ->
  id = chargePointID urlPath /\ id <> "" /\ (forall f, accept = Some f -> f id = true) /\
  v ∈ handlers /\ Subprotocol v = sub /\
  exists before after, offers = before ++ sub :: after /\
    forall o v', o ∈ before -> VersionFromSubprotocol o = Some v' -> v' ∉ handlers.
Proof.
  unfold ServeHTTP. case_bool_decide as Hid; [done|].
  destruct (negb _) eqn:Ha; [done|]. destruct (negotiate handlers offers) as [[v' sub']|] eqn:En; [|done].
  intros [= <- <- <-]. split; [done|]. split; [done|]. split.
  { intros f ->. by destruct (f _). }
  clear Ha Hid. revert En. induction offers as [|o l IH]; [done|]. simpl.
  destruct (VersionFromSubprotocol o) as [vo|] eqn:Eo; [case_bool_decide as Hv|].
  - intros [= -> ->]. split; [done|]. split.
    + unfold VersionFromSubprotocol in Eo. apply first_such_Some in Eo as [_ Eo].
      by apply bool_decide_eq_true in Eo.
    + exists [], l. split; [done|]. by intros ? ? ?%not_elem_of_nil.
  - intros En. destruct (IH En) as (Hv' & Hs & before & after & -> & Hb). split; [done|]. split; [done|].
    exists (o :: before), after. split; [done|]. intros o' v1 [->|Hin]%elem_of_cons; [|by apply Hb]. congruence.
  - intros En. destruct (IH En) as (Hv' & Hs & before & after & -> & Hb). split; [done|]. split; [done|].
    exists (o :: before), after. split; [done|]. intros o' v1 [->|Hin]%elem_of_cons; [|by apply Hb]. congruence.
Qed.

(** ** Connections *)

(** Where a connection's goroutine is. *)
Inductive conn_pc :=
| PcRegistered                (* before Core.Connected *)
| PcRunning                   (* in Run *)
| PcEnded (reason : string)   (* Run has returned *)
| PcReporting (reason : string). (* unregistered as the current one, before Core.Disconnected *)

Record conn_thread := mkConnThread { ct_conn : nat; ct_id : string; ct_pc : conn_pc }.

(** The registry, the goroutines, the connections closed by the server, and the
    next connection's number. *)
Record server := mkServer {
  sv_world : World;
  conns : gmap string nat;
  sv_threads : list conn_thread;
  sv_closed : gset nat;
  sv_next : nat
}.

(** [ChargePoint] and [Command]. *)
Definition live_conn (id : string) (s : server) : option nat := conns s !! id.

Definition csms_Command (newChargePoint : option (nat -> ChargePoint + error)) (id : string) (s : server)
    : ChargePoint + error :=
  match live_conn id s with
  | None => inr (EWrap "" (ESentinel ErrNotConnected) (": " +:+ id))
  | Some c =>
    match newChargePoint with
    | None => inr (EText "csms: no NewChargePoint configured")
    | Some f => f c
    end
  end.

Section server.
Context `{MapOrder} `{Env}.

(** [Connected]: the registered identities, in the order of a map's range. *)
Definition csms_Connected (s : server) : list string := fst <$> range (conns s).

(** A new connection takes its identity over; the one it replaces is closed. *)
Definition register (id : string) (s : server) : server :=
  let c := sv_next s in
  mkServer (sv_world s) (<[id := c]> (conns s)) (mkConnThread c id PcRegistered :: sv_threads s)
    (match conns s !! id with Some old => {[old]} ∪ sv_closed s | None => sv_closed s end) (S c).

(** The end of serveConn's second locked section. *)
Definition unregistered (t : conn_thread) (reason : string) (s : server) : gmap string nat * option conn_pc :=
  if bool_decide (conns s !! ct_id t = Some (ct_conn t))
  then (delete (ct_id t) (conns s), Some (PcReporting reason))
  else (conns s, None).

Definition with_pc (t : conn_thread) (pc : conn_pc) : conn_thread := mkConnThread (ct_conn t) (ct_id t) pc.

(** A connection's goroutine goes on. *)
Inductive thread_step : server -> server -> Prop :=
| sv_connected t w cs ts1 ts2 cl n : ct_pc t = PcRegistered ->
    thread_step (mkServer w cs (ts1 ++ t :: ts2) cl n)
      (mkServer (Connected (ct_id t) w).2 cs (ts1 ++ with_pc t PcRunning :: ts2) cl n)
| sv_ended t reason w cs ts1 ts2 cl n : ct_pc t = PcRunning ->
    thread_step (mkServer w cs (ts1 ++ t :: ts2) cl n)
      (mkServer w cs (ts1 ++ with_pc t (PcEnded reason) :: ts2) cl n)
| sv_unregister t reason s cs' pc' ts1 ts2 : ct_pc t = PcEnded reason -> sv_threads s = ts1 ++ t :: ts2 ->
    unregistered t reason s = (cs', pc') ->
    thread_step s
      (mkServer (sv_world s) cs'
         (ts1 ++ match pc' with Some pc => with_pc t pc :: ts2 | None => ts2 end) (sv_closed s) (sv_next s))
| sv_disconnected t reason w cs ts1 ts2 cl n : ct_pc t = PcReporting reason ->
    thread_step (mkServer w cs (ts1 ++ t :: ts2) cl n)
      (mkServer (Disconnected (ct_id t) reason w).2 cs (ts1 ++ ts2) cl n).

Inductive server_step : server -> server -> Prop :=
| sv_other a w cs ts cl n : (forall id, a <> AConnected id) -> (forall id r, a <> ADisconnected id r) ->
    server_step (mkServer w cs ts cl n) (mkServer (run a w).2 cs ts cl n)
| sv_register id s : server_step s (register id s)
| sv_thread s s' : thread_step s s' -> server_step s s'.

Inductive server_reachable (w0 : World) : server -> Prop :=
| sr_start : server_reachable w0 (mkServer w0 ∅ [] ∅ 0)
| sr_step s s' : server_reachable w0 s -> server_step s s' -> server_reachable w0 s'.
End server.

(** ** The registry *)

(** A goroutine that has not left the registry's second section yet. *)
Definition serving (t : conn_thread) : Prop :=
  match ct_pc t with PcReporting _ => False | _ => True end.

Record server_ok (s : server) : Prop := {
  sv_fresh : forall t, t ∈ sv_threads s -> (ct_conn t < sv_next s)%nat;
  sv_nodup : NoDup (ct_conn <$> sv_threads s);
  sv_live : forall id c, conns s !! id = Some c ->
    exists t, t ∈ sv_threads s /\ ct_conn t = c /\ ct_id t = id /\ serving t;
  sv_newest : forall id c t, conns s !! id = Some c -> t ∈ sv_threads s -> ct_id t = id -> (ct_conn t <= c)%nat;
  sv_superseded : forall t, t ∈ sv_threads s -> serving t -> conns s !! ct_id t <> Some (ct_conn t) ->
    ct_conn t ∈ sv_closed s
}.

Section registry.
Context `{MapOrder} `{Env}.

Lemma server_ok_world w w' cs ts cl n : server_ok (mkServer w cs ts cl n) -> server_ok (mkServer w' cs ts cl n).
Proof. intros [S1 S2 S3 S4 S5]. by split. Qed.

Lemma server_ok_perm w cs ts ts' cl n :
  ts ≡ₚ ts' -> server_ok (mkServer w cs ts cl n) -> server_ok (mkServer w cs ts' cl n).
Proof.
  intros Hp [S1 S2 S3 S4 S5]. cbn in *. split; cbn.
  - intros t. rewrite <- Hp. apply S1.
  - by rewrite <- Hp.
  - intros id c Hc. destruct (S3 id c Hc) as (t & Ht). exists t. by rewrite <- Hp.
  - intros id c t. rewrite <- Hp. apply S4.
  - intros t. rewrite <- Hp. apply S5.
Qed.

(** The goroutine moves on while it serves. *)
Lemma server_ok_pc w cs t pc ts cl n :
  serving t -> serving (with_pc t pc) ->
  server_ok (mkServer w cs (t :: ts) cl n) -> server_ok (mkServer w cs (with_pc t pc :: ts) cl n).
Proof.
  intros Ht Ht' [S1 S2 S3 S4 S5]. cbn in *. split; cbn; try done.
  - intros t' [->|Hin]%elem_of_cons; [apply (S1 t); left | apply S1; by right].
  - intros id c Hc. destruct (S3 id c Hc) as (t' & Hin & H1 & H2 & H3).
    apply elem_of_cons in Hin as [->|Hin]; [|exists t'; split; [by right|done]].
    exists (with_pc t pc). split; [left|done].
  - intros id c t' Hc [->|Hin]%elem_of_cons; [apply (S4 id c t Hc); left | apply (S4 id c t' Hc); by right].
  - intros t' [->|Hin]%elem_of_cons; [intros _; apply (S5 t); [left|done] | apply S5; by right].
Qed.

(** A goroutine that no longer serves goes. *)
Lemma server_ok_gone w cs t ts cl n :
  ~ serving t \/ cs !! ct_id t <> Some (ct_conn t) ->
  server_ok (mkServer w cs (t :: ts) cl n) -> server_ok (mkServer w cs ts cl n).
Proof.
  intros Ht [S1 S2 S3 S4 S5]. cbn in *. apply NoDup_cons in S2 as [_ S2]. split; cbn; try done.
  - intros t' Hin. apply S1. by right.
  - intros id c Hc. destruct (S3 id c Hc) as (t' & Hin & H1 & H2 & H3).
    apply elem_of_cons in Hin as [->|Hin]; [|by exists t']. destruct Ht as [Ht|Ht]; [done|]. by subst.
  - intros id c t' Hc Hin. apply (S4 id c t' Hc). by right.
  - intros t' Hin. apply S5. by right.
Qed.

Lemma server_ok_register id s : server_ok s -> server_ok (register id s).
Proof.
  intros [S1 S2 S3 S4 S5]. split; cbn.
  - intros t [->|Hin]%elem_of_cons; cbn; [lia|]. specialize (S1 t Hin). lia.
  - apply NoDup_cons. split; [|done]. intros (t & Heq & Hin)%list_elem_of_fmap. specialize (S1 t Hin). lia.
  - intros id' c [[<- <-]|[Hne Hc]]%lookup_insert_Some.
    + eexists. split; [left|done].
    + destruct (S3 id' c Hc) as (t & Hin & Ht). exists t. split; [by right|done].
  - intros id' c t [[<- <-]|[Hne Hc]]%lookup_insert_Some [->|Hin]%elem_of_cons Hid; cbn in *.
    + lia.
    + specialize (S1 t Hin). lia.
    + done.
    + by apply (S4 id' c).
  - intros t [->|Hin]%elem_of_cons Hs Hne; cbn in *; [by rewrite lookup_insert_eq in Hne|].
    destruct (decide (conns s !! ct_id t = Some (ct_conn t))) as [Hc|Hc].
    + destruct (decide (ct_id t = id)) as [<-|Hid]; [rewrite Hc; set_solver|].
      by rewrite lookup_insert_ne in Hne.
    + specialize (S5 t Hin Hs Hc). destruct (conns s !! id); set_solver.
Qed.

Lemma server_ok_unregister w cs t pc reason ts cl n :
  cs !! ct_id t = Some (ct_conn t) -> server_ok (mkServer w cs (t :: ts) cl n) -> ct_pc t = PcEnded reason ->
  pc = PcReporting reason -> server_ok (mkServer w (delete (ct_id t) cs) (with_pc t pc :: ts) cl n).
Proof.
  intros Hc [S1 S2 S3 S4 S5] Hpc ->. cbn in *. apply NoDup_cons in S2 as [Hout S2]. split; cbn.
  - intros t' [->|Hin]%elem_of_cons; [apply (S1 t); left | apply S1; by right].
  - by apply NoDup_cons.
  - intros id c [Hne Hc']%lookup_delete_Some. destruct (S3 id c Hc') as (t' & Hin & H1 & H2 & H3).
    apply elem_of_cons in Hin as [->|Hin]; [done|]. exists t'. split; [by right|done].
  - intros id c t' [Hne Hc']%lookup_delete_Some [->|Hin]%elem_of_cons Hid; [done|].
    apply (S4 id c t' Hc'); [by right|done].
  - intros t' [->|Hin]%elem_of_cons Hs Hne; [done|].
    apply S5; [by right|done|]. intros Heq. apply Hne.
    rewrite lookup_delete_ne; [done|]. intros Hid. rewrite <- Hid, Hc in Heq. injection Heq as Heq.
    apply Hout, list_elem_of_fmap. by exists t'.
Qed.

Lemma thread_step_ok s s' : server_ok s -> thread_step s s' -> server_ok s'.
Proof.
  intros Hok Hs. destruct Hs as [t w cs ts1 ts2 cl n Hpc|t reason w cs ts1 ts2 cl n Hpc
    |t reason s cs' pc' ts1 ts2 Hpc Hts Hu|t reason w cs ts1 ts2 cl n Hpc].
  - eapply server_ok_world, server_ok_perm; [symmetry; apply to_front|].
    apply server_ok_pc; [unfold serving; by rewrite Hpc|done|].
    eapply server_ok_perm; [apply to_front | exact Hok].
  - eapply server_ok_perm; [symmetry; apply to_front|].
    apply server_ok_pc; [unfold serving; by rewrite Hpc|done|].
    eapply server_ok_perm; [apply to_front | exact Hok].
  - destruct s as [w cs ts cl n]. cbn in *. subst ts.
    eapply (server_ok_perm w cs _ _ cl n (to_front ts1 ts2 t)) in Hok.
    unfold unregistered in Hu. cbn in Hu. case_bool_decide as Hc; injection Hu as <- <-.
    + eapply server_ok_perm; [symmetry; apply to_front|]. by eapply server_ok_unregister.
    + eapply server_ok_gone; [by right | exact Hok].
  - eapply server_ok_world. apply (server_ok_gone w cs t); [left; unfold serving; rewrite Hpc; by intros []|].
    eapply server_ok_perm; [apply to_front | exact Hok].
Qed.

Lemma server_step_ok s s' : server_ok s -> server_step s s' -> server_ok s'.
Proof.
  intros Hok Hs. destruct Hs as [a w cs ts cl n _ _|id s|s s' Ht].
  - by eapply server_ok_world.
  - by apply server_ok_register.
  - by eapply thread_step_ok.
Qed.

Lemma server_reachable_ok w0 s : server_reachable w0 s -> server_ok s.
Proof.
  induction 1 as [|s s' _ IH Hs]; [|by eapply server_step_ok].
  split; cbn; try done; [by intros t ?%not_elem_of_nil|apply NoDup_nil_2|by intros t ?%not_elem_of_nil].
Qed.

(** A connection that the registry does not name, and that is not on its way to
    report, stays so. *)
Definition superseded (n : nat) (s : server) : Prop :=
  (n < sv_next s)%nat /\ (forall id, conns s !! id <> Some n) /\
  forall t, t ∈ sv_threads s -> ct_conn t = n -> serving t.

Lemma superseded_thread n s s' : superseded n s -> thread_step s s' -> superseded n s'.
Proof.
  intros (H1 & H2 & H3) Hs.
  (* the goroutine that moves goes on serving, or is over *)
  assert (Hmove : forall t pc ts1 ts2, (forall x, x ∈ ts1 ++ t :: ts2 -> ct_conn x = n -> serving x) ->
            serving (with_pc t pc) -> forall x, x ∈ ts1 ++ with_pc t pc :: ts2 -> ct_conn x = n -> serving x).
  { intros t pc ts1 ts2 Hall Hpc x. rewrite elem_of_app, elem_of_cons. intros [Hx|[->|Hx]] Hn; [..|].
    - apply Hall; [|done]. set_solver.
    - done.
    - apply Hall; [|done]. set_solver. }
  destruct Hs as [t w cs ts1 ts2 cl k Ht|t reason w cs ts1 ts2 cl k Ht|t reason s cs' pc' ts1 ts2 Ht Hts Hu|
                  t reason w cs ts1 ts2 cl k Ht]; cbn in *; split_and!; cbn; try done.
  - by apply (Hmove t).
  - by apply (Hmove t).
  - unfold unregistered in Hu. case_bool_decide; injection Hu as <- <-; [|done].
    intros id [_ Hc]%lookup_delete_Some. by apply (H2 id).
  - unfold unregistered in Hu. rewrite Hts in H3. case_bool_decide as Hc; injection Hu as <- <-.
    + intros x. rewrite elem_of_app, elem_of_cons. intros [Hx|[->|Hx]] Hn; [apply H3; set_solver| |apply H3; set_solver].
      cbn in Hn. subst n. by apply H2 in Hc.
    + intros x Hx. apply H3. set_solver.
  - intros x Hx. apply H3. set_solver.
Qed.

Lemma superseded_step n s s' : superseded n s -> server_step s s' -> superseded n s'.
Proof.
  intros Hsup Hs. destruct Hs as [a w cs ts cl k Ha Ha'|id s|s s' Hs]; [done| |by eapply superseded_thread].
  destruct Hsup as (H1 & H2 & H3). split; [cbn; lia|]. split; cbn.
  - intros k. destruct (decide (k = id)) as [->|Hk]; [rewrite lookup_insert_eq; intros [= ?]; lia|].
    rewrite lookup_insert_ne by done. apply H2.
  - intros t [->|Ht]%elem_of_cons; [done|by apply H3].
Qed.

(** C20: the registry names the newest connection.  While an identity is
    registered its connection's goroutine is serving, and every other connection
    of that identity is older.  One of those that still serves has been closed,
    and whatever happens later never comes to report the station offline.  (One
    that ended before it was replaced may be about to, see [reconnect_race].) *)
Theorem registry_names_newest w0 s id c :
  server_reachable w0 s -> live_conn id s = Some c ->
  (exists t, t ∈ sv_threads s /\ ct_conn t = c /\ ct_id t = id /\ serving t) /\
  (forall t, t ∈ sv_threads s -> ct_id t = id -> ct_conn t <> c ->
     (ct_conn t < c)%nat /\
     (serving t -> ct_conn t ∈ sv_closed s /\
        forall s' t', rtc server_step s s' -> t' ∈ sv_threads s' -> ct_conn t' = ct_conn t ->
          forall reason, ct_pc t' <> PcReporting reason)).
Proof.
  intros Hr Hc. unfold live_conn in Hc. destruct (server_reachable_ok w0 s Hr) as [S1 S2 S3 S4 S5].
  split; [by apply S3|]. intros t Hin Hid Hne. pose proof (S4 id c t Hc Hin Hid).
  assert (Hn : conns s !! ct_id t <> Some (ct_conn t)) by (rewrite Hid, Hc; congruence).
  split; [lia|]. intros Hsv. split; [by apply S5|].
  assert (Hone : forall x, x ∈ sv_threads s -> ct_conn x = ct_conn t -> x = t).
  { intros x Hx Hxc. apply list_elem_of_lookup in Hx as [i Hi]. apply list_elem_of_lookup in Hin as [j Hj].
    assert (i = j) as ->; [|congruence]. eapply NoDup_lookup; [exact S2| |];
      rewrite list_lookup_fmap; [by rewrite Hi|by rewrite Hj, Hxc]. }
  assert (Hsup : superseded (ct_conn t) s).
  { split; [by apply S1|]. split; [|by intros x Hx Hxc; rewrite (Hone x Hx Hxc)].
    intros k Hk. destruct (S3 k _ Hk) as (x & Hx & Hxc & Hxk & _). rewrite (Hone x Hx Hxc) in Hxk. by subst k. }
  intros s' t' Hs Hin' Hc' reason Hpc.
  assert (Hsup' : superseded (ct_conn t) s').
  { clear - Hsup Hs. induction Hs as [|s s1 s2 Hst _ IH]; [done|]. by eapply IH, superseded_step. }
  pose proof (proj2 (proj2 Hsup') t' Hin' Hc') as Hv. unfold serving in Hv. by rewrite Hpc in Hv.
Qed.

(** [Connected] lists the registered identities, each once. *)
Lemma Connected_lists s :
  NoDup (csms_Connected s) /\ forall id, id ∈ csms_Connected s <-> is_Some (live_conn id s).
Proof.
  unfold csms_Connected, live_conn. split.
  - rewrite (range_perm (conns s)). apply NoDup_fst_map_to_list.
  - intros id. rewrite (range_perm (conns s)), list_elem_of_fmap. split.
    + intros ([id' c] & -> & Hin%elem_of_map_to_list). by exists c.
    + intros [c Hc]. exists (id, c). split; [done|]. by apply elem_of_map_to_list.
Qed.
End registry.

(** ** Instances *)

#[local] Existing Instance key_order.
#[local] Existing Instance sample_env.

Lemma ServeHTTP_upgrades_witness :
  Version16 ∈ [Version16] /\ Subprotocol Version16 = "ocpp1.6".
Proof.
  assert (E : ServeHTTP (Some (fun id => bool_decide (id = "CP1"))) [Version16] "/steve/websocket/CP1/"
                ["ocpp2.0.1"; "ocpp1.6"] = inl ("CP1", Version16, "ocpp1.6")) by (vm_compute; reflexivity).
  destruct (ServeHTTP_upgrades _ _ _ _ _ _ _ E) as (_ & _ & _ & Hv & Hs & _). exact (conj Hv Hs).
Defined.

Definition csms_start : World := New (Some sample_config) (Some sample_store).
Definition cp1 (c : nat) (pc : conn_pc) : conn_thread := mkConnThread c "CP1" pc.
Definition first_up : World := (Connected "CP1" csms_start).2.
Definition second_up : World := (Connected "CP1" first_up).2.

(** The second connection has been made while the first is still being served. *)
Definition replaced : server :=
  register "CP1" (mkServer first_up (<["CP1" := 0%nat]> ∅) [cp1 0 PcRunning] ∅ 1).

Lemma replaced_reachable : server_reachable csms_start replaced.
Proof.
  apply (sr_step csms_start (mkServer first_up (<["CP1" := 0%nat]> ∅) [cp1 0 PcRunning] ∅ 1)); [|apply sv_register].
  apply (sr_step csms_start (register "CP1" (mkServer csms_start ∅ [] ∅ 0))).
  - apply (sr_step csms_start (mkServer csms_start ∅ [] ∅ 0)); [apply sr_start | apply sv_register].
  - apply sv_thread, (sv_connected (cp1 0 PcRegistered) csms_start (<["CP1" := 0%nat]> ∅) [] [] ∅ 1). reflexivity.
Defined.

Lemma registry_names_newest_witness :
  (0 < 1)%nat /\ 0%nat ∈ sv_closed replaced /\
  forall s' t', rtc server_step replaced s' -> t' ∈ sv_threads s' -> ct_conn t' = 0%nat ->
    forall reason, ct_pc t' <> PcReporting reason.
Proof.
  destruct (proj2 (registry_names_newest csms_start replaced "CP1" 1 replaced_reachable eq_refl) (cp1 0 PcRunning))
    as [Hlt Hs]; [right; left | reflexivity | discriminate |].
  split; [exact Hlt|]. apply Hs. exact I.
Defined.

(** A reconnect can overtake the report of the disconnect before it: the first
    connection has left the registry but not yet told core, the second registers
    and comes online, and then the first's Disconnected marks the station
    offline although its connection is registered and running. *)
Theorem reconnect_race :
  exists s, server_reachable csms_start s /\ live_conn "CP1" s = Some 1%nat /\
    cp1 1 PcRunning ∈ sv_threads s /\ IsOnline "CP1" (svc (sv_world s)) = false.
Proof.
  exists (mkServer (Disconnected "CP1" "gone" second_up).2 (<["CP1" := 1%nat]> ∅) [cp1 1 PcRunning] ∅ 2).
  split; [|split; [reflexivity|split; [left | vm_compute; reflexivity]]].
  apply (sr_step _ (mkServer second_up (<["CP1" := 1%nat]> ∅) [cp1 1 PcRunning; cp1 0 (PcReporting "gone")] ∅ 2)).
  2: { apply sv_thread, (sv_disconnected (cp1 0 (PcReporting "gone")) "gone" second_up _ [cp1 1 PcRunning] [] ∅ 2). reflexivity. }
  apply (sr_step _ (register "CP1" (mkServer first_up ∅ [cp1 0 (PcReporting "gone")] ∅ 1))).
  2: { unfold second_up. apply sv_thread, (sv_connected (cp1 1 PcRegistered) first_up _ [] [cp1 0 (PcReporting "gone")] ∅ 2). reflexivity. }
  apply (sr_step _ (mkServer first_up ∅ [cp1 0 (PcReporting "gone")] ∅ 1)); [|apply sv_register].
  apply (sr_step _ (mkServer first_up (<["CP1" := 0%nat]> ∅) [cp1 0 (PcEnded "gone")] ∅ 1)).
  2: { apply sv_thread, (sv_unregister (cp1 0 (PcEnded "gone")) "gone"
                (mkServer first_up (<["CP1" := 0%nat]> ∅) [cp1 0 (PcEnded "gone")] ∅ 1) ∅
                (Some (PcReporting "gone")) [] []); [reflexivity | reflexivity | vm_compute; reflexivity]. }
  apply (sr_step _ (mkServer first_up (<["CP1" := 0%nat]> ∅) [cp1 0 PcRunning] ∅ 1)).
  2: { apply sv_thread, (sv_ended (cp1 0 PcRunning) "gone" first_up _ [] [] ∅ 1). reflexivity. }
  apply (sr_step csms_start (register "CP1" (mkServer csms_start ∅ [] ∅ 0))).
  - apply (sr_step csms_start (mkServer csms_start ∅ [] ∅ 0)); [apply sr_start | apply sv_register].
  - apply sv_thread, (sv_connected (cp1 0 PcRegistered) csms_start (<["CP1" := 0%nat]> ∅) [] [] ∅ 1). reflexivity.
Qed.
