(* ===== verification/Control.v ===== *)
(** * The control layer (control/control.go, control/errors.go)

    The one place that acts on the station: "allocate an id, record it, send the
    command, interpret the answer".  A station call runs in the world of
    core.Service, because everything else goes on while it waits: its result is
    an answer or an error and the world as it is by then.

    [Ctl] is the service's own state: whether it is closed, its WaitGroup, and
    the background cancels its Reserve calls have started.  Contexts are not
    modelled beyond the error a call ends with. *)

From S2P Require Import Prelude GoLib GoTime Ocpp Errors Config State Bus World Core.
From S2P Require Import Persist Reservations Transactions V16ChargePoint.

Definition DefaultReservationLength : Z := 15 * minute.

(** [Commander]: the command interface of a connected charge point, read from
    the CSMS's registry. *)
Class Commander := { Command : string -> World -> ChargePoint + error }.

Record ReserveParams := mkReserveParams {
  pa_EVSEUID : string;
  pa_IDTag : string;
  pa_ExpiresAt : Time;
  pa_ExpiresIn : Z;
  pa_Source : string;
  pa_OCPIReservationID : string;
  pa_ResponseURL : string
}.

(** A background cancel: the connection that carried the ReserveNow, the
    reservation, and why it ended. *)
Record Orphan := mkOrphan { or_cp : ChargePoint; or_res : Reservation; or_reason : string }.

Record Ctl := mkCtl { closed : bool; inflight : Z; orphans : list Orphan }.

Definition new_ctl : Ctl := mkCtl false 0 [].

Definition inflight_Add (n : Z) (c : Ctl) : Ctl := mkCtl (closed c) (inflight c + n) (orphans c).

(** [endReason]. *)
Definition endReason (err : error) : string :=
  if errors_is err ErrTimeout then ReservationTimeout else ReservationFailed.

Section control.
Context `{MapOrder} `{Env} `{Commander} (cfg : Config).

Definition checkEVSE (evseUID : string) : option error :=
  match EVSEByUID cfg evseUID with
  | None => Some (EWrap "" (ESentinel ErrUnknownEVSE) (" " +:+ Quote evseUID))
  | Some _ => None
  end.

Definition chargePoint : M (ChargePoint + error) := gets (Command (ch_ID (cf_Charger cfg))).

Definition tagOrDefault (tag : string) : string :=
  if bool_decide (tag = "") then DefaultIDTag (cf_Auth cfg) else tag.

(** When a reservation ends: the caller's time, or a length from now. *)
Definition reserve_expiry (p : ReserveParams) : M Time :=
  if IsZero (pa_ExpiresAt p) then
    t <- now ;;
    M_ret (TimeAdd t (if pa_ExpiresIn p <=? 0 then DefaultReservationLength else pa_ExpiresIn p))
  else M_ret (pa_ExpiresAt p).

Definition reserve_record (cp : ChargePoint) (p : ReserveParams) (expiresAt : Time) : Reservation :=
  mkReservation 0 (pa_OCPIReservationID p) (ID (ChargePoint := cp)) (pa_EVSEUID p) 0
    (tagOrDefault (pa_IDTag p)) expiresAt zeroTime (pa_Source p) (pa_ResponseURL p) ReservationUnset.

Definition reserve_request (r : Reservation) : ReserveRequest :=
  mkReserveRequest (rv_ID r) (rv_EVSEUID r) (rv_IDTag r) (rv_ExpiresAt r).

(** What follows the station's answer: the result, and a background cancel. *)
Definition reserve_answered (cp : ChargePoint) (r : Reservation) (answer : Result + error)
    : M ((Reservation + error) * option Orphan) :=
  match answer with
  | inr err =>
    OrphanReservation (rv_ID r) (endReason err) ;;
    M_ret (inr err, Some (mkOrphan cp r (endReason err)))
  | inl res =>
    if bool_decide (Status res = CommandAccepted) then
      active <- ActivateReservation (rv_ID r) ;;
      M_ret (match active with
             | None => inr (EText ("reservation " +:+ Itoa (rv_ID r) +:+ " vanished while it was pending"))
             | Some active => inl active
             end, None)
    else
      EndReservation (rv_ID r) ReservationRejected ;;
      M_ret (inr (refused OpReserve (rv_EVSEUID r) res), None)
  end.

(** Reserve once it has been counted in. *)
Definition Reserve_call (p : ReserveParams) : M ((Reservation + error) * option Orphan) :=
  match checkEVSE (pa_EVSEUID p) with
  | Some err => M_ret (inr err, None)
  | None =>
    found <- chargePoint ;;
    match found with
    | inr err => M_ret (inr err, None)
    | inl cp =>
      expiresAt <- reserve_expiry p ;;
      begun <- BeginReservation (reserve_record cp p expiresAt) ;;
      match begun with
      | inr err => M_ret (inr err, None)
      | inl r =>
        answer <- ReserveNow (ChargePoint := cp) (reserve_request r) ;;
        reserve_answered cp r answer
      end
    end
  end.

Definition spawn (o : Orphan) (c : Ctl) : Ctl :=
  let c := inflight_Add 1 c in mkCtl (closed c) (inflight c) (o :: orphans c).

Definition Reserve (p : ReserveParams) (c : Ctl) : M ((Reservation + error) * Ctl) :=
  if closed c then M_ret (inr (ESentinel ErrShuttingDown), c)
  else
    let c := inflight_Add 1 c in
    out <- Reserve_call p ;;
    let c := match out.2 with Some o => spawn o c | None => c end in
    M_ret (out.1, inflight_Add (-1) c).

(** [cancelOrphan]: best effort; the answer is only logged. *)
Definition cancelOrphan (cp : ChargePoint) (r : Reservation) : M unit :=
  answer <- CancelReservation (ChargePoint := cp) (rv_ID r) ;;
  M_ret tt.

(** The goroutine Reserve starts, but for its [inflight.Done()]. *)
Definition run_orphan (o : Orphan) : M unit :=
  cancelOrphan (or_cp o) (or_res o) ;;
  EndReservation (rv_ID (or_res o)) (or_reason o) ;;
  M_ret tt.

(** An error after a wrapper: [fmt.Errorf("%s: %w", uid, err)]. *)
Definition Cancel (evseUID : string) : M (option error) :=
  match checkEVSE evseUID with
  | Some err => M_ret (Some err)
  | None =>
    active <- gets (fun w => ActiveReservation evseUID (svc w)) ;;
    match active with
    | None => M_ret (Some (wrap_colon evseUID (ESentinel ErrNoReservation)))
    | Some r =>
      found <- chargePoint ;;
      match found with
      | inr err => M_ret (Some err)
      | inl cp =>
        answer <- CancelReservation (ChargePoint := cp) (rv_ID r) ;;
        match answer with
        | inr err => M_ret (Some err)
        | inl res =>
          EndReservation (rv_ID r) ReservationCancelled ;;
          M_ret (if bool_decide (Status res = CommandAccepted) then None
                 else Some (refused OpCancel evseUID res))
        end
      end
    end
  end.

(** A command whose answer is a status to be [want]. *)
Definition answered (op : Op) (evseUID : string) (want : CommandStatus) (answer : Result + error)
    : option error :=
  match answer with
  | inr err => Some err
  | inl res => if bool_decide (Status res = want) then None else Some (refused op evseUID res)
  end.

Definition Start (evseUID idTag : string) : M (option error) :=
  match checkEVSE evseUID with
  | Some err => M_ret (Some err)
  | None =>
    found <- chargePoint ;;
    match found with
    | inr err => M_ret (Some err)
    | inl cp =>
      next <- NextRemoteStartID ;;
      match next with
      | inr err => M_ret (Some (EWrap "recording the remote start: " err ""))
      | inl remoteStartID =>
        answer <- RemoteStart (ChargePoint := cp)
                    (mkRemoteStartRequest remoteStartID evseUID (tagOrDefault idTag)) ;;
        M_ret (answered OpStart evseUID CommandAccepted answer)
      end
    end
  end.

Definition guess_error (evseUID : string) (txs : list Transaction) : error :=
  EText (evseUID +:+ " has " +:+ Itoa (Z.of_nat (length txs)) +:+ " active transactions (" +:+
         Join ", " (tx_ID <$> txs) +:+ "); refusing to guess which to stop").

Definition Stop (evseUID : string) : M (option error) :=
  match checkEVSE evseUID with
  | Some err => M_ret (Some err)
  | None =>
    txs <- gets (fun w => ActiveTransactions evseUID (svc w)) ;;
    match txs with
    | [] => M_ret (Some (wrap_colon evseUID (ESentinel ErrNoActiveTransaction)))
    | [tx] =>
      found <- chargePoint ;;
      match found with
      | inr err => M_ret (Some err)
      | inl cp =>
        answer <- RemoteStop (ChargePoint := cp) (tx_ID tx) ;;
        M_ret (answered OpStop evseUID CommandAccepted answer)
      end
    | _ => M_ret (Some (guess_error evseUID txs))
    end
  end.

Definition Unlock (evseUID : string) : M (option error) :=
  match checkEVSE evseUID with
  | Some err => M_ret (Some err)
  | None =>
    found <- chargePoint ;;
    match found with
    | inr err => M_ret (Some err)
    | inl cp =>
      answer <- UnlockConnector (ChargePoint := cp) evseUID ;;
      M_ret (answered OpUnlock evseUID CommandUnlocked answer)
    end
  end.

Definition ctl_TriggerStatus (evseUID : string) : M (option error) :=
  match checkEVSE evseUID with
  | Some err => M_ret (Some err)
  | None =>
    found <- chargePoint ;;
    match found with
    | inr err => M_ret (Some err)
    | inl cp =>
      answer <- TriggerStatus (ChargePoint := cp) evseUID ;;
      M_ret (answered OpTriggerStatus evseUID CommandAccepted answer)
    end
  end.

Definition ctl_Probe : M (ProbeReport + error) :=
  found <- chargePoint ;;
  match found with
  | inr err => M_ret (inr err)
  | inl cp => Probe (ChargePoint := cp)
  end.

(** [Close] up to its wait: it returns once [inflight] is zero. *)
Definition ctl_Close (c : Ctl) : Ctl := mkCtl true (inflight c) (orphans c).
End control.
