(* ===== verification/ControlProps.v ===== *)
(** * What the control layer promises

    A station call is taken together with everything that happens while it
    waits: [minds id m] is what a thread that made reservation [id] relies on,
    namely that whatever else core did meanwhile, nobody but that thread decided
    about [id].  Under it, Reserve's outcomes are what its documentation says,
    and a record whose ReserveNow got no answer keeps its EVSE until the
    background cancel is through. *)

From S2P Require Import Prelude GoLib GoTime Json Ocpp Errors Config State Bus World Core.
From S2P Require Import Persist Reservations Transactions Load CoreFacts CoreInv CoreOps.
From S2P Require Import CoreTx CoreReach Samples CoreEvents CoreCounters Restart CoreProps Acts.
From S2P Require Import ReservationFacts V16Status V16Messages V16ChargePoint Control.

Section control.
Context `{MapOrder} `{Env}.

Definition minds (id : Z) {A} (m : M A) : Prop :=
  forall w, core_ok w -> has_ids w -> steps (spares id) w (m w).2 /\ has_ids (m w).2.

(** A station whose two reservation commands mind the reservation they are about. *)
Record careful (cp : ChargePoint) : Prop := {
  careful_reserve : forall q, minds (rq_ReservationID q) (ReserveNow (ChargePoint := cp) q);
  careful_cancel : forall id, minds id (CancelReservation (ChargePoint := cp) id)
}.

Lemma minds_keeps {A} id (m : M A) w : minds id m -> core_ok w -> has_ids w -> core_ok (m w).2.
Proof. intros Hm Hw Hid. destruct (Hm w Hw Hid) as [Hs _]. by apply (steps_ok (spares id) w). Qed.

Section reserve.
Context `{Commander} (c : Config).

Lemma reserve_expiry_world p w :
  core_ok w -> has_ids w ->
  core_ok (reserve_expiry p w).2 /\ has_ids (reserve_expiry p w).2 /\ svc (reserve_expiry p w).2 = svc w.
Proof.
  intros Hw Hid. unfold reserve_expiry. destruct (IsZero _); [|done].
  rewrite M_bind_eq. cbn [snd M_ret]. split; [by apply keeps_now_core | done].
Qed.

(** After the station's answer, whatever it is. *)
Lemma reserve_answered_outcome cp r answer w :
  core_ok w -> reservations (svc w) !! rv_ID r = Some (mkRes r None) -> rv_Status r = ReservationPending ->
  let (out, w') := reserve_answered cp r answer w in
  match answer with
  | inr err =>
    out = (inr err, Some (mkOrphan cp r (endReason err))) /\
    reservations (svc w') !! rv_ID r = Some (mkRes (set_status ReservationCancelling r) None)
  | inl res =>
    if bool_decide (Status res = CommandAccepted) then
      out = (inl (set_status ReservationActive r), None) /\
      exists h, reservations (svc w') !! rv_ID r = Some (mkRes (set_status ReservationActive r) (Some h))
    else
      out = (inr (refused OpReserve (rv_EVSEUID r) res), None) /\
      reservations (svc w') !! rv_ID r = None
  end.
Proof.
  intros Hw E Hp. unfold reserve_answered. destruct answer as [r'|err]; [case_bool_decide|].
  - rewrite M_bind_eq. pose proof (Activate_reservations (rv_ID r) w Hw) as Ha.
    rewrite E, decide_True in Ha by done. destruct Ha as [-> Hr]. cbn [fst snd M_ret].
    split; [done|]. eexists. rewrite Hr. apply lookup_insert_eq.
  - rewrite M_bind_eq. destruct (End_reservations (rv_ID r) ReservationRejected w Hw) as [_ Hr].
    cbn [fst snd M_ret]. split; [done|]. rewrite Hr. apply lookup_delete_eq.
  - rewrite M_bind_eq. pose proof (Orphan_reservations (rv_ID r) (endReason err) w Hw) as Ho.
    rewrite E, decide_True in Ho by done. destruct Ho as [_ Hr].
    cbn [fst snd M_ret]. split; [done|]. rewrite Hr. apply lookup_insert_eq.
Qed.

(** Reserve, branch by branch: refused before anything is sent; or recorded,
    sent, and then as the station's answer says. *)
Definition Reserve_contract (p : ReserveParams) (w : World) : Prop :=
  match checkEVSE c (pa_EVSEUID p), Command (ch_ID (cf_Charger c)) w with
  | Some err, _ | None, inr err => Reserve_call c p w = ((inr err, None), w)
  | None, inl cp =>
    exists t w0 begun w1, reserve_expiry p w = (t, w0) /\
    BeginReservation (reserve_record c cp p t) w0 = (begun, w1) /\
    match begun with
    | inr err => Reserve_call c p w = ((inr err, None), w1)
    | inl r =>
      exists answer w2, ReserveNow (ChargePoint := cp) (reserve_request r) w1 = (answer, w2) /\
      exists out w', Reserve_call c p w = (out, w') /\
      match answer with
      | inr err =>
        out = (inr err, Some (mkOrphan cp r (endReason err))) /\
        reservations (svc w') !! rv_ID r = Some (mkRes (set_status ReservationCancelling r) None)
      | inl res =>
        if bool_decide (Status res = CommandAccepted) then
          out = (inl (set_status ReservationActive r), None) /\
          exists h, reservations (svc w') !! rv_ID r = Some (mkRes (set_status ReservationActive r) (Some h))
        else
          out = (inr (refused OpReserve (rv_EVSEUID r) res), None) /\
          reservations (svc w') !! rv_ID r = None
      end
    end
  end.

(** C6: every outcome of Reserve.  An unknown EVSE, a missing station and a
    refusal by core send nothing.  Once sent, an accepted reservation is active
    in core with its expiry armed (it cannot have vanished meanwhile), a refused
    one is gone, and one without an answer stays as cancelling, handed to the
    background cancel with the reason its end was announced with. *)
Theorem Reserve_outcomes p w :
  core_ok w -> nextReservationID (svc w) + 1 < int_max ->
  (forall cp, Command (ch_ID (cf_Charger c)) w = inl cp -> careful cp) ->
  Reserve_contract p w.
Proof.
  intros Hw Hnext Hcp. assert (Hid : has_ids w) by (unfold has_ids; lia). unfold Reserve_contract, Reserve_call.
  destruct (checkEVSE c (pa_EVSEUID p)); [done|].
  unfold chargePoint. rewrite M_bind_eq. cbn [fst snd gets].
  destruct (Command _ w) as [cp|err] eqn:Ec; [|done]. specialize (Hcp cp eq_refl).
  rewrite M_bind_eq. destruct (reserve_expiry_world p w Hw Hid) as (Hw0 & Hid0 & Es).
  destruct (reserve_expiry p w) as [t w0] eqn:Et. cbn [fst snd] in *.
  rewrite M_bind_eq. pose proof (Begin_reservations (reserve_record c cp p t) w0 Hw0 Hid0) as Hb.
  pose proof (keeps_BeginReservation (reserve_record c cp p t) w0 (conj Hw0 Hid0)) as Hw1.
  destruct (BeginReservation _ w0) as [begun w1] eqn:Eb. cbn [fst snd] in *.
  exists t, w0, begun, w1. split; [done|]. split; [done|].
  destruct begun as [r|err]; [|done]. destruct Hb as (_ & Hp & _ & _ & _ & _ & _ & Hr).
  assert (E1 : reservations (svc w1) !! rv_ID r = Some (mkRes r None)) by (rewrite Hr; apply lookup_insert_eq).
  assert (Hid1 : has_ids w1).
  { pose proof (Begin_next (reserve_record c cp p t) w0 Hw0 Hid0) as Hn. rewrite Eb in Hn.
    unfold has_ids. cbn [snd] in Hn. rewrite Es in Hn. lia. }
  rewrite M_bind_eq. destruct (careful_reserve cp Hcp (reserve_request r) w1 Hw1 Hid1) as [Hs _].
  destruct (ReserveNow _ w1) as [answer w2] eqn:Er. cbn [fst snd] in *.
  exists answer, w2. split; [done|].
  pose proof (reserve_answered_outcome cp r answer w2 (steps_ok _ _ _ Hw1 Hs)
                (steps_spared (rv_ID r) _ w1 w2 Hw1 Hs E1 ltac:(cbn; by rewrite Hp)) Hp) as Ho.
  destruct (reserve_answered cp r answer w2) as [out w']. by exists out, w'.
Qed.

(** ** The record of an unanswered ReserveNow *)

(** A cancelling record holds its EVSE.  Whatever others do meanwhile,
    nobody can reserve that EVSE, so no ReserveNow overtakes the cancel; and
    when the background cancel is through, however it was answered, the record
    is gone. *)
Theorem orphan_holds_then_frees o r w w' :
  core_ok w -> careful (or_cp o) ->
  reservations (svc w) !! rv_ID (or_res o) = Some r -> rv_Status (res r) = ReservationCancelling ->
  steps (spares (rv_ID (or_res o))) w w' -> has_ids w' ->
  (forall q, rv_EVSEUID q = rv_EVSEUID (res r) ->
     exists e, (BeginReservation q w').1 = inr e /\ errors_is e ErrAlreadyReserved = true /\
               (BeginReservation q w').2 = w') /\
  reservations (svc (run_orphan o w').2) !! rv_ID (or_res o) = None.
Proof.
  intros Hw Hcp E Hst Hs Hid. pose proof (steps_ok _ _ _ Hw Hs) as Hw'.
  assert (E' : reservations (svc w') !! rv_ID (or_res o) = Some r).
  { eapply steps_spared; [exact Hw|exact Hs|exact E|]. by rewrite Hst. }
  split.
  - intros q Hq. unfold BeginReservation. rewrite M_bind_eq, Begin_locked_eq.
    rewrite Hq, (re_evse _ _ _ (rk_res w' (proj2 Hw') _ r E')).
    destruct (reservationOnLocked _ _) as [r0|] eqn:Eo.
    + eexists. split; [reflexivity|]. done.
    + rewrite reservationOnLocked_None in Eo. by destruct (Eo _ _ E').
  - unfold run_orphan, cancelOrphan. rewrite M_bind_eq, M_bind_eq. cbn [fst snd M_ret].
    rewrite M_bind_eq. cbn [snd M_ret].
    pose proof (minds_keeps _ _ _ (careful_cancel _ Hcp (rv_ID (or_res o))) Hw' Hid) as Hk.
    destruct (End_reservations (rv_ID (or_res o)) (or_reason o) _ Hk) as [_ ->]. apply lookup_delete_eq.
Qed.

(** ** The other commands *)

(** Cancel, branch by branch. *)
Definition Cancel_contract (uid : string) (w : World) : Prop :=
  match checkEVSE c uid, ActiveReservation uid (svc w), Command (ch_ID (cf_Charger c)) w with
  | Some err, _, _ => Cancel c uid w = (Some err, w)
  | None, None, _ => exists err, Cancel c uid w = (Some err, w) /\ errors_is err ErrNoReservation = true
  | None, Some _, inr err => Cancel c uid w = (Some err, w)
  | None, Some r, inl cp =>
    exists answer w1 w', CancelReservation (ChargePoint := cp) (rv_ID r) w = (answer, w1) /\
    match answer with
    | inr err => Cancel c uid w = (Some err, w1)
    | inl res =>
      Cancel c uid w = (if bool_decide (Status res = CommandAccepted) then None
                        else Some (refused OpCancel uid res), w') /\
      reservations (svc w') = delete (rv_ID r) (reservations (svc w1))
    end
  end.

(** Cancel sends nothing without an active reservation on the EVSE and a
    connected station; without an answer it leaves the record alone; and once
    the station has answered, yes or no, exactly that record is dropped, and a
    no is reported as a refusal. *)
Theorem Cancel_outcomes uid w :
  core_ok w -> has_ids w ->
  (forall cp, Command (ch_ID (cf_Charger c)) w = inl cp -> careful cp) ->
  Cancel_contract uid w.
Proof.
  intros Hw Hid Hcp. unfold Cancel_contract, Cancel. destruct (checkEVSE c uid); [done|].
  rewrite M_bind_eq. cbn [fst snd gets]. destruct (ActiveReservation uid (svc w)) as [r|].
  2: { eexists. split; [reflexivity|]. done. }
  unfold chargePoint. rewrite M_bind_eq. cbn [fst snd gets].
  destruct (Command _ w) as [cp|err] eqn:Ec; [|done]. specialize (Hcp cp eq_refl).
  rewrite M_bind_eq.
  pose proof (minds_keeps _ _ _ (careful_cancel cp Hcp (rv_ID r)) Hw Hid) as Hk.
  destruct (CancelReservation (rv_ID r) w) as [answer w1]. cbn [fst snd] in *.
  destruct answer as [res|err].
  - rewrite M_bind_eq. cbn [M_ret]. destruct (End_reservations (rv_ID r) ReservationCancelled w1 Hk) as [_ Hr].
    do 3 eexists. split; [reflexivity|]. split; [reflexivity | exact Hr].
  - exists (inr err), w1, w1. done.
Qed.

Lemma answered_None op uid want answer :
  answered op uid want answer = None -> exists res, answer = inl res /\ Status res = want.
Proof. unfold answered. destruct answer as [res|]; [|done]. case_bool_decide; [by exists res | done]. Qed.

Lemma checkEVSE_None uid : checkEVSE c uid = None <-> is_Some (EVSEByUID c uid).
Proof. unfold checkEVSE. destruct (EVSEByUID c uid); split; done. Qed.

(** The last lap the commands share: ask the registry, call, judge the answer. *)
Lemma commanded (call : ChargePoint -> M (option error)) w w' :
  (found <- chargePoint c ;; match found with inr err => M_ret (Some err) | inl cp => call cp end) w = (None, w') ->
  exists cp, Command (ch_ID (cf_Charger c)) w = inl cp /\ call cp w = (None, w').
Proof.
  unfold chargePoint. rewrite M_bind_eq. cbn [fst snd gets].
  destruct (Command _ w) as [cp|err]; [by exists cp | done].
Qed.

Lemma called op uid want (call : M (Result + error)) w w' :
  (answer <- call ;; M_ret (answered op uid want answer)) w = (None, w') ->
  exists res, call w = (inl res, w') /\ Status res = want.
Proof.
  rewrite M_bind_eq. destruct (call w) as [answer w1]. intros [= Ha ->].
  destruct (answered_None _ _ _ _ Ha) as (res & -> & Hs). by exists res.
Qed.

(** A command succeeds only if the station was asked exactly that and
    said yes: a start under a remote start id core has recorded, a stop of the
    one transaction that runs on the EVSE, an unlock answered Unlocked, a
    status trigger answered Accepted; always for a configured EVSE. *)
Theorem commands_sound uid tag w w' :
  (Start c uid tag w = (None, w') ->
   exists cp id w1 res, is_Some (EVSEByUID c uid) /\ Command (ch_ID (cf_Charger c)) w = inl cp /\
     NextRemoteStartID w = (inl id, w1) /\
     RemoteStart (ChargePoint := cp) (mkRemoteStartRequest id uid (tagOrDefault c tag)) w1 = (inl res, w') /\
     Status res = CommandAccepted) /\
  (Stop c uid w = (None, w') ->
   exists cp tx res, is_Some (EVSEByUID c uid) /\ Command (ch_ID (cf_Charger c)) w = inl cp /\
     ActiveTransactions uid (svc w) = [tx] /\
     RemoteStop (ChargePoint := cp) (tx_ID tx) w = (inl res, w') /\ Status res = CommandAccepted) /\
  (Unlock c uid w = (None, w') ->
   exists cp res, is_Some (EVSEByUID c uid) /\ Command (ch_ID (cf_Charger c)) w = inl cp /\
     UnlockConnector (ChargePoint := cp) uid w = (inl res, w') /\ Status res = CommandUnlocked) /\
  (ctl_TriggerStatus c uid w = (None, w') ->
   exists cp res, is_Some (EVSEByUID c uid) /\ Command (ch_ID (cf_Charger c)) w = inl cp /\
     TriggerStatus (ChargePoint := cp) uid w = (inl res, w') /\ Status res = CommandAccepted).
Proof.
  assert (Hc : forall (m : M (option error)),
    (match checkEVSE c uid with Some err => M_ret (Some err) | None => m end) w = (None, w') ->
    is_Some (EVSEByUID c uid) /\ m w = (None, w')).
  { intros m. destruct (checkEVSE c uid) eqn:E; [done|]. rewrite checkEVSE_None in E. done. }
  split; [|split; [|split]].
  - intros (Hu & (cp & Hcp & Hs)%commanded)%Hc. rewrite M_bind_eq in Hs.
    destruct (NextRemoteStartID w) as [[id|err] w1]; [|done]. cbn [fst snd] in Hs.
    apply called in Hs as (res & Hr & Ha). by exists cp, id, w1, res.
  - intros (Hu & Hs)%Hc. rewrite M_bind_eq in Hs. cbn [fst snd gets] in Hs.
    destruct (ActiveTransactions uid (svc w)) as [|tx [|]]; [done| |done].
    apply commanded in Hs as (cp & Hcp & (res & Hr & Ha)%called). by exists cp, tx, res.
  - intros (Hu & (cp & Hcp & (res & Hr & Ha)%called)%commanded)%Hc. by exists cp, res.
  - intros (Hu & (cp & Hcp & (res & Hr & Ha)%called)%commanded)%Hc. by exists cp, res.
Qed.
End reserve.
End control.

(** ** Instances: the station of Samples.v, reached over a connection that
    answers Accepted to everything *)

#[local] Existing Instance key_order.
#[local] Existing Instance sample_env.

Definition accepting_text : JsonText := {| unmarshal_error := fun _ => "invalid payload" |}.
#[local] Existing Instance accepting_text.

Definition accepting_caller : Caller := {|
  caller_ID := "CP1";
  caller_Version := Version16;
  Call := fun action req => M_ret (inl (JObj [("status", JStr "Accepted")]))
|}.
#[local] Existing Instance accepting_caller.

Definition sample_station : ChargePoint := NewChargePoint sample_config.
Definition sample_commander : Commander := {| Command := fun _ _ => inl sample_station |}.
#[local] Existing Instance sample_commander.

(** A call during which nothing else happens. *)
Lemma minds_still id (m : M (Result + error)) : (forall w, (m w).2 = w) -> minds id m.
Proof. intros Hm w _ Hid. rewrite Hm. split; [apply steps_refl | exact Hid]. Defined.

Lemma sample_careful : careful sample_station.
Proof.
  split; [|intros id; apply minds_still; intros w; reflexivity].
  intros q. apply minds_still. intros w. change ((v16_ReserveNow sample_config q w).2 = w).
  unfold v16_ReserveNow, on_connector. destruct (connectorID_of sample_config (rq_EVSEUID q)); reflexivity.
Defined.

Lemma sample_commands cp : Command (ch_ID (cf_Charger sample_config)) sample_world = inl cp -> careful cp.
Proof. change (@inl ChargePoint error sample_station = inl cp -> careful cp). intros [= <-]. apply sample_careful. Defined.

Definition sample_params (uid : string) : ReserveParams :=
  mkReserveParams uid "" zeroTime (10 * minute) "cli" "" "".

Lemma Reserve_outcomes_witness : Reserve_contract sample_config (sample_params "EVSE-2") sample_world.
Proof.
  apply (Reserve_outcomes sample_config (sample_params "EVSE-2") sample_world sample_core_ok);
    [vm_compute; reflexivity | exact sample_commands].
Defined.

(** A ReserveNow for EVSE-2 has timed out. *)
Definition sample_timed_out : World :=
  run_all [ABegin (sample_reservation "EVSE-2" "GUEST" 15); AOrphan 2 ReservationTimeout] sample_world.
Definition sample_cancelling : reservation :=
  default (mkRes zeroReservation None) (reservations (svc sample_timed_out) !! 2).
Definition sample_orphan : Orphan := mkOrphan sample_station (res sample_cancelling) ReservationTimeout.

Lemma sample_timed_out_ok : core_ok sample_timed_out.
Proof.
  apply (run_ok (AOrphan 2 ReservationTimeout)); [|vm_compute; reflexivity].
  apply (run_ok (ABegin (sample_reservation "EVSE-2" "GUEST" 15))); [apply sample_core_ok | vm_compute; reflexivity].
Defined.

Lemma sample_cancelling_held : reservations (svc sample_timed_out) !! rv_ID (or_res sample_orphan) = Some sample_cancelling.
Proof. vm_compute. reflexivity. Defined.

Lemma sample_orphan_careful : careful (or_cp sample_orphan).
Proof. exact sample_careful. Defined.

Lemma orphan_holds_then_frees_witness :
  reservations (svc (run_orphan sample_orphan sample_timed_out).2) !! rv_ID (or_res sample_orphan) = None.
Proof.
  refine (proj2 (orphan_holds_then_frees sample_orphan sample_cancelling sample_timed_out sample_timed_out
           sample_timed_out_ok sample_orphan_careful sample_cancelling_held _ (steps_refl _ _) _));
    vm_compute; reflexivity.
Defined.

Lemma Cancel_outcomes_witness : Cancel_contract sample_config "EVSE-1" sample_world.
Proof.
  apply (Cancel_outcomes sample_config "EVSE-1" sample_world sample_core_ok);
    [vm_compute; reflexivity | exact sample_commands].
Defined.

Lemma commands_sound_witness :
  exists cp tx res, is_Some (EVSEByUID sample_config "EVSE-1") /\
    Command (ch_ID (cf_Charger sample_config)) sample_running = inl cp /\
    ActiveTransactions "EVSE-1" (svc sample_running) = [tx] /\
    RemoteStop (ChargePoint := cp) (tx_ID tx) sample_running = (inl res, sample_running) /\
    Status res = CommandAccepted.
Proof.
  apply (proj1 (proj2 (commands_sound sample_config "EVSE-1" "" sample_running sample_running))).
  assert (E : Stop sample_config "EVSE-1" sample_running =
              ((Stop sample_config "EVSE-1" sample_running).1, sample_running)) by reflexivity.
  rewrite E. f_equal.
Defined.

(** The same commands, evaluated. *)
Example sample_commands_run :
  (exists r, (Reserve_call sample_config (sample_params "EVSE-2") sample_world).1 = (inl r, None) /\
     rv_ID r = 2 /\ rv_IDTag r = "OFFICE") /\
  (Reserve_call sample_config (sample_params "EVSE-1") sample_world).1 =
    (inr (wrap_colon "EVSE-1" (ESentinel ErrAlreadyReserved)), None) /\
  (Cancel sample_config "EVSE-1" sample_world).1 = None /\
  (Unlock sample_config "EVSE-1" sample_world).1 =
    Some (refused OpUnlock "EVSE-1" (mkResult CommandUnknown "Accepted")).
Proof. split; [eexists; vm_compute; repeat split|]. vm_compute. repeat split. Qed.
