(* ===== verification/ControlSystem.v ===== *)
(** * Reserve, its background cancels, Close and everybody else, interleaved

    The threads of control.Service as a transition system over the world of
    core.Service, one core operation or one answer of the station per step:
    any number of Reserve calls and background cancels, the station's messages,
    expiries and other commands ([foreign] actions), and Close, in any order.
    Every pending or cancelling record belongs to exactly one live thread, so
    when Close's wait is over none is left. *)

From S2P Require Import Prelude GoLib GoTime Json Ocpp Errors Config State Bus World Core.
From S2P Require Import Persist Reservations Transactions Load CoreFacts CoreInv CoreOps.
From S2P Require Import CoreTx CoreReach Samples CoreEvents CoreCounters Restart CoreProps Acts.
From S2P Require Import ReservationFacts V16Status V16Messages V16ChargePoint Control ControlProps.

(** A goroutine that [inflight] counts. *)
Inductive thread :=
| TEntered (p : ReserveParams)                  (* in Reserve, nothing recorded yet *)
| TSending (cp : ChargePoint) (r : Reservation)  (* ReserveNow is out *)
| TCancelling (o : Orphan).                     (* the background cancel is out *)

Record system := mkSystem {
  sy_world : World;
  sy_closed : bool;
  sy_inflight : Z;
  sy_threads : list thread
}.

Section system.
Context `{MapOrder} `{Env} (c : Config).

(** What the rest of the program does to core: no reservation is begun,
    activated or orphaned outside Reserve, and only an active one is cancelled. *)
Definition foreign (a : action) (w : World) : Prop :=
  match a with
  | ABegin _ | AActivate _ | AOrphan _ _ => False
  | AEnd id _ => forall r, reservations (svc w) !! id = Some r -> rv_Status (res r) = ReservationActive
  | _ => True
  end.

(** The threads left, and what [inflight] counts, after a Reserve call. *)
Definition after_answer (o : option Orphan) (others : list thread) : list thread :=
  match o with Some o => TCancelling o :: others | None => others end.

Inductive sys_step : system -> system -> Prop :=
| step_foreign a w cl n ts :
    foreign a w -> has_ids w -> sys_step (mkSystem w cl n ts) (mkSystem (run a w).2 cl n ts)
| step_enter p w n ts :
    sys_step (mkSystem w false n ts) (mkSystem w false (n + 1) (TEntered p :: ts))
| step_refuse p w cl n ts1 ts2 :
    sys_step (mkSystem w cl n (ts1 ++ TEntered p :: ts2)) (mkSystem w cl (n - 1) (ts1 ++ ts2))
| step_begin p cp t w out w' cl n ts1 ts2 :
    has_ids w -> BeginReservation (reserve_record c cp p t) w = (out, w') ->
    sys_step (mkSystem w cl n (ts1 ++ TEntered p :: ts2))
      match out with
      | inl r => mkSystem w' cl n (ts1 ++ TSending cp r :: ts2)
      | inr _ => mkSystem w' cl (n - 1) (ts1 ++ ts2)
      end
| step_answer cp r answer w out o w' cl n ts1 ts2 :
    reserve_answered cp r answer w = ((out, o), w') ->
    sys_step (mkSystem w cl n (ts1 ++ TSending cp r :: ts2))
      (mkSystem w' cl (n - 1 + Z.of_nat (length (after_answer o []))) (after_answer o (ts1 ++ ts2)))
| step_cancelled o w cl n ts1 ts2 :
    sys_step (mkSystem w cl n (ts1 ++ TCancelling o :: ts2))
      (mkSystem (EndReservation (rv_ID (or_res o)) (or_reason o) w).2 cl (n - 1) (ts1 ++ ts2))
| step_close w cl n ts : sys_step (mkSystem w cl n ts) (mkSystem w true n ts).

Inductive sys_reachable (s0 : system) : system -> Prop :=
| sys_refl : sys_reachable s0 s0
| sys_more s s' : sys_reachable s0 s -> sys_step s s' -> sys_reachable s0 s'.

(** ** The invariant *)

(** The record a thread owns in core. *)
Definition owns (t : thread) : option reservation :=
  match t with
  | TEntered _ => None
  | TSending _ r => Some (mkRes (set_status ReservationPending r) None)
  | TCancelling o => Some (mkRes (set_status ReservationCancelling (or_res o)) None)
  end.

Definition owned (ts : list thread) : list reservation := omap owns ts.

Record sys_ok (s : system) : Prop := {
  sk_core : core_ok (sy_world s);
  sk_count : sy_inflight s = Z.of_nat (length (sy_threads s));
  sk_ids : NoDup ((fun r => rv_ID (res r)) <$> owned (sy_threads s));
  sk_owned : forall r, r ∈ owned (sy_threads s) ->
    reservations (svc (sy_world s)) !! rv_ID (res r) = Some r;
  sk_owner : forall id r, reservations (svc (sy_world s)) !! id = Some r ->
    rv_Status (res r) <> ReservationActive -> r ∈ owned (sy_threads s)
}.

Lemma owned_app ts1 ts2 : owned (ts1 ++ ts2) = owned ts1 ++ owned ts2.
Proof. apply omap_app. Qed.

Lemma owned_not_active ts r : r ∈ owned ts -> rv_Status (res r) <> ReservationActive.
Proof.
  unfold owned. rewrite list_elem_of_omap. intros (t & _ & Ho). by destruct t; simplify_eq/=.
Qed.

(** *** Foreign actions *)

Lemma run_foreign_sub a w id r :
  core_ok w -> foreign a w -> reservations (svc (run a w).2) !! id = Some r ->
  reservations (svc w) !! id = Some r.
Proof.
  intros Hw Ha.
  destruct a as [| | | | | | |b|i|i reason|i reason| | |cpID t| | |i at_|]; try done;
    try (match goal with |- context [run ?a] =>
           by rewrite (run_same_reservations a (reservations (svc w)) I w eq_refl) end).
  - unfold run, discard. rewrite M_bind_eq. cbn [snd M_ret].
    destruct (End_reservations i reason w Hw) as [_ ->]. by intros [_ E]%lookup_delete_Some.
  - unfold run, discard. rewrite M_bind_eq. cbn [snd M_ret].
    pose proof (StartTransaction_world cpID t w) as Hs. cbn zeta in Hs.
    destruct (StartTransaction cpID t w) as [tx w']. destruct Hs as (_ & _ & _ & _ & Hr & _).
    cbn [snd]. rewrite Hr. destruct (redeem_target _ _ _ _) as [[r' b]|]; [|done]. by intros [_ E]%lookup_delete_Some.
  - unfold run. destruct (expiring_reservations i at_ w Hw) as [->|(r' & _ & _ & ->)]; [done|].
    by intros [_ E]%lookup_delete_Some.
Qed.

Lemma run_foreign_keeps a w id r :
  core_ok w -> has_ids w -> foreign a w -> reservations (svc w) !! id = Some r ->
  rv_Status (res r) <> ReservationActive -> reservations (svc (run a w).2) !! id = Some r.
Proof.
  intros Hw Hid Ha E Hne. apply run_spared; try done.
  destruct a; try done. intros ->. by apply Hne, (Ha r).
Qed.

(** *** Steps of the threads *)

Lemma sys_ok_perm w cl cl' n ts ts' :
  ts ≡ₚ ts' -> sys_ok (mkSystem w cl n ts) -> sys_ok (mkSystem w cl' n ts').
Proof.
  intros Hp [K1 K2 K3 K4 K5]. cbn in *.
  assert (Ho : owned ts ≡ₚ owned ts') by (by apply omap_Permutation).
  split; cbn; [done | by rewrite <- Hp | by rewrite <- Ho | intros r; rewrite <- Ho; apply K4 |].
  intros id r E Hne. rewrite <- Ho. by eapply K5.
Qed.

(** A thread without a record comes or goes. *)
Lemma sys_ok_enter w cl n ts p :
  sys_ok (mkSystem w cl n ts) <-> sys_ok (mkSystem w cl (n + 1) (TEntered p :: ts)).
Proof. split; intros [K1 K2 K3 K4 K5]; split; cbn in *; try done; lia. Qed.

(** A thread without a record gets one: the record core has just made. *)
Lemma sys_ok_begin w w' cl n ts cp r :
  sys_ok (mkSystem w cl n ts) -> core_ok w' -> rv_Status r = ReservationPending ->
  reservations (svc w) !! rv_ID r = None ->
  reservations (svc w') = <[rv_ID r := mkRes r None]> (reservations (svc w)) ->
  sys_ok (mkSystem w' cl (n + 1) (TSending cp r :: ts)).
Proof.
  intros [K1 K2 K3 K4 K5] Hw' Hp Hfree Hr. cbn in *.
  assert (Hset : set_status ReservationPending r = r) by (destruct r; cbn in *; by subst).
  split; cbn; rewrite ?Hset, ?Hr; [done | lia | | |].
  - apply NoDup_cons. split; [|done]. intros (r' & Heq & Hin)%list_elem_of_fmap. cbn in Heq.
    pose proof (K4 r' Hin) as E. congruence.
  - intros r' [->|Hin]%elem_of_cons; cbn; [apply lookup_insert_eq|].
    rewrite lookup_insert_ne; [by apply K4|]. intros Heq. pose proof (K4 r' Hin) as E. congruence.
  - intros id r' [[<- <-]|[_ E]]%lookup_insert_Some Hne; [left|]. right. by eapply K5.
Qed.

(** A thread gives its record up: core no longer holds it, or holds it active. *)
Lemma sys_ok_leave w w' cl n t r ts :
  sys_ok (mkSystem w cl n (t :: ts)) -> owns t = Some r -> core_ok w' ->
  reservations (svc w') = delete (rv_ID (res r)) (reservations (svc w)) \/
  (exists ra, rv_Status (res ra) = ReservationActive /\
     reservations (svc w') = <[rv_ID (res r) := ra]> (reservations (svc w))) ->
  sys_ok (mkSystem w' cl (n - 1) ts).
Proof.
  intros [K1 K2 K3 K4 K5] Ho Hw' Hr. cbn in *. rewrite Ho in *. cbn in *.
  apply NoDup_cons in K3 as [Hout K3].
  assert (Hoth : forall r', r' ∈ owned ts -> rv_ID (res r') <> rv_ID (res r)).
  { intros r' Hin Heq. apply Hout. apply list_elem_of_fmap. by exists r'. }
  split; cbn; [done | lia | done | |].
  - intros r' Hin. destruct Hr as [->|(ra & _ & ->)].
    + rewrite lookup_delete_ne by (by apply not_eq_sym, Hoth). apply K4. by right.
    + rewrite lookup_insert_ne by (by apply not_eq_sym, Hoth). apply K4. by right.
  - intros id r' E Hne.
    assert (Hin : reservations (svc w) !! id = Some r' /\ id <> rv_ID (res r)).
    { destruct Hr as [Hr|(ra & Hra & Hr)]; rewrite Hr in E.
      - apply lookup_delete_Some in E as [? ?]. by split.
      - apply lookup_insert_Some in E as [[_ <-]|[? ?]]; [by destruct Hne | by split]. }
    destruct Hin as [E' Hid]. pose proof (K5 id r' E' Hne) as Hin. apply elem_of_cons in Hin as [->|]; [|done].
    destruct Hid. symmetry. by apply (re_id _ _ _ (rk_res w (proj2 K1) id r E')).
Qed.

(** A thread's record changes its status. *)
Lemma sys_ok_change w w' cl n t t' r r' ts :
  sys_ok (mkSystem w cl n (t :: ts)) -> owns t = Some r -> owns t' = Some r' ->
  rv_ID (res r') = rv_ID (res r) -> core_ok w' ->
  reservations (svc w') = <[rv_ID (res r) := r']> (reservations (svc w)) ->
  sys_ok (mkSystem w' cl n (t' :: ts)).
Proof.
  intros [K1 K2 K3 K4 K5] Ho Ho' Hid Hw' Hr. cbn in *. rewrite Ho in *. cbn in *.
  split; cbn; rewrite ?Ho', ?Hr; cbn; [done | done | by rewrite Hid | |].
  - apply NoDup_cons in K3 as [Hout _]. intros x [->|Hin]%elem_of_cons; [by rewrite Hid, lookup_insert_eq|].
    rewrite lookup_insert_ne; [apply K4; by right|]. intros Heq. apply Hout, list_elem_of_fmap. by exists x.
  - intros id x [[<- <-]|[Hne E]]%lookup_insert_Some Hst; [left|].
    pose proof (K5 id x E Hst) as Hin. apply elem_of_cons in Hin as [->|]; [|by right].
    destruct Hne. by apply (re_id _ _ _ (rk_res w (proj2 K1) id r E)).
Qed.

(** What the station's answer does to the record of a sending thread. *)
Lemma reserve_answered_effect cp r answer w out o w' :
  core_ok w -> reservations (svc w) !! rv_ID r = Some (mkRes (set_status ReservationPending r) None) ->
  reserve_answered cp r answer w = ((out, o), w') ->
  core_ok w' /\ (forall res, answer = inl res -> Status res = CommandAccepted -> exists r', out = inl r') /\
  match o with
  | Some o => or_res o = r /\
      reservations (svc w') = <[rv_ID r := mkRes (set_status ReservationCancelling r) None]> (reservations (svc w))
  | None =>
      reservations (svc w') = delete (rv_ID r) (reservations (svc w)) \/
      (exists ra, rv_Status (res ra) = ReservationActive /\
         reservations (svc w') = <[rv_ID r := ra]> (reservations (svc w)))
  end.
Proof.
  intros Hw E. unfold reserve_answered. destruct answer as [r'|err]; [case_bool_decide as Ha|].
  - rewrite M_bind_eq. pose proof (Activate_reservations (rv_ID r) w Hw) as Hr.
    pose proof (keeps_ActivateReservation (rv_ID r) w Hw) as Hk.
    rewrite E, decide_True in Hr by done. destruct Hr as [-> Hr]. cbn [M_ret].
    intros [= <- <- <-]. split; [done|]. split; [by eexists|]. right. eexists. split; [|exact Hr]. done.
  - rewrite M_bind_eq. destruct (End_reservations (rv_ID r) ReservationRejected w Hw) as [_ Hr].
    pose proof (keeps_EndReservation (rv_ID r) ReservationRejected w Hw) as Hk. cbn [M_ret].
    intros [= <- <- <-]. split; [done|]. split; [by intros res' [= ->]|]. by left.
  - rewrite M_bind_eq. pose proof (Orphan_reservations (rv_ID r) (endReason err) w Hw) as Hr.
    pose proof (keeps_OrphanReservation (rv_ID r) (endReason err) w Hw) as Hk.
    rewrite E, decide_True in Hr by done. destruct Hr as [_ Hr]. cbn [M_ret].
    intros [= <- <- <-]. split; [done|]. split; [done|]. split; [done|]. exact Hr.
Qed.

Lemma sys_ok_sending w cl n ts cp r :
  sys_ok (mkSystem w cl n (TSending cp r :: ts)) ->
  reservations (svc w) !! rv_ID r = Some (mkRes (set_status ReservationPending r) None).
Proof. intros Hok. apply (sk_owned _ Hok (mkRes (set_status ReservationPending r) None)). left. Qed.

Lemma sys_step_ok s s' : sys_ok s -> sys_step s s' -> sys_ok s'.
Proof.
  intros Hok Hs. destruct Hs as [a w cl n ts Ha Hid|p w n ts|p w cl n ts1 ts2
    |p cp t w out w' cl n ts1 ts2 Hid Hb|cp r answer w out o w' cl n ts1 ts2 Hans|o w cl n ts1 ts2|w cl n ts].
  - destruct Hok as [K1 K2 K3 K4 K5]. cbn in *. split; cbn; try done.
    + by apply run_ok.
    + intros r Hin. apply run_foreign_keeps; try done; [by apply K4|]. by apply owned_not_active in Hin.
    + intros id r E Hne. apply (K5 id); [by apply (run_foreign_sub a w) | done].
  - by apply sys_ok_enter.
  - apply (sys_ok_perm _ _ cl _ _ _ (to_front ts1 ts2 _)) in Hok.
    apply (sys_ok_enter w cl (n - 1) _ p). by replace (n - 1 + 1) with n by lia.
  - apply (sys_ok_perm _ _ cl _ _ _ (to_front ts1 ts2 _)) in Hok.
    replace n with (n - 1 + 1) in Hok by lia. apply sys_ok_enter in Hok.
    pose proof (keeps_BeginReservation (reserve_record c cp p t) w (conj (sk_core _ Hok) Hid)) as Hk.
    pose proof (Begin_reservations (reserve_record c cp p t) w (sk_core _ Hok) Hid) as Hr.
    rewrite Hb in Hk, Hr. cbn [fst snd] in *. destruct out as [r|e].
    + destruct Hr as (_ & Hp & _ & _ & _ & _ & Hfree & Hr).
      eapply (sys_ok_perm _ _ _ _ _ _ (symmetry (to_front ts1 ts2 _))).
      replace n with (n - 1 + 1) by lia. by eapply sys_ok_begin.
    + destruct Hok as [K1 K2 K3 K4 K5]. split; cbn in *; rewrite ?Hr; done.
  - apply (sys_ok_perm _ _ cl _ _ _ (to_front ts1 ts2 _)) in Hok.
    pose proof (sys_ok_sending _ _ _ _ _ _ Hok) as E.
    destruct (reserve_answered_effect _ _ _ _ _ _ _ (sk_core _ Hok) E Hans) as (Hw' & _ & Heff).
    destruct o as [o|]; cbn [after_answer length].
    + destruct Heff as [Hor Hr]. replace (n - 1 + Z.of_nat 1) with n by lia.
      eapply sys_ok_change; [exact Hok|reflexivity|reflexivity| |done|]; cbn; rewrite Hor; [done|exact Hr].
    + replace (n - 1 + Z.of_nat 0) with (n - 1) by lia. by eapply sys_ok_leave.
  - apply (sys_ok_perm _ _ cl _ _ _ (to_front ts1 ts2 _)) in Hok.
    pose proof (sk_core _ Hok) as Hw. cbn in Hw.
    eapply sys_ok_leave; [exact Hok|reflexivity|by apply keeps_EndReservation|]. left.
    by destruct (End_reservations (rv_ID (or_res o)) (or_reason o) w Hw) as [_ ->].
  - by apply (sys_ok_perm w cl true n ts ts).
Qed.

Lemma sys_reachable_ok s0 s : sys_ok s0 -> sys_reachable s0 s -> sys_ok s.
Proof. intros H0'. induction 1; [done | by eapply sys_step_ok]. Qed.

(** ** Close *)

(** Close's wait is over: closed, and nothing counted. *)
Definition close_returned (s : system) : Prop := sy_closed s = true /\ sy_inflight s = 0.

Lemma close_returned_threads s : sys_ok s -> close_returned s -> sy_threads s = [].
Proof. intros [_ K2 _ _ _] [_ Hn]. rewrite Hn in K2. destruct (sy_threads s); [done|cbn in *; lia]. Qed.

Lemma close_returned_step s s' : sys_ok s -> close_returned s -> sys_step s s' -> close_returned s'.
Proof.
  intros Hok Hc Hs. pose proof (close_returned_threads s Hok Hc) as Ht. destruct Hc as [Hcl Hn].
  destruct Hs; cbn in *; try done; by apply app_cons_not_nil in Ht || by destruct ts1.
Qed.

Lemma close_returned_stays s s' :
  sys_ok s -> close_returned s -> sys_reachable s s' -> close_returned s'.
Proof.
  intros Hok Hc Hr. induction Hr as [|s1 s2 Hr IH Hs]; [done|].
  eapply close_returned_step; [by eapply sys_reachable_ok | done | done].
Qed.

(** The system when the process has started: only active reservations, loaded
    from the file. *)
Definition idle_system (w : World) : system := mkSystem w false 0 [].

Lemma idle_system_ok w :
  core_ok w ->
  (forall id r, reservations (svc w) !! id = Some r -> rv_Status (res r) = ReservationActive) ->
  sys_ok (idle_system w).
Proof.
  intros Hw Ha. split; cbn; try done; [apply NoDup_nil_2 | by intros r ?%not_elem_of_nil |].
  intros id r E Hne. destruct Hne. by apply (Ha id).
Qed.

(** C7: Close waits for exactly what it must.  Once it has returned, and in
    every state after, no reservation is pending or cancelling in core, and no
    Reserve call or background cancel is left that could still use the
    station. *)
Theorem Close_waits w s s' :
  core_ok w ->
  (forall id r, reservations (svc w) !! id = Some r -> rv_Status (res r) = ReservationActive) ->
  sys_reachable (idle_system w) s -> close_returned s -> sys_reachable s s' ->
  sy_threads s' = [] /\ close_returned s' /\
  forall id r, reservations (svc (sy_world s')) !! id = Some r -> rv_Status (res r) = ReservationActive.
Proof.
  intros Hw Ha Hr Hc Hr'. pose proof (sys_reachable_ok _ _ (idle_system_ok w Hw Ha) Hr) as Hok.
  pose proof (close_returned_stays _ _ Hok Hc Hr') as Hc'. pose proof (sys_reachable_ok _ _ Hok Hr') as Hok'.
  pose proof (close_returned_threads _ Hok' Hc') as Ht. split; [done|]. split; [done|].
  intros id r E. destruct (decide (rv_Status (res r) = ReservationActive)) as [|Hne]; [done|].
  pose proof (sk_owner _ Hok' id r E Hne) as Hin. rewrite Ht in Hin. by apply not_elem_of_nil in Hin.
Qed.

(** C8: however Reserve calls, cancels, messages and expiries interleave, a
    record that is pending or cancelling belongs to exactly one live thread;
    and when the station accepts, the reservation is there to activate: the
    vanished branch of Reserve is never taken. *)
Theorem unconfirmed_records_owned w s :
  core_ok w ->
  (forall id r, reservations (svc w) !! id = Some r -> rv_Status (res r) = ReservationActive) ->
  sys_reachable (idle_system w) s ->
  (forall id r, reservations (svc (sy_world s)) !! id = Some r -> rv_Status (res r) <> ReservationActive ->
     exists t ts, sy_threads s ≡ₚ t :: ts /\ owns t = Some r /\ r ∉ owned ts) /\
  (forall cp r res, TSending cp r ∈ sy_threads s -> Status res = CommandAccepted ->
     exists active, (reserve_answered cp r (inl res) (sy_world s)).1 = (inl active, None)).
Proof.
  intros Hw Ha Hr. pose proof (sys_reachable_ok _ _ (idle_system_ok w Hw Ha) Hr) as Hok. split.
  - intros id r E Hne. pose proof (sk_owner _ Hok id r E Hne) as Hin.
    unfold owned in Hin. rewrite list_elem_of_omap in Hin. destruct Hin as (t & Hin & Ho).
    apply list_elem_of_split in Hin as (ts1 & ts2 & Ht). exists t, (ts1 ++ ts2).
    rewrite Ht. split; [apply to_front|]. split; [done|].
    pose proof (sk_ids _ Hok) as Hn. rewrite Ht, (omap_Permutation owns _ _ (to_front ts1 ts2 t)) in Hn.
    cbn in Hn. rewrite Ho in Hn. cbn in Hn. apply NoDup_cons in Hn as [Hn _]. intros Hx. apply Hn.
    apply list_elem_of_fmap. by exists r.
  - intros cp r res' Hin Hs. apply list_elem_of_split in Hin as (ts1 & ts2 & Ht).
    destruct s as [ws cl n ts]. cbn in *. subst ts.
    apply (sys_ok_perm _ _ cl _ _ _ (to_front ts1 ts2 _)) in Hok.
    pose proof (sys_ok_sending _ _ _ _ _ _ Hok) as E. unfold reserve_answered.
    rewrite bool_decide_eq_true_2 by done. rewrite M_bind_eq.
    pose proof (Activate_reservations (rv_ID r) ws (sk_core _ Hok)) as Hact.
    cbn [sy_world] in Hact. rewrite E, decide_True in Hact by done. destruct Hact as [-> _]. by eexists.
Qed.
End system.

(** ** An instance: a ReserveNow times out while the process shuts down *)

#[local] Existing Instance key_order.
#[local] Existing Instance sample_env.

Definition sample_record : Reservation :=
  reserve_record sample_config sample_station (sample_params "EVSE-2") (sample_time 600).
Definition sys_begun : World := (BeginReservation sample_record sample_initial).2.
Definition sys_res : Reservation :=
  match (BeginReservation sample_record sample_initial).1 with inl b => b | inr _ => zeroReservation end.
Definition sys_timeout : Result + error := inr (ETimeoutError "ReserveNow" (30 * second)).
Definition sys_orphan : Orphan := mkOrphan sample_station sys_res ReservationTimeout.
Definition sys_orphaned : World := (reserve_answered sample_station sys_res sys_timeout sys_begun).2.
Definition sys_done : World := (EndReservation (rv_ID (or_res sys_orphan)) (or_reason sys_orphan) sys_orphaned).2.

Definition sys_sending : system := mkSystem sys_begun false 1 [TSending sample_station sys_res].
Definition sys_closed : system := mkSystem sys_done true 0 [].

Lemma sample_initial_active id r :
  reservations (svc sample_initial) !! id = Some r -> rv_Status (res r) = ReservationActive.
Proof.
  assert (reservations (svc sample_initial) = ∅) as -> by (vm_compute; reflexivity).
  rewrite lookup_empty. discriminate.
Defined.

Lemma sys_begin_eq : BeginReservation sample_record sample_initial = (inl sys_res, sys_begun).
Proof. rewrite (surjective_pairing (BeginReservation sample_record sample_initial)). f_equal. Defined.

Lemma sys_answer_eq :
  reserve_answered sample_station sys_res sys_timeout sys_begun =
  ((inr (ETimeoutError "ReserveNow" (30 * second)), Some sys_orphan), sys_orphaned).
Proof.
  rewrite (surjective_pairing (reserve_answered sample_station sys_res sys_timeout sys_begun)). f_equal.
Defined.

Lemma sys_sending_reachable : sys_reachable sample_config (idle_system sample_initial) sys_sending.
Proof.
  eapply sys_more; [eapply sys_more; [apply sys_refl | apply (step_enter _ (sample_params "EVSE-2"))]|].
  apply (step_begin sample_config (sample_params "EVSE-2") sample_station (sample_time 600) sample_initial
           (inl sys_res) sys_begun false 1 [] []); [vm_compute; reflexivity | exact sys_begin_eq].
Defined.

Lemma sys_closed_reachable : sys_reachable sample_config (idle_system sample_initial) sys_closed.
Proof.
  eapply sys_more; [eapply sys_more; [eapply sys_more; [exact sys_sending_reachable|]|]|].
  - apply (step_answer sample_config sample_station sys_res sys_timeout sys_begun _ (Some sys_orphan) sys_orphaned
             false 1 [] [] sys_answer_eq).
  - apply (step_cancelled sample_config sys_orphan sys_orphaned false 1 [] []).
  - apply (step_close sample_config sys_done false 0 []).
Defined.

Lemma Close_waits_witness :
  sy_threads sys_closed = [] /\ close_returned sys_closed /\
  forall id r, reservations (svc (sy_world sys_closed)) !! id = Some r -> rv_Status (res r) = ReservationActive.
Proof.
  apply (Close_waits sample_config sample_initial sys_closed sys_closed sample_initial_ok sample_initial_active
           sys_closed_reachable (conj eq_refl eq_refl) (sys_refl _ _)).
Defined.

Lemma unconfirmed_records_owned_witness :
  exists active,
    (reserve_answered sample_station sys_res (inl (mkResult CommandAccepted "Accepted")) (sy_world sys_sending)).1 =
    (inl active, None).
Proof.
  apply (proj2 (unconfirmed_records_owned sample_config sample_initial sys_sending sample_initial_ok
                  sample_initial_active sys_sending_reachable)); [apply list_elem_of_singleton; reflexivity | reflexivity].
Defined.
