(* ===== verification/Socket.v ===== *)
(** * The control socket (control/socket/protocol.go, server.go, status.go, client.go)

    How a request is dispatched to the control layer, how an error becomes a
    code, and how a snapshot becomes a status.  Requests and errors cross the
    socket as JSON, so both are encoded and decoded; results are kept as the
    values the JSON is made from.  Listening, deadlines and the single-instance
    check are not modelled. *)

From S2P Require Import Prelude GoLib GoTime GoDuration Json Ocpp Errors Config State Bus World Core.
From S2P Require Import Persist Reservations Transactions V16ChargePoint Control.

(** The protocol's [Version]. *)
Definition socket_Version : Z := 1.

(** The operations, as they are written. *)
Definition SocketOpReserve : string := "reserve".
Definition SocketOpCancel : string := "cancel".
Definition SocketOpStart : string := "start".
Definition SocketOpStop : string := "stop".
Definition SocketOpUnlock : string := "unlock".
Definition SocketOpStatus : string := "status".
Definition SocketOpProbe : string := "probe".

(** ** Requests *)

Record Request := mkRequest {
  qr_V : Z;
  qr_Op : string;
  qr_EVSE : string;
  qr_IDTag : string;
  qr_ExpiresIn : string
}.

Definition zero_Request : Request := mkRequest 0 "" "" "" "".

Definition Request_fields : struct_fields Request := [
  ("v", at_field qr_V (fun v r => mkRequest v (qr_Op r) (qr_EVSE r) (qr_IDTag r) (qr_ExpiresIn r)) dec_int);
  ("op", at_field qr_Op (fun v r => mkRequest (qr_V r) v (qr_EVSE r) (qr_IDTag r) (qr_ExpiresIn r)) dec_string);
  ("evse", at_field qr_EVSE (fun v r => mkRequest (qr_V r) (qr_Op r) v (qr_IDTag r) (qr_ExpiresIn r)) dec_string);
  ("id_tag", at_field qr_IDTag (fun v r => mkRequest (qr_V r) (qr_Op r) (qr_EVSE r) v (qr_ExpiresIn r)) dec_string);
  ("expires_in", at_field qr_ExpiresIn (fun v r => mkRequest (qr_V r) (qr_Op r) (qr_EVSE r) (qr_IDTag r) v) dec_string)].

Definition Request_json (r : Request) : json :=
  JObj ([("v", JInt (qr_V r)); ("op", JStr (qr_Op r))] ++ omit_empty "evse" (qr_EVSE r) ++
        omit_empty "id_tag" (qr_IDTag r) ++ omit_empty "expires_in" (qr_ExpiresIn r)).

(** ** Errors *)

Inductive ErrCode :=
| CodeUsage | CodeNotConnected | CodeRejected | CodeOccupied | CodeFaulted | CodeTimeout
| CodeUnlockFailed | CodeRefused | CodeInternal | CodeOther (s : string).

#[export] Instance ErrCode_eq_dec : EqDecision ErrCode.
Proof. solve_decision. Defined.

Definition code_string (c : ErrCode) : string :=
  match c with
  | CodeUsage => "usage" | CodeNotConnected => "not_connected" | CodeRejected => "rejected"
  | CodeOccupied => "occupied" | CodeFaulted => "faulted" | CodeTimeout => "timeout"
  | CodeUnlockFailed => "unlock_failed" | CodeRefused => "refused" | CodeInternal => "internal"
  | CodeOther s => s
  end.

Definition all_codes : list ErrCode :=
  [CodeUsage; CodeNotConnected; CodeRejected; CodeOccupied; CodeFaulted; CodeTimeout; CodeUnlockFailed;
   CodeRefused; CodeInternal].

Definition code_of_string (s : string) : ErrCode :=
  default (CodeOther s) (first_such (fun c => bool_decide (code_string c = s)) all_codes).

(** [socket.Error]. *)
Record WireError := mkWireError {
  we_Code : ErrCode;
  we_Status : string;
  we_CallError : string;
  we_Message : string
}.

Definition zero_WireError : WireError := mkWireError (CodeOther "") "" "" "".

Definition WireError_fields : struct_fields WireError := [
  ("code", at_field (fun e => code_string (we_Code e)) (fun v e => mkWireError (code_of_string v) (we_Status e) (we_CallError e) (we_Message e)) dec_string);
  ("status", at_field we_Status (fun v e => mkWireError (we_Code e) v (we_CallError e) (we_Message e)) dec_string);
  ("call_error", at_field we_CallError (fun v e => mkWireError (we_Code e) (we_Status e) v (we_Message e)) dec_string);
  ("message", at_field we_Message (fun v e => mkWireError (we_Code e) (we_Status e) (we_CallError e) v) dec_string)].

Definition WireError_json (e : WireError) : json :=
  JObj ([("code", JStr (code_string (we_Code e)))] ++ omit_empty "status" (we_Status e) ++
        omit_empty "call_error" (we_CallError e) ++ [("message", JStr (we_Message e))]).

(** What a refusal's status becomes. *)
Definition refused_code (s : CommandStatus) : ErrCode :=
  match s with
  | CommandOccupied => CodeOccupied
  | CommandFaulted | CommandUnavailable => CodeFaulted
  | CommandUnlockFailed | CommandNotSupported | CommandNotImplemented => CodeUnlockFailed
  | _ => CodeRejected
  end.

(** The CALLERROR codes that mean "cannot do that". *)
Definition cannot (c : ErrorCode) : bool := bool_decide (c = ErrNotImplemented \/ c = ErrNotSupported).

(** The rest of [classify]'s switch: the sentinels, in its order. *)
Definition sentinel_code (err : error) : ErrCode :=
  if errors_is err ErrTimeout then CodeTimeout
  else if errors_is err ErrNotConnected then CodeNotConnected
  else if errors_is err ErrAlreadyReserved || errors_is err ErrShuttingDown ||
          errors_is err ErrNoReservation || errors_is err ErrNoActiveTransaction then CodeRefused
  else if errors_is err ErrUnknownEVSE then CodeUsage
  else CodeInternal.

Definition classify (err : error) : WireError :=
  match as_refused err with
  | Some r => mkWireError (refused_code (re_Status r)) (re_Raw r) "" (Error err)
  | None =>
    match as_rpc err with
    | Some e => if cannot (Code e) then mkWireError CodeUnlockFailed "" (Code e) (Error err)
                else mkWireError (sentinel_code err) "" "" (Error err)
    | None => mkWireError (sentinel_code err) "" "" (Error err)
    end
  end.

(** ** Status *)

Record DisconnectStatus := mkDisconnectStatus { ds_At : Time; ds_Reason : string }.

Record ChargePointStatus := mkChargePointStatus {
  ss_ID : string;
  ss_Online : bool;
  ss_LastSeen : option Time;
  ss_Vendor : string;
  ss_Model : string;
  ss_Firmware : string;
  ss_StationStatus : EVSEStatus;
  ss_LastDisconnect : option DisconnectStatus
}.

(** [State] holds the reservation's status. *)
Record ReservationStatusRow := mkReservationStatusRow {
  rr_ID : Z;
  rr_IDTag : string;
  rr_ExpiresAt : Time;
  rr_State : ReservationStatus
}.

Record TransactionStatusRow := mkTransactionStatusRow {
  tr_ID : string;
  tr_IDTag : string;
  tr_StartedAt : Time
}.

Record EVSEStatusRow := mkEVSEStatusRow {
  er_UID : string;
  er_Status : EVSEStatus;
  er_ErrorCode : string;
  er_Reservation : option ReservationStatusRow;
  er_Transaction : option TransactionStatusRow
}.

Record StatusResult := mkStatusResult {
  st_ChargePoint : ChargePointStatus;
  st_EVSEs : list EVSEStatusRow
}.

Definition utcOrNil (t : Time) : option Time := if IsZero t then None else Some (UTC t).

(** A map literal filled from a list: of two entries for a key, the later. *)
Definition index_by {A} (key : A -> string) (l : list A) : gmap string A :=
  foldl (fun m a => <[key a := a]> m) ∅ l.

Definition reservation_row (r : Reservation) : ReservationStatusRow :=
  mkReservationStatusRow (rv_ID r) (rv_IDTag r) (UTC (rv_ExpiresAt r)) (rv_Status r).

Definition transaction_row (t : Transaction) : TransactionStatusRow :=
  mkTransactionStatusRow (tx_ID t) (tx_IDTag t) (UTC (tx_StartedAt t)).

Definition evse_row (rs : gmap string Reservation) (ts : gmap string Transaction) (e : EVSESnapshot)
    : EVSEStatusRow :=
  mkEVSEStatusRow (es_UID e) (es_Status e) (es_ErrorCode e)
    (reservation_row <$> rs !! es_UID e) (transaction_row <$> ts !! es_UID e).

Definition empty_charge_point (id : string) : ChargePointStatus :=
  mkChargePointStatus id false None "" "" "" StatusNone None.

Definition charge_point_row (cp : ChargePointSnapshot) : ChargePointStatus :=
  mkChargePointStatus (cs_ID cp) (cs_Online cp) (utcOrNil (cs_LastSeen cp)) (bi_Vendor (cs_Boot cp))
    (bi_Model (cs_Boot cp)) (bi_FirmwareVersion (cs_Boot cp)) (cs_StationStatus cp)
    (if IsZero (dc_At (cs_LastDisconnect cp)) then None
     else Some (mkDisconnectStatus (UTC (dc_At (cs_LastDisconnect cp))) (dc_Reason (cs_LastDisconnect cp)))).

Definition BuildStatus (snap : list ChargePointSnapshot) (chargePointID : string) : StatusResult :=
  match Snapshot_ChargePoint snap chargePointID with
  | None => mkStatusResult (empty_charge_point chargePointID) []
  | Some cp =>
    mkStatusResult (charge_point_row cp)
      (evse_row (index_by rv_EVSEUID (cs_Reservations cp))
                (index_by tx_EVSEUID (filter (fun t => Active t = true) (cs_Transactions cp)))
         <$> cs_EVSEs cp)
  end.

(** ** Probe *)

Record ProbeResult := mkProbeResult {
  pb_ID : string;
  pb_OCPPVersion : string;
  pb_Vendor : string;
  pb_Model : string;
  pb_SerialNumber : string;
  pb_Firmware : string;
  pb_Features : list (string * string * list string * bool);
  pb_Capabilities : list (string * string);
  pb_Settings : list Setting;
  pb_Connectors : option Z;
  pb_HeartbeatIntervalSeconds : option Z;
  pb_Raw : list RawSetting
}.

Definition boot_of (snap : list ChargePointSnapshot) (id : string) : BootInfo :=
  match Snapshot_ChargePoint snap id with Some cp => cs_Boot cp | None => zeroBootInfo end.

Definition BuildProbe (report : ProbeReport) (snap : list ChargePointSnapshot) (chargePointID : string)
    : ProbeResult :=
  let boot := boot_of snap chargePointID in
  mkProbeResult chargePointID (version_string (pr_Version report))
    (bi_Vendor boot) (bi_Model boot) (bi_SerialNumber boot) (bi_FirmwareVersion boot)
    ((fun f => (FeatureName f, support_string (FeatureSupport f), capability_string <$> Grants f, Assumed f))
       <$> Features report)
    ((fun c => (capability_string c, support_string (report_support report c))) <$> AllCapabilities)
    (Settings report) (Connectors report)
    ((fun d => d ÷ second) <$> HeartbeatInterval report)
    (pr_Raw report).

(** ** Dispatch *)

Record ReserveResult := mkReserveResult {
  pz_ReservationID : Z;
  pz_EVSE : string;
  pz_IDTag : string;
  pz_ExpiresAt : Time
}.

(** A response's result, before it is encoded. *)
Inductive OpResult :=
| RStatus (s : StatusResult)
| RProbe (p : ProbeResult)
| RReserve (r : ReserveResult).

(** [Response]: an error, or a result there may be none of. *)
Definition Response : Type := option OpResult + WireError.

Definition usage (message : string) : Response := inr (mkWireError CodeUsage "" "" message).

(** [done]. *)
Definition done (err : option error) : Response :=
  match err with Some e => inr (classify e) | None => inl None end.

(** [OpReserve]'s [expires_in]; [None] is refused. *)
Definition request_expiry (s : string) : option Z :=
  if bool_decide (s = "") then Some 0
  else d ← ParseDuration s; if d <=? 0 then None else Some d.

Section dispatch.
Context `{MapOrder} `{Env} `{Commander} (cfg : Config) (chargePointID : string).

Definition reserve_params (req : Request) (expiresIn : Z) : ReserveParams :=
  mkReserveParams (qr_EVSE req) (qr_IDTag req) zeroTime expiresIn "cli" "" "".

(** A control operation that leaves the control state alone. *)
Definition finish (c : Ctl) (m : M (option error)) : M (Response * Ctl) :=
  err <- m ;; M_ret (done err, c).

Definition dispatch (req : Request) (c : Ctl) : M (Response * Ctl) :=
  if negb (qr_V req =? socket_Version) then
    M_ret (usage ("protocol version " +:+ Itoa (qr_V req) +:+ " is not supported (this cpms speaks " +:+
                  Itoa socket_Version +:+ "); use matching cpms binaries"), c)
  else if bool_decide (qr_Op req = SocketOpStatus) then
    snap <- gets (fun w => Snapshot (svc w)) ;;
    M_ret (inl (Some (RStatus (BuildStatus snap chargePointID))), c)
  else if bool_decide (qr_Op req = SocketOpProbe) then
    report <- ctl_Probe cfg ;;
    match report with
    | inr err => M_ret (inr (classify err), c)
    | inl report =>
      snap <- gets (fun w => Snapshot (svc w)) ;;
      M_ret (inl (Some (RProbe (BuildProbe report snap chargePointID))), c)
    end
  else if bool_decide (qr_Op req = SocketOpReserve) then
    match request_expiry (qr_ExpiresIn req) with
    | None => M_ret (usage ("invalid expiry " +:+ Quote (qr_ExpiresIn req) +:+
                            ": want a positive duration such as 15m"), c)
    | Some expiresIn =>
      out <- Reserve cfg (reserve_params req expiresIn) c ;;
      M_ret (match out.1 with
             | inr err => inr (classify err)
             | inl r => inl (Some (RReserve (mkReserveResult (rv_ID r) (rv_EVSEUID r) (rv_IDTag r)
                                               (UTC (rv_ExpiresAt r)))))
             end, out.2)
    end
  else if bool_decide (qr_Op req = SocketOpCancel) then finish c (Control.Cancel cfg (qr_EVSE req))
  else if bool_decide (qr_Op req = SocketOpStart) then finish c (Start cfg (qr_EVSE req) (qr_IDTag req))
  else if bool_decide (qr_Op req = SocketOpStop) then finish c (Control.Stop cfg (qr_EVSE req))
  else if bool_decide (qr_Op req = SocketOpUnlock) then finish c (Unlock cfg (qr_EVSE req))
  else M_ret (usage ("unknown operation " +:+ Quote (qr_Op req)), c).

(** [handle], between the line read and the line written. *)
Definition handle `{JsonText} (line : json + string) (c : Ctl) : M (Response * Ctl) :=
  match line with
  | inr text => M_ret (usage ("malformed request: " +:+ text), c)
  | inl j =>
    match Unmarshal Request_fields zero_Request j with
    | None => M_ret (usage ("malformed request: " +:+ unmarshal_error j), c)
    | Some req => dispatch req c
    end
  end.
End dispatch.

Definition MaxPathLen : Z := 103.

(** [CheckPath]. *)
Definition CheckPath (path : string) : option error :=
  let n := Z.of_nat (String.length path) in
  if MaxPathLen <? n then
    Some (EText ("control socket path " +:+ path +:+ " is " +:+ Itoa n +:+ " bytes, longer than the " +:+
                 Itoa MaxPathLen +:+ " a Unix socket allows; choose a shorter one with --socket"))
  else None.

(** ** The client ([Call]): what a request line's answer is returned as *)

(** The client's errors: the daemon's, or its own. *)
Inductive ClientError := CErr (e : error) | CSocket (e : WireError).

Definition internal_silent : WireError :=
  mkWireError CodeInternal "" "" "cpms run failed without saying why".

(** The line sent: the protocol version is set here. *)
Definition client_request (req : Request) : json :=
  Request_json (mkRequest socket_Version (qr_Op req) (qr_EVSE req) (qr_IDTag req) (qr_ExpiresIn req)).

(** The answer's [ok] and [error] members. *)
Definition client_answer (ok : bool) (result : option OpResult) (err : option WireError)
    : option OpResult + ClientError :=
  if ok then inl result
  else match err with None => inr (CSocket internal_silent) | Some e => inr (CSocket e) end.
