(* ===== verification/Cli.v ===== *)
(** * Exit codes of the one-shot commands (cli/exit.go)

    What a command's error becomes: the process's exit code and the message. *)

From S2P Require Import Prelude GoLib GoTime Json Ocpp Errors Config State Bus World Core.
From S2P Require Import Control Socket.

Definition ExitOK : Z := 0.
Definition ExitError : Z := 1.
Definition ExitNotRunning : Z := 2.
Definition ExitNotConnected : Z := 3.
Definition ExitRejected : Z := 4.
Definition ExitOccupied : Z := 5.
Definition ExitFaulted : Z := 6.
Definition ExitTimeout : Z := 7.
Definition ExitUnlockFailed : Z := 8.
Definition ExitRefused : Z := 9.
Definition ExitMissingCapability : Z := 10.

(** An error a command returns: one that carries a code, or any other. *)
Inductive CommandError := ExitStatus (code : Z) (message : string) | PlainError (message : string).

Definition ExitCode (err : option CommandError) : Z :=
  match err with
  | None => ExitOK
  | Some (ExitStatus code _) => code
  | Some (PlainError _) => ExitError
  end.

(** [answer]: the station's own words, at the end of a message. *)
Definition answer (e : WireError) : string :=
  if negb (bool_decide (we_Status e = "")) then " (status " +:+ we_Status e +:+ ")"
  else if negb (bool_decide (we_CallError e = "")) then " (CALLERROR " +:+ we_CallError e +:+ ")"
  else "".

Definition noun (op : string) : string :=
  if bool_decide (op = SocketOpReserve) then "reservation"
  else if bool_decide (op = SocketOpCancel) then "cancellation"
  else if bool_decide (op = SocketOpStart) then "remote start"
  else if bool_decide (op = SocketOpStop) then "remote stop"
  else op.

Definition exitFor (op evse : string) (err : ClientError) : CommandError :=
  match err with
  | CErr e =>
    if errors_is e ErrNotRunning then
      ExitStatus ExitNotRunning (Error e +:+ ". Is `cpms run` running, with the same --config or --socket?")
    else ExitStatus ExitError (Error e)
  | CSocket se =>
    let subject := if bool_decide (evse = "") then op else evse in
    let msg s := subject +:+ ": " +:+ s in
    match we_Code se with
    | CodeNotConnected => ExitStatus ExitNotConnected (msg
        "the charge point is not connected to cpms. Check that the station's CSMS URL points here (`cpms config validate` prints it)")
    | CodeRejected => ExitStatus ExitRejected (msg ("the station rejected the " +:+ noun op +:+ answer se +:+
        (if bool_decide (op = SocketOpReserve)
         then ". If it does not support the Reservation profile, `cpms probe` will say so" else "")))
    | CodeOccupied => ExitStatus ExitOccupied (msg ("the station says it is occupied" +:+ answer se))
    | CodeFaulted => ExitStatus ExitFaulted (msg ("the station says it is faulted or unavailable" +:+ answer se))
    | CodeTimeout => ExitStatus ExitTimeout (msg "the station did not answer within charger.call_timeout")
    | CodeUnlockFailed =>
      if bool_decide (we_Status se = "UnlockFailed")
      then ExitStatus ExitUnlockFailed (msg ("the station could not release the cable lock" +:+ answer se))
      else ExitStatus ExitUnlockFailed (msg ("the station does not support this" +:+ answer se))
    | CodeRefused => ExitStatus ExitRefused (we_Message se)
    | _ => ExitStatus ExitError (we_Message se)
    end
  end.

(** ** From a control error to an exit code *)

(** What the daemon sends for an error and the client reads back. *)
Definition over_the_wire (e : WireError) : option WireError :=
  Unmarshal WireError_fields zero_WireError (WireError_json e).

Definition exit_of (op evse : string) (e : error) : option Z :=
  (fun we => ExitCode (Some (exitFor op evse (CSocket we)))) <$> over_the_wire (classify e).

(** The code a typed error of the control layer stands for. *)
Definition status_exit (s : CommandStatus) : Z :=
  match s with
  | CommandOccupied => ExitOccupied
  | CommandFaulted | CommandUnavailable => ExitFaulted
  | CommandUnlockFailed | CommandNotSupported | CommandNotImplemented => ExitUnlockFailed
  | _ => ExitRejected
  end.

Definition sentinel_exit (s : Sentinel) : Z :=
  match s with
  | ErrTimeout => ExitTimeout
  | ErrNotConnected => ExitNotConnected
  | ErrAlreadyReserved | ErrShuttingDown | ErrNoReservation | ErrNoActiveTransaction => ExitRefused
  | _ => ExitError
  end.
