(* ===== verification/SocketProps.v ===== *)
(** * What the control socket and the exit codes promise *)

From S2P Require Import Prelude GoLib GoTime GoDuration Json Ocpp Errors Config State Bus World Core.
From S2P Require Import Persist Reservations Transactions Load CoreFacts CoreInv CoreOps.
From S2P Require Import CoreTx CoreReach Samples CoreEvents CoreCounters Restart CoreProps.
From S2P Require Import V16ChargePoint Control ControlProps Socket Cli.

(** ** Over the wire *)

Lemma classify_code e : we_Code (classify e) ∈ all_codes.
Proof.
  unfold classify, sentinel_code, all_codes.
  destruct (as_refused e) as [r|]; [destruct (re_Status r); cbn; set_solver|].
  destruct (as_rpc e) as [x|]; [destruct (cannot _)|]; repeat case_match; cbn; set_solver.
Qed.

Lemma wire_roundtrip e : we_Code e ∈ all_codes -> over_the_wire e = Some e.
Proof.
  destruct e as [c s ce m]. cbn. intros Hc. unfold over_the_wire, WireError_json, omit_empty. cbn [we_Status we_CallError we_Code we_Message].
  assert (Hcode : code_of_string (code_string c) = c).
  { unfold all_codes in Hc. repeat (apply elem_of_cons in Hc as [->|Hc]; [vm_compute; reflexivity|]).
    by apply not_elem_of_nil in Hc. }
  case_bool_decide as Hs; [subst s|]; (case_bool_decide as Hce; [subst ce|]);
    lazy -[code_of_string code_string]; by rewrite Hcode.
Qed.

Lemma request_roundtrip req :
  int_ok (qr_V req) -> Unmarshal Request_fields zero_Request (Request_json req) = Some req.
Proof.
  destruct req as [v op uid tag ex]. cbn. intros Hv. unfold Request_json, omit_empty.
  cbn [qr_V qr_Op qr_EVSE qr_IDTag qr_ExpiresIn].
  case_bool_decide as H1; [subst uid|]; (case_bool_decide as H2; [subst tag|]); (case_bool_decide as H3; [subst ex|]);
    lazy -[Atoi Itoa]; rewrite Atoi_Itoa by done; reflexivity.
Qed.

(** Both directions of the socket are lossless: the daemon decodes the
    request the command sent, with this build's protocol version, and the
    command decodes the very error the daemon classified. *)
Theorem socket_roundtrip req e :
  Unmarshal Request_fields zero_Request (client_request req) =
    Some (mkRequest socket_Version (qr_Op req) (qr_EVSE req) (qr_IDTag req) (qr_ExpiresIn req)) /\
  over_the_wire (classify e) = Some (classify e).
Proof.
  split; [|apply wire_roundtrip, classify_code].
  unfold client_request. apply request_roundtrip. unfold int_ok, socket_Version, int_min, int_max. cbn. lia.
Qed.

(** ** Exit codes *)

Lemma exit_of_classify op evse e :
  exit_of op evse e = Some (ExitCode (Some (exitFor op evse (CSocket (classify e))))).
Proof. unfold exit_of. by rewrite wire_roundtrip by apply classify_code. Qed.

Lemma exit_of_code op evse we :
  ExitCode (Some (exitFor op evse (CSocket we))) =
  match we_Code we with
  | CodeNotConnected => ExitNotConnected | CodeRejected => ExitRejected | CodeOccupied => ExitOccupied
  | CodeFaulted => ExitFaulted | CodeTimeout => ExitTimeout | CodeUnlockFailed => ExitUnlockFailed
  | CodeRefused => ExitRefused | _ => ExitError
  end.
Proof. unfold exitFor. destruct (we_Code we); try done. by case_bool_decide. Qed.

Lemma sentinel_code_of e s :
  errors_is e s = true ->
  sentinel_code e =
  match s with
  | ErrTimeout => CodeTimeout
  | ErrNotConnected => CodeNotConnected
  | ErrAlreadyReserved | ErrShuttingDown | ErrNoReservation | ErrNoActiveTransaction => CodeRefused
  | ErrUnknownEVSE => CodeUsage
  | _ => CodeInternal
  end.
Proof.
  intros Hs. assert (Ho : forall s', errors_is e s' = bool_decide (s' = s)).
  { intros s'. case_bool_decide as Heq; [by subst|]. destruct (errors_is e s') eqn:E; [|done].
    destruct Heq. by apply (errors_is_unique e). }
  unfold sentinel_code. rewrite !Ho. by destruct s.
Qed.

(** C25: the exit code says what went wrong, through the daemon's
    classification, the socket and the command: a refusal exits with the code
    of the station's status, a CALLERROR that means the station cannot do it
    with "not supported", each error of the control layer with its own code,
    however it is wrapped, and no error with success. *)
Theorem exit_codes op evse e :
  (forall r, as_refused e = Some r -> exit_of op evse e = Some (status_exit (re_Status r))) /\
  (forall x, as_rpc e = Some x ->
     exit_of op evse e = Some (if cannot (Code x) then ExitUnlockFailed else ExitError)) /\
  (forall s, errors_is e s = true -> exit_of op evse e = Some (sentinel_exit s)) /\
  exit_of op evse e <> Some ExitOK.
Proof.
  rewrite exit_of_classify, exit_of_code. unfold classify. split; [|split; [|split]].
  - intros r ->. cbn. by destruct (re_Status r).
  - intros x Hx. destruct (as_refused e) as [r|] eqn:Er; [by rewrite (refused_not_rpc e r Er) in Hx|].
    rewrite Hx. destruct (cannot (Code x)); [done|]. cbn.
    assert (Hn : forall s, errors_is e s = false).
    { intros s. destruct (errors_is e s) eqn:E; [|done]. apply errors_is_not_typed in E as [_ E]. congruence. }
    unfold sentinel_code. by rewrite !Hn.
  - intros s Hs. destruct (errors_is_not_typed e s Hs) as [-> ->]. cbn. rewrite (sentinel_code_of e s Hs).
    by destruct s.
  - by destruct (we_Code _).
Qed.

(** ** Status *)

Section status.
Context `{MapOrder}.

Lemma index_by_lookup {A} (key : A -> string) (l : list A) : forall (m : gmap string A) k,
  foldl (fun m a => <[key a := a]> m) m l !! k =
  match list.last (filter (fun a => key a = k) l) with Some a => Some a | None => m !! k end.
Proof.
  induction l as [|a l IH] using rev_ind; intros m k; [done|].
  rewrite foldl_app, filter_app. cbn [foldl]. destruct (decide (key a = k)) as [Hk|Hk].
  - rewrite filter_cons_True, filter_nil, last_snoc by done. by rewrite Hk, lookup_insert_eq.
  - rewrite filter_cons_False, filter_nil, app_nil_r by done. rewrite lookup_insert_ne by done. apply IH.
Qed.

Lemma index_by_Some {A} (key : A -> string) (l : list A) k a :
  index_by key l !! k = Some a -> a ∈ l /\ key a = k.
Proof.
  unfold index_by. rewrite index_by_lookup, lookup_empty.
  destruct (list.last _) as [b|] eqn:E; [|done]. intros [= ->].
  apply last_Some in E as [l' E]. assert (Hin : a ∈ filter (fun a => key a = k) l).
  { rewrite E. apply elem_of_app. right. by apply list_elem_of_singleton. }
  by apply list_elem_of_filter in Hin as [? ?].
Qed.

Lemma index_by_None {A} (key : A -> string) (l : list A) k :
  index_by key l !! k = None -> forall a, a ∈ l -> key a <> k.
Proof.
  unfold index_by. rewrite index_by_lookup, lookup_empty.
  destruct (list.last _) as [b|] eqn:E; [done|]. apply last_None in E. intros _ a Hin Hk.
  assert (Hf : a ∈ filter (fun a => key a = k) l) by (by apply list_elem_of_filter).
  rewrite E in Hf. by apply not_elem_of_nil in Hf.
Qed.

Lemma elem_of_reservationsLocked cpID s r :
  r ∈ reservationsLocked cpID s <->
  exists k v, reservations s !! k = Some v /\ res v = r /\ rv_ChargePointID r = cpID.
Proof.
  unfold reservationsLocked. rewrite elem_of_sort_by, list_elem_of_filter, list_elem_of_fmap. split.
  - intros [Hc ([k v] & -> & Hin)]. apply elem_of_range in Hin. by exists k, v.
  - intros (k & v & E & <- & Hc). split; [done|]. exists (k, v). by rewrite elem_of_range.
Qed.

Lemma elem_of_transactions cp t :
  t ∈ sort_by tx_seq (range (cp_transactions cp)).*2 <-> exists tid, cp_transactions cp !! tid = Some t.
Proof.
  rewrite elem_of_sort_by, list_elem_of_fmap. split.
  - intros ([k v] & -> & Hin). apply elem_of_range in Hin. by exists k.
  - intros (k & E). exists (k, t). by rewrite elem_of_range.
Qed.

(** The snapshot of a charge point is found under its id. *)
Lemma Snapshot_find w id cp :
  core_ok w -> cps (svc w) !! id = Some cp ->
  Snapshot_ChargePoint (Snapshot (svc w)) id = Some (snapshot_cp (svc w) cp).
Proof.
  intros [Hc _] E. unfold Snapshot_ChargePoint.
  assert (Hin : snapshot_cp (svc w) cp ∈ Snapshot (svc w)).
  { unfold Snapshot, sort_by_ID. rewrite merge_sort_Permutation. apply list_elem_of_fmap.
    exists (id, cp). by rewrite elem_of_range. }
  destruct (first_such _ _) as [x|] eqn:Ef.
  - apply first_such_Some in Ef as [Hx Hid]. apply bool_decide_eq_true in Hid.
    unfold Snapshot, sort_by_ID in Hx. rewrite merge_sort_Permutation in Hx.
    apply list_elem_of_fmap in Hx as ([k cp'] & -> & Hk). apply elem_of_range in Hk. cbn in Hid |- *.
    rewrite (ok_id _ _ (Hc k cp' Hk)) in Hid. subst k. by simplify_eq.
  - rewrite first_such_None in Ef. specialize (Ef _ Hin). apply bool_decide_eq_false in Ef.
    destruct Ef. cbn. apply (ok_id _ _ (Hc id cp E)).
Qed.

(** The status shows what core holds.  One row per EVSE of the station, in
    its order, with the status core shows; a row has a reservation exactly when
    one of that station holds the EVSE, and shows that one, whatever its state;
    it shows a running session of that EVSE, if there is one. *)
Theorem BuildStatus_faithful w id cp :
  core_ok w -> cps (svc w) !! id = Some cp ->
  er_UID <$> st_EVSEs (BuildStatus (Snapshot (svc w)) id) = cp_order cp /\
  forall row, row ∈ st_EVSEs (BuildStatus (Snapshot (svc w)) id) ->
    cp_effective cp !! er_UID row = Some (er_Status row) /\
    (forall r, er_Reservation row = Some r <->
       exists k v, reservations (svc w) !! k = Some v /\ rv_ChargePointID (res v) = id /\
         rv_EVSEUID (res v) = er_UID row /\ r = reservation_row (res v)) /\
    (forall r, er_Transaction row = Some r ->
       exists tid t, cp_transactions cp !! tid = Some t /\ Active t = true /\
         tx_EVSEUID t = er_UID row /\ r = transaction_row t) /\
    (er_Transaction row = None ->
       forall tid t, cp_transactions cp !! tid = Some t -> tx_EVSEUID t = er_UID row -> Active t = false).
Proof.
  intros Hw E. unfold BuildStatus. rewrite (Snapshot_find w id cp Hw E).
  cbn [st_EVSEs snapshot_cp cs_EVSEs cs_Reservations cs_Transactions].
  pose proof (proj1 Hw id cp E) as Hcp. rewrite (ok_id _ _ Hcp).
  split; [by rewrite <- !list_fmap_compose, list_fmap_id|].
  intros row Hin. apply list_elem_of_fmap in Hin as (e & -> & Hin).
  apply list_elem_of_fmap in Hin as (uid & -> & Hin). cbn [er_UID er_Status evse_row es_UID es_Status evse_snapshot].
  split.
  { apply (ok_effective _ _ Hcp) in Hin as [st ->]. done. }
  cbn [er_Reservation er_Transaction evse_row es_UID evse_snapshot]. split; [|split].
  - intros r. rewrite fmap_Some. split.
    + intros (r0 & (Hr & Hu)%index_by_Some & ->). apply elem_of_reservationsLocked in Hr as (k & v & Ek & <- & Hc).
      by exists k, v.
    + intros (k & v & Ek & Hc & Hu & ->).
      assert (Hr : res v ∈ reservationsLocked id (svc w)) by (apply elem_of_reservationsLocked; by exists k, v).
      destruct (index_by rv_EVSEUID (reservationsLocked id (svc w)) !! uid) as [r0|] eqn:Ei.
      * apply index_by_Some in Ei as [Hr0 Hu0]. apply elem_of_reservationsLocked in Hr0 as (k0 & v0 & Ek0 & <- & _).
        exists (res v0). split; [done|].
        assert (k = k0) as -> by (eapply (rk_evse w (proj2 Hw)); [done..|congruence]). by simplify_eq.
      * by destruct (index_by_None _ _ _ Ei (res v) Hr).
  - intros r (t & (Ht & Hu)%index_by_Some & ->)%fmap_Some. apply list_elem_of_filter in Ht as [Ha Ht].
    apply elem_of_transactions in Ht as (tid & Et). by exists tid, t.
  - intros Hn tid t Et Hu. apply fmap_None in Hn. destruct (Active t) eqn:Ha; [|done].
    destruct (index_by_None _ _ _ Hn t); [|done]. apply list_elem_of_filter. split; [done|].
    apply elem_of_transactions. by exists tid.
Qed.
End status.

(** ** Requests cpms cannot act on *)

Definition socket_ops : list string :=
  [SocketOpReserve; SocketOpCancel; SocketOpStart; SocketOpStop; SocketOpUnlock; SocketOpStatus; SocketOpProbe].

(** A request the daemon refuses as given. *)
Definition bad_request (req : Request) : Prop :=
  qr_V req <> socket_Version \/ qr_Op req ∉ socket_ops \/
  (qr_Op req = SocketOpReserve /\ request_expiry (qr_ExpiresIn req) = None).

(** A request of another protocol version, of an operation cpms does not
    know, or with an expiry that is not a positive duration, is answered as a
    usage error, and nothing is done: no id is used, nothing is sent, neither
    core nor the control layer changes. *)
Theorem bad_request_harmless `{MapOrder} `{Env} `{Commander} cfg chargePointID req c w :
  bad_request req ->
  exists message, dispatch cfg chargePointID req c w = ((usage message, c), w) /\
    forall op evse, ExitCode (Some (exitFor op evse (CSocket (mkWireError CodeUsage "" "" message)))) = ExitError.
Proof.
  intros Hb. assert (Hd : exists message, dispatch cfg chargePointID req c w = ((usage message, c), w)).
  { unfold dispatch. destruct (Z.eqb_spec (qr_V req) socket_Version) as [Hv|Hv]; [|by eexists]. cbn [negb].
    destruct Hb as [Hb|[Hb|[Ho He]]]; [done| |].
    - unfold socket_ops in Hb. rewrite !bool_decide_eq_false_2 by (intros Heq; apply Hb; rewrite Heq; set_solver).
      by eexists.
    - rewrite Ho, He. by eexists. }
  destruct Hd as [message Hd]. by exists message.
Qed.

(** A reservation asked for over the socket is for the default length or a
    positive one. *)
Lemma request_expiry_range s d : request_expiry s = Some d -> (s = "" /\ d = 0) \/ (0 < d /\ int_ok d).
Proof.
  unfold request_expiry. case_bool_decide; [by intros [= <-]; left|].
  intros (n & Hn & Hd)%bind_Some. destruct (n <=? 0) eqn:E; [done|]. injection Hd as <-. apply Z.leb_gt in E.
  right. split; [done|]. by eapply ParseDuration_int.
Qed.

(** ** Instances *)

#[local] Existing Instance key_order.
#[local] Existing Instance sample_env.
#[local] Existing Instance sample_commander.

Lemma exit_codes_witness :
  exit_of SocketOpCancel "EVSE-1" (wrap_colon "EVSE-1" (ESentinel ErrNoReservation)) = Some ExitRefused.
Proof.
  apply (proj1 (proj2 (proj2 (exit_codes SocketOpCancel "EVSE-1" (wrap_colon "EVSE-1" (ESentinel ErrNoReservation)))))
           ErrNoReservation).
  reflexivity.
Defined.

Definition sample_row : EVSEStatusRow :=
  default (mkEVSEStatusRow "" StatusNone "" None None)
    (head (st_EVSEs (BuildStatus (Snapshot (svc sample_world)) "CP1"))).

Lemma sample_cp_found : cps (svc sample_world) !! "CP1" = Some sample_cp.
Proof. vm_compute. reflexivity. Defined.

Lemma BuildStatus_faithful_witness :
  er_UID <$> st_EVSEs (BuildStatus (Snapshot (svc sample_world)) "CP1") = cp_order sample_cp.
Proof. exact (proj1 (BuildStatus_faithful sample_world "CP1" sample_cp sample_core_ok sample_cp_found)). Defined.

Lemma bad_request_harmless_witness :
  exists message,
    dispatch sample_config "CP1" (mkRequest 1 SocketOpReserve "EVSE-1" "" "soon") new_ctl sample_world =
      ((usage message, new_ctl), sample_world) /\
    forall op evse, ExitCode (Some (exitFor op evse (CSocket (mkWireError CodeUsage "" "" message)))) = ExitError.
Proof.
  apply (bad_request_harmless sample_config "CP1" (mkRequest 1 SocketOpReserve "EVSE-1" "" "soon") new_ctl sample_world).
  right. right. split; vm_compute; reflexivity.
Defined.

(** Requests of Samples.v's day, evaluated. *)
Example sample_requests :
  exit_of SocketOpReserve "EVSE-1" (refused OpReserve "EVSE-1" (mkResult CommandOccupied "Occupied")) = Some 5 /\
  exit_of SocketOpUnlock "EVSE-1" (ERPC (Errorf ErrNotSupported "no lock")) = Some 8 /\
  exit_of SocketOpStart "EVSE-1" (ETimeoutError "RemoteStartTransaction" (30 * second)) = Some 7 /\
  exit_of SocketOpStart "EVSE-1" EConnClosed = Some 3 /\
  er_UID sample_row = "EVSE-1" /\ er_Status sample_row = StatusAvailable /\
  rr_ID <$> er_Reservation sample_row = Some 1 /\ rr_State <$> er_Reservation sample_row = Some ReservationActive.
Proof. vm_compute. repeat split. Qed.
