(* ===== verification/CliReport.v ===== *)
(** * What the commands share and print (cli/root.go, config.go, summary.go, run.go, station.go, simulate.go)

    The paths the commands agree on, the choice of an EVSE, and the text of the
    summary, the validation report and the status.  Output is a list of lines
    and tables; how [text/tabwriter] aligns a table's cells is not modelled.
    [cobra] parses the flags, which appear as the values it leaves. *)

From S2P Require Import Prelude GoLib GoTime GoDuration Errors GoRegexp GoNet GoBase64 GoHttp Config Validate.
From S2P Require Import ConfigLoad Ocpp State Bus World Ocpi Simulator V16ChargePoint Control Socket Cli.

(** ** path/filepath *)

(** The components of a relative path: [..] stays where nothing precedes it. *)
Definition push_relative (acc : list string) (c : string) : list string :=
  if bool_decide (c = "" \/ c = ".") then acc
  else if bool_decide (c = "..") then
    match acc with
    | top :: rest => if bool_decide (top = "..") then c :: acc else rest
    | [] => [c]
    end
  else c :: acc.

Definition relative_components (p : string) : list string :=
  reverse (foldl push_relative [] (Split p "/"%char)).

(** [filepath.Clean]. *)
Definition filepath_Clean (p : string) : string :=
  match p with
  | String "/"%char _ => Clean p
  | _ => or_default (Join "/" (relative_components p)) "."
  end.

(** [filepath.Dir]: what precedes the last slash, the slash included. *)
Definition filepath_Dir (p : string) : string :=
  filepath_Clean (match cut_last "/"%char p with Some (dir, _) => dir +:+ "/" | None => "" end).

(** [filepath.Join] of two elements, of which an empty one is left out. *)
Definition filepath_Join (dir file : string) : string :=
  if bool_decide (dir = "") then (if bool_decide (file = "") then "" else filepath_Clean file)
  else if bool_decide (file = "") then filepath_Clean dir
  else filepath_Clean (dir +:+ "/" +:+ file).

(** ** The options every command has (root.go, station.go) *)

Definition DefaultConfigPath : string := "config.yaml".
Definition DefaultStateFile : string := "state.json".
Definition DefaultSocketFile : string := "cpms.sock".
Definition socketGrace : Z := 5 * second.

Record options := mkOptions { configPath : string; statePath : string; socketPath : string }.

Definition resolvedStatePath (o : options) : string :=
  if negb (bool_decide (statePath o = "")) then statePath o
  else filepath_Join (filepath_Dir (configPath o)) DefaultStateFile.

(** What the process asks the system: its temp directory, and a path made
    absolute against its working directory, which may be unknown. *)
Class Host := { TempDir : string; Abs : string -> option string }.

(** [hex.EncodeToString]. *)
Fixpoint hex_of (s : string) : string :=
  match s with EmptyString => EmptyString | String a r => hex_byte (byte_val a) +:+ hex_of r end.

Definition fallbackSocketPath `{Host} `{Digest} (statePath : string) : string :=
  let statePath := default statePath (Abs statePath) in
  filepath_Join TempDir ("cpms-" +:+ hex_of (String.substring 0 6 (Sum256 statePath)) +:+ ".sock").

Definition resolvedSocketPath `{Host} `{Digest} (o : options) (statePath : string) : string :=
  if negb (bool_decide (socketPath o = "")) then socketPath o
  else
    let path := filepath_Join (filepath_Dir statePath) DefaultSocketFile in
    if len path <=? MaxPathLen then path else fallbackSocketPath statePath.

(** ** Choosing the EVSE (station.go) *)

Definition evseList (cfg : Config) : string := Join ", " (ev_UID <$> lo_EVSEs (cf_Location cfg)).

Definition resolveEVSE (cfg : Config) (uid : string) : string + string :=
  let evses := lo_EVSEs (cf_Location cfg) in
  if bool_decide (uid = "") then
    match evses with
    | [e] => inl (ev_UID e)
    | _ => inr ("--evse is required with " +:+ Itoa (Z.of_nat (length evses)) +:+ " EVSEs configured; one of: " +:+
                evseList cfg)
    end
  else match EVSEByUID cfg uid with
       | None => inr ("unknown EVSE " +:+ Quote uid +:+ "; configured: " +:+ evseList cfg)
       | Some _ => inl uid
       end.

(** ** Plurals (summary.go) *)

Definition pluralNoun (noun : string) : string :=
  let n := String.length noun in
  let ies := match String.get (n - 1) noun, String.get (n - 2) noun with
             | Some last, Some before =>
               (1 <? n)%nat && bool_decide (last = "y"%char) && negb (one_of "aeiou" before)
             | _, _ => false
             end in
  if ies then String.substring 0 (n - 1) noun +:+ "ies" else noun +:+ "s".

Definition plural (n : Z) (noun : string) : string :=
  if n =? 1 then Itoa n +:+ " " +:+ noun else Itoa n +:+ " " +:+ pluralNoun noun.

(** ** URLs made of a listen address (summary.go, simulate.go) *)

(** The hosts of a bind address that name none. *)
Definition wildcard_bind (host : string) : bool := bool_decide (host ∈ [""; "0.0.0.0"; "::"; "[::]"]).

Definition csmsURL (cfg : Config) : string :=
  let bind := OCPPBind (cf_Server cfg) in
  let id := ch_ID (cf_Charger cfg) in
  match SplitHostPort bind with
  | None => "ws://" +:+ bind +:+ "/ocpp/" +:+ id
  | Some (host, port) =>
    let host := if wildcard_bind host then "<this-host>" else host in
    "ws://" +:+ host +:+ ":" +:+ port +:+ "/ocpp/" +:+ id
  end.

(** [net.JoinHostPort]: a host with a colon is an IPv6 address. *)
Definition JoinHostPort (host port : string) : string :=
  if has_byte ":"%char host then "[" +:+ host +:+ "]:" +:+ port else host +:+ ":" +:+ port.

Definition csmsURLFromBind (bind : string) : string :=
  match SplitHostPort bind with
  | None => ""
  | Some (host, port) => "ws://" +:+ JoinHostPort (if wildcard_bind host then "127.0.0.1" else host) port
  end.

(** ** Output *)

(** A check of the station against config, and what `cpms probe --json` prints
    (probe.go). *)
Record check := mkCheck { ck_mark : string; ck_text : string }.

Record probeOutput := mkProbeOutput {
  po_ProbeResult : ProbeResult;
  po_OK : bool;
  po_Missing : list string;
  po_Unconfirmed : list string;
  po_Warnings : list string;
  po_checks : list check
}.

(** What a command writes, by the stream it asks [cobra] for: [cmd.Print]'s own,
    or the command's output (a line or a table) and error streams.  With --json
    [cmd.Print] writes a value, as its indented JSON. *)
Inductive Output :=
| Printed (s : string)
| Line (s : string)
| Table (rows : list (list string))
| ErrLine (s : string)
| PrintedStatus (st : StatusResult)
| PrintedProbe (p : probeOutput).

Definition connectorSummary (connectors : list Config.Connector) : string :=
  Join ", " ((fun c => cn_Standard c +:+ "/" +:+ cn_Format c +:+ "/" +:+ cn_PowerType c +:+ " " +:+
                       Itoa (cn_MaxVoltage c) +:+ "V " +:+ Itoa (cn_MaxAmperage c) +:+ "A") <$> connectors).

Definition locationLine (cfg : Config) : string :=
  let l := cf_Location cfg in
  let s := lo_ID l +:+
           (if bool_decide (lo_Name l = "") then "" else " " +:+ Quote (lo_Name l)) +:+
           (if bool_decide (lo_City l = "") then "" else ", " +:+ lo_City l) +:+
           " (" +:+ lo_Country l +:+ ")" in
  let connectors := foldl (fun n e => n + Z.of_nat (length (ev_Connectors e))) 0 (lo_EVSEs l) in
  s +:+ " — " +:+ plural (Z.of_nat (length (lo_EVSEs l))) "EVSE" +:+ ", " +:+ plural connectors "connector".

Definition printSummary (cfg : Config) (statePath : string) : list Output :=
  let ch := cf_Charger cfg in
  let charger := ch_ID ch +:+ "  (OCPP " +:+ ch_OCPPVersion ch +:+ ")" +:+
                 (if bool_decide (ch_IP ch = "") then "" else "  at " +:+ ch_IP ch) in
  [Table [["  Charge point"; charger];
          ["  OCPP listener"; OCPPBind (cf_Server cfg)];
          ["  Station CSMS URL"; csmsURL cfg];
          ["  Heartbeat timeout"; raw (ch_HeartbeatTimeout ch)];
          ["  OCPI listener"; OCPIBind (cf_Server cfg)];
          ["  OCPI advertised as"; oc_PublicBaseURL (cf_OCPI cfg)];
          ["  OCPI party"; oc_CountryCode (cf_OCPI cfg) +:+ "*" +:+ oc_PartyID (cf_OCPI cfg)];
          ["  Default RFID tag"; DefaultIDTag (cf_Auth cfg)];
          ["  Location"; locationLine cfg];
          ["  State file"; statePath]];
   Line "";
   Table (["  EVSE"; "EVSE ID"; "OCPP CONNECTOR"; "CONNECTORS"] ::
          ((fun e => ["  " +:+ ev_UID e; ev_EVSEID e; Itoa (ev_OCPPConnectorID e); connectorSummary (ev_Connectors e)])
             <$> lo_EVSEs (cf_Location cfg)))].

(** ** `cpms config validate` (config.go) *)

Definition printValidationReport (path : string) (errs : ValidationErrors) : list Output :=
  ErrLine (path +:+ " is not valid:") :: ErrLine "" ::
  ((fun fe => ErrLine (if bool_decide (fe_Path fe = "") then "  " +:+ fe_Msg fe
                       else "  " +:+ fe_Path fe +:+ ": " +:+ fe_Msg fe)) <$> errs) ++
  [ErrLine ""; ErrLine (if bool_decide (length errs = 1%nat) then "1 problem found."
                        else Itoa (Z.of_nat (length errs)) +:+ " problems found.")].

(** What the config file gave: nothing readable, or a document. *)
Definition ConfigFile : Type := YAML + string.

(** An error a command returns: one it has reported already, or any other. *)
Inductive CliError := ErrSilent | Failed (e : CommandError).

Definition command_message (e : CommandError) : string :=
  match e with ExitStatus _ msg | PlainError msg => msg end.

Section load.
Context `{URLs}.

(** config/load.go's [Load]: the config, what is wrong with it, or the error of
    opening it. *)
Definition Load (f : ConfigFile) : Config + (ValidationErrors + string) :=
  match f with
  | inr text => inr (inr text)
  | inl y => match parse_file y with inl cfg => inl cfg | inr errs => inr (inl errs) end
  end.

(** [loadConfig]: the config, or the error returned and what was written. *)
Definition loadConfig (o : options) (f : ConfigFile) : Config + (CliError * list Output) :=
  match Load f with
  | inl cfg => inl cfg
  | inr (inr text) => inr (Failed (PlainError ("reading " +:+ configPath o +:+ ": " +:+ text)), [])
  | inr (inl errs) => inr (ErrSilent, printValidationReport (configPath o) errs)
  end.

Definition config_validate (o : options) (f : ConfigFile) : list Output * option CliError :=
  match loadConfig o f with
  | inl cfg => (Printed (configPath o +:+ " is valid.") :: Printed "" :: printSummary cfg (resolvedStatePath o), None)
  | inr (err, out) => (out, Some err)
  end.
End load.

(** ** The process (cmd/cpms/main.go) *)

(** The exit status of [main], and what it adds to stderr. *)
Definition main_exit (err : option CliError) : Z * list Output :=
  match err with
  | None => (0, [])
  | Some ErrSilent => (ExitCode (Some (PlainError "cpms: command reported its own error")), [])
  | Some (Failed e) => (ExitCode (Some e), [ErrLine ("cpms: " +:+ command_message e)])
  end.

(** ** The log level (run.go) *)

Inductive LogLevel := LevelDebug | LevelInfo | LevelWarn | LevelError.

(** [strings.ToLower] as far as ASCII results go: two runes that are not ASCII
    lower to an ASCII letter, U+0130 and U+212A; other such runes are kept. *)
Definition lower_rune (r : Z * string) : string :=
  let '(v, bs) := r in
  if in_range 65 90 v then String (byte_of (v + 32)) EmptyString
  else if v =? 304 then "i" else if v =? 8490 then "k" else bs.

Definition ToLower (s : string) : string := concat_strings (lower_rune <$> runes s).

Definition newLogger (level : string) : LogLevel + string :=
  let l := ToLower level in
  if bool_decide (l = "debug") then inl LevelDebug
  else if bool_decide (l = "info") then inl LevelInfo
  else if bool_decide (l = "warn" \/ l = "warning") then inl LevelWarn
  else if bool_decide (l = "error") then inl LevelError
  else inr ("unknown log level " +:+ Quote level +:+ "; want debug, info, warn or error").

(** ** `cpms status` (station.go) *)

(** The terminal's clock: the n-th reading, and the offset of local time from
    UTC at an instant, in seconds. *)
Class LocalClock := { local_Now : nat -> Time; local_offset : Z -> Z }.

Section status.
Context `{LocalClock}.

(** Seconds since January 1 of year 1 on the clock of the wall. *)
Definition wall_sec (t : Time) : Z := unix_sec t + local_offset (instant t).

Definition wall_clock (t : Time) : string :=
  let r := wall_sec t mod seconds_per_day in
  pad_zero 2 (r / 3600) +:+ ":" +:+ pad_zero 2 (r mod 3600 / 60) +:+ ":" +:+ pad_zero 2 (r mod 60).

Definition wall_date (t : Time) : string :=
  let d := date_of_days (wall_sec t / seconds_per_day) in
  pad_zero 4 (year d) +:+ "-" +:+ pad_zero 2 (month d) +:+ "-" +:+ pad_zero 2 (day d).

(** Printing counts the readings of the clock. *)
Definition Reading (A : Type) : Type := nat -> A * nat.

Definition localTime (t : Time) : Reading string := fun n =>
  let today := wall_sec (local_Now n) / seconds_per_day in
  (if wall_sec t / seconds_per_day =? today then wall_clock t else wall_date t +:+ " " +:+ wall_clock t, S n).

Definition reservation_status_string (s : ReservationStatus) : string :=
  match s with
  | ReservationUnset => ""
  | ReservationPending => "pending"
  | ReservationActive => "active"
  | ReservationCancelling => "cancelling"
  end.

Definition reservation_cell (r : option ReservationStatusRow) : Reading string := fun n =>
  match r with
  | None => ("-", n)
  | Some r =>
    let '(until, n) := localTime (rr_ExpiresAt r) n in
    ("#" +:+ Itoa (rr_ID r) +:+ " " +:+ rr_IDTag r +:+ " until " +:+ until +:+
     (if bool_decide (rr_State r = ReservationActive) then ""
      else " (" +:+ reservation_status_string (rr_State r) +:+ ")"), n)
  end.

Definition transaction_cell (t : option TransactionStatusRow) : Reading string := fun n =>
  match t with
  | None => ("-", n)
  | Some t =>
    let '(since, n) := localTime (tr_StartedAt t) n in (tr_ID t +:+ " " +:+ tr_IDTag t +:+ " since " +:+ since, n)
  end.

Definition status_cell (e : EVSEStatusRow) : string :=
  status_string (er_Status e) +:+
  (if negb (bool_decide (er_ErrorCode e = "")) && negb (bool_decide (er_ErrorCode e = "NoError"))
   then " (" +:+ er_ErrorCode e +:+ ")" else "").

Definition status_row (e : EVSEStatusRow) : Reading (list string) := fun n =>
  let '(reservation, n) := reservation_cell (er_Reservation e) n in
  let '(transaction, n) := transaction_cell (er_Transaction e) n in
  ([er_UID e; status_cell e; reservation; transaction], n).

Fixpoint status_rows (l : list EVSEStatusRow) : Reading (list (list string)) := fun n =>
  match l with
  | [] => ([], n)
  | e :: l =>
    let '(row, n) := status_row e n in
    let '(rows, n) := status_rows l n in (row :: rows, n)
  end.

(** The vendor and the model, as far as there are any. *)
Definition station_name (vendor model : string) : string := TrimSpace (vendor +:+ " " +:+ model).

Definition printStatus (st : StatusResult) : Reading (list Output) := fun n =>
  let cp := st_ChargePoint st in
  let station := station_name (ss_Vendor cp) (ss_Model cp) in
  let line := ss_ID cp +:+ "  " +:+ (if ss_Online cp then "online" else "offline") +:+
    (if bool_decide (station = "") then ""
     else "  " +:+ station +:+ (if bool_decide (ss_Firmware cp = "") then "" else " fw " +:+ ss_Firmware cp)) in
  let '(seen, n) :=
    match ss_LastSeen cp with
    | Some t => let '(at_, n) := localTime t n in ("  last seen " +:+ at_, n)
    | None => ("  never seen", n)
    end in
  let '(rows, n) := status_rows (st_EVSEs st) n in
  ([Printed (line +:+ seen); Printed ""; Table (["EVSE"; "STATUS"; "RESERVATION"; "TRANSACTION"] :: rows)], n).
End status.

(** ** `cpms simulate charger` (simulate.go) *)

Definition scenarioList : string := Join ", " Scenarios.

Record simulate_flags := mkSimulateFlags {
  sf_csms : string;
  sf_id : string;
  sf_version : string;
  sf_connectors : Z;
  sf_scenario : string;
  sf_tag : string;
  sf_vendor : string;
  sf_model : string
}.

(** The flags with what the config supplies, when it can be read. *)
Definition with_config (cfg : Config) (f : simulate_flags) : simulate_flags :=
  mkSimulateFlags (or_default (sf_csms f) (csmsURLFromBind (OCPPBind (cf_Server cfg))))
    (or_default (sf_id f) (ch_ID (cf_Charger cfg))) (sf_version f)
    (if sf_connectors f =? 0 then Z.of_nat (length (lo_EVSEs (cf_Location cfg))) else sf_connectors f)
    (sf_scenario f) (or_default (sf_tag f) (DefaultIDTag (cf_Auth cfg))) (sf_vendor f) (sf_model f).

Definition one_connector (f : simulate_flags) : simulate_flags :=
  mkSimulateFlags (sf_csms f) (sf_id f) (sf_version f) (if sf_connectors f =? 0 then 1 else sf_connectors f)
    (sf_scenario f) (sf_tag f) (sf_vendor f) (sf_model f).

(** Up to the run of the simulator: it, or the error. *)
Definition simulate_charger (o : options) (cfg : option Config) (level : string) (f : simulate_flags)
    : Sim + string :=
  match newLogger level with
  | inr err => inr err
  | inl _ =>
    let f := one_connector (match cfg with Some cfg => with_config cfg f | None => f end) in
    if bool_decide (sf_csms f = "") || bool_decide (sf_id f = "") then
      inr ("--csms and --id are required when " +:+ configPath o +:+ " cannot be read")
    else match Simulator.New (Simulator.mkOptions (sf_csms f) (sf_id f) (sf_version f) (sf_connectors f) (sf_vendor f)
                                  (sf_model f) "" "" (sf_tag f) (sf_scenario f) 0 [] "") with
         | inl s => inl s
         | inr e => inr (Error e)
         end
  end.

Example plural_samples :
  plural 1 "capability" = "1 capability" /\ plural 3 "capability" = "3 capabilities" /\
  plural 0 "capability" = "0 capabilities" /\ plural 2 "connector" = "2 connectors" /\
  plural 2 "EVSE" = "2 EVSEs" /\ plural 2 "day" = "2 days" /\ plural 2 "key" = "2 keys".
Proof. vm_compute. done. Qed.

Example path_samples :
  filepath_Dir "config.yaml" = "." /\ filepath_Dir "a/b.yaml" = "a" /\ filepath_Dir "/x" = "/" /\
  filepath_Dir "a//b/../c" = "a" /\ filepath_Join "." "state.json" = "state.json" /\
  filepath_Join "../a" "state.json" = "../a/state.json" /\ filepath_Join "/" "state.json" = "/state.json" /\
  filepath_Clean "../../a/.." = "../.." /\ filepath_Clean "a/.." = "." /\ filepath_Clean "/../a" = "/a".
Proof. vm_compute. done. Qed.

(** The summary's URL leaves an IPv6 host without brackets, where the
    simulator's has them. *)
Example csmsURL_ipv6 :
  SplitHostPort "[fe80::1]:9000" = Some ("fe80::1", "9000") /\
  csmsURLFromBind "[fe80::1]:9000" = "ws://[fe80::1]:9000" /\
  (forall cfg, OCPPBind (cf_Server cfg) = "[fe80::1]:9000" -> ch_ID (cf_Charger cfg) = "CP1" ->
    csmsURL cfg = "ws://fe80::1:9000/ocpp/CP1").
Proof.
  split; [by vm_compute|]. split; [by vm_compute|]. intros cfg Hb Hi. unfold csmsURL. rewrite Hb, Hi.
  by vm_compute.
Qed.
