(* ===== verification/CliProbe.v ===== *)
(** * `cpms probe` (cli/probe.go)

    The station's report against what cpms needs and against config: the
    verdict, the checks and the text. *)

From S2P Require Import Prelude GoLib GoTime Errors GoNet Config Ocpp State Bus World V16ChargePoint Control.
From S2P Require Import Socket Cli CliReport.

(** [fmt]'s [%g] of a duration's seconds as a float64, a parameter: the shortest
    decimal text of a floating-point number. *)
Class FloatText := { format_g : Z -> string }.

(** ** What cpms needs *)

Record need := mkNeed { capability : Capability; needed : bool; usedFor : string; without : string }.

Definition needs : list need := [
  mkNeed CapRemoteStartStop true "start, stop"
    "cpms cannot start or stop sessions, from the terminal or for OCPI START_SESSION and STOP_SESSION.";
  mkNeed CapUnlock true "unlock"
    "cpms cannot release a stuck cable, from the terminal or for OCPI UNLOCK_CONNECTOR.";
  mkNeed CapReservation true "reserve, cancel, OCPI RESERVE_NOW"
    "OCPI RESERVE_NOW cannot be passed on to the station, so cpms would have to hold reservations itself.";
  mkNeed CapTriggerStatus false "status refresh on demand"
    "cpms learns about status changes only when the station reports them by itself."].

Definition needOf (name : string) : option need :=
  first_such (fun n => bool_decide (capability_string (capability n) = name)) needs.

(** ** The verdict *)

(** What one capability of the report adds to the two lists. *)
Inductive standing := Fine | IsMissing | IsUnconfirmed.

Definition capability_standing (c : string * string) : standing :=
  match needOf c.1 with
  | None => Fine
  | Some n =>
    if negb (needed n) then Fine
    else if bool_decide (c.2 = support_string SupportYes) then Fine
    else if bool_decide (c.2 = support_string SupportNo) then IsMissing
    else IsUnconfirmed
  end.

Fixpoint capability_lists (l : list (string * string)) : list string * list string :=
  match l with
  | [] => ([], [])
  | c :: l =>
    let '(missing, unconfirmed) := capability_lists l in
    match capability_standing c with
    | Fine => (missing, unconfirmed)
    | IsMissing => (c.1 :: missing, unconfirmed)
    | IsUnconfirmed => (missing, c.1 :: unconfirmed)
    end
  end.

Definition markOK : string := "ok".
Definition markWarn : string := "!".
Definition markUnknown : string := "?".

Section checks.
Context `{FloatText}.

Definition seconds (d : Z) : string := format_g d +:+ "s".

(** The EVSEs mapped to a connector the station does not have. *)
Fixpoint stray_checks (connectors : Z) (i : Z) (evses : list EVSE) : list check :=
  match evses with
  | [] => []
  | e :: rest =>
    (if connectors <? ev_OCPPConnectorID e then
       [mkCheck markWarn ("location.evses[" +:+ Itoa i +:+ "] (" +:+ ev_UID e +:+ ") maps to ocpp_connector_id " +:+
          Itoa (ev_OCPPConnectorID e) +:+ ", but the station reports " +:+ plural connectors "connector")]
     else []) ++ stray_checks connectors (i + 1) rest
  end.

Definition connector_checks (cfg : Config) (connectors : option Z) : list check :=
  let evses := lo_EVSEs (cf_Location cfg) in
  let n := Z.of_nat (length evses) in
  match connectors with
  | None => [mkCheck markUnknown
      "the station did not report how many connectors it has; cannot check it against config"]
  | Some k =>
    if negb (k =? n) then
      [mkCheck markWarn ("the station reports " +:+ plural k "connector" +:+ ", but config has " +:+
         plural n "EVSE" +:+ "; check location.evses and their ocpp_connector_id")]
    else match stray_checks k 0 evses with
         | [] => [mkCheck markOK (plural k "connector" +:+ ", matching the " +:+ plural n "EVSE" +:+ " in config")]
         | stray => stray
         end
  end.

Definition stale_hint : string :=
  "It may be a stale setting (some stations heartbeat at the BootNotification interval regardless): " +:+
  "check the heartbeat spacing in the `--log-level debug` log".

(** [time.Duration(n) * time.Second] wraps. *)
Definition heartbeat_check (cfg : Config) (interval : option Z) : check :=
  match interval with
  | None => mkCheck markUnknown "the station did not report its heartbeat interval; cannot check it against config"
  | Some n =>
    let got := wrap_int (n * second) in
    let want := dur (ch_HeartbeatInterval (cf_Charger cfg)) in
    let timeout := dur (ch_HeartbeatTimeout (cf_Charger cfg)) in
    if timeout <=? got then
      mkCheck markWarn ("the station's HeartbeatInterval setting is " +:+ seconds got +:+
        ", which is not before charger.heartbeat_timeout (" +:+ seconds timeout +:+ ") runs out. " +:+
        stale_hint +:+
        ". If the station really heartbeats that slowly, cpms will mark it offline after charger.heartbeat_timeout")
    else if negb (got =? want) then
      mkCheck markWarn ("the station's HeartbeatInterval setting is " +:+ seconds got +:+
        ", but charger.heartbeat_interval is " +:+ seconds want +:+ ". " +:+ stale_hint)
    else mkCheck markOK ("heartbeat every " +:+ seconds got +:+ ", as charger.heartbeat_interval says")
  end.

Definition configChecks (cfg : Config) (r : ProbeResult) : list check :=
  connector_checks cfg (pb_Connectors r) ++ [heartbeat_check cfg (pb_HeartbeatIntervalSeconds r)].

Definition evaluateProbe (cfg : Config) (r : ProbeResult) : probeOutput :=
  let '(missing, unconfirmed) := capability_lists (pb_Capabilities r) in
  let checks := configChecks cfg r in
  mkProbeOutput r (bool_decide (missing = [])) missing unconfirmed
    (ck_text <$> filter (fun c => ck_mark c <> markOK) checks) checks.
End checks.

(** ** The text *)

Definition supportMark (support : string) : string :=
  if bool_decide (support = support_string SupportYes) then "✓"
  else if bool_decide (support = support_string SupportNo) then "✗" else "?".

(** [tryIt]. *)
Definition tryIt (name : string) : string :=
  if bool_decide (name = capability_string CapRemoteStartStop) then "`cpms start`"
  else if bool_decide (name = capability_string CapUnlock) then "`cpms unlock`"
  else if bool_decide (name = capability_string CapReservation) then "`cpms reserve`"
  else "the matching command".

(** The names of the features, once for each grant of the capability. *)
Definition grantors (r : ProbeResult) (name : string) : list string :=
  pb_Features r ≫= fun '(feature, _, grants, _) => (fun _ => feature) <$> filter (fun g => g = name) grants.

Definition grantedBy (r : ProbeResult) (name : string) : string :=
  match grantors r name with [] => name | names => Join " or " names end.

(** The needs the grants of a feature meet. *)
Definition needs_met (grants : list string) : list need := omap needOf grants.

Definition feature_row (f : string * string * list string * bool) : list string :=
  let '(name, support, grants, _) := f in
  let uses := needs_met grants in
  ["  " +:+ name; supportMark support;
   match uses with [] => "" | _ => if existsb needed uses then "required" else "optional" end;
   match uses with [] => "not used by cpms" | _ => Join ", " (usedFor <$> uses) end].

Definition setting_row (s : Setting) : list string :=
  ["  " +:+ SettingName s; if Reported s then SettingValue s else "not reported"; Meaning s].

Definition raw_row (k : RawSetting) : list string :=
  ["  " +:+ RawKey k; if Readonly k then "ro" else "rw"; RawValue k].

(** [%-2s]. *)
Definition pad_mark (s : string) : string := s +:+ repeat_char (2 - length (runes s)) " "%char.

(** The parts that are known of who the station is. *)
Definition identity_parts (r : ProbeResult) : list string :=
  let station := station_name (pb_Vendor r) (pb_Model r) in
  (if bool_decide (station = "") then [] else [station]) ++
  (if bool_decide (pb_SerialNumber r = "") then [] else ["serial " +:+ pb_SerialNumber r]) ++
  (if bool_decide (pb_Firmware r = "") then [] else ["firmware " +:+ pb_Firmware r]).

(** What stops working without a capability: nothing for one cpms does not know. *)
Definition without_of (name : string) : string := match needOf name with Some n => without n | None => "" end.

Definition printProbe (out : probeOutput) (raw : bool) : list Output :=
  let r := po_ProbeResult out in
  [Printed (pb_ID r +:+ "  OCPP " +:+ pb_OCPPVersion r)] ++
  match identity_parts r with [] => [] | parts => [Printed ("  " +:+ Join ", " parts)] end ++
  [Printed ""; Printed "Features"; Table (feature_row <$> pb_Features r);
   Printed ""; Printed "Settings"; Table (setting_row <$> pb_Settings r);
   Printed ""; Printed "Checks"] ++
  ((fun c => Printed ("  " +:+ pad_mark (ck_mark c) +:+ "  " +:+ ck_text c)) <$> po_checks out) ++
  (if raw then [Printed ""; Printed "All keys"; Table (raw_row <$> pb_Raw r)] else []) ++
  [Printed ""] ++
  ((fun '(name, _, _, _) => Printed (name +:+ " was not reported, but it is mandatory in OCPP " +:+
      pb_OCPPVersion r +:+ ": assumed present.")) <$> filter (fun f => f.2 = true) (pb_Features r)) ++
  ((fun name => Printed (grantedBy r name +:+ " is missing: " +:+ without_of name)) <$> po_Missing out) ++
  ((fun name => Printed (grantedBy r name +:+ " was not reported, so cpms cannot be sure of it. Try it (" +:+
      tryIt name +:+ "); if the station refuses, this is what stops working: " +:+ without_of name))
     <$> po_Unconfirmed out) ++
  (if bool_decide (po_Missing out = []) && bool_decide (po_Unconfirmed out = [])
   then [Printed "Every capability cpms requires is present."] else []).

(** The error of a probe whose verdict is not OK. *)
Definition probe_error (out : probeOutput) : option CliError :=
  if po_OK out then None
  else Some (Failed (ExitStatus ExitMissingCapability
         ("the station lacks " +:+ plural (Z.of_nat (length (po_Missing out))) "capability" +:+
          " that cpms requires: " +:+ Join ", " (po_Missing out)))).

(** After the answer: what is written, and the error. *)
Definition probe_report_out (out : probeOutput) (asJSON raw : bool) : list Output * option CliError :=
  (if asJSON then [PrintedProbe out] else printProbe out raw, probe_error out).

(** ** What the verdict says *)

(** cpms cannot do without it. *)
Definition requires (c : Capability) : bool :=
  match needOf (capability_string c) with Some n => needed n | None => false end.

Lemma requires_spec c : requires c = true <-> c <> CapTriggerStatus.
Proof. by destruct c. Qed.

Lemma capability_standing_of (support : Capability -> Support) c :
  capability_standing (capability_string c, support_string (support c)) =
  if requires c then match support c with SupportYes => Fine | SupportNo => IsMissing | SupportUnknown => IsUnconfirmed end
  else Fine.
Proof. by destruct c, (support _). Qed.

(** The lists hold the required capabilities, in the report's order. *)
Lemma capability_lists_of (support : Capability -> Support) l :
  capability_lists ((fun c => (capability_string c, support_string (support c))) <$> l) =
  (capability_string <$> filter (fun c => requires c = true /\ support c = SupportNo) l,
   capability_string <$> filter (fun c => requires c = true /\ support c = SupportUnknown) l).
Proof.
  induction l as [|c l IH]; [done|]. cbn [fmap list_fmap capability_lists].
  change (list_fmap _ _ ?f l) with (f <$> l). rewrite IH, capability_standing_of, !filter_cons.
  destruct (requires c) eqn:Hr, (support c) eqn:Hs; cbn [fst];
    repeat (case_decide as Hd; [|try by (exfalso; apply Hd)]); try done;
    by destruct Hd as [? ?].
Qed.

Lemma stray_checks_nil k i l : stray_checks k i l = [] <-> Forall (fun e => ev_OCPPConnectorID e <= k) l.
Proof.
  revert i. induction l as [|e l IH]; intros i; [by split|]. cbn. rewrite Forall_cons, <- (IH (i + 1)).
  destruct (k <? ev_OCPPConnectorID e) eqn:E; cbn.
  - split; [done|]. intros [? _]. lia.
  - split; [intros ->; split; [lia|done] | by intros [_ ->]].
Qed.

Lemma stray_checks_marks k i l : Forall (fun c => ck_mark c = markWarn) (stray_checks k i l).
Proof.
  revert i. induction l as [|e l IH]; intros i; cbn; [by constructor|].
  destruct (_ <? _); cbn; [by constructor|]. apply IH.
Qed.

Section verdict.
Context `{FloatText}.

(** What config says about the station is what the station says. *)
Definition agrees (cfg : Config) (r : ProbeResult) : Prop :=
  pb_Connectors r = Some (Z.of_nat (length (lo_EVSEs (cf_Location cfg)))) /\
  (forall e, e ∈ lo_EVSEs (cf_Location cfg) ->
     ev_OCPPConnectorID e <= Z.of_nat (length (lo_EVSEs (cf_Location cfg)))) /\
  exists n, pb_HeartbeatIntervalSeconds r = Some n /\
    wrap_int (n * second) = dur (ch_HeartbeatInterval (cf_Charger cfg)) /\
    wrap_int (n * second) < dur (ch_HeartbeatTimeout (cf_Charger cfg)).

Lemma heartbeat_check_ok cfg i :
  ck_mark (heartbeat_check cfg i) = markOK <->
  exists n, i = Some n /\ wrap_int (n * second) = dur (ch_HeartbeatInterval (cf_Charger cfg)) /\
    wrap_int (n * second) < dur (ch_HeartbeatTimeout (cf_Charger cfg)).
Proof.
  destruct i as [n|]; cbn [heartbeat_check]; [|by split; [|intros (? & ? & _)]].
  destruct (_ <=? _) eqn:E1; [|destruct (_ =? _) eqn:E2]; cbn [negb ck_mark].
  - split; [done|]. intros (? & [= <-] & _ & ?). lia.
  - split; [|done]. intros _. exists n. split; [done|]. lia.
  - split; [done|]. intros (? & [= <-] & ? & _). lia.
Qed.

Lemma connector_checks_ok cfg k :
  Forall (fun c => ck_mark c = markOK) (connector_checks cfg k) <->
  let n := Z.of_nat (length (lo_EVSEs (cf_Location cfg))) in
  k = Some n /\ Forall (fun e => ev_OCPPConnectorID e <= n) (lo_EVSEs (cf_Location cfg)).
Proof.
  destruct k as [k|]; cbn [connector_checks]; [|by split; [inversion 1|intros [? _]]].
  set (evses := lo_EVSEs _). set (n := Z.of_nat _). destruct (k =? n) eqn:E; cbn [negb].
  - apply Z.eqb_eq in E as ->. rewrite <- (stray_checks_nil n 0 evses).
    pose proof (stray_checks_marks n 0 evses) as Hm. destruct (stray_checks n 0 evses) as [|c l].
    + split; [done|]. intros _. by repeat constructor.
    + split; [|by intros [_ ?]]. inversion_clear 1 as [|? ? Hc _]. inversion_clear Hm as [|? ? Hc' _].
      by rewrite Hc' in Hc.
  - split; [by inversion 1|]. intros [[= ->] _]. lia.
Qed.

(** There are no warnings exactly when the two agree. *)
Lemma no_warnings cfg r : po_Warnings (evaluateProbe cfg r) = [] <-> agrees cfg r.
Proof.
  assert (Hw : po_Warnings (evaluateProbe cfg r) = [] <-> Forall (fun c => ck_mark c = markOK) (configChecks cfg r)).
  { unfold evaluateProbe. destruct (capability_lists _). cbn [po_Warnings].
    induction (configChecks cfg r) as [|c cs IH]; [by split|]. rewrite filter_cons, Forall_cons, <- IH.
    case_decide as Hd; [by split; [|intros [? _]]|]. split; [|by intros [_ ?]].
    intros Hcs. split; [|done]. destruct (decide (ck_mark c = markOK)); [done|by destruct Hd]. }
  rewrite Hw. unfold configChecks. rewrite Forall_app, connector_checks_ok, Forall_singleton, heartbeat_check_ok.
  unfold agrees. rewrite Forall_forall. tauto.
Qed.

(** The verdict depends on the required capabilities alone. *)
Lemma verdict_of cfg report snap id :
  let out := evaluateProbe cfg (BuildProbe report snap id) in
  po_Missing out = capability_string <$>
    filter (fun c => requires c = true /\ report_support report c = SupportNo) AllCapabilities /\
  po_Unconfirmed out = capability_string <$>
    filter (fun c => requires c = true /\ report_support report c = SupportUnknown) AllCapabilities /\
  ExitCode (match probe_error out with Some (Failed e) => Some e | _ => None end) =
    (if bool_decide (po_Missing out = []) then ExitOK else ExitMissingCapability).
Proof.
  unfold evaluateProbe, BuildProbe. cbn [pb_Capabilities].
  rewrite (capability_lists_of (report_support report)). cbn [po_Missing po_Unconfirmed po_OK].
  split; [done|]. split; [done|]. unfold probe_error. cbn [po_OK].
  by destruct (bool_decide _).
Qed.
End verdict.
