(* ===== verification/CliCommands.v ===== *)
(** * The one-shot commands (cli/station.go, cli/probe.go, control/socket/client.go)

    A command loads the config, picks the EVSE, sends one request over the
    control socket and turns what comes back into output and an error.  Whoever
    answers is a parameter, [daemon] of socket/server.go one of them; its world
    is the world the request is served in. *)

From S2P Require Import Prelude GoLib GoTime GoDuration Json Ocpp Errors GoNet Config Validate ConfigLoad.
From S2P Require Import State Bus World Core Persist Reservations Transactions V16ChargePoint Control.
From S2P Require Import Ocpi Socket Cli CliReport CliProbe.

(** ** The client (client.go) *)

Inductive DialError := DialNotExist | DialRefused | DialOther.

(** What came of a request: no connection, a connection that broke before or
    after the request was written, a line that is no response, or a response. *)
Inductive Link :=
| NoConnection (e : DialError)
| WriteFailed (text : string)
| NoAnswer (text : string)
| Unreadable (text : string)
| Answered (ok : bool) (result : option OpResult) (err : option WireError).

Definition dial_reason (path : string) (e : DialError) : string :=
  match e with
  | DialNotExist => "no control socket at " +:+ path
  | DialRefused => "nothing is listening on " +:+ path
  | DialOther => "cannot connect to " +:+ path
  end.

(** [Call] from the dial on. *)
Definition Call_answer (path : string) (timeout : Z) (l : Link) : option OpResult + ClientError :=
  match l with
  | NoConnection e => inr (CErr (EWrap "" (ESentinel ErrNotRunning) (": " +:+ dial_reason path e)))
  | WriteFailed text => inr (CErr (EText ("sending to cpms run: " +:+ text)))
  | NoAnswer text => inr (CErr (EText ("no answer from cpms run within " +:+ duration_string timeout +:+ ": " +:+ text)))
  | Unreadable text => inr (CErr (EText ("unreadable answer from cpms run: " +:+ text)))
  | Answered ok result err => client_answer ok result err
  end.

(** Whoever is at the other end of the socket. *)
Definition Remote : Type := Request -> Ctl -> M (Link * Ctl).

(** [cpms run]'s answer, as the client reads it. *)
Definition reply (text : string) (r : Response) : Link :=
  match r with
  | inl result => Answered true result None
  | inr e => match over_the_wire e with Some e => Answered false None (Some e) | None => Unreadable text end
  end.

Definition daemon `{MapOrder} `{Env} `{Commander} `{JsonText} (cfg : Config) (id : string) : Remote := fun req c =>
  out <- handle cfg id (inl (client_request req)) c ;;
  M_ret (reply (unmarshal_error (client_request req)) out.1, out.2).

(** ** The environment of a command (station.go) *)

Record stationEnv := mkStationEnv { se_cfg : Config; se_evse : string; se_socketPath : string }.

(** What a command wrote, and the error it returned. *)
Definition Outcome : Type := list Output * option CliError.

Section commands.
Context `{URLs} `{Host} `{Digest} `{LocalClock} `{FloatText}.
Context (opts : options) (file : ConfigFile) (remote : Remote).

(** [evse] is the flag, for the commands that have it. *)
Definition newStationEnv (evse : option string) : stationEnv + Outcome :=
  match loadConfig opts file with
  | inr (err, out) => inr (out, Some err)
  | inl cfg =>
    let path := resolvedSocketPath opts (resolvedStatePath opts) in
    match evse with
    | None => inl (mkStationEnv cfg "" path)
    | Some uid =>
      match resolveEVSE cfg uid with
      | inr err => inr ([], Some (Failed (ExitStatus ExitError err)))
      | inl uid => inl (mkStationEnv cfg uid path)
      end
    end
  end.

Definition call_timeout (env : stationEnv) : Z := wrap_int (dur (ch_CallTimeout (cf_Charger (se_cfg env))) + socketGrace).

(** [stationEnv.call]: a path too long is refused before anything is sent. *)
Definition call (env : stationEnv) (req : Request) (c : Ctl) : M ((option OpResult + CommandError) * Ctl) :=
  match CheckPath (se_socketPath env) with
  | Some e => M_ret (inr (exitFor (qr_Op req) (qr_EVSE req) (CErr e)), c)
  | None =>
    out <- remote req c ;;
    M_ret (match Call_answer (se_socketPath env) (call_timeout env) out.1 with
           | inl r => inl r
           | inr e => inr (exitFor (qr_Op req) (qr_EVSE req) e)
           end, out.2)
  end.

Definition request (op evse tag expires : string) : Request := mkRequest 0 op evse tag expires.

(** A command from its environment on. *)
Definition with_env (evse : option string) (k : stationEnv -> Ctl -> M (Outcome * Ctl)) (c : Ctl) : M (Outcome * Ctl) :=
  match newStationEnv evse with
  | inr out => M_ret (out, c)
  | inl env => k env c
  end.

(** [json.Unmarshal] of a result that is not of the kind asked for, or of none. *)
Definition bad_result : Outcome := ([], Some (Failed (PlainError "unexpected end of JSON input"))).

Definition simpleCommand (op tag text evse : string) : Ctl -> M (Outcome * Ctl) :=
  with_env (Some evse) (fun env c =>
    out <- call env (request op (se_evse env) tag "") c ;;
    M_ret (match out.1 with
           | inr err => ([], Some (Failed err))
           | inl _ => ([Printed (se_evse env +:+ text)], None)
           end, out.2)).

Definition cancel_command (evse : string) := simpleCommand SocketOpCancel "" " reservation cancelled" evse.
Definition start_command (evse tag : string) := simpleCommand SocketOpStart tag " remote start accepted" evse.
Definition stop_command (evse : string) := simpleCommand SocketOpStop "" " remote stop accepted" evse.
Definition unlock_command (evse : string) := simpleCommand SocketOpUnlock "" " unlocked" evse.

Definition reserved_line (r : ReserveResult) : string :=
  pz_EVSE r +:+ " reserved for " +:+ pz_IDTag r +:+ " until " +:+ (localTime (pz_ExpiresAt r) 0%nat).1 +:+
  " (reservation " +:+ Itoa (pz_ReservationID r) +:+ ")".

(** --expires as it is sent: not at all unless it is positive. *)
Definition expires_text (expires : Z) : string := if 0 <? expires then duration_string expires else "".

Definition reserve_command (evse tag : string) (expires : Z) : Ctl -> M (Outcome * Ctl) :=
  with_env (Some evse) (fun env c =>
    out <- call env (request SocketOpReserve (se_evse env) tag (expires_text expires)) c ;;
    M_ret (match out.1 with
           | inr err => ([], Some (Failed err))
           | inl (Some (RReserve r)) => ([Printed (reserved_line r)], None)
           | inl _ => bad_result
           end, out.2)).

Definition status_command (asJSON : bool) : Ctl -> M (Outcome * Ctl) :=
  with_env None (fun env c =>
    out <- call env (request SocketOpStatus "" "" "") c ;;
    M_ret (match out.1 with
           | inr err => ([], Some (Failed err))
           | inl (Some (RStatus st)) => (if asJSON then [PrintedStatus st] else (printStatus st 0%nat).1, None)
           | inl _ => bad_result
           end, out.2)).

(** ** `cpms probe` (probe.go) *)

(** When the station was last seen leaving, if the status can be had. *)
Definition last_seen_leaving (r : option OpResult + CommandError) : string :=
  match r with
  | inl (Some (RStatus st)) =>
    match ss_LastDisconnect (st_ChargePoint st) with
    | Some d => "It last disconnected at " +:+ (localTime (ds_At d) 0%nat).1 +:+ ": " +:+ ds_Reason d +:+ "."
    | None => "It has not connected since cpms run started."
    end
  | _ => ""
  end.

(** The text, from what came of asking for the status. *)
Definition notConnected_text (cfg : Config) (status : option OpResult + CommandError) : string :=
  trim_right (Ascii.ascii_of_nat 10)
    (ch_ID (cf_Charger cfg) +:+ " is not connected to cpms, so there is nothing to probe." +:+ newline +:+
     "Set the station's CSMS URL to:" +:+ newline +:+ "  " +:+ csmsURL cfg +:+ newline +:+ last_seen_leaving status).

Definition notConnected (env : stationEnv) (c : Ctl) : M (CommandError * Ctl) :=
  out <- call env (request SocketOpStatus "" "" "") c ;;
  M_ret (ExitStatus ExitNotConnected (notConnected_text (se_cfg env) out.1), out.2).

Definition probe_command (asJSON raw : bool) : Ctl -> M (Outcome * Ctl) :=
  with_env None (fun env c =>
    out <- call env (request SocketOpProbe "" "" "") c ;;
    match out.1 with
    | inr err =>
      if ExitCode (Some err) =? ExitNotConnected then
        explained <- notConnected env out.2 ;;
        M_ret (([], Some (Failed explained.1)), explained.2)
      else M_ret (([], Some (Failed err)), out.2)
    | inl (Some (RProbe p)) => M_ret (probe_report_out (evaluateProbe (se_cfg env) p) asJSON raw, out.2)
    | inl _ => M_ret (bad_result, out.2)
    end).
End commands.
