(* ===== verification/CliProps.v ===== *)
(** * What the commands promise

    Each one-shot command is the control operation of its name, on the EVSE the
    operator meant, with an exit code that tells its outcome; the paths the
    commands agree on can be bound; the URL the summary prints reaches the
    server; and the probe's verdict is the station's own word. *)

From S2P Require Import Prelude GoLib GoTime GoDuration GoDurationText Json Ocpp Errors GoRegexp GoNet GoHttp GoPath.
From S2P Require Import Config Validate ConfigProps ConfigLoad State Bus World Core Persist Reservations Transactions.
From S2P Require Import CoreReach Samples V16Status V16Messages V16ChargePoint V16Props Csms Control ControlProps.
From S2P Require Import Ocpi Socket Cli SocketProps CliReport CliProbe CliCommands.

(** ** The requests the commands send *)

Lemma expires_text_expiry d : int_ok d -> request_expiry (expires_text d) = Some (if 0 <? d then d else 0).
Proof.
  intros Hd. unfold expires_text. destruct (0 <? d) eqn:E; [|done]. apply Z.ltb_lt in E. unfold request_expiry.
  assert (Hp := ParseDuration_string d Hd).
  rewrite bool_decide_eq_false_2 by (intros Hs; by rewrite Hs in Hp).
  rewrite Hp. cbn. by destruct (d <=? 0) eqn:E2; [lia|].
Qed.

(** The EVSE a command acts on is configured; left out, it is the only one. *)
Lemma resolveEVSE_Some cfg uid u :
  resolveEVSE cfg uid = inl u <->
  is_Some (EVSEByUID cfg u) /\ ((uid = u /\ uid <> "") \/ (uid = "" /\ ev_UID <$> lo_EVSEs (cf_Location cfg) = [u])).
Proof.
  unfold resolveEVSE. case_bool_decide as Hu.
  - subst uid. destruct (lo_EVSEs (cf_Location cfg)) as [|e [|e2 l]] eqn:El;
      (split; [intros Hr; try done | intros [_ [[_ ?]|[_ Hl]]]; try done]).
    + injection Hr as <-. split; [|right; done]. unfold EVSEByUID. rewrite El. cbn.
      by rewrite bool_decide_eq_true_2.
    + by injection Hl as ->.
  - destruct (EVSEByUID cfg uid) eqn:Ee; (split; [intros Hr; try done|intros [Hs [[<- _]|[? _]]]; try done]).
    + injection Hr as <-. split; [by rewrite Ee|]. by left.
    + rewrite Ee in Hs. by destruct Hs.
Qed.

(** What the operator sees of a control operation without a result. *)
Definition control_outcome (op text evse : string) (r : option error) : Outcome :=
  match r with
  | None => ([Printed (evse +:+ text)], None)
  | Some e => ([], Some (Failed (exitFor op evse (CSocket (classify e)))))
  end.

Definition reserve_outcome `{LocalClock} (evse : string) (r : Reservation + error) : Outcome :=
  match r with
  | inl r => ([Printed (reserved_line (mkReserveResult (rv_ID r) (rv_EVSEUID r) (rv_IDTag r) (UTC (rv_ExpiresAt r))))], None)
  | inr e => ([], Some (Failed (exitFor SocketOpReserve evse (CSocket (classify e)))))
  end.

Definition status_outcome `{LocalClock} (st : StatusResult) (asJSON : bool) : Outcome :=
  (if asJSON then [PrintedStatus st] else (printStatus st 0%nat).1, None).

(** What the operator sees of a probe; [st] is the status asked for when the
    station is not connected. *)
Definition probe_outcome `{LocalClock} `{URLs} `{FloatText} (cfg : Config) (r : ProbeResult + error) (st : StatusResult)
    (asJSON raw : bool) : Outcome :=
  match r with
  | inl p => probe_report_out (evaluateProbe cfg p) asJSON raw
  | inr e =>
    let err := exitFor SocketOpProbe "" (CSocket (classify e)) in
    ([], Some (Failed (if ExitCode (Some err) =? ExitNotConnected
                       then ExitStatus ExitNotConnected (notConnected_text cfg (inl (Some (RStatus st)))) else err)))
  end.

Section one_shot.
Context `{MapOrder} `{Env} `{Commander} `{JsonText} `{URLs} `{Host} `{Digest} `{LocalClock} `{FloatText}.
Context (opts : options) (y : YAML) (cfg : Config) (id : string).
Hypothesis (loaded : parse_file y = inl cfg).
Hypothesis (bindable : CheckPath (resolvedSocketPath opts (resolvedStatePath opts)) = None).

Lemma newStationEnv_loaded evse u : resolveEVSE cfg evse = inl u ->
  newStationEnv opts (inl y) (Some evse) =
    inl (mkStationEnv cfg u (resolvedSocketPath opts (resolvedStatePath opts))).
Proof. intros Hu. unfold newStationEnv, loadConfig, Load. by rewrite loaded, Hu. Qed.

Lemma call_daemon env req c w :
  se_socketPath env = resolvedSocketPath opts (resolvedStatePath opts) -> int_ok (qr_V req) ->
  call (daemon cfg id) env req c w =
  let '((r, c'), w') :=
    dispatch cfg id (mkRequest socket_Version (qr_Op req) (qr_EVSE req) (qr_IDTag req) (qr_ExpiresIn req)) c w in
  ((match Call_answer (se_socketPath env) (call_timeout env) (reply (unmarshal_error (client_request req)) r) with
    | inl r => inl r
    | inr e => inr (exitFor (qr_Op req) (qr_EVSE req) e)
    end, c'), w').
Proof.
  intros Hp Hv. unfold call, daemon, handle. rewrite Hp, bindable, M_bind_eq. cbn [fst snd]. rewrite M_bind_eq.
  unfold client_request. rewrite request_roundtrip by (unfold int_ok, socket_Version, int_min, int_max; cbn; lia).
  by destruct (dispatch _ _ _ _ _) as [[r c'] w'].
Qed.

Lemma answer_done path timeout text r :
  Call_answer path timeout (reply text (done r)) =
  match r with None => inl None | Some e => inr (CSocket (classify e)) end.
Proof. destruct r as [e|]; [|done]. unfold done, reply. by rewrite wire_roundtrip by apply classify_code. Qed.

(** A simple command is its operation. *)
Lemma simpleCommand_eq op tag text evse u (m : M (option error)) c w :
  resolveEVSE cfg evse = inl u ->
  dispatch cfg id (mkRequest socket_Version op u tag "") c w = finish c m w ->
  simpleCommand opts (inl y) (daemon cfg id) op tag text evse c w =
  let '(r, w') := m w in ((control_outcome op text u r, c), w').
Proof.
  intros Hu Hd. unfold simpleCommand, with_env. rewrite (newStationEnv_loaded _ _ Hu), M_bind_eq.
  rewrite call_daemon by done. cbn [request qr_Op qr_EVSE qr_IDTag qr_ExpiresIn se_evse]. rewrite Hd.
  unfold finish. rewrite M_bind_eq. destruct (m w) as [r w']. cbn [fst snd M_ret].
  rewrite answer_done. by destruct r.
Qed.

(** The commands without --evse. *)
Lemma newStationEnv_station :
  newStationEnv opts (inl y) None = inl (mkStationEnv cfg "" (resolvedSocketPath opts (resolvedStatePath opts))).
Proof. unfold newStationEnv, loadConfig, Load. by rewrite loaded. Qed.

Lemma status_call env c w :
  se_socketPath env = resolvedSocketPath opts (resolvedStatePath opts) ->
  call (daemon cfg id) env (request SocketOpStatus "" "" "") c w =
    ((inl (Some (RStatus (BuildStatus (Snapshot (svc w)) id))), c), w).
Proof. intros Hp. by rewrite call_daemon. Qed.

Lemma probe_command_eq asJSON raw c w :
  probe_command opts (inl y) (daemon cfg id) asJSON raw c w =
    (let '(r, w') := ctl_Probe cfg w in
     let snap := Snapshot (svc w') in
     ((probe_outcome cfg (match r with inl report => inl (BuildProbe report snap id) | inr e => inr e end)
         (BuildStatus snap id) asJSON raw, c), w')).
Proof.
  unfold probe_command, with_env. rewrite newStationEnv_station, M_bind_eq, call_daemon by done.
  unfold dispatch. cbn [request qr_V qr_Op qr_EVSE qr_IDTag qr_ExpiresIn].
  change (negb (socket_Version =? socket_Version)) with false. cbn iota.
  rewrite !(bool_decide_eq_false_2 (SocketOpProbe = _)) by done. rewrite bool_decide_eq_true_2 by done.
  rewrite M_bind_eq. destruct (ctl_Probe cfg w) as [[report|e] w']; cbn [fst snd]; [done|].
  unfold M_ret at 1. cbn [reply fst snd]. rewrite wire_roundtrip by apply classify_code.
  cbn [Call_answer client_answer probe_outcome]. destruct (ExitCode _ =? ExitNotConnected) eqn:Ex; [|done].
  unfold notConnected. rewrite !M_bind_eq, status_call by done. done.
Qed.

(** C9: a command is the control operation of its name.  Run against the daemon
    of the same config, for the EVSE meant, each of cancel, start, stop, unlock and
    reserve does to the world exactly what the operation does, prints its success
    line exactly if there was no error, and otherwise returns the error the
    operation's own classifies as.  A reservation is asked for with the length
    given if that is positive, and otherwise - none given, or one that is zero or
    negative - with none, which is the default length.  Status changes nothing and
    prints what the daemon's snapshot says.  Probe is the control operation too, and
    prints its report; where it fails because the station is not connected the
    error says so, with what the status says of its leaving. *)
Theorem commands_are_operations evse u tag expires c w :
  resolveEVSE cfg evse = inl u -> int_ok expires ->
  cancel_command opts (inl y) (daemon cfg id) evse c w =
    (let '(r, w') := Control.Cancel cfg u w in ((control_outcome SocketOpCancel " reservation cancelled" u r, c), w')) /\
  start_command opts (inl y) (daemon cfg id) evse tag c w =
    (let '(r, w') := Control.Start cfg u tag w in ((control_outcome SocketOpStart " remote start accepted" u r, c), w')) /\
  stop_command opts (inl y) (daemon cfg id) evse c w =
    (let '(r, w') := Control.Stop cfg u w in ((control_outcome SocketOpStop " remote stop accepted" u r, c), w')) /\
  unlock_command opts (inl y) (daemon cfg id) evse c w =
    (let '(r, w') := Unlock cfg u w in ((control_outcome SocketOpUnlock " unlocked" u r, c), w')) /\
  reserve_command opts (inl y) (daemon cfg id) evse tag expires c w =
    (let '((r, c'), w') :=
       Reserve cfg (mkReserveParams u tag zeroTime (if 0 <? expires then expires else 0) "cli" "" "") c w in
     ((reserve_outcome u r, c'), w')) /\
  (forall asJSON, status_command opts (inl y) (daemon cfg id) asJSON c w =
     ((status_outcome (BuildStatus (Snapshot (svc w)) id) asJSON, c), w)) /\
  (forall asJSON raw, probe_command opts (inl y) (daemon cfg id) asJSON raw c w =
    (let '(r, w') := ctl_Probe cfg w in
     let snap := Snapshot (svc w') in
     ((probe_outcome cfg (match r with inl report => inl (BuildProbe report snap id) | inr e => inr e end)
         (BuildStatus snap id) asJSON raw, c), w'))).
Proof.
  intros Hu He. do 4 (split; [by eapply simpleCommand_eq|]). split; [|split; [|intros; apply probe_command_eq]].
  2:{ intros asJSON. unfold status_command, with_env. by rewrite newStationEnv_station, M_bind_eq, status_call. }
  unfold reserve_command, with_env. rewrite (newStationEnv_loaded _ _ Hu), M_bind_eq.
  rewrite call_daemon by done. cbn [request qr_Op qr_EVSE qr_IDTag qr_ExpiresIn se_evse se_socketPath].
  unfold dispatch. cbn [qr_V qr_Op qr_EVSE qr_IDTag qr_ExpiresIn]. rewrite (expires_text_expiry _ He).
  change (negb (socket_Version =? socket_Version)) with false. cbn iota.
  rewrite !(bool_decide_eq_false_2 (SocketOpReserve = _)) by done. rewrite bool_decide_eq_true_2 by done.
  rewrite M_bind_eq. unfold reserve_params. cbn [qr_EVSE qr_IDTag].
  destruct (Reserve cfg _ c w) as [[[r|e] c'] w']; [done|]. cbn [fst snd M_ret reply].
  by rewrite wire_roundtrip by apply classify_code.
Qed.
End one_shot.

(** ** The probe *)

(** What [main] exits with. *)
Definition exit_code (o : Outcome) : Z := (main_exit o.2).1.

(** C28: the probe's verdict is the station's own word.  Missing is what cpms
    requires of the profiles a station lists and the station does not list;
    unconfirmed, what a station that lists none need not have, which is the
    Reservation profile alone; the exit code is 10 exactly if something is
    missing, and 0 otherwise, whatever the warnings; and there are warnings
    exactly when the station does not confirm that connectors and heartbeat are
    as config says. *)
Theorem probe_verdict `{FloatText} cfg v keys snap id asJSON raw :
  let profiles := parseProfiles (default "" (config_values keys !! KeySupportedFeatureProfiles)) in
  let r := BuildProbe (probe_report v keys) snap id in
  let out := evaluateProbe cfg r in
  po_Missing out = capability_string <$>
    filter (fun c => c <> CapTriggerStatus /\ profiles <> [] /\ profile_of c ∉ profiles) AllCapabilities /\
  po_Unconfirmed out = (if bool_decide (profiles = []) then [capability_string CapReservation] else []) /\
  exit_code (probe_report_out out asJSON raw) = (if bool_decide (po_Missing out = []) then ExitOK else ExitMissingCapability) /\
  (po_Warnings out = [] <-> agrees cfg r).
Proof.
  intros profiles r out. destruct (verdict_of cfg (probe_report v keys) snap id) as (Hm & Hu & _).
  fold r out in Hm, Hu. assert (Hs : forall c, report_support (probe_report v keys) c =
    match profiles with
    | [] => if bool_decide (profile_of c = profileCore) then SupportYes else SupportUnknown
    | _ => if bool_decide (profile_of c ∈ profiles) then SupportYes else SupportNo
    end) .
  { intros c. rewrite support_by_profile. fold profiles. by clearbody profiles; destruct profiles. }
  clearbody profiles.
  split; [|split; [|split]].
  - rewrite Hm. f_equal. apply list_filter_iff. intros c. rewrite requires_spec, Hs.
    destruct profiles as [|p ps]; [case_bool_decide; naive_solver|]. case_bool_decide; naive_solver.
  - rewrite Hu. case_bool_decide as Hp.
    + rewrite Hp in Hs. rewrite (list_filter_iff _ (fun c => c = CapReservation)); [done|].
      intros c. rewrite requires_spec, Hs. destruct c; (split; [intros [? Hc]; try done; by vm_compute in Hc | by intros]).
    + rewrite (list_filter_iff _ (fun _ => False)); [done|]. intros c. rewrite Hs.
      destruct profiles; [done|]. case_bool_decide; naive_solver.
  - unfold exit_code, probe_report_out, probe_error. cbn [snd].
    assert (po_OK out = bool_decide (po_Missing out = [])) as ->.
    { unfold out, evaluateProbe. by destruct (capability_lists _). }
    by destruct (bool_decide _).
  - apply no_warnings.
Qed.

(** ** The URL the summary prints *)

Lemma all_in_no_byte p b s : p b = false -> all_in p s = true -> has_byte b s = false.
Proof.
  intros Hb. induction s as [|a s IH]; [done|]. cbn. intros [Ha Hs]%andb_prop. rewrite (IH Hs), orb_false_r.
  apply bool_decide_eq_false_2. intros ->. by rewrite Hb in Ha.
Qed.

Lemma valid_id_one_segment id :
  matches chargePointIDRe id -> id <> "" /\ has_byte "/"%char id = false.
Proof.
  intros (ws & Hf & <-). inversion Hf as [|x w p ws' [Hw [Hn _]] Hf']; subst. inversion Hf'; subst.
  cbn [concat_strings foldr]. rewrite append_nil. split; [by intros ->; cbn in Hn; lia|].
  by eapply all_in_no_byte; [|exact Hw].
Qed.

Lemma clean_segments_snoc p id :
  has_byte "/"%char id = false -> clean_segments (p +:+ "/" +:+ id) = clean_step (clean_segments p) id.
Proof.
  intros Hi. unfold clean_segments. change ("/" +:+ id) with (String "/"%char id).
  by rewrite Split_app, (Split_word id), foldl_app.
Qed.

(** No path has a dot segment left when it is clean. *)
Lemma clean_segments_dotless p : Forall (fun s => s <> "." /\ s <> "..") (clean_segments p).
Proof.
  unfold clean_segments. assert (H : forall l acc, Forall (fun s => s <> "." /\ s <> "..") acc ->
    Forall (fun s => s <> "." /\ s <> "..") (foldl clean_step acc l)); [|by apply H].
  induction l as [|s l IH]; intros acc Ha; [done|]. cbn. apply IH. unfold clean_step.
  destruct (bool_decide (s = "") || bool_decide (s = ".")) eqn:E; [done|].
  apply orb_false_iff in E as [_ E]. apply bool_decide_eq_false in E. case_bool_decide.
  - clear -Ha. induction Ha as [|x [|y l] Hx Hl IH]; cbn; [done|done|]. by constructor.
  - apply Forall_app. split; [done|]. by repeat constructor.
Qed.

Lemma chargePointID_dotless p : chargePointID p <> "." /\ chargePointID p <> "..".
Proof.
  unfold chargePointID. destruct (list.last (clean_segments p)) as [s|] eqn:E; [|done].
  pose proof (clean_segments_dotless p) as Hf. rewrite Forall_forall in Hf. apply Hf.
  apply last_Some in E as [l ->]. apply elem_of_app. right. by apply list_elem_of_singleton.
Qed.

(** What the server reads of the path every URL of cpms ends in. *)
Lemma identity_of_path cfg : charger_valid (cf_Charger cfg) ->
  let id := ch_ID (cf_Charger cfg) in
  id <> "" /\ (id <> "." -> id <> ".." -> chargePointID ("/ocpp/" +:+ id) = id).
Proof.
  intros [[_ Hm] _ _ _ _] id. destruct (valid_id_one_segment id Hm) as [Hne Hi]. split; [done|]. intros H1 H2.
  unfold chargePointID. change ("/ocpp/" +:+ id) with ("/ocpp" +:+ "/" +:+ id).
  rewrite clean_segments_snoc by done. unfold clean_step. by rewrite !bool_decide_eq_false_2.
Qed.

(** A station that offers OCPP 1.6 first of what cpms speaks is upgraded there. *)
Lemma dialled_in cfg before after : charger_valid (cf_Charger cfg) ->
  let id := ch_ID (cf_Charger cfg) in
  id <> "." -> id <> ".." -> (forall o, o ∈ before -> VersionFromSubprotocol o <> Some Version16) ->
  Csms.ServeHTTP (Some (fun i => bool_decide (i = id))) [Version16] ("/ocpp/" +:+ id)
    (before ++ Subprotocol Version16 :: after) = inl (id, Version16, Subprotocol Version16).
Proof.
  intros Hv id H1 H2 Hb. destruct (identity_of_path cfg Hv) as [Hne Hread]. fold id in Hne, Hread. unfold Csms.ServeHTTP. rewrite Hread by done.
  rewrite bool_decide_eq_false_2 by done. rewrite bool_decide_eq_true_2 by done. cbn [negb].
  assert (negotiate [Version16] (before ++ Subprotocol Version16 :: after) =
          Some (Version16, Subprotocol Version16)) as ->; [|done].
  clear -Hb. induction before as [|o before IH]; [by vm_compute|]. cbn [app negotiate].
  rewrite IH by (intros; apply Hb; by right).
  destruct (VersionFromSubprotocol o) as [v|] eqn:Eo; [|done]. rewrite bool_decide_eq_false_2; [done|].
  intros ->%list_elem_of_singleton. by apply (Hb o); [left|].
Qed.

(** The station of a valid config can connect where the summary says.  The
    URL ends in a path of which the server reads the station's identity, and a
    station that offers OCPP 1.6 first of what cpms speaks is upgraded there;
    unless its identity is a dot or two, which the validation lets pass and no
    path can name. *)
Theorem summary_url_connects cfg :
  charger_valid (cf_Charger cfg) ->
  let id := ch_ID (cf_Charger cfg) in
  let accept := Some (fun i => bool_decide (i = id)) in
  (exists base, csmsURL cfg = "ws://" +:+ base +:+ "/ocpp/" +:+ id) /\
  ((exists urlPath, chargePointID urlPath = id) <-> id <> "." /\ id <> "..") /\
  (id <> "." -> id <> ".." -> forall before after,
     (forall o, o ∈ before -> VersionFromSubprotocol o <> Some Version16) ->
     Csms.ServeHTTP accept [Version16] ("/ocpp/" +:+ id) (before ++ Subprotocol Version16 :: after) =
       inl (id, Version16, Subprotocol Version16)).
Proof.
  intros Hv id accept. split; [|split].
  - unfold csmsURL. destruct (SplitHostPort _) as [[host port]|].
    + by exists ((if wildcard_bind host then "<this-host>" else host) +:+ ":" +:+ port); rewrite !append_assoc.
    + by exists (OCPPBind (cf_Server cfg)).
  - split; [intros [p <-]; apply chargePointID_dotless|]. intros [H1 H2]. eexists.
    by apply (proj2 (identity_of_path cfg Hv)).
  - intros H1 H2 before after Hb. by apply dialled_in.
Qed.

Example dot_is_valid : MatchString chargePointIDRe "." = true /\ MatchString chargePointIDRe ".." = true.
Proof. vm_compute. done. Qed.

(** ** The paths the commands agree on *)

(** What a list of components takes up: each with a slash. *)
Definition extent (l : list string) : nat := sum_list ((fun c => S (String.length c)) <$> l).

Lemma extent_cons c l : extent (c :: l) = (S (String.length c) + extent l)%nat.
Proof. done. Qed.

Lemma extent_app l l' : extent (l ++ l') = (extent l + extent l')%nat.
Proof.
  induction l as [|c l IH]; [done|].
  change ((c :: l) ++ l') with (c :: (l ++ l')). rewrite !extent_cons, IH. lia.
Qed.

Lemma extent_reverse l : extent (reverse l) = extent l.
Proof. induction l as [|c l IH]; [done|]. rewrite reverse_cons, extent_app, IH, !extent_cons. change (extent []) with 0%nat. lia. Qed.

Lemma extent_Split p : extent (Split p "/"%char) = S (String.length p).
Proof.
  induction p as [|a p IH]; [done|]. cbn [Split]. case_bool_decide.
  - by rewrite extent_cons, IH.
  - destruct (Split p "/"%char) as [|w ws] eqn:E; [by destruct (Split_nonempty p "/"%char)|].
    rewrite extent_cons in IH |- *. cbn [String.length]. lia.
Qed.

Lemma Join_length l : l <> [] -> S (String.length (Join "/" l)) = extent l.
Proof.
  induction l as [|c l IH]; [done|]. intros _. destruct l as [|c' l]; [by rewrite extent_cons, Nat.add_0_r|].
  change (Join "/" (c :: c' :: l)) with (c +:+ "/" +:+ Join "/" (c' :: l)).
  specialize (IH ltac:(done)). rewrite extent_cons, <- IH, !append_length. cbn [String.length]. lia.
Qed.

Lemma extent_tail l : (extent (tail l) <= extent l)%nat.
Proof. destruct l as [|c l]; [done|]. cbn [tail]. rewrite extent_cons. lia. Qed.

(** Neither way of taking a component in makes room for more. *)
Lemma extent_push push l :
  (forall acc c, push acc c = acc \/ push acc c = tail acc \/ push acc c = c :: acc) ->
  forall acc, (extent (foldl push acc l) <= extent acc + extent l)%nat.
Proof.
  intros Hp. induction l as [|c l IH]; intros acc; cbn [foldl]; [lia|].
  specialize (IH (push acc c)). pose proof (extent_tail acc).
  rewrite extent_cons. destruct (Hp acc c) as [E|[E|E]]; rewrite E in IH |- *; rewrite ?extent_cons in IH; lia.
Qed.

(** A cleaned path is no longer. *)
Lemma filepath_Clean_length p : p <> "" -> (String.length (filepath_Clean p) <= String.length p)%nat.
Proof.
  intros Hp. destruct p as [|a r]; [done|]. unfold filepath_Clean.
  assert (Hrel : (String.length (or_default (Join "/" (relative_components (String a r))) ".") <=
                  String.length (String a r))%nat).
  { unfold relative_components, or_default.
    pose proof (extent_push push_relative (Split (String a r) "/"%char)) as He.
    destruct (reverse (foldl push_relative [] (Split (String a r) "/"%char))) as [|c l] eqn:El.
    - rewrite bool_decide_eq_true_2 by done. cbn. lia.
    - apply (f_equal extent) in El. rewrite extent_reverse in El.
      specialize (He ltac:(intros acc x; unfold push_relative; repeat case_bool_decide; auto;
                           destruct acc; auto; case_bool_decide; auto) []).
      rewrite extent_Split in He. pose proof (Join_length (c :: l) ltac:(done)) as Hj.
      case_bool_decide; cbn [extent] in *; [cbn; lia|]. change (extent []) with 0%nat in He. lia. }
  assert (Habs : (String.length (Clean (String "/"%char r)) <= String.length (String "/"%char r))%nat).
  { unfold Clean, clean_components.
    change (Split (String "/"%char r) "/"%char) with (EmptyString :: Split r "/"%char). cbn [foldl].
    change (push_component [] EmptyString) with (@nil string).
    pose proof (extent_push push_component (Split r "/"%char)) as He.
    specialize (He ltac:(intros acc x; unfold push_component; repeat case_bool_decide; auto) []).
    rewrite extent_Split in He. cbn [String.length].
    destruct (reverse (foldl push_component [] (Split r "/"%char))) as [|c l] eqn:El; [cbn; lia|].
    apply (f_equal extent) in El. rewrite extent_reverse in El.
    pose proof (Join_length (c :: l) ltac:(done)) as Hj. change (extent []) with 0%nat in He. lia. }
  destruct a as [[] [] [] [] [] [] [] []]; first [exact Hrel | exact Habs].
Qed.

Lemma hex_of_length s : String.length (hex_of s) = (2 * String.length s)%nat.
Proof.
  induction s as [|a s IH]; [done|]. cbn [hex_of]. rewrite append_length, IH. cbn. lia.
Qed.

Lemma substring_length n s : (String.length (String.substring 0 n s) <= n)%nat.
Proof. revert s. induction n as [|n IH]; intros [|a s]; cbn; [lia..|]. specialize (IH s). lia. Qed.

(** C38: the default control socket can always be bound.  Whatever the state
    file's path, without --socket the path is one the kernel takes, as long as
    the temp directory leaves it 23 of its 103 bytes; a path given is used as
    given, and refused if it is too long. *)
Theorem socket_path_usable `{Host} `{Digest} o :
  TempDir <> "" -> len TempDir <= MaxPathLen - 23 ->
  (socketPath o = "" -> CheckPath (resolvedSocketPath o (resolvedStatePath o)) = None) /\
  (socketPath o <> "" -> resolvedSocketPath o (resolvedStatePath o) = socketPath o /\
     (CheckPath (socketPath o) = None <-> len (socketPath o) <= MaxPathLen)).
Proof.
  intros Ht Hl. assert (Hc : forall p, CheckPath p = None <-> len p <= MaxPathLen).
  { intros p. unfold CheckPath. fold (len p). cbn zeta. destruct (MaxPathLen <? len p) eqn:E; split; try done; lia. }
  unfold resolvedSocketPath. split; intros Hs.
  - rewrite bool_decide_eq_true_2 by done. cbn [negb]. apply Hc.
    destruct (len _ <=? MaxPathLen) eqn:E; [lia|]. clear E. unfold fallbackSocketPath.
    set (name := "cpms-" +:+ _). unfold filepath_Join. rewrite !bool_decide_eq_false_2 by done.
    assert (Hn : (String.length name <= 22)%nat).
    { unfold name. rewrite !append_length, hex_of_length.
      pose proof (substring_length 6 (Sum256 (default (resolvedStatePath o) (Abs (resolvedStatePath o))))). cbn. lia. }
    assert (Hj : TempDir +:+ "/" +:+ name <> "") by (by destruct TempDir).
    pose proof (filepath_Clean_length _ Hj) as Hcl. rewrite !append_length in Hcl.
    unfold len, MaxPathLen in *. cbn [String.length] in Hcl. lia.
  - rewrite bool_decide_eq_false_2 by done. cbn [negb]. by rewrite Hc.
Qed.

(** ** Instances: the minimal file of ConfigLoad.v, the station of Samples.v *)

#[local] Existing Instance key_order.
#[local] Existing Instance sample_env.
#[local] Existing Instance sample_commander.
#[local] Existing Instance sample_json_text.
#[local] Existing Instance sample_urls.

Definition sample_host : Host := {| TempDir := "/tmp"; Abs := fun p => Some ("/home/cpms/" +:+ p) |}.
Definition same_digest : Digest := {| Sum256 := fun s => s |}.
Definition sample_clock : LocalClock := {| local_Now := fun _ => zeroTime; local_offset := fun _ => 3600 |}.
Definition plain_float : FloatText := {| format_g := fun d => Itoa (d / second) |}.
#[local] Existing Instance sample_host.
#[local] Existing Instance same_digest.
#[local] Existing Instance sample_clock.
#[local] Existing Instance plain_float.

Definition sample_opts : options := CliReport.mkOptions "etc/config.yaml" "" "".

Lemma commands_are_operations_witness :
  resolvedSocketPath sample_opts (resolvedStatePath sample_opts) = "etc/cpms.sock" /\
  cancel_command sample_opts (inl (Decoded minimal_config false)) (daemon minimal_loaded "alpi-1") "E1" new_ctl sample_world =
    (let '(r, w') := Control.Cancel minimal_loaded "E1" sample_world in
     ((control_outcome SocketOpCancel " reservation cancelled" "E1" r, new_ctl), w')).
Proof.
  split; [vm_compute; reflexivity|].
  refine (proj1 (commands_are_operations sample_opts (Decoded minimal_config false) minimal_loaded "alpi-1" _ _
                   "E1" "E1" "" 0 new_ctl sample_world _ _)).
  - vm_compute. reflexivity.
  - vm_compute. reflexivity.
  - vm_compute. reflexivity.
  - unfold int_ok, int_min, int_max. lia.
Defined.

Lemma minimal_charger_valid : charger_valid (cf_Charger minimal_loaded).
Proof.
  refine (va_charger _ (proj1 (parse_file_valid (Decoded minimal_config false) _ _))).
  vm_compute. reflexivity.
Defined.

Lemma summary_url_connects_witness :
  csmsURL minimal_loaded = "ws://<this-host>:9000/ocpp/alpi-1" /\
  (exists urlPath, chargePointID urlPath = "alpi-1").
Proof.
  split; [vm_compute; reflexivity|].
  apply (proj1 (proj2 (summary_url_connects minimal_loaded minimal_charger_valid))). by vm_compute.
Defined.

Lemma socket_path_usable_witness :
  CheckPath (resolvedSocketPath sample_opts (resolvedStatePath sample_opts)) = None.
Proof.
  refine (proj1 (socket_path_usable sample_opts _ _) _); [done| |reflexivity]. vm_compute. congruence.
Defined.
