(* ===== verification/CliRun.v ===== *)
(** * The life of `cpms run` and the command tree (cli/run.go; root.go and the New functions of cli/)

    The order in which [run] takes and gives up what it holds, with its deferred
    calls, on every path: a trace of starts and stops.  What each step does is
    modelled where it is defined; here it succeeds or fails as it is told.  What
    [run] prints and logs is left out.  The command tree follows. *)

From S2P Require Import Prelude GoLib Errors Ocpp Config.

(** What [run] starts and has to stop again. *)
Inductive resource :=
| StateLock | ControlSocket | CoreService | CsmsServer | ControlLayer | OcpiServer | LogSubscription.

#[export] Instance resource_eq : EqDecision resource.
Proof. solve_decision. Defined.

Inductive run_event :=
| Started (r : resource)
| Stopped (r : resource)
| Abandoned (r : resource)  (* its Shutdown has returned an error: it may still be running *)
| Warned (r : resource)     (* which is logged *)
| Serving     (* the control socket answers, the summary is printed *)
| Signalled   (* the context is done *)
| Drained.    (* the last event is logged *)

#[export] Instance run_event_eq : EqDecision run_event.
Proof. solve_decision. Defined.

(** How each step that can fail ends: [None] is success. *)
Record run_results := mkRunResults {
  rs_LockPath : option error;
  rs_Open : option error;
  rs_Listen : option error;
  rs_csms_New : option error;
  rs_csms_Start : option error;
  rs_startOCPI : option error;
  rs_ocpi_Shutdown : option error;
  rs_csms_Shutdown : option error
}.











(** ** Reading a trace *)

(** Where the first event is that [p] is true of. *)
Fixpoint index_of (p : run_event -> bool) (tr : list run_event) : option nat :=
  match tr with [] => None | x :: tr => if p x then Some O else S <$> index_of p tr end.

Definition is_event (e x : run_event) : bool := bool_decide (x = e).

(** [run] is through with stopping [x]: it has stopped, or it is given up on. *)
Definition let_go (x : resource) (e : run_event) : bool := is_event (Stopped x) e || is_event (Abandoned x) e.

Definition before (i j : option nat) : Prop :=
  match i, j with Some i, Some j => (i < j)%nat | _, _ => False end.

#[export] Instance before_dec i j : Decision (before i j).
Proof. destruct i, j; unfold before; apply _. Defined.


Definition given_back (tr : list run_event) (x : resource) : Prop :=
  Started x ∈ tr -> before (index_of (is_event (Started x)) tr) (index_of (let_go x) tr).

(** Stopping [x] is over before stopping [y] begins to be, where both run. *)
Definition stops_before (tr : list run_event) (x y : resource) : Prop :=
  Started x ∈ tr -> Started y ∈ tr -> before (index_of (let_go x) tr) (index_of (let_go y) tr).


#[export] Instance given_back_dec tr x : Decision (given_back tr x).
Proof. unfold given_back. apply _. Defined.
#[export] Instance stops_before_dec tr x y : Decision (stops_before tr x y).
Proof. unfold stops_before. apply _. Defined.

(** While it serves, what takes commands is told to stop before they are waited
    for. *)
Definition drains (tr : list run_event) (x : resource) : Prop :=
  before (index_of (is_event Serving) tr) (index_of (let_go x) tr) /\
  before (index_of (let_go x) tr) (index_of (let_go ControlLayer) tr).

#[export] Instance drains_dec tr x : Decision (drains tr x).
Proof. unfold drains. apply _. Defined.

(** The Shutdown of [x] that ran into its deadline. *)
Definition timed_out (r : run_results) (x : resource) : Prop :=
  match x with
  | OcpiServer => is_Some (rs_ocpi_Shutdown r)
  | CsmsServer => is_Some (rs_csms_Shutdown r)
  | _ => False
  end.

#[export] Instance timed_out_dec r x : Decision (timed_out r x).
Proof. destruct x; apply _. Defined.

(** What is started and may be running when [run] has returned. *)
Definition left_running (tr : list run_event) (x : resource) : Prop := Started x ∈ tr /\ (Stopped x ∉ tr).

#[export] Instance left_running_dec tr x : Decision (left_running tr x).
Proof. unfold left_running. apply _. Defined.

Definition only_timeouts (r : run_results) (tr : list run_event) (x : resource) : Prop :=
  (left_running tr x <-> Started x ∈ tr /\ timed_out r x) /\
  (Warned x ∈ tr <-> left_running tr x /\ Serving ∈ tr).

#[export] Instance iff_dec (P Q : Prop) : Decision P -> Decision Q -> Decision (P <-> Q).
Proof. unfold iff. intros. apply _. Defined.
#[export] Instance only_timeouts_dec r tr x : Decision (only_timeouts r tr x).
Proof. unfold only_timeouts. apply _. Defined.




(** ** The command tree

    The commands and flags as [NewRootCommand] declares them, and what each RunE
    is called with once cobra has found the command and pflag has read its flags:
    the arguments of run, simulate charger and the one-shot commands.  Reading the
    command line is the two libraries': what was given comes as a function. *)

From S2P Require Import GoTime Json GoNet Validate ConfigLoad.
From S2P Require Import State Bus World Core Persist Reservations Transactions V16ChargePoint Control.
From S2P Require Import Socket Simulator Cli CliReport.

(** A flag's value, of the kind its Var method says. *)
Inductive FlagValue := FString (s : string) | FBool (b : bool) | FInt (z : Z) | FDuration (d : Z).

Record Flag := mkFlag { fl_Name : string; fl_Shorthand : string; fl_Default : FlagValue; fl_Usage : string }.

(** [cobra.Command], as far as it is set: its name, its texts, whether it refuses
    arguments, whether it runs, its flags, those its subcommands have too, and the
    subcommands. *)
Inductive Command := mkCommand {
  cm_Use : string;
  cm_Short : string;
  cm_NoArgs : bool;
  cm_Runs : bool;
  cm_Flags : list Flag;
  cm_Persistent : list Flag;
  cm_Commands : list Command
}.

Definition StringVar (name default usage : string) : Flag := mkFlag name "" (FString default) usage.
Definition BoolVar (name usage : string) : Flag := mkFlag name "" (FBool false) usage.

Definition log_level_flag : Flag := StringVar "log-level" "info" "log level: debug, info, warn or error".

Definition newRunCommand : Command :=
  mkCommand "run" "Run the CSMS and wait for the charger to connect" true true [log_level_flag] [] [].

Definition newSimulateChargerCommand : Command :=
  mkCommand "charger" "Run a simulated charge point against a CSMS" true true [
    StringVar "csms" "" "CSMS WebSocket URL (default: derived from the config's ocpp_bind)";
    StringVar "id" "" "charge point identity (default: the config's charger.id)";
    StringVar "ocpp" (version_string Version16) "OCPP version to speak";
    mkFlag "connectors" "" (FInt 0) "number of connectors (default: the config's EVSE count)";
    StringVar "scenario" ScenarioNormal ("misbehaviour to simulate: " +:+ scenarioList);
    StringVar "tag" "" "RFID tag to quote when starting locally (default: the config's default_id_tag)";
    StringVar "vendor" "" "chargePointVendor to report";
    StringVar "model" "" "chargePointModel to report";
    log_level_flag] [] [].

Definition newSimulateCommand : Command :=
  mkCommand "simulate" "Pretend to be hardware, for testing without the station" false false [] []
    [newSimulateChargerCommand].

Definition newVersionCommand : Command := mkCommand "version" "Print the cpms version" true true [] [] [].

Definition newConfigValidateCommand : Command :=
  mkCommand "validate" "Check the configuration file and print a summary" true true [] [] [].

Definition newConfigCommand : Command :=
  mkCommand "config" "Inspect the configuration file" false false [] [] [newConfigValidateCommand].

(** The loop at the end of [newStationCommands] gives all but status the flag. *)
Definition evse_flag : Flag :=
  StringVar "evse" "" "EVSE uid from config (may be omitted when only one EVSE is configured)".

Definition newStationCommands : list Command := [
  mkCommand "reserve" "Reserve an EVSE for an RFID tag" true true
    [StringVar "tag" "" "RFID tag to hold the EVSE for (default: auth.default_id_tag)";
     mkFlag "expires" "" (FDuration 0) "how long the reservation holds (default 15m)"; evse_flag] [] [];
  mkCommand "cancel" "Cancel the reservation on an EVSE" true true [evse_flag] [] [];
  mkCommand "start" "Start a charging session on an EVSE" true true
    [StringVar "tag" "" "RFID tag to start with (default: auth.default_id_tag)"; evse_flag] [] [];
  mkCommand "stop" "Stop the charging session running on an EVSE" true true [evse_flag] [] [];
  mkCommand "unlock" "Release the cable lock on an EVSE" true true [evse_flag] [] [];
  mkCommand "status" "Show the station, its EVSEs, reservations and sessions" true true
    [BoolVar "json" "print the status as JSON"] [] []].

Definition newProbeCommand : Command :=
  mkCommand "probe" "Report what the connected station supports" true true
    [BoolVar "json" "print the report as JSON (it always includes every key)";
     BoolVar "raw" "also list every configuration key the station reported"] [] [].

Definition NewRootCommand : Command :=
  mkCommand "cpms" "A terminal charge point management system (OCPP + OCPI)" false true []
    [mkFlag "config" "c" (FString DefaultConfigPath) "path to the configuration file";
     StringVar "state" "" ("path to the state file (default: " +:+ DefaultStateFile +:+ " next to the config file)");
     StringVar "socket" "" ("path to the control socket of cpms run (default: " +:+ DefaultSocketFile +:+ " next to the state file)")]
    ([newRunCommand; newSimulateCommand; newVersionCommand; newConfigCommand] ++ newStationCommands ++ [newProbeCommand]).

(** Every command with its path and the flags it has: its own, and the
    persistent ones of those above it. *)
Fixpoint commands_below (path : list string) (above : list Flag) (c : Command) : list (list string * (Command * list Flag)) :=
  let above := above ++ cm_Persistent c in
  (path, (c, cm_Flags c ++ above)) ::
  concat ((fun sub => commands_below (path ++ [cm_Use sub]) above sub) <$> cm_Commands c).

Definition all_commands : list (list string * (Command * list Flag)) := commands_below [] [] NewRootCommand.

(** ** What is run *)

Section flags.
Context (given : string -> option FlagValue) (flags : list Flag).

Definition flag_value (name : string) : option FlagValue :=
  f ← first_such (fun f => bool_decide (fl_Name f = name)) flags;
  Some (default (fl_Default f) (given name)).

Definition string_flag (name : string) : option string :=
  v ← flag_value name; match v with FString s => Some s | _ => None end.
Definition bool_flag (name : string) : option bool :=
  v ← flag_value name; match v with FBool b => Some b | _ => None end.
Definition int_flag (name : string) : option Z :=
  v ← flag_value name; match v with FInt z => Some z | _ => None end.
Definition duration_flag (name : string) : option Z :=
  v ← flag_value name; match v with FDuration d => Some d | _ => None end.

Definition options_flags : option options :=
  c ← string_flag "config"; s ← string_flag "state"; k ← string_flag "socket"; Some (mkOptions c s k).

Definition simulate_flag_values : option simulate_flags :=
  csms ← string_flag "csms"; id ← string_flag "id"; version ← string_flag "ocpp"; n ← int_flag "connectors";
  scenario ← string_flag "scenario"; tag ← string_flag "tag"; vendor ← string_flag "vendor"; model ← string_flag "model";
  Some (mkSimulateFlags csms id version n scenario tag vendor model).
End flags.

(** The RunE that runs, and the arguments it has. *)
Inductive Invocation :=
| RunHelp
| RunRun (o : options) (logLevel : string)
| RunSimulate (o : options) (logLevel : string) (f : simulate_flags)
| RunVersion
| RunValidate (o : options)
| RunReserve (o : options) (evse tag : string) (expires : Z)
| RunCancel (o : options) (evse : string)
| RunStart (o : options) (evse tag : string)
| RunStop (o : options) (evse : string)
| RunUnlock (o : options) (evse : string)
| RunStatus (o : options) (asJSON : bool)
| RunProbe (o : options) (asJSON raw : bool).

Definition flags_at (path : list string) : list Flag :=
  match first_such (fun e => bool_decide (e.1 = path)) all_commands with Some e => e.2.2 | None => [] end.

Definition invocation (given : string -> option FlagValue) (path : list string) : option Invocation :=
  let fs := flags_at path in
  o ← options_flags given fs;
  match path with
  | [] => Some RunHelp
  | ["run"] => level ← string_flag given fs "log-level"; Some (RunRun o level)
  | ["simulate"; "charger"] =>
    level ← string_flag given fs "log-level"; f ← simulate_flag_values given fs; Some (RunSimulate o level f)
  | ["version"] => Some RunVersion
  | ["config"; "validate"] => Some (RunValidate o)
  | ["reserve"] =>
    evse ← string_flag given fs "evse"; tag ← string_flag given fs "tag"; expires ← duration_flag given fs "expires";
    Some (RunReserve o evse tag expires)
  | ["cancel"] => evse ← string_flag given fs "evse"; Some (RunCancel o evse)
  | ["start"] => evse ← string_flag given fs "evse"; tag ← string_flag given fs "tag"; Some (RunStart o evse tag)
  | ["stop"] => evse ← string_flag given fs "evse"; Some (RunStop o evse)
  | ["unlock"] => evse ← string_flag given fs "evse"; Some (RunUnlock o evse)
  | ["status"] => json ← bool_flag given fs "json"; Some (RunStatus o json)
  | ["probe"] => json ← bool_flag given fs "json"; raw ← bool_flag given fs "raw"; Some (RunProbe o json raw)
  | _ => None
  end.

(** What pflag gives a flag is of the flag's kind. *)
Definition same_kind (v w : FlagValue) : bool :=
  match v, w with FString _, FString _ | FBool _, FBool _ | FInt _, FInt _ | FDuration _, FDuration _ => true | _, _ => false end.

Definition well_given (given : string -> option FlagValue) (flags : list Flag) : Prop :=
  forall f v, f ∈ flags -> given (fl_Name f) = Some v -> same_kind v (fl_Default f) = true.

(** [true] where a flag is declared once under its name, and once under its
    letter: pflag panics on a second. *)
Definition declared_once (flags : list Flag) : bool :=
  bool_decide (NoDup (fl_Name <$> flags)) &&
  bool_decide (NoDup (fl_Shorthand <$> filter (fun f => fl_Shorthand f <> "") flags)).

(** ** Every command runs *)

Lemma bind_is_Some {A B} (m : option A) (k : A -> option B) :
  is_Some m -> (forall x, is_Some (k x)) -> is_Some (m ≫= k).
Proof. intros [x ->] Hk. apply Hk. Qed.

Section reading.
Context (given : string -> option FlagValue) (flags : list Flag) (name : string) (f : Flag).
Hypothesis declared : first_such (fun f => bool_decide (fl_Name f = name)) flags = Some f.
Hypothesis kinds : well_given given flags.

Lemma flag_value_kind : exists v, flag_value given flags name = Some v /\ same_kind v (fl_Default f) = true.
Proof.
  unfold flag_value. rewrite declared. cbn. eexists. split; [done|].
  destruct (first_such_Some _ _ _ declared) as [Hin Hname]. apply bool_decide_eq_true in Hname. subst name.
  destruct (given (fl_Name f)) as [v|] eqn:E; [by apply (kinds f)|by destruct (fl_Default f)].
Qed.

Lemma string_flag_some : same_kind (FString "") (fl_Default f) = true -> is_Some (string_flag given flags name).
Proof. unfold string_flag. destruct flag_value_kind as (v & -> & Hk). by destruct v, (fl_Default f). Qed.
Lemma bool_flag_some : same_kind (FBool false) (fl_Default f) = true -> is_Some (bool_flag given flags name).
Proof. unfold bool_flag. destruct flag_value_kind as (v & -> & Hk). by destruct v, (fl_Default f). Qed.
Lemma int_flag_some : same_kind (FInt 0) (fl_Default f) = true -> is_Some (int_flag given flags name).
Proof. unfold int_flag. destruct flag_value_kind as (v & -> & Hk). by destruct v, (fl_Default f). Qed.
Lemma duration_flag_some : same_kind (FDuration 0) (fl_Default f) = true -> is_Some (duration_flag given flags name).
Proof. unfold duration_flag. destruct flag_value_kind as (v & -> & Hk). by destruct v, (fl_Default f). Qed.
End reading.

(** One flag after another, each declared with the kind it is read as. *)
Ltac read_flags :=
  unfold options_flags, simulate_flag_values;
  repeat (apply bind_is_Some;
    [first [eapply string_flag_some | eapply bool_flag_some | eapply int_flag_some | eapply duration_flag_some];
     [vm_compute; reflexivity|eassumption|reflexivity]
    |intros ?]);
  try by eexists.

Definition runs_with (e : list string * (Command * list Flag)) : Prop :=
  cm_Runs e.2.1 = true -> forall given, well_given given e.2.2 -> is_Some (invocation given e.1).

(** Whatever a command reads is declared for it.  Every command of the tree
    that runs can be run: whichever flags pflag was given, each flag it reads is
    one of its own or of the root's, with the kind it is read as.  No command has
    two flags of one name or letter, the root's included, so building the tree
    does not panic and --config, --state and --socket mean the same everywhere;
    and no two commands answer to the same path. *)
Theorem every_command_runs :
  (forall path c fs given, (path, (c, fs)) ∈ all_commands -> cm_Runs c = true -> well_given given fs ->
     is_Some (invocation given path)) /\
  (forall path c fs, (path, (c, fs)) ∈ all_commands -> declared_once fs = true) /\
  NoDup (fst <$> all_commands).
Proof.
  assert (Hall : Forall runs_with all_commands).
  { let l := eval vm_compute in all_commands in assert (all_commands = l) as E by (vm_compute; reflexivity).
    rewrite E. clear E.
    repeat (apply Forall_cons; split; [|]); [..|apply Forall_nil_2]; (intros Hruns given Hg; cbn [fst snd] in *; try discriminate Hruns).
    all: unfold invocation.
    all: match type of Hg with well_given _ ?fs => match goal with |- context [flags_at ?p] =>
           let E := fresh in assert (flags_at p = fs) as E by (vm_compute; reflexivity); rewrite E; clear E end end.
    all: apply bind_is_Some; [read_flags|intros ?]; read_flags.
    apply bind_is_Some; [read_flags|intros ?]. by eexists. }
  split; [|split].
  - intros path c fs given Hin Hr Hg. rewrite Forall_forall in Hall. by apply (Hall _ Hin).
  - intros path c fs Hin. assert (Hd : Forall (fun e => declared_once e.2.2 = true) all_commands).
    { vm_compute. repeat constructor. }
    rewrite Forall_forall in Hd. apply (Hd _ Hin).
  - apply (bool_decide_eq_true (NoDup (fst <$> all_commands))). vm_compute. reflexivity.
Qed.

(** With no flags given the commands run with their defaults: those
    [SimulatorRun.working_pair] speaks of. *)
Definition no_flags : string -> option FlagValue := fun _ => None.
Definition default_options : options := mkOptions DefaultConfigPath "" "".

Lemma every_command_runs_witness :
  is_Some (invocation (fun n => if bool_decide (n = "evse") then Some (FString "EVSE-1") else None) ["reserve"]).
Proof.
  apply (proj1 every_command_runs ["reserve"] (mkCommand "reserve" "Reserve an EVSE for an RFID tag" true true
           (take 3 (flags_at ["reserve"])) [] []) (flags_at ["reserve"])).
  - apply (list_elem_of_lookup_2 _ 7). vm_compute. reflexivity.
  - reflexivity.
  - intros f v Hin. case_bool_decide as Hn; [|done]. intros [= <-]. revert f Hin Hn.
    refine (proj1 (Forall_forall (fun f => fl_Name f = "evse" -> same_kind (FString "EVSE-1") (fl_Default f) = true) _) _).
    vm_compute. repeat constructor; discriminate.
Defined.

Example invocation_samples :
  invocation no_flags [] = Some RunHelp /\
  invocation no_flags ["simulate"; "charger"] =
    Some (RunSimulate default_options "info" (mkSimulateFlags "" "" "1.6" 0 "normal" "" "" "")) /\
  invocation no_flags ["reserve"] = Some (RunReserve default_options "" "" 0) /\
  invocation no_flags ["simulate"] = None /\
  (fst <$> all_commands) = [[]; ["run"]; ["simulate"]; ["simulate"; "charger"]; ["version"]; ["config"];
    ["config"; "validate"]; ["reserve"]; ["cancel"]; ["start"]; ["stop"]; ["unlock"]; ["status"]; ["probe"]].
Proof. vm_compute. repeat split. Qed.
