(* ===== verification/BuildInfo.v ===== *)
(** * The version text (buildinfo/buildinfo.go, cli/version.go)

    What [cpms version] prints, from the variables the link sets, the stamps the
    toolchain embeds and the platform, which are arguments. *)

From S2P Require Import Prelude GoLib CliReport.

Record Info := mkInfo {
  in_Version : string;
  in_Commit : string;
  in_Date : string;
  in_GoVersion : string;
  in_Platform : string
}.

Definition with_commit (c : string) (i : Info) : Info :=
  mkInfo (in_Version i) c (in_Date i) (in_GoVersion i) (in_Platform i).
Definition with_date (d : string) (i : Info) : Info :=
  mkInfo (in_Version i) (in_Commit i) d (in_GoVersion i) (in_Platform i).

(** One stamp, a key and a value. *)
Definition stamp (i : Info) (s : string * string) : Info :=
  let '(key, value) := s in
  if bool_decide (key = "vcs.revision") then
    if bool_decide (in_Commit i = EmptyString) then with_commit value i else i
  else if bool_decide (key = "vcs.time") then
    if bool_decide (in_Date i = EmptyString) then with_date value i else i
  else if bool_decide (key = "vcs.modified") then
    if bool_decide (value = "true") && negb (bool_decide (in_Commit i = EmptyString))
    then with_commit (in_Commit i +:+ "-dirty") i else i
  else i.

(** [linked] is what the link and the runtime give; there may be no stamps. *)
Definition Get (linked : Info) (stamps : option (list (string * string))) : Info :=
  foldl stamp linked (default [] stamps).

Definition Info_String (i : Info) : string :=
  "cpms " +:+ in_Version i +:+
  (if bool_decide (in_Commit i = EmptyString) then EmptyString
   else " (" +:+ (if (12 <? String.length (in_Commit i))%nat then String.substring 0 12 (in_Commit i) else in_Commit i) +:+ ")") +:+
  (if bool_decide (in_Date i = EmptyString) then EmptyString else " built " +:+ in_Date i) +:+
  " " +:+ in_GoVersion i +:+ " " +:+ in_Platform i.

Definition version_command (linked : Info) (stamps : option (list (string * string))) : list Output :=
  [Printed (Info_String (Get linked stamps))].

(** ** The link's own values win *)

Lemma stamp_keeps s i :
  (in_Version (stamp i s) = in_Version i /\ in_GoVersion (stamp i s) = in_GoVersion i /\
   in_Platform (stamp i s) = in_Platform i) /\
  (in_Date i <> EmptyString -> in_Date (stamp i s) = in_Date i) /\
  (in_Commit i <> EmptyString ->
   in_Commit (stamp i s) = in_Commit i \/ in_Commit (stamp i s) = in_Commit i +:+ "-dirty").
Proof. destruct s as [k v]. unfold stamp. repeat case_bool_decide; cbn; split_and!; auto; done. Qed.

(** The version, Go's version, the platform, and a date the link set are what
    [Get] reports, whatever the stamps say. *)
Lemma Get_linked linked stamps :
  in_Version (Get linked stamps) = in_Version linked /\ in_GoVersion (Get linked stamps) = in_GoVersion linked /\
  in_Platform (Get linked stamps) = in_Platform linked /\
  (in_Date linked <> EmptyString -> in_Date (Get linked stamps) = in_Date linked).
Proof.
  unfold Get. generalize (default [] stamps). intros l. revert linked.
  induction l as [|s l IH]; intros i; [done|]. cbn [foldl]. destruct (IH (stamp i s)) as (H1 & H2 & H3 & H4).
  destruct (stamp_keeps s i) as ((K1 & K2 & K3) & K4 & _). rewrite H1, H2, H3, K1, K2, K3.
  split_and!; [done..|]. intros Hd. specialize (K4 Hd). rewrite H4 by congruence. done.
Qed.

(** ** A modified tree does not show

    A revision of git's has 40 characters; the mark goes behind them, and the
    text keeps twelve. *)

Definition plain_link : Info := mkInfo "dev" "" "" "go1.24.7" "linux/amd64".

Example dirty_hidden :
  let stamps modified :=
    Some [("vcs", "git"); ("vcs.revision", "0123456789abcdef0123456789abcdef01234567"); ("vcs.modified", modified)] in
  in_Commit (Get plain_link (stamps "true")) = "0123456789abcdef0123456789abcdef01234567-dirty" /\
  Info_String (Get plain_link (stamps "true")) = Info_String (Get plain_link (stamps "false")) /\
  Info_String (Get plain_link (stamps "true")) = "cpms dev (0123456789ab) go1.24.7 linux/amd64".
Proof. vm_compute. auto. Qed.
