(* ===== verification/SocketServe.v ===== *)
(** * Serving the control socket (control/socket/server.go, Serve, handle and Close)

    The accept loop, a goroutine per connection, and any number of Close calls:
    a channel operation, a system call or a change of the wait group per step.
    Reading a line, dispatching it and writing the answer are one step each. *)

From stdpp Require Import relations.
From S2P Require Import Prelude GoLib GoTime Json Ocpp Errors Config State Bus World Core Persist Load.
From S2P Require Import Reservations Transactions Samples V16ChargePoint V16Props Control ControlProps Socket.

(** Where the accept loop is: Serve has not been called, in Accept, with a
    connection it has not counted yet, or over. *)
Inductive loop_pc := LpUnserved | LpAccepting | LpAccepted | LpEnded.

(** A request line: JSON, or the error its text gave. *)
Abbreviation request_line := (json + string)%type.

Inductive handler_pc :=
| HdReading
| HdServing (line : request_line)
| HdWriting (line : request_line) (resp : Response).

(** Where a call of Close is. *)
Inductive close_pc := ClCancelled | ClWaiting | ClReturned.

Record serving_state := mkServing {
  ss_listening : bool;
  ss_cancelled : bool;     (* the context Serve made *)
  ss_loop : loop_pc;
  ss_handlers : list (nat * handler_pc);
  ss_wg : Z;
  ss_accepted : nat;       (* connections accepted so far: the next handler's number *)
  ss_served : list (nat * request_line);             (* requests read *)
  ss_answered : list (nat * request_line * Response); (* answers written, or tried *)
  ss_closers : gmap nat close_pc
}.

(** [Listen] has returned. *)
Definition listened : serving_state := mkServing true false LpUnserved [] 0 0 [] [] ∅.

Definition at_loop (pc : loop_pc) (wg : Z) (s : serving_state) : serving_state :=
  mkServing (ss_listening s) (ss_cancelled s) pc (ss_handlers s) wg (ss_accepted s) (ss_served s) (ss_answered s) (ss_closers s).
Definition at_handlers (hs : list (nat * handler_pc)) (wg : Z) (s : serving_state) : serving_state :=
  mkServing (ss_listening s) (ss_cancelled s) (ss_loop s) hs wg (ss_accepted s) (ss_served s) (ss_answered s) (ss_closers s).
Definition accepted_one (s : serving_state) : serving_state :=
  mkServing (ss_listening s) (ss_cancelled s) (ss_loop s) (ss_handlers s) (ss_wg s) (S (ss_accepted s)) (ss_served s)
    (ss_answered s) (ss_closers s).
Definition log_served (x : nat * request_line) (s : serving_state) : serving_state :=
  mkServing (ss_listening s) (ss_cancelled s) (ss_loop s) (ss_handlers s) (ss_wg s) (ss_accepted s) (ss_served s ++ [x])
    (ss_answered s) (ss_closers s).
Definition log_answered (x : nat * request_line * Response) (s : serving_state) : serving_state :=
  mkServing (ss_listening s) (ss_cancelled s) (ss_loop s) (ss_handlers s) (ss_wg s) (ss_accepted s) (ss_served s)
    (ss_answered s ++ [x]) (ss_closers s).
Definition cancelled (b : bool) (s : serving_state) : serving_state :=
  mkServing (ss_listening s) b (ss_loop s) (ss_handlers s) (ss_wg s) (ss_accepted s) (ss_served s) (ss_answered s)
    (ss_closers s).
Definition listener_closed (s : serving_state) : serving_state :=
  mkServing false (ss_cancelled s) (ss_loop s) (ss_handlers s) (ss_wg s) (ss_accepted s) (ss_served s) (ss_answered s)
    (ss_closers s).
Definition closer_at (p : nat) (pc : close_pc) (s : serving_state) : serving_state :=
  mkServing (ss_listening s) (ss_cancelled s) (ss_loop s) (ss_handlers s) (ss_wg s) (ss_accepted s) (ss_served s)
    (ss_answered s) (<[p := pc]> (ss_closers s)).

Section serve.
Context `{MapOrder} `{Env} `{Commander} `{JsonText} (cfg : Config) (chargePointID : string).

(** What [handle] answers to a line, in some state of cpms. *)
Definition answers (line : request_line) (resp : Response) : Prop :=
  exists c w, (handle cfg chargePointID line c w).1.1 = resp.

(** The steps of the goroutines Serve started, which [wg] counts. *)
Inductive goroutine_step : serving_state -> serving_state -> Prop :=
| gs_accept s : ss_loop s = LpAccepting -> ss_listening s = true -> goroutine_step s (at_loop LpAccepted (ss_wg s) s)
(* the listener is closed, or something else is wrong *)
| gs_accept_fails s : ss_loop s = LpAccepting -> goroutine_step s (at_loop LpEnded (ss_wg s - 1) s)
| gs_spawn s : ss_loop s = LpAccepted ->
    goroutine_step s
      (accepted_one (at_loop LpAccepting (ss_wg s + 1)
         (at_handlers (ss_handlers s ++ [(ss_accepted s, HdReading)]) (ss_wg s) s)))
| gs_read i line hs1 hs2 s : ss_handlers s = hs1 ++ (i, HdReading) :: hs2 ->
    goroutine_step s (log_served (i, line) (at_handlers (hs1 ++ (i, HdServing line) :: hs2) (ss_wg s) s))
| gs_read_fails i hs1 hs2 s : ss_handlers s = hs1 ++ (i, HdReading) :: hs2 ->
    goroutine_step s (at_handlers (hs1 ++ hs2) (ss_wg s - 1) s)
| gs_answer i line resp hs1 hs2 s : ss_handlers s = hs1 ++ (i, HdServing line) :: hs2 -> answers line resp ->
    goroutine_step s (at_handlers (hs1 ++ (i, HdWriting line resp) :: hs2) (ss_wg s) s)
| gs_write i line resp hs1 hs2 s : ss_handlers s = hs1 ++ (i, HdWriting line resp) :: hs2 ->
    goroutine_step s (log_answered (i, line, resp) (at_handlers (hs1 ++ hs2) (ss_wg s - 1) s)).

(** Those and everybody else's. *)
Inductive serve_step : serving_state -> serving_state -> Prop :=
| ve_goroutine s s' : goroutine_step s s' -> serve_step s s'
| ve_Serve s : ss_loop s = LpUnserved -> serve_step s (at_loop LpAccepting (ss_wg s + 1) s)
(* the context Serve was given *)
| ve_cancel s : ss_loop s <> LpUnserved -> serve_step s (cancelled true s)
(* the goroutine that waits for the context *)
| ve_watch s : ss_cancelled s = true -> serve_step s (listener_closed s)
| ve_Close p s : ss_closers s !! p = None \/ ss_closers s !! p = Some ClReturned ->
    serve_step s (closer_at p ClCancelled
      (cancelled (match ss_loop s with LpUnserved => ss_cancelled s | _ => true end) s))
| ve_close_listener p s : ss_closers s !! p = Some ClCancelled ->
    serve_step s (closer_at p ClWaiting (listener_closed s))
| ve_returns p s : ss_closers s !! p = Some ClWaiting -> ss_wg s = 0 -> serve_step s (closer_at p ClReturned s).

Definition serve_reachable : serving_state -> Prop := rtc serve_step listened.

(** ** The invariant *)

Definition loop_counted (pc : loop_pc) : Z :=
  match pc with LpUnserved | LpEnded => 0 | LpAccepting | LpAccepted => 1 end.

(** The request a goroutine has read and not answered. *)
Definition in_flight (h : nat * handler_pc) : option (nat * request_line) :=
  match h.2 with HdReading => None | HdServing l | HdWriting l _ => Some (h.1, l) end.

(** No request is in flight, and none can come. *)
Definition drained (s : serving_state) : Prop :=
  ss_listening s = false /\ ss_loop s <> LpAccepted /\ ss_handlers s = [].

Record serve_ok (s : serving_state) : Prop := {
  so_wg : ss_wg s = loop_counted (ss_loop s) + Z.of_nat (length (ss_handlers s));
  so_closing : forall p pc, ss_closers s !! p = Some pc -> pc <> ClCancelled -> ss_listening s = false;
  so_returned : forall p, ss_closers s !! p = Some ClReturned -> drained s;
  so_served : ss_served s ≡ₚ (ss_answered s).*1 ++ omap in_flight (ss_handlers s);
  so_writing : forall i l r, (i, HdWriting l r) ∈ ss_handlers s -> answers l r;
  so_answers : forall i l r, (i, l, r) ∈ ss_answered s -> answers l r
}.

Lemma drained_step s s' : drained s -> serve_step s s' ->
  drained s' /\ ss_accepted s' = ss_accepted s /\ ss_served s' = ss_served s.
Proof.
  intros (Hl & Hp & Hh). destruct 1 as [s s' Hg| | | | | |]; try (split; [split_and!; cbn; congruence|done]).
  destruct Hg; try congruence; try (destruct hs1; simplify_eq/=; congruence).
  split; [split_and!; cbn; congruence|done].
Qed.

(** A handler moves on or ends: [rest] is what becomes of it. *)
Lemma serve_ok_handler s h hs1 hs2 rest wg served answered srv ans :
  ss_handlers s = hs1 ++ h :: hs2 -> serve_ok s -> wg = ss_wg s - 1 + Z.of_nat (length rest) ->
  srv = ss_served s ++ served -> ans = ss_answered s ++ answered ->
  served ++ omap in_flight [h] ≡ₚ answered.*1 ++ omap in_flight rest ->
  (forall i l r, (i, HdWriting l r) ∈ rest -> answers l r) -> (forall i l r, (i, l, r) ∈ answered -> answers l r) ->
  serve_ok (mkServing (ss_listening s) (ss_cancelled s) (ss_loop s) (hs1 ++ rest ++ hs2) wg (ss_accepted s)
    srv ans (ss_closers s)).
Proof.
  intros Hh [O1 O2 O3 O4 O5 O6] -> -> -> Hs Hw Ha. split; cbn; try done.
  - rewrite O1, Hh, !length_app. cbn. lia.
  - intros p Hp. destruct (O3 p Hp) as (_ & _ & Hn). rewrite Hn in Hh. by destruct hs1.
  - change (h :: hs2) with ([h] ++ hs2) in Hh. rewrite fmap_app, O4, Hh, !omap_app. revert Hs.
    generalize (omap in_flight [h]), (omap in_flight rest), (omap in_flight hs1), (omap in_flight hs2).
    intros f r o1 o2 Hs. transitivity ((ss_answered s).*1 ++ o1 ++ o2 ++ served ++ f); [solve_Permutation|].
    rewrite Hs. solve_Permutation.
  - intros i l r [Hin|[Hin|Hin]%elem_of_app]%elem_of_app; [|by eapply Hw|]; apply (O5 i); rewrite Hh; set_solver.
  - intros i l r [Hin|Hin]%elem_of_app; [by eapply O6|by eapply Ha].
Qed.

Lemma serve_ok_goroutine s s' : serve_ok s -> goroutine_step s s' -> serve_ok s'.
Proof.
  intros Hs Hg. destruct Hg as [s Hl Hn|s Hl|s Hl|i l hs1 hs2 s Hh|i hs1 hs2 s Hh|i l r hs1 hs2 s Hh Ha|i l r hs1 hs2 s Hh].
  - destruct Hs as [O1 O2 O3 O4 O5 O6]. split; cbn; try done; [by rewrite O1, Hl|].
    intros p Hp. destruct (O3 p Hp) as (Hf & _). congruence.
  - destruct Hs as [O1 O2 O3 O4 O5 O6]. split; cbn; try done; [rewrite O1, Hl; cbn; lia|].
    intros p Hp. by destruct (O3 p Hp) as (Hf & _ & Hh).
  - destruct Hs as [O1 O2 O3 O4 O5 O6]. split; cbn; try done.
    + rewrite O1, Hl, length_app. cbn. lia.
    + intros p Hp. by destruct (O3 p Hp) as (_ & Hf & _).
    + by rewrite omap_app, app_nil_r.
    + intros i l r [Hin|Hin]%elem_of_app; [by eapply O5|set_solver].
  - apply (serve_ok_handler s (i, HdReading) hs1 hs2 [(i, HdServing l)] _ [(i, l)] []);
      cbn; rewrite ?app_nil_r; auto; [lia|set_solver..].
  - apply (serve_ok_handler s (i, HdReading) hs1 hs2 [] _ [] []); cbn; rewrite ?app_nil_r; auto; [lia|set_solver..].
  - apply (serve_ok_handler s (i, HdServing l) hs1 hs2 [(i, HdWriting l r)] _ [] []);
      cbn; rewrite ?app_nil_r; auto; [lia| |set_solver].
    intros i' l' r' Hin%list_elem_of_singleton. by injection Hin as -> -> ->.
  - apply (serve_ok_handler s (i, HdWriting l r) hs1 hs2 [] _ [] [(i, l, r)]);
      cbn; rewrite ?app_nil_r; auto; [lia|set_solver|].
    intros i' l' r' Hin%list_elem_of_singleton. injection Hin as -> -> ->. apply (so_writing s Hs i). rewrite Hh. set_solver.
Qed.

Lemma serve_ok_step s s' : serve_ok s -> serve_step s s' -> serve_ok s'.
Proof.
  intros Hs Hg. destruct Hg as [s s' Hg|s Hl|s Hl|s Hc|p s Hp|p s Hp|p s Hp Hw];
    [by eapply serve_ok_goroutine|destruct Hs as [O1 O2 O3 O4 O5 O6]; split; cbn; try done..].
  - rewrite O1, Hl. cbn. lia.
  - intros p Hp. by destruct (O3 p Hp) as (? & _ & ?).
  - intros p Hp. by destruct (O3 p Hp) as (_ & ? & ?).
  - intros q pc [[<- <-]|[_ E]]%lookup_insert_Some; [done|by eapply O2].
  - intros q [[<- ?]|[_ E]]%lookup_insert_Some; [done|by eapply O3].
  - intros q [[<- ?]|[_ E]]%lookup_insert_Some; [done|]. by destruct (O3 q E) as (_ & ? & ?).
  - intros q pc [[<- <-]|[_ E]]%lookup_insert_Some Hq; [by eapply O2|by eapply O2].
  - intros q [[<- ?]|[_ E]]%lookup_insert_Some; [|by eapply O3]. rewrite O1 in Hw.
    split_and!; cbn; [by eapply O2|by intros E; rewrite E in Hw; cbn in Hw; lia|].
    destruct (ss_handlers s); [done|]. cbn in Hw. destruct (ss_loop s); cbn in Hw; lia.
Qed.

Lemma serve_ok_run s s' : serve_ok s -> rtc serve_step s s' -> serve_ok s'.
Proof. intros Hs Hr. induction Hr as [|s s1 s2 Hst _ IH]; [done|]. by eapply IH, serve_ok_step. Qed.

Lemma serve_reachable_ok s : serve_reachable s -> serve_ok s.
Proof. apply serve_ok_run. split; cbn; try done; intros; set_solver. Qed.

Lemma drained_run s s' : drained s -> rtc serve_step s s' ->
  ss_handlers s' = [] /\ ss_accepted s' = ss_accepted s /\ ss_served s' = ss_served s.
Proof.
  intros Hd Hr. induction Hr as [s|s s1 s2 Hst _ IH]; [by destruct Hd as (_ & _ & ?)|].
  destruct (drained_step s s1 Hd Hst) as (Hd1 & <- & <-). by apply IH.
Qed.

(** C31: Close drains the socket.  Once any call of it has returned, every request
    that was read has had its answer, which is the one [handle] gives to its
    line, and from then on no connection is accepted and no request is read. *)
Theorem Close_drains s p :
  serve_reachable s -> ss_closers s !! p = Some ClReturned ->
  ss_served s ≡ₚ (ss_answered s).*1 /\ (forall i l r, (i, l, r) ∈ ss_answered s -> answers l r) /\
  forall s', rtc serve_step s s' ->
    ss_handlers s' = [] /\ ss_accepted s' = ss_accepted s /\ ss_served s' = ss_served s.
Proof.
  intros Hs%serve_reachable_ok Hp. pose proof (so_returned s Hs p Hp) as Hd. split_and!.
  - rewrite (so_served s Hs). destruct Hd as (_ & _ & ->). by rewrite app_nil_r.
  - apply (so_answers s Hs).
  - intros s' Hr. by apply drained_run.
Qed.

(** ** Close ends *)

Definition handler_work (h : nat * handler_pc) : nat :=
  match h.2 with HdReading => 3 | HdServing _ => 2 | HdWriting _ _ => 1 end.

Definition loop_work (pc : loop_pc) : nat :=
  match pc with LpUnserved | LpEnded => 0 | LpAccepting => 1 | LpAccepted => 5 end.

(** The steps its goroutines have left at most when the listener is closed. *)
Definition work (s : serving_state) : nat := loop_work (ss_loop s) + sum_list_with handler_work (ss_handlers s).

Lemma goroutine_works s s' :
  ss_listening s = false -> goroutine_step s s' -> ss_listening s' = false /\ (work s' < work s)%nat.
Proof.
  intros Hl Hg. unfold work.
  destruct Hg as [s E Hn|s E|s E|i l hs1 hs2 s E|i hs1 hs2 s E|i l r hs1 hs2 s E Ha|i l r hs1 hs2 s E];
    cbn; rewrite ?E, ?sum_list_with_app; cbn; (split; [done|lia]) || congruence.
Qed.

Lemma handle_answers line : exists resp, answers line resp.
Proof. eexists _, new_ctl, (New (Some cfg) None). reflexivity. Qed.

Lemma goroutine_goes_on s : ss_wg s <> 0 -> serve_ok s -> exists s', goroutine_step s s'.
Proof.
  intros Hw Hs. rewrite (so_wg s Hs) in Hw. destruct (ss_handlers s) as [|[i [|l|l r]] hs] eqn:Eh.
  - destruct (ss_loop s) eqn:El; cbn in Hw; try lia; [by eexists; apply gs_accept_fails|by eexists; apply gs_spawn].
  - eexists. by apply (gs_read_fails i [] hs).
  - destruct (handle_answers l) as [r Hr]. eexists. by apply (gs_answer i l r [] hs).
  - eexists. by apply (gs_write i l r [] hs).
Qed.

(** Close returns.  From the moment the listener is closed the goroutines
    Close waits for take boundedly many steps, whatever anybody else does not do;
    and as long as there is one of them left, one can go on: when none can, the
    wait is over. *)
Theorem Close_returns s p :
  serve_reachable s -> ss_closers s !! p = Some ClWaiting ->
  (forall n s', nsteps goroutine_step n s s' -> (n <= work s)%nat) /\
  (forall s', rtc goroutine_step s s' -> (exists s'', goroutine_step s' s'') \/
     serve_step s' (closer_at p ClReturned s')).
Proof.
  intros Hs%serve_reachable_ok Hp. assert (Hl : ss_listening s = false) by by eapply so_closing.
  split.
  - intros n s' Hr. destruct (nsteps_work goroutine_step _ work goroutine_works n s s' Hl Hr). lia.
  - intros s' Hr. assert (Hs' : serve_ok s' /\ ss_closers s' = ss_closers s).
    { clear Hl Hp. induction Hr as [|s s1 s2 Hst _ IH]; [done|]. destruct (IH (serve_ok_goroutine _ _ Hs Hst)) as [? ->].
      split; [done|]. by destruct Hst. }
    destruct Hs' as [Hs' E]. destruct (decide (ss_wg s' = 0)) as [Hw|Hw]; [|by left; apply goroutine_goes_on].
    right. apply ve_returns; [by rewrite E|done].
Qed.
End serve.

(** ** Instances *)

#[local] Existing Instance key_order.
#[local] Existing Instance sample_env.
#[local] Existing Instance sample_commander.
#[local] Existing Instance sample_json_text.

(** A connection has been accepted when Close begins; its request, which is not
    JSON, is still read and answered. *)
Definition one_accepted : serving_state :=
  mkServing true false LpAccepting [(0%nat, HdReading)] 2 1 [] [] ∅.
Definition closing : serving_state :=
  mkServing false true LpAccepting [(0%nat, HdReading)] 2 1 [] [] {[7%nat := ClWaiting]}.
Definition not_json : request_line := inr "bad".
Definition closed_down : serving_state :=
  mkServing false true LpEnded [] 0 1 [(0%nat, not_json)] [(0%nat, not_json, usage ("malformed request: " +:+ "bad"))]
    {[7%nat := ClReturned]}.

Abbreviation sample_step := (serve_step sample_config "CP1").

Lemma closing_reachable : serve_reachable sample_config "CP1" closing.
Proof.
  apply (rtc_l sample_step _ (at_loop LpAccepting 1 listened)); [by apply ve_Serve|].
  apply (rtc_l sample_step _ (at_loop LpAccepted 1 listened)).
  { exact (ve_goroutine _ _ _ _ (gs_accept _ _ (at_loop LpAccepting 1 listened) eq_refl eq_refl)). }
  apply (rtc_l sample_step _ one_accepted).
  { exact (ve_goroutine _ _ _ _ (gs_spawn _ _ (at_loop LpAccepted 1 listened) eq_refl)). }
  apply (rtc_l sample_step _ (closer_at 7 ClCancelled (cancelled true one_accepted))); [apply ve_Close; by left|].
  apply rtc_once. exact (ve_close_listener _ _ 7 (closer_at 7 ClCancelled (cancelled true one_accepted)) eq_refl).
Defined.

Lemma closed_down_reachable : serve_reachable sample_config "CP1" closed_down.
Proof.
  pose (resp := usage ("malformed request: " +:+ "bad")).
  pose (st1 := log_served (0%nat, not_json) (at_handlers [(0%nat, HdServing not_json)] 2 closing)).
  pose (st2 := at_handlers [(0%nat, HdWriting not_json resp)] 2 st1).
  pose (st3 := log_answered (0%nat, not_json, resp) (at_handlers [] 1 st2)).
  pose (st4 := at_loop LpEnded 0 st3).
  unfold serve_reachable. transitivity closing; [exact closing_reachable|].
  apply (rtc_l sample_step _ st1); [exact (ve_goroutine _ _ _ _ (gs_read _ _ 0 not_json [] [] closing eq_refl))|].
  apply (rtc_l sample_step _ st2); [apply ve_goroutine, (gs_answer _ _ 0 not_json resp [] [] st1 eq_refl)|].
  { exists new_ctl, sample_world. reflexivity. }
  apply (rtc_l sample_step _ st3); [exact (ve_goroutine _ _ _ _ (gs_write _ _ 0 not_json resp [] [] st2 eq_refl))|].
  apply (rtc_l sample_step _ st4); [exact (ve_goroutine _ _ _ _ (gs_accept_fails _ _ st3 eq_refl))|].
  apply rtc_once. exact (ve_returns _ _ 7 st4 eq_refl eq_refl).
Defined.

Lemma Close_drains_witness :
  ss_served closed_down ≡ₚ (ss_answered closed_down).*1 /\
  forall s', rtc sample_step closed_down s' -> ss_handlers s' = [] /\ ss_accepted s' = 1%nat /\ length (ss_served s') = 1%nat.
Proof.
  destruct (Close_drains sample_config "CP1" closed_down 7 closed_down_reachable eq_refl) as (E & _ & Hr).
  split; [exact E|]. intros s' Hs'. destruct (Hr s' Hs') as (-> & -> & ->). by vm_compute.
Defined.

Lemma Close_returns_witness :
  work closing = 4%nat /\ forall n s', nsteps (goroutine_step sample_config "CP1") n closing s' -> (n <= 4)%nat.
Proof.
  split; [reflexivity|]. apply (Close_returns sample_config "CP1" closing 7 closing_reachable eq_refl).
Defined.

(** The accept loop ends at any error of Accept, one that passes as well: the
    listener stays open, nobody closes it, and nobody accepts any more. *)
Example accept_error_ends_serving :
  let s := at_loop LpEnded 0 (at_loop LpAccepting 1 listened) in
  serve_reachable sample_config "CP1" s /\ ss_listening s = true /\ ss_cancelled s = false /\
  forall s', ~ goroutine_step sample_config "CP1" s s'.
Proof.
  split_and!; [|done..|].
  - apply (rtc_l sample_step _ (at_loop LpAccepting 1 listened)); [by apply ve_Serve|].
    apply rtc_once. exact (ve_goroutine _ _ _ _ (gs_accept_fails _ _ (at_loop LpAccepting 1 listened) eq_refl)).
  - intros s'. inversion 1; subst; try done; by destruct hs1.
Qed.
