(* ===== verification/CsmsShutdown.v ===== *)
(** * Listening and shutting down (ocpp/csms/server.go, Start, ServeHTTP and Shutdown)

    Csms.v's registry with what surrounds it: the goroutine of http.Serve, the
    handshakes on their way to a connection, the wait group, and one call of
    Shutdown.  http.Server is the library's: it accepts while its listener is
    open, and its own Shutdown closes the listener and waits for the handlers
    whose connection has not been hijacked. *)

From stdpp Require Import relations.
From S2P Require Import Prelude GoLib GoTime Json Ocpp Errors Config State Bus World Core.
From S2P Require Import Persist Reservations Transactions Load CoreFacts CoreInv CoreOps.
From S2P Require Import CoreTx CoreReach Samples V16ChargePoint Csms.

(** Where Shutdown is.  [n] is the number the next connection had when the
    registered ones were closed. *)
Inductive shut_pc :=
| ShNot
| ShCancelled                      (* the lifetime context is cancelled *)
| ShClosed (n : nat)               (* in http.Shutdown *)
| ShStopped (n : nat)              (* its listener is closed, it waits *)
| ShWaiting (n : nat) (clean : bool)  (* http.Shutdown has returned, with or without an error *)
| ShReturned (n : nat) (ok : bool).

(** The identities of handshakes: in ServeHTTP before Upgrade, after Upgrade and
    not counted, and counted but not registered. *)
Record life := mkLife {
  lc_server : server;
  lc_listening : bool;
  lc_serving : bool;           (* http.Serve's goroutine, counted *)
  lc_requests : list string;
  lc_hijacked : list string;
  lc_started : list string;
  lc_wg : Z;
  lc_shut : shut_pc
}.

(** [Start] has returned. *)
Definition started (w : World) : life := mkLife (mkServer w ∅ [] ∅ 0) true true [] [] [] 1 ShNot.

(** Every registered connection is closed. *)
Definition close_all (s : server) : server :=
  mkServer (sv_world s) (conns s) (sv_threads s) (map_img (conns s) ∪ sv_closed s) (sv_next s).

Section life.
Context `{MapOrder} `{Env}.

(** What the goroutines that [wg] counts do once they serve a connection, or
    have served the listener. *)
Inductive counted_step : life -> life -> Prop :=
| li_thread s s' a b r h st wg p : thread_step s s' ->
    counted_step (mkLife s a b r h st wg p)
      (mkLife s' a b r h st (wg - (Z.of_nat (length (sv_threads s)) - Z.of_nat (length (sv_threads s')))) p)
| li_serve_ends s a r h st wg p : counted_step (mkLife s a true r h st wg p) (mkLife s a false r h st (wg - 1) p)
| li_register id s a b r h st1 st2 wg p :
    counted_step (mkLife s a b r h (st1 ++ id :: st2) wg p) (mkLife (register id s) a b r h (st1 ++ st2) wg p).

Inductive life_step : life -> life -> Prop :=
| li_counted l l' : counted_step l l' -> life_step l l'
| li_core ac w cs ts cl n a b r h st wg p : (forall id, ac <> AConnected id) -> (forall id x, ac <> ADisconnected id x) ->
    life_step (mkLife (mkServer w cs ts cl n) a b r h st wg p) (mkLife (mkServer (run ac w).2 cs ts cl n) a b r h st wg p)
(* a request ServeHTTP does not refuse *)
| li_request id s r h st wg p : life_step (mkLife s true true r h st wg p) (mkLife s true true (id :: r) h st wg p)
| li_upgrade id s a b r1 r2 h st wg p :
    life_step (mkLife s a b (r1 ++ id :: r2) h st wg p) (mkLife s a b (r1 ++ r2) (id :: h) st wg p)
| li_upgrade_fails id s a b r1 r2 h st wg p :
    life_step (mkLife s a b (r1 ++ id :: r2) h st wg p) (mkLife s a b (r1 ++ r2) h st wg p)
| li_count id s a b r h1 h2 st wg p :
    life_step (mkLife s a b r (h1 ++ id :: h2) st wg p) (mkLife s a b r (h1 ++ h2) (id :: st) (wg + 1) p)
(* Shutdown *)
| li_cancel s a b r h st wg : life_step (mkLife s a b r h st wg ShNot) (mkLife s a b r h st wg ShCancelled)
| li_close_all s a b r h st wg :
    life_step (mkLife s a b r h st wg ShCancelled) (mkLife (close_all s) a b r h st wg (ShClosed (sv_next s)))
| li_stop s a b r h st wg n :
    life_step (mkLife s a b r h st wg (ShClosed n)) (mkLife s false b r h st wg (ShStopped n))
| li_idle s a b h st wg n :
    life_step (mkLife s a b [] h st wg (ShStopped n)) (mkLife s a b [] h st wg (ShWaiting n true))
| li_http_timeout s a b r h st wg n :
    life_step (mkLife s a b r h st wg (ShStopped n)) (mkLife s a b r h st wg (ShWaiting n false))
| li_waited s a b r h st n ok :
    life_step (mkLife s a b r h st 0 (ShWaiting n ok)) (mkLife s a b r h st 0 (ShReturned n ok))
| li_timeout s a b r h st wg n ok :
    life_step (mkLife s a b r h st wg (ShWaiting n ok)) (mkLife s a b r h st wg (ShReturned n false)).

Definition life_reachable (w0 : World) : life -> Prop := rtc life_step (started w0).

(** ** The invariant *)

(** The number at the closing, and whether the listener is closed, and whether
    http.Shutdown has seen every handler end. *)
Definition closed_at (p : shut_pc) : option nat :=
  match p with ShNot | ShCancelled => None | ShClosed n | ShStopped n | ShWaiting n _ | ShReturned n _ => Some n end.
Definition stopped (p : shut_pc) : Prop :=
  match p with ShStopped _ | ShWaiting _ _ | ShReturned _ _ => True | _ => False end.
Definition idle (p : shut_pc) : Prop :=
  match p with ShWaiting _ true | ShReturned _ true => True | _ => False end.

(** The connections registered before the closing are closed, those of them that
    are served still. *)
Definition closing_done (n : nat) (s : server) : Prop :=
  (n <= sv_next s)%nat /\
  forall t, t ∈ sv_threads s -> serving t -> (ct_conn t < n)%nat -> ct_conn t ∈ sv_closed s.

Record life_ok (l : life) : Prop := {
  lo_server : server_ok (lc_server l);
  lo_wg : lc_wg l = Z.b2z (lc_serving l) + Z.of_nat (length (lc_started l)) + Z.of_nat (length (sv_threads (lc_server l)));
  lo_stopped : stopped (lc_shut l) -> lc_listening l = false;
  lo_idle : idle (lc_shut l) -> lc_requests l = [];
  lo_closed : forall n, closed_at (lc_shut l) = Some n -> closing_done n (lc_server l)
}.

Lemma idle_stopped p : idle p -> stopped p.
Proof. by destruct p. Qed.

(** A goroutine that goes on is the same connection, and closes none; a
    connection that is superseded has been closed before. *)
Lemma thread_step_kept s s' : thread_step s s' ->
  sv_next s' = sv_next s /\ sv_closed s' = sv_closed s /\
  (forall t', t' ∈ sv_threads s' -> serving t' ->
    exists t, t ∈ sv_threads s /\ serving t /\ ct_conn t = ct_conn t' /\ ct_id t = ct_id t').
Proof.
  intros Hs. destruct Hs as [t w cs ts1 ts2 cl n Hpc|t reason w cs ts1 ts2 cl n Hpc
    |t reason s cs' pc' ts1 ts2 Hpc Hts Hu|t reason w cs ts1 ts2 cl n Hpc]; (split; [done|split; [done|]]); cbn;
    intros t' Hin Ht'.
  - apply elem_of_app in Hin as [Hin|[->|Hin]%elem_of_cons]; [exists t'; set_solver| |exists t'; set_solver].
    exists t. split; [set_solver|]. unfold serving. by rewrite Hpc.
  - apply elem_of_app in Hin as [Hin|[->|Hin]%elem_of_cons]; [exists t'; set_solver| |exists t'; set_solver].
    exists t. split; [set_solver|]. unfold serving. by rewrite Hpc.
  - rewrite Hts. unfold unregistered in Hu. case_bool_decide; injection Hu as <- <-;
      apply elem_of_app in Hin as [Hin|Hin]; try (exists t'; set_solver).
    apply elem_of_cons in Hin as [->|Hin]; [done|exists t'; set_solver].
  - exists t'. apply elem_of_app in Hin. set_solver.
Qed.

Lemma closing_done_thread n s s' : thread_step s s' -> closing_done n s -> closing_done n s'.
Proof.
  intros (En & Ec & Ht)%thread_step_kept [Hn Hc]. split; [by rewrite En|]. intros t Hin Hs Hlt. rewrite Ec.
  destruct (Ht t Hin Hs) as (t0 & Hin0 & Hs0 & E & _). rewrite <- E in Hlt |- *. by apply Hc.
Qed.

Lemma closing_done_register n id s : server_ok s -> closing_done n s -> closing_done n (register id s).
Proof.
  intros Hs [Hn Hc]. split; cbn; [lia|]. intros t [->|Hin]%elem_of_cons Ht Hlt; cbn in *; [lia|].
  specialize (Hc t Hin Ht Hlt). destruct (conns s !! id); set_solver.
Qed.

(** All that were registered are closed: the current ones now, the superseded
    ones have been. *)
Lemma closing_done_close_all s : server_ok s -> closing_done (sv_next s) (close_all s).
Proof.
  intros Hs. split; [done|]. intros t Hin Ht _. cbn in *. destruct (decide (conns s !! ct_id t = Some (ct_conn t))) as [E|E].
  - apply elem_of_union_l, elem_of_map_img. by exists (ct_id t).
  - apply elem_of_union_r. by apply (sv_superseded s Hs).
Qed.

Lemma server_ok_close_all s : server_ok s -> server_ok (close_all s).
Proof. intros [S1 S2 S3 S4 S5]. split; cbn; try done. intros t Hin Ht E. apply elem_of_union_r. by apply S5. Qed.

Lemma life_ok_counted l l' : life_ok l -> counted_step l l' -> life_ok l'.
Proof.
  intros [O1 O2 O3 O4 O5] Hc. destruct Hc as [s s' a b r h st wg p Ht|s a r h st wg p|id s a b r h st1 st2 wg p];
    cbn in *; split; cbn; try done.
  - by eapply thread_step_ok.
  - lia.
  - intros n E. eapply closing_done_thread; [done|by apply O5].
  - lia.
  - by apply server_ok_register.
  - rewrite O2, !length_app. cbn. lia.
  - intros n E. apply closing_done_register; [done|by apply O5].
Qed.

Lemma life_ok_step l l' : life_ok l -> life_step l l' -> life_ok l'.
Proof.
  intros Hok Hs. destruct Hs as [l l' Hc|ac w cs ts cl n a b r h st wg p _ _|id s r h st wg p|id s a b r1 r2 h st wg p
    |id s a b r1 r2 h st wg p|id s a b r h1 h2 st wg p|s a b r h st wg|s a b r h st wg|s a b r h st wg n|s a b h st wg n
    |s a b r h st wg n|s a b r h st n ok|s a b r h st wg n ok]; [by eapply life_ok_counted|..];
    destruct Hok as [O1 O2 O3 O4 O5]; cbn in *; split; cbn; try done; try lia; try (intros; discriminate).
  - by eapply server_ok_world.
  - intros Hi. discriminate (O3 (idle_stopped _ Hi)).
  - intros Hi. specialize (O4 Hi). by destruct r1.
  - intros Hi. specialize (O4 Hi). by destruct r1.
  - by apply server_ok_close_all.
  - intros m [= <-]. by apply closing_done_close_all.
Qed.

Lemma life_ok_run l l' : life_ok l -> rtc life_step l l' -> life_ok l'.
Proof. intros Hl Hr. induction Hr as [|l l1 l2 Hst _ IH]; [done|]. by eapply IH, life_ok_step. Qed.

Lemma life_reachable_ok w0 l : life_reachable w0 l -> life_ok l.
Proof.
  apply life_ok_run. split; cbn; try done. eapply server_reachable_ok, (sr_start w0).
Qed.

(** ** A Shutdown that succeeds *)

(** Nothing is served, and nothing is on its way. *)
Definition quiet (l : life) : Prop :=
  lc_listening l = false /\ lc_requests l = [] /\ lc_hijacked l = [] /\ lc_started l = [] /\ sv_threads (lc_server l) = [].

Lemma no_thread_step s s' : sv_threads s = [] -> ~ thread_step s s'.
Proof.
  intros E Ht. assert (Hn : forall ts1 t ts2, sv_threads s = ts1 ++ t :: ts2 -> False) by (rewrite E; by intros []).
  destruct Ht; by eapply Hn.
Qed.

Lemma quiet_step l l' : quiet l -> life_step l l' -> quiet l'.
Proof.
  unfold quiet. intros (Q1 & Q2 & Q3 & Q4 & Q5) Hs. destruct Hs as [l l' Hc| | | | | | | | | | | |]; cbn in *;
    try (by split_and!); try discriminate; try (by destruct r1); try (by destruct h1).
  destruct Hc as [s s' a b r h st wg p Ht| |id s a b r h st1 st2 wg p]; cbn in *; [|by split_and!|by destruct st1].
  by apply no_thread_step in Ht.
Qed.

Lemma quiet_run l l' : quiet l -> rtc life_step l l' -> quiet l'.
Proof. intros Hq Hr. induction Hr as [|l l1 l2 Hst _ IH]; [done|]. by eapply IH, quiet_step. Qed.

(** C36: when Shutdown reports success, it is over.  Its wait ends without error
    only when the listener is closed, no request is being handled, every
    connection's goroutine has finished - so each has told core what it had to -
    and the registry is empty; and unless a handshake is between its upgrade and
    its count at that moment, nothing is ever served again. *)
Theorem Shutdown_waits w0 l l' n :
  life_reachable w0 l -> life_step l l' -> lc_shut l = ShWaiting n true -> lc_shut l' = ShReturned n true ->
  lc_listening l' = false /\ lc_requests l' = [] /\ lc_started l' = [] /\ sv_threads (lc_server l') = [] /\
  conns (lc_server l') = ∅ /\ (lc_hijacked l' = [] -> forall l2, rtc life_step l' l2 -> quiet l2).
Proof.
  intros Hr%life_reachable_ok Hs E E'. pose proof (life_ok_step l l' Hr Hs) as [O1 O2 O3 O4 _].
  assert (Hw : lc_wg l' = 0).
  { destruct Hs as [l l' Hc| | | | | | | | | | | |]; cbn in *; try congruence. destruct Hc; cbn in *; congruence. }
  rewrite E' in O3, O4. specialize (O3 I). specialize (O4 I). rewrite Hw in O2.
  assert (Et : sv_threads (lc_server l') = []) by (destruct (sv_threads _); [done|cbn in O2; destruct (lc_serving l'); cbn in O2; lia]).
  assert (Es : lc_started l' = []) by (destruct (lc_started _); [done|cbn in O2; destruct (lc_serving l'); cbn in O2; lia]).
  split_and!; try done.
  - apply map_empty. intros id. destruct (conns _ !! id) as [c|] eqn:Ec; [|done].
    destruct (sv_live _ O1 id c Ec) as (t & Hin & _). rewrite Et in Hin. by apply not_elem_of_nil in Hin.
  - intros Eh l2. by apply quiet_run.
Qed.

(** ** Shutdown ends *)

Definition thread_work (t : conn_thread) : nat :=
  match ct_pc t with PcRegistered => 4 | PcRunning => 3 | PcEnded _ => 2 | PcReporting _ => 1 end.

(** The steps left at most to the goroutines that are counted. *)
Definition life_work (l : life) : nat :=
  (if lc_serving l then 1 else 0) + 5 * length (lc_started l) + sum_list_with thread_work (sv_threads (lc_server l)).

Lemma thread_step_works s s' : thread_step s s' ->
  (sum_list_with thread_work (sv_threads s') < sum_list_with thread_work (sv_threads s))%nat.
Proof.
  intros Hs. destruct Hs as [t w cs ts1 ts2 cl n Hpc|t reason w cs ts1 ts2 cl n Hpc
    |t reason s cs' pc' ts1 ts2 Hpc Hts Hu|t reason w cs ts1 ts2 cl n Hpc]; cbn;
    rewrite ?Hts, !sum_list_with_app; cbn; unfold thread_work; rewrite ?Hpc; cbn; try lia.
  unfold unregistered in Hu. case_bool_decide; injection Hu as <- <-; cbn; lia.
Qed.

Lemma counted_works l l' : True -> counted_step l l' -> True /\ (life_work l' < life_work l)%nat.
Proof.
  intros _ Hc. split; [done|]. unfold life_work.
  destruct Hc as [s s' a b r h st wg p Ht%thread_step_works| |id s a b r h st1 st2 wg p]; cbn; [lia..|].
  rewrite !length_app. cbn. lia.
Qed.

Lemma thread_goes_on t ts w cs cl n : exists s', thread_step (mkServer w cs (t :: ts) cl n) s'.
Proof.
  destruct t as [c id [| |reason|reason]].
  - eexists. by apply (sv_connected (mkConnThread c id PcRegistered) w cs [] ts).
  - eexists. by apply (sv_ended (mkConnThread c id PcRunning) "" w cs [] ts).
  - set (t := mkConnThread c id (PcEnded reason)). set (s := mkServer w cs (t :: ts) cl n).
    destruct (unregistered t reason s) as [cs' pc'] eqn:E. eexists. by apply (sv_unregister t reason s cs' pc' [] ts).
  - eexists. by apply (sv_disconnected (mkConnThread c id (PcReporting reason)) reason w cs [] ts).
Qed.

Lemma counted_goes_on l : life_ok l -> lc_wg l <> 0 -> exists l', counted_step l l'.
Proof.
  intros [_ O2 _ _ _] Hw. destruct l as [[w cs ts cl n] a b r h st wg p]. cbn in *.
  destruct ts as [|t ts]; [|destruct (thread_goes_on t ts w cs cl n) as [s' Hs']; eexists; by apply li_thread].
  destruct st as [|id st]; [|eexists; by apply (li_register id _ a b r h [] st)].
  destruct b; [eexists; apply li_serve_ends|]. cbn in O2. lia.
Qed.

(** Once Shutdown has closed the connections, every connection that was
    registered by then is closed; the goroutines it waits for take boundedly many
    steps to their end, and while one is left one can go on - a connection's
    goroutine ends its reading at the latest when the connection is closed. *)
Theorem Shutdown_ends w0 l n :
  life_reachable w0 l -> closed_at (lc_shut l) = Some n ->
  (forall t, t ∈ sv_threads (lc_server l) -> serving t -> (ct_conn t < n)%nat -> ct_conn t ∈ sv_closed (lc_server l)) /\
  (forall m l', nsteps counted_step m l l' -> (m <= life_work l)%nat) /\
  (forall l', rtc counted_step l l' -> (exists l2, counted_step l' l2) \/ lc_wg l' = 0).
Proof.
  intros Hl%life_reachable_ok Hn. split_and!; [apply (lo_closed l Hl n Hn)| |].
  - intros m l' Hr. destruct (nsteps_work counted_step _ life_work counted_works m l l' I Hr). lia.
  - intros l' Hr. assert (Hl' : life_ok l').
    { clear Hn. induction Hr as [|l l1 l2 Hst _ IH]; [done|]. by eapply IH, life_ok_counted. }
    destruct (decide (lc_wg l' = 0)); [by right|]. left. by apply counted_goes_on.
Qed.
End life.

(** ** Instances *)

#[local] Existing Instance key_order.
#[local] Existing Instance sample_env.

#[local] Ltac life_to l step := apply rtc_r with l; [|step].

(** A handshake has just been upgraded when Shutdown begins, and is not counted
    when it waits. *)
Definition nobody : server := mkServer csms_start ∅ [] ∅ 0.
Definition upgraded : life := mkLife nobody true true [] ["CP1"] [] 1 ShNot.
Definition waiting_for_nobody : life := mkLife (close_all nobody) false false [] ["CP1"] [] 0 (ShWaiting 0 true).

Lemma upgraded_reachable : life_reachable csms_start upgraded.
Proof.
  life_to (mkLife nobody true true ["CP1"] [] [] 1 ShNot) ltac:(exact (li_upgrade "CP1" nobody true true [] [] [] [] 1 ShNot)).
  apply rtc_once, (li_request "CP1" nobody [] [] [] 1 ShNot).
Defined.

Lemma waiting_for_nobody_reachable : life_reachable csms_start waiting_for_nobody.
Proof.
  pose (at_ b p := mkLife (close_all nobody) false b [] ["CP1"] [] (Z.b2z b) p).
  life_to (at_ false (ShStopped 0)) ltac:(exact (li_idle (close_all nobody) false false ["CP1"] [] 0 0)).
  life_to (at_ true (ShStopped 0))
    ltac:(exact (li_counted _ _ (li_serve_ends (close_all nobody) false [] ["CP1"] [] 1 (ShStopped 0)))).
  life_to (mkLife (close_all nobody) true true [] ["CP1"] [] 1 (ShClosed 0))
    ltac:(exact (li_stop (close_all nobody) true true [] ["CP1"] [] 1 0)).
  life_to (mkLife nobody true true [] ["CP1"] [] 1 ShCancelled) ltac:(exact (li_close_all nobody true true [] ["CP1"] [] 1)).
  life_to upgraded ltac:(exact (li_cancel nobody true true [] ["CP1"] [] 1)).
  exact upgraded_reachable.
Defined.

(** The connection of a handshake, when it is registered now and runs. *)
Definition late (wg : Z) (h : list string) (p : shut_pc) : life :=
  mkLife (mkServer (Connected "CP1" csms_start).2 (conns (register "CP1" (close_all nobody))) [cp1 0 PcRunning]
            (sv_closed (register "CP1" (close_all nobody))) 1) false false [] h [] wg p.

Lemma comes_late l0 p :
  life_reachable csms_start l0 -> l0 = mkLife (close_all nobody) false false [] ["CP1"] [] 0 p ->
  life_reachable csms_start (late 1 [] p).
Proof.
  intros Hr ->. set (s := register "CP1" (close_all nobody)).
  life_to (mkLife s false false [] [] [] 1 p)
    ltac:(exact (li_counted _ _ (li_thread s _ false false [] [] [] 1 p
                   (sv_connected (cp1 0 PcRegistered) csms_start (conns s) [] [] (sv_closed s) 1 eq_refl)))).
  life_to (mkLife (close_all nobody) false false [] [] ["CP1"] 1 p)
    ltac:(exact (li_counted _ _ (li_register "CP1" (close_all nobody) false false [] [] [] [] 1 p))).
  life_to (mkLife (close_all nobody) false false [] ["CP1"] [] 0 p)
    ltac:(exact (li_count "CP1" (close_all nobody) false false [] [] [] [] 0 p)).
  exact Hr.
Qed.

(** So Shutdown does not close every connection.  One whose handshake is under
    way is registered after the others were closed: Shutdown waits for it, and
    nobody closes it; or Shutdown has already returned without an error. *)
Example shutdown_race :
  let running l := cp1 0 PcRunning ∈ sv_threads (lc_server l) /\ 0%nat ∉ sv_closed (lc_server l) in
  (exists l, life_reachable csms_start l /\ lc_shut l = ShWaiting 0 true /\ running l) /\
  (exists l, life_reachable csms_start l /\ lc_shut l = ShReturned 0 true /\ running l).
Proof.
  assert (Hc : 0%nat ∉ sv_closed (register "CP1" (close_all nobody))) by (vm_compute; set_solver).
  split; eexists; split_and!; try (eapply comes_late; [|reflexivity]); try reflexivity; try exact Hc; try (by left).
  - exact waiting_for_nobody_reachable.
  - life_to waiting_for_nobody ltac:(exact (li_waited (close_all nobody) false false [] ["CP1"] [] 0 true)).
    exact waiting_for_nobody_reachable.
Qed.

(** With one station connected. *)
Definition one_station : server := mkServer first_up (<["CP1" := 0%nat]> ∅) [cp1 0 PcRunning] ∅ 1.
Definition one_closed : life := mkLife (close_all one_station) true true [] [] [] 2 (ShClosed 1).

Lemma one_closed_reachable : life_reachable csms_start one_closed.
Proof.
  life_to (mkLife one_station true true [] [] [] 2 ShCancelled) ltac:(exact (li_close_all one_station true true [] [] [] 2)).
  life_to (mkLife one_station true true [] [] [] 2 ShNot) ltac:(exact (li_cancel one_station true true [] [] [] 2)).
  set (s := register "CP1" nobody).
  life_to (mkLife s true true [] [] [] 2 ShNot)
    ltac:(exact (li_counted _ _ (li_thread s _ true true [] [] [] 2 ShNot
                   (sv_connected (cp1 0 PcRegistered) csms_start (conns s) [] [] (sv_closed s) 1 eq_refl)))).
  life_to (mkLife nobody true true [] [] ["CP1"] 2 ShNot)
    ltac:(exact (li_counted _ _ (li_register "CP1" nobody true true [] [] [] [] 2 ShNot))).
  life_to upgraded ltac:(exact (li_count "CP1" nobody true true [] [] [] [] 1 ShNot)).
  exact upgraded_reachable.
Defined.

Lemma Shutdown_ends_witness :
  closed_at (lc_shut one_closed) = Some 1%nat /\ 0%nat ∈ sv_closed (lc_server one_closed) /\
  forall m l', nsteps counted_step m one_closed l' -> (m <= 4)%nat.
Proof.
  destruct (Shutdown_ends csms_start one_closed 1 one_closed_reachable eq_refl) as (Hc & Hm & _).
  split; [reflexivity|]. split; [|exact Hm]. apply (Hc (cp1 0 PcRunning)); [left|exact I|vm_compute; lia].
Defined.

Definition one_gone : server :=
  mkServer (Disconnected "CP1" "closed" first_up).2 (delete "CP1" (<["CP1" := 0%nat]> ∅)) [] (sv_closed (close_all one_station)) 1.
Definition waited_for : life := mkLife one_gone false false [] [] [] 0 (ShWaiting 1 true).

Lemma waited_for_reachable : life_reachable csms_start waited_for.
Proof.
  set (cl := sv_closed (close_all one_station)). set (cs := <["CP1" := 0%nat]> ∅ : gmap string nat).
  pose (reporting := mkServer first_up (delete "CP1" cs) [cp1 0 (PcReporting "closed")] cl 1).
  life_to (mkLife reporting false false [] [] [] 1 (ShWaiting 1 true))
    ltac:(exact (li_counted _ _ (li_thread reporting _ false false [] [] [] 1 _
                   (sv_disconnected (cp1 0 (PcReporting "closed")) "closed" first_up (delete "CP1" cs) [] [] cl 1 eq_refl)))).
  pose (ended := mkServer first_up cs [cp1 0 (PcEnded "closed")] cl 1).
  assert (Hu : unregistered (cp1 0 (PcEnded "closed")) "closed" ended = (delete "CP1" cs, Some (PcReporting "closed")))
    by (vm_compute; reflexivity).
  life_to (mkLife ended false false [] [] [] 1 (ShWaiting 1 true))
    ltac:(exact (li_counted _ _ (li_thread ended _ false false [] [] [] 1 _
                   (sv_unregister (cp1 0 (PcEnded "closed")) "closed" ended _ _ [] [] eq_refl eq_refl Hu)))).
  life_to (mkLife (close_all one_station) false false [] [] [] 1 (ShWaiting 1 true))
    ltac:(exact (li_counted _ _ (li_thread (close_all one_station) _ false false [] [] [] 1 _
                   (sv_ended (cp1 0 PcRunning) "closed" first_up cs [] [] cl 1 eq_refl)))).
  life_to (mkLife (close_all one_station) false false [] [] [] 1 (ShStopped 1))
    ltac:(exact (li_idle (close_all one_station) false false [] [] 1 1)).
  life_to (mkLife (close_all one_station) false true [] [] [] 2 (ShStopped 1))
    ltac:(exact (li_counted _ _ (li_serve_ends (close_all one_station) false [] [] [] 2 (ShStopped 1)))).
  life_to one_closed ltac:(exact (li_stop (close_all one_station) true true [] [] [] 2 1)).
  exact one_closed_reachable.
Defined.

Lemma Shutdown_waits_witness :
  IsOnline "CP1" (svc (sv_world one_station)) = true /\ IsOnline "CP1" (svc (sv_world one_gone)) = false /\
  conns one_gone = ∅ /\ forall l2, rtc life_step (mkLife one_gone false false [] [] [] 0 (ShReturned 1 true)) l2 -> quiet l2.
Proof.
  split; [vm_compute; reflexivity|]. split; [vm_compute; reflexivity|].
  destruct (Shutdown_waits csms_start waited_for _ 1 waited_for_reachable
              (li_waited one_gone false false [] [] [] 1 true) eq_refl eq_refl) as (_ & _ & _ & _ & Hc & Hq).
  split; [exact Hc|]. apply Hq. reflexivity.
Defined.
