(* ===== verification/SimulatorRun.v ===== *)
(** * The simulated station comes online (simulator/simulator.go, endpoint, Connect, heartbeatLoop and Run)

    Where it dials, what it says first, and its heartbeat; and what the central
    system knows then.  Dialling either works or gives an error; a heartbeat loop
    is given the number of times its timer fires before the station is closed. *)

From S2P Require Import Prelude GoLib GoTime GoDuration Json Ocpp Errors GoRegexp GoNet GoHttp Config State Bus World Core.
From S2P Require Import Persist Reservations Transactions Load CoreFacts CoreInv CoreOps.
From S2P Require Import CoreTx CoreReach Samples CoreEvents CoreCounters Restart CoreProps Acts.
From S2P Require Import V16Status V16Messages V16Handler V16ChargePoint V16Props Simulator SimulatorProps.
From S2P Require Import Validate ConfigProps ConfigLoad Csms CliReport CliProps.

(** The error of a failed dial, and the HTTP status if there was an answer. *)
Definition Dial : Type := string -> option (string * option Z).

Definition endpoint `{URLs} (o : Options) : string + error :=
  match url_Parse (op_URL o) with
  | inr e => inr (EText ("simulator: invalid URL " +:+ Quote (op_URL o) +:+ ": " +:+ e))
  | inl u =>
    if negb (bool_decide (u_Scheme u ∈ ["ws"; "wss"])) then
      inr (EText ("simulator: URL " +:+ Quote (op_URL o) +:+ " must use ws or wss"))
    else inl (u_String (if bool_decide (u_Path u ∈ [""; "/"]) then u_with_path ("/ocpp/" +:+ op_ID o) u else u))
  end.

Section run.
Context `{URLs} `{Env} `{JsonText} `{Caller}.

Definition Connect (dial : Dial) : SimM (option error) := fun s =>
  match endpoint (opts s) with
  | inr e => S_ret (Some e) s
  | inl url =>
    match dial url with
    | Some (text, code) =>
      S_ret (Some (EText ("simulator: dialling " +:+ url +:+ ": " +:+ text +:+
                          match code with Some c => " (HTTP " +:+ Itoa c +:+ ")" | None => "" end))) s
    | None => come_online s
    end
  end.

Fixpoint heartbeatLoop (ticks : nat) : SimM unit := fun s =>
  if bool_decide (op_Scenario (opts s) = ScenarioSilent) then S_ret tt s
  else match ticks with
  | O => S_ret tt s
  | S ticks => S_bind heartbeat_once (fun e => match e with Some _ => S_ret tt | None => heartbeatLoop ticks end) s
  end.

(** [Run], from the dial to the close. *)
Definition Run (dial : Dial) (ticks : nat) : SimM (option error) :=
  S_bind (Connect dial) (fun e =>
  match e with Some e => S_ret (Some e) | None => S_bind (heartbeatLoop ticks) (fun _ => S_ret None) end).
End run.

(** ** A new station *)

Lemma elem_of_numbers i n : i ∈ numbers n <-> 1 <= i <= n.
Proof.
  unfold numbers. rewrite list_elem_of_fmap. split.
  - intros (k & -> & Hk%elem_of_seq). lia.
  - intros Hi. exists (Z.to_nat i). split; [lia|]. apply elem_of_seq. lia.
Qed.

Lemma New_at_rest o s : Simulator.New o = inl s ->
  op_Vendor (opts s) <> "" /\ op_Model (opts s) <> "" /\ sim_station s = "Available" /\
  forall i, 1 <= i <= op_Connectors (opts s) -> connectors s !! i = Some idle_connector.
Proof.
  unfold Simulator.New. destruct (Options_validate _); [done|]. intros [= <-]. cbn [opts sim_station connectors].
  split_and!; try done.
  - cbn. unfold non_empty. by destruct (bool_decide_reflect (op_Vendor o = "")).
  - cbn. unfold non_empty. by destruct (bool_decide_reflect (op_Model o = "")).
  - intros i Hi%elem_of_numbers. apply elem_of_list_to_map_1'.
    + by intros c (j & [= _ ->] & _)%list_elem_of_fmap.
    + apply list_elem_of_fmap. by exists i.
Qed.

(** ** What the central system knows of it *)

Section central.
Context `{MapOrder} `{Env} `{JsonText} (cfg : Config) (id : string).

#[local] Instance here : Caller := central cfg id.

(** A central system with this configuration, to which the station has said what
    it is, that it is in order, and of these connectors that they are free. *)
Record heard (c : option Config) (online : bool) (said : Options) (free : list Z) (w : World) : Prop := {
  hd_core : core_ok w;
  hd_cfg : World.cfg (svc w) = c;
  hd_online : cp_online (cp_of id (svc w)) = online;
  hd_boot : let b := cp_boot (cp_of id (svc w)) in
    bi_Vendor b = op_Vendor said /\ bi_Model b = op_Model said /\ bi_SerialNumber b = op_SerialNumber said /\
    bi_FirmwareVersion b = op_Firmware said;
  hd_station : free <> [] -> cp_station (cp_of id (svc w)) = StatusAvailable;
  hd_free : forall i, i ∈ free -> i <> 0 -> cp_reported (cp_of id (svc w)) !! evseUID c id i = Some StatusAvailable
}.

Lemma on_status_kept c conn st code at_ cp :
  let cp' := on_status c id conn st code at_ cp in
  cp_online cp' = cp_online cp /\ cp_boot cp' = cp_boot cp /\
  cp_station cp' = (if conn =? 0 then st else cp_station cp) /\
  cp_reported cp' = (if conn =? 0 then cp_reported cp else <[evseUID c id conn := st]> (cp_reported cp)).
Proof.
  unfold on_status. destruct (conn =? 0); [by destruct (decide _) as [<-|]|].
  unfold addEVSE. cbn. by destruct (cp_effective cp !! _).
Qed.

Lemma recompute_kept at_ cp : cp_shape id cp ->
  let cp' := (recompute at_ cp).1 in
  cp_online cp' = cp_online cp /\ cp_boot cp' = cp_boot cp /\ cp_station cp' = cp_station cp /\
  cp_reported cp' = cp_reported cp.
Proof. intros (_ & Hn & _). by destruct (recompute_spec at_ cp Hn) as (m & -> & _). Qed.

(** One report more. *)
Lemma heard_status c online said free i w :
  heard c online said free w -> i = 0 \/ free <> [] ->
  heard c online said (i :: free) (Core.SetConnectorStatus id i StatusAvailable "NoError" w).2.
Proof.
  intros [Hw Hc Ho Hb Hs Hf] Hi. pose proof (keeps_SetConnectorStatus id i StatusAvailable "NoError" w Hw) as Hw'.
  destruct (SetConnectorStatus_run id i StatusAvailable "NoError" w) as (v & es & at_ & E & Ec & _ & Ecp).
  rewrite E in *. rewrite Hc in *. set (cp := cp_of id (svc w)) in *.
  destruct (on_status_kept c i StatusAvailable "NoError" at_ cp) as (O1 & O2 & O3 & O4).
  destruct (recompute_kept at_ (on_status c id i StatusAvailable "NoError" at_ cp)) as (K1 & K2 & K3 & K4);
    [apply on_status_shape, cp_of_ok, Hw|].
  split; cbn [svc set_bus]; rewrite ?Ecp, ?K1, ?K2, ?K3, ?K4, ?O1, ?O2, ?O3, ?O4; try done.
  - intros _. destruct (Z.eqb_spec i 0) as [|Hn]; [done|]. apply Hs. by destruct Hi.
  - intros j [->|Hj]%elem_of_cons Hn; [rewrite (proj2 (Z.eqb_neq i 0)) by done; by rewrite lookup_insert_eq|].
    destruct (i =? 0); [by apply Hf|]. destruct (decide (evseUID c id j = evseUID c id i)) as [->|Hne];
      [by rewrite lookup_insert_eq|]. rewrite lookup_insert_ne by congruence. by apply Hf.
Qed.

Lemma heard_tick c online said free w : heard c online said free w -> heard c online said free (tick w).
Proof. intros [Hw Hc Ho Hb Hs Hf]. split; try done. by apply (keeps_now_core w). Qed.

Lemma sendStatus_heard c online said free i s w :
  heard c online said free w -> i = 0 \/ free <> [] -> int_ok i -> 0 <= i ->
  exists w', sendStatus i "Available" s w = ((None, s), w') /\ heard c online said (i :: free) w'.
Proof.
  intros Hh Hi Hok Hn. eexists. split; [apply (sendStatus_central cfg id); [done..|by eexists]|].
  apply heard_status; [by apply heard_tick|done].
Qed.

(** The reports of all connectors. *)
Lemma report_all_heard c online said l free s w :
  heard c online said free w -> free <> [] -> (forall i, i ∈ l -> int_ok i /\ 0 <= i /\ ConnectorStatus i s = "Available") ->
  exists w', report_all l s w = ((None, s), w') /\ heard c online said (reverse l ++ free) w'.
Proof.
  revert free w. induction l as [|i l IH]; intros free w Hh Hf Hl; [by exists w|].
  destruct (Hl i ltac:(left)) as (Hok & Hn & Ei).
  destruct (sendStatus_heard c online said free i s w Hh (or_intror Hf) Hok Hn) as (w1 & E1 & Hh1).
  destruct (IH (i :: free) w1 Hh1 ltac:(done)) as (w2 & E2 & Hh2); [intros j Hj; apply Hl; by right|].
  exists w2. cbn [report_all]. rewrite (S_then_None _ _ s w s w1) by (by rewrite Ei). split; [exact E2|].
  by rewrite reverse_cons, <- app_assoc.
Qed.

(** [Booted] records what the station is, and nothing else of it. *)
Lemma Booted_heard info w :
  core_ok w ->
  let w' := (Booted id info w).2 in
  core_ok w' /\ World.cfg (svc w') = World.cfg (svc w) /\ cp_online (cp_of id (svc w')) = cp_online (cp_of id (svc w)) /\
  let b := cp_boot (cp_of id (svc w')) in
    bi_Vendor b = bi_Vendor info /\ bi_Model b = bi_Model info /\ bi_SerialNumber b = bi_SerialNumber info /\
    bi_FirmwareVersion b = bi_FirmwareVersion info.
Proof.
  intros Hw. cbn zeta. split; [by apply keeps_Booted|]. unfold Booted. rewrite M_bind_eq. cbn [fst snd now].
  rewrite M_bind_eq, ensure_eq. cbn [fst snd]. rewrite M_bind_eq, put_cp_ensured. unfold publish_events, with_cp, cp_of.
  cbn. by rewrite lookup_insert_eq.
Qed.

(** The boot message is read as it was meant, and the answer as well. *)
Lemma decode_boot o :
  op_Vendor o <> "" -> op_Model o <> "" ->
  decode_valid BootNotificationReq_fields zero_BootNotificationReq BootNotificationReq_validate
    (Some (BootNotificationReq_json o)) =
  inl (mkBootNotificationReq (op_Vendor o) (op_Model o) (op_SerialNumber o) "" (op_Firmware o) "" "" "" "").
Proof.
  intros Hv Hm. unfold decode_valid.
  assert (Hd : decode BootNotificationReq_fields zero_BootNotificationReq (Some (BootNotificationReq_json o)) =
    inl (mkBootNotificationReq (op_Vendor o) (op_Model o) (op_SerialNumber o) "" (op_Firmware o) "" "" "" "")).
  { clear Hv Hm. unfold BootNotificationReq_json, omit_empty. destruct o as [? ? ? ? v m fw serial]. cbn.
    destruct (bool_decide_reflect (serial = "")) as [->|_]; destruct (bool_decide_reflect (fw = "")) as [->|_]; reflexivity. }
  rewrite Hd. unfold BootNotificationReq_validate. cbn [bn_ChargePointVendor bn_ChargePointModel].
  by rewrite !bool_decide_eq_false_2.
Qed.

Lemma decode_boot_conf t n : int_ok n ->
  Unmarshal BootConf_fields (mkBootConf "" "" 0) (BootNotificationConf "Accepted" t n) = Some (mkBootConf "Accepted" t n).
Proof. intros Hn. lazy -[Atoi Itoa]. rewrite Atoi_Itoa by done. reflexivity. Qed.

(** The interval the station is given, and what it makes of it. *)
Definition given_interval : Z := interval_seconds (ch_HeartbeatInterval (cf_Charger cfg)).
Definition kept_heartbeat (s : Sim) : Z :=
  if 0 <? given_interval then wrap_int (given_interval * second) else sim_heartbeat s.

Lemma boot_heard s w :
  core_ok w -> op_Vendor (opts s) <> "" -> op_Model (opts s) <> "" -> int_ok given_interval ->
  exists w', boot s w = ((None, if 0 <? given_interval then set_heartbeat (wrap_int (given_interval * second)) s else s), w') /\
    heard (World.cfg (svc w)) (cp_online (cp_of id (svc w))) (opts s) [] w'.
Proof.
  intros Hw Hv Hm Hi. unfold boot, S_bind, lifted. rewrite M_bind_eq. cbn [fst snd]. rewrite M_bind_eq.
  unfold here. rewrite Call_central, HandleCall_boot. unfold bootNotification. rewrite decode_boot by done.
  rewrite M_bind_eq. cbn [bn_ChargePointSerialNumber bn_ChargeBoxSerialNumber bn_ChargePointVendor bn_ChargePointModel
    bn_FirmwareVersion fst snd]. rewrite M_bind_eq. cbn [fst snd now M_ret].
  fold given_interval. rewrite decode_boot_conf by done. cbn [bc_Status bc_Interval]. rewrite bool_decide_eq_true_2 by done.
  cbn [negb]. eexists. split; [by destruct (0 <? given_interval)|].
  set (info := mkBootInfo _ _ _ _ _). destruct (Booted_heard info w Hw) as (Hw' & Ec & Eo & Eb).
  apply heard_tick. split; try done; [|by intros i ?%not_elem_of_nil].
  cbn zeta in Eb |- *. destruct Eb as (-> & -> & -> & ->). split_and!; try done.
  unfold info. cbn. by destruct (bool_decide_reflect (op_SerialNumber (opts s) = "")) as [->|].
Qed.

(** A status reported as free is shown so while the station is online. *)
Lemma heard_shown c said free i w :
  heard c true said free w -> i ∈ free -> i <> 0 ->
  cp_effective (cp_of id (svc w)) !! evseUID c id i = Some StatusAvailable.
Proof.
  intros Hh Hi Hn. assert (Hne : free <> []) by (by intros ->; apply not_elem_of_nil in Hi).
  pose proof (hd_free _ _ _ _ _ Hh i Hi Hn) as Hr. pose proof (hd_station _ _ _ _ _ Hh Hne) as Hs.
  destruct (cp_of_ok id (svc w) (proj1 (hd_core _ _ _ _ _ Hh))) as [_ _ He _ Hrep Hst _].
  destruct (proj1 (He _) (Hrep _ (ex_intro _ _ Hr))) as [st E]. rewrite E. f_equal.
  destruct (Hst _ _ E) as [->|[_ Hx]]; [|congruence]. unfold wanted. by rewrite Hr, Hs, (hd_online _ _ _ _ _ Hh).
Qed.

(** C40: a station that has connected comes online.  Played against the central
    system's own handler, the boot of a new station and its first reports all
    succeed; the central system then knows it by its vendor, model, serial number
    and firmware, has each of its connectors as free, and shows it so if it was
    told of the connection; and the station keeps the heartbeat it was given. *)
Theorem station_comes_online o s w :
  Simulator.New o = inl s -> core_ok w -> int_ok (op_Connectors (opts s)) -> int_ok given_interval ->
  let r := come_online s w in
  r.1.1 = None /\ sim_heartbeat r.1.2 = kept_heartbeat s /\ core_ok r.2 /\
  (let b := cp_boot (cp_of id (svc r.2)) in
   bi_Vendor b = op_Vendor (opts s) /\ bi_Model b = op_Model (opts s) /\
   bi_SerialNumber b = op_SerialNumber (opts s) /\ bi_FirmwareVersion b = op_Firmware (opts s)) /\
  forall i, 1 <= i <= op_Connectors (opts s) ->
    let uid := evseUID (World.cfg (svc w)) id i in
    cp_reported (cp_of id (svc r.2)) !! uid = Some StatusAvailable /\
    (cp_online (cp_of id (svc w)) = true -> cp_effective (cp_of id (svc r.2)) !! uid = Some StatusAvailable).
Proof.
  intros Hs Hw Hn Hi r. subst r. destruct (New_at_rest o s Hs) as (Hv & Hm & Hst & Hfree).
  destruct (boot_heard s w Hw Hv Hm Hi) as (w1 & E1 & Hh1). unfold come_online.
  set (s1 := if 0 <? given_interval then _ else s) in *.
  assert (Es1 : sim_station s1 = "Available" /\ opts s1 = opts s /\ connectors s1 = connectors s /\
    sim_heartbeat s1 = kept_heartbeat s) by (unfold s1, kept_heartbeat; by destruct (0 <? given_interval)).
  destruct Es1 as (Et & Eo & Ec & Ek). rewrite (S_then_None boot _ s w s1 w1 E1). unfold reportInitialStatus.
  destruct (sendStatus_heard _ _ _ [] 0 s1 w1 Hh1 (or_introl eq_refl)) as (w2 & E2 & Hh2); [by vm_compute|done|].
  rewrite (S_then_None _ _ s1 w1 s1 w2) by (by rewrite Et). rewrite Eo.
  destruct (report_all_heard _ _ _ (numbers (op_Connectors (opts s))) [0] s1 w2 Hh2) as (w3 & E3 & Hh3); [done| |].
  { intros i Hin. apply elem_of_numbers in Hin. split; [unfold int_ok, int_min, int_max in *; lia|]. split; [lia|].
    unfold ConnectorStatus. rewrite Ec. by rewrite Hfree. }
  rewrite E3. cbn [fst snd]. split; [done|]. split; [done|]. split; [apply Hh3|]. split; [apply Hh3|].
  intros i Hin. cbn zeta.
  assert (Hel : i ∈ reverse (numbers (op_Connectors (opts s))) ++ [0]).
  { apply elem_of_app. left. apply elem_of_reverse. by apply elem_of_numbers. }
  split; [apply (hd_free _ _ _ _ _ Hh3 i Hel); lia|]. intros Hon. rewrite Hon in Hh3. by eapply heard_shown; [exact Hh3| |lia].
Qed.
End central.

(** ** `cpms simulate charger` and `cpms run` are a working pair *)

(** With no flags the simulated station finds cpms.  For a valid config, if
    net/url takes the URL made of the listen address apart as it documents, the
    station is the configured one with a connector for each EVSE and dials that
    URL with the path of its identity; and cpms upgrades a request for that path
    with the one subprotocol the station offers - unless the identity is one or
    two dots. *)
Theorem working_pair `{URLs} cfg o l level u :
  valid cfg -> newLogger level = inl l ->
  let id := ch_ID (cf_Charger cfg) in
  id <> "." -> id <> ".." ->
  url_Parse (csmsURLFromBind (OCPPBind (cf_Server cfg))) = inl u -> u_Scheme u = "ws" -> u_Path u = "" ->
  (exists s, simulate_charger o (Some cfg) level (mkSimulateFlags "" "" "1.6" 0 "normal" "" "" "") = inl s /\
     op_ID (opts s) = id /\ op_Version (opts s) = version_string Version16 /\
     op_Connectors (opts s) = Z.of_nat (length (lo_EVSEs (cf_Location cfg))) /\
     endpoint (opts s) = inl (u_String (u_with_path ("/ocpp/" +:+ id) u))) /\
  Csms.ServeHTTP (Some (fun i => bool_decide (i = id))) [Version16] ("/ocpp/" +:+ id) [Subprotocol Version16] =
    inl (id, Version16, Subprotocol Version16).
Proof.
  intros Hv Hl id H1 H2 Hu Hws Hp. pose proof (va_charger _ Hv) as Hc. split; [|by apply (dialled_in cfg [] []); try (intros ? ?%not_elem_of_nil)].
  destruct (identity_of_path cfg Hc) as [Hne _]. fold id in Hne.
  destruct (va_server _ Hv) as (h1 & p1 & _ & _ & (_ & (p & Hsp & _) & _) & _).
  unfold csmsURLFromBind in Hu. rewrite Hsp in Hu. set (url := "ws://" +:+ _) in Hu.
  assert (Hn : Z.of_nat (length (lo_EVSEs (cf_Location cfg))) <> 0 /\ 0 < Z.of_nat (length (lo_EVSEs (cf_Location cfg)))).
  { destruct (va_location _ Hv) as [_ _ _ _ _ _ [Hev _]]. destruct (lo_EVSEs _); [done|cbn; lia]. }
  destruct Hn as [Hn0 Hn]. unfold simulate_charger. rewrite Hl. unfold with_config, one_connector, csmsURLFromBind, or_default.
  cbn [sf_csms sf_id sf_version sf_connectors sf_scenario sf_tag sf_vendor sf_model]. rewrite Hsp. fold url id.
  rewrite !(bool_decide_eq_true_2 ("" = "")) by done. rewrite (bool_decide_eq_false_2 (url = "")) by done.
  rewrite (bool_decide_eq_false_2 (id = "")) by done. cbn [orb Z.eqb]. rewrite (proj2 (Z.eqb_neq _ 0)) by done.
  set (o1 := Simulator.mkOptions _ _ _ _ _ _ _ _ _ _ _ _ _). unfold Simulator.New.
  assert (Options_validate (Options_applyDefaults o1) = None) as ->.
  { unfold Options_validate. cbn [op_URL op_ID op_Version op_Scenario Options_applyDefaults o1].
    rewrite (bool_decide_eq_false_2 (url = "")), (bool_decide_eq_false_2 (id = "")) by done. by vm_compute. }
  eexists. split; [reflexivity|]. cbn [opts op_ID op_Version op_Connectors Options_applyDefaults o1]. split; [done|].
  split; [done|]. split; [rewrite (proj2 (Z.leb_gt _ 0)) by done; done|].
  unfold endpoint. cbn [op_URL op_ID Options_applyDefaults o1]. rewrite Hu, Hws, Hp. done.
Qed.

(** ** Instances *)

#[local] Existing Instance key_order.
#[local] Existing Instance sample_env.
#[local] Existing Instance sample_json_text.

Definition just_connected : World := (Connected "CP1" sample_initial).2.

Lemma just_connected_ok : core_ok just_connected.
Proof. apply keeps_Connected, sample_initial_ok. Qed.

Lemma station_comes_online_witness :
  let r := @come_online sample_env sample_json_text (central sample_config "CP1") sample_sim just_connected in
  r.1.1 = None /\ cp_effective (cp_of "CP1" (svc r.2)) !! "EVSE-1" = Some StatusAvailable.
Proof.
  assert (Hs : Simulator.New sample_options = inl sample_sim) by (vm_compute; reflexivity).
  assert (Hn : int_ok (op_Connectors (opts sample_sim))) by (vm_compute; done).
  assert (Hi : int_ok (given_interval sample_config)) by (vm_compute; done).
  assert (Ho : cp_online (cp_of "CP1" (svc just_connected)) = true) by (vm_compute; reflexivity).
  assert (Hu : evseUID (World.cfg (svc just_connected)) "CP1" 1 = "EVSE-1") by (vm_compute; reflexivity).
  assert (H1 : 1 <= 1 <= op_Connectors (opts sample_sim)) by (vm_compute; done).
  destruct (station_comes_online sample_config "CP1" sample_options sample_sim just_connected Hs just_connected_ok Hn Hi)
    as (Hr & _ & _ & _ & Hf).
  split; [exact Hr|]. rewrite <- Hu. exact (proj2 (Hf 1 H1) Ho).
Defined.

(** [scheme://host/path], for two schemes. *)
Definition split_path (scheme rest : string) : string * string * string :=
  match Cut "/"%char rest with
  | Some (host, path) => (scheme, host, String "/"%char path)
  | None => (scheme, rest, EmptyString)
  end.
Definition two_schemes : URLs := {|
  URL := string * string * string;
  url_Parse := fun s =>
    if String.prefix "http://" s then inl (split_path "http" (String.substring 7 (String.length s - 7) s))
    else if String.prefix "ws://" s then inl (split_path "ws" (String.substring 5 (String.length s - 5) s))
    else inr "not a URL";
  u_Scheme := fun u => u.1.1;
  u_Host := fun u => u.1.2;
  u_Path := snd;
  u_RawQuery := fun _ => EmptyString;
  u_Fragment := fun _ => EmptyString;
  u_with_path := fun p u => (u.1, p);
  u_String := fun u => u.1.1 +:+ "://" +:+ u.1.2 +:+ u.2
|}.
#[local] Existing Instance two_schemes.

Lemma working_pair_witness :
  Csms.ServeHTTP (Some (fun i => bool_decide (i = "alpi-1"))) [Version16] ("/ocpp/" +:+ "alpi-1") [Subprotocol Version16] =
    inl ("alpi-1", Version16, "ocpp1.6") /\
  exists s, simulate_charger sample_opts (Some minimal_loaded) "info" (mkSimulateFlags "" "" "1.6" 0 "normal" "" "" "") = inl s /\
    endpoint (opts s) = inl "ws://127.0.0.1:9000/ocpp/alpi-1".
Proof.
  assert (Hv : valid minimal_loaded) by (apply Validate_nil; vm_compute; reflexivity).
  assert (H1 : ch_ID (cf_Charger minimal_loaded) <> "." /\ ch_ID (cf_Charger minimal_loaded) <> "..") by (vm_compute; done).
  destruct (working_pair minimal_loaded sample_opts LevelInfo "info" (("ws", "127.0.0.1:9000", "") : @URL two_schemes) Hv eq_refl
              (proj1 H1) (proj2 H1) ltac:(vm_compute; reflexivity) eq_refl eq_refl) as ((s & Hs & _ & _ & _ & He) & Hc).
  split; [exact Hc|]. exists s. split; [exact Hs|exact He].
Defined.

(** A silent station boots and reports, and then says nothing. *)
Lemma silent_says_nothing `{Env} `{JsonText} `{Caller} ticks s w :
  op_Scenario (opts s) = ScenarioSilent -> heartbeatLoop ticks s w = ((tt, s), w).
Proof. intros Hs. destruct ticks; cbn [heartbeatLoop]; by rewrite Hs. Qed.
