(* ===== verification/ConnPair.v ===== *)
(** * The two ends of an OCPP-J connection (ocpp/ocppj/conn.go, used by ocpp/csms
      and by simulator)

    The central system and the simulated station run the same [Conn]; here one
    talks to the other.  Each end is a [Conn.conn_system] that takes
    [Conn.conn_step]s, with the messages it has written and taken and the answers
    its handler has given.  The WebSocket between them is its documented
    behaviour: what an end has read is a prefix of what its peer has written. *)

From S2P Require Import Prelude GoLib GoTime Json Ocpp Errors Config World Frame Conn V16Handler.

(** How an end was made: its call timeout, and what its handler may answer to a
    call ([None] for a panic). *)
Record party := mkParty {
  pa_timeout : Z;
  pa_handles : Frame -> option (json + RPCError) -> Prop
}.

Record end_ := mkEnd {
  en_sys : conn_system;
  en_wrote : list json;
  en_taken : list json;
  en_log : list (Frame * option (json + RPCError))
}.

Definition new_end : end_ := mkEnd (mkConnSystem new_conn [] [] [] []) [] [] [].

Definition en_conn (e : end_) : conn := cs_conn (en_sys e).

(** Everything an end has said so far, the part still in its queue included. *)
Definition said (e : end_) : list json := en_wrote e ++ send (en_conn e).

(** The calls an end has begun, whether or not they have returned; whether their
    frame has been queued is left aside. *)
Definition bare (k : call) : call := mkCall (ca_id k) (ca_action k) (ca_frame k) false.
Definition begun_of (s : conn_system) : list call := bare <$> cs_callers s ++ (cs_returned s).*1.
Definition begun (e : end_) : list call := begun_of (en_sys e).

(** The frame a call's peer reads, the id a message asks under, and what a call
    returns when its peer's handler answers [r]. *)
Definition asked_frame (k : call) (payload : option json) : Frame :=
  mkFrame MessageTypeCall (ca_id k) (ca_action k) (Some (payload_or_empty payload)) "" "" None.

Definition asks (d : json) : option string :=
  match d with JArr [_; JStr id; _; _] => Some id | _ => None end.

Definition carried (e : RPCError) : callResult := inr (mkRPCError (Code e) (Description e) None).

Definition result_of (r : option (json + RPCError)) : callResult :=
  match r with None => carried handler_failed | Some (inr e) => carried e | Some (inl j) => inl (Some j) end.

Section wire.
Context `{JT : JsonText}.

Definition frame_of (d : json) : option Frame :=
  match ParseFrame (inl d) with inl f => Some f | inr _ => None end.

Inductive end_step (p : party) : end_ -> end_ -> Prop :=
| es_inside s s' ws ts l :
    conn_step (pa_timeout p) Inside s s' -> end_step p (mkEnd s ws ts l) (mkEnd s' ws ts l)
| es_wrote d s s' ws ts l :
    conn_step (pa_timeout p) (Wrote d) s s' -> end_step p (mkEnd s ws ts l) (mkEnd s' (ws ++ [d]) ts l)
| es_took d s s' ws ts l :
    conn_step (pa_timeout p) (Took (inl d)) s s' -> end_step p (mkEnd s ws ts l) (mkEnd s' ws (ts ++ [d]) l)
| es_answered f r s s' ws ts l :
    pa_handles p f r ->
    conn_step (pa_timeout p) (Answered f r) s s' -> end_step p (mkEnd s ws ts l) (mkEnd s' ws ts (l ++ [(f, r)])).

(** A step of the pair: one end moves, and takes only what the other has
    written, in its order. *)
Inductive wire_step (pa pb : party) : end_ * end_ -> end_ * end_ -> Prop :=
| ws_left a a' b : end_step pa a a' -> en_taken a' `prefix_of` en_wrote b -> wire_step pa pb (a, b) (a', b)
| ws_right a b b' : end_step pb b b' -> en_taken b' `prefix_of` en_wrote a -> wire_step pa pb (a, b) (a, b').

Definition wire_reachable (pa pb : party) (s : end_ * end_) : Prop := rtc (wire_step pa pb) (new_end, new_end) s.
End wire.

(** ** Frames *)

Section frames.
Context `{JT : JsonText}.

Lemma frame_of_inl d f : frame_of d = Some f <-> ParseFrame (inl d) = inl f.
Proof. unfold frame_of. destruct (ParseFrame (inl d)); split; congruence. Qed.

Lemma parse_cases_id id raw f :
  (parse_call id raw = inl f \/ parse_result id raw = inl f \/ parse_error id raw = inl f) -> fr_ID f = id.
Proof. unfold parse_call, parse_result, parse_error. intros [Hp|[Hp|Hp]]; repeat case_match; by simplify_eq. Qed.

(** A frame has an id, and it is the one a CALL of four elements asks under. *)
Lemma frame_id d f :
  frame_of d = Some f -> fr_ID f <> "" /\ (is_call f = true -> asks d = Some (fr_ID f)).
Proof.
  intros Hp%frame_of_inl. unfold ParseFrame in Hp.
  destruct (dec_raw_array d) as [raw|] eqn:Hraw; [|done].
  destruct raw as [|t [|i [|x l]]]; try done.
  destruct (dec_int t 0) as [typ|]; [|done]. destruct (dec_string i "") as [id|] eqn:Hi; [|done].
  case_bool_decide as Hne; [done|].
  assert (Hid : fr_ID f = id).
  { apply (parse_cases_id id (t :: i :: x :: l)).
    destruct (typ =? MessageTypeCall); [auto|]. destruct (typ =? MessageTypeCallResult); [auto|].
    destruct (typ =? MessageTypeCallError); [auto|done]. }
  rewrite Hid. split; [done|]. intros Hc.
  assert (Hlen : exists y, l = [y]).
  { destruct (typ =? MessageTypeCall).
    - unfold parse_call in Hp. destruct l as [|y [|]]; try done. by exists y.
    - destruct (typ =? MessageTypeCallResult); [|destruct (typ =? MessageTypeCallError); [|done]];
        unfold parse_result, parse_error in Hp; repeat case_match; try discriminate; injection Hp as Hp; rewrite <- Hp in Hc; discriminate. }
  destruct Hlen as [y ->]. destruct d; try discriminate. cbn in Hraw. injection Hraw as ->.
  destruct i; cbn in Hi |- *; congruence.
Qed.

(** The calls read, in order, are among the messages that ask. *)
Lemma calls_ask l :
  fr_ID <$> filter (fun f => is_call f = true) (omap frame_of l) `sublist_of` omap asks l.
Proof.
  induction l as [|d l IH]; [done|]. cbn [omap list_omap].
  destruct (frame_of d) as [f|] eqn:E.
  - rewrite filter_cons. case_decide as Hc.
    + destruct (frame_id d f E) as [_ ->]; [|done]. cbn. by apply sublist_skip.
    + destruct (asks d); [by apply sublist_cons|done].
  - destruct (asks d); [by apply sublist_cons|done].
Qed.

Lemma frame_of_result id j : id <> "" ->
  frame_of (EncodeCallResult id (Some j)) = Some (mkFrame MessageTypeCallResult id "" (Some j) "" "" None).
Proof.
  intros Hid. apply frame_of_inl. by apply (frames_roundtrip id "x" (Some j) handler_failed).
Qed.

Lemma frame_of_error id e : id <> "" ->
  frame_of (EncodeCallError id e) =
    Some (mkFrame MessageTypeCallError id "" None (Code e) (Description e) (Some (JObj (default [] (Details e))))).
Proof. intros Hid. apply frame_of_inl. by apply (frames_roundtrip id "x" None e). Qed.

Lemma frame_of_call id action pl : id <> "" -> action <> "" ->
  frame_of (EncodeCall id action pl) = Some (mkFrame MessageTypeCall id action (Some (payload_or_empty pl)) "" "" None).
Proof. intros Hid Ha. apply frame_of_inl. by apply (frames_roundtrip id action pl handler_failed). Qed.

Lemma parse_no_action id pl : id <> "" ->
  ParseFrame (inl (EncodeCall id "" pl)) = inr (id, framework_error "action is empty").
Proof.
  intros Hid. unfold ParseFrame, EncodeCall. cbn [dec_raw_array].
  rewrite dec_int_JInt by (unfold int_ok, MessageTypeCall, int_min, int_max; lia).
  cbn [dec_string]. by rewrite (bool_decide_eq_false_2 (id = "")).
Qed.

Lemma answer_frame_read id r : id <> "" ->
  exists f, frame_of (answer_frame id r) = Some f /\ fr_ID f = id /\ response_of f = Some (result_of r).
Proof.
  intros Hid. destruct r as [[j|e]|]; cbn [answer_frame];
    rewrite ?(frame_of_result id j) by done; rewrite ?frame_of_error by done; by eexists.
Qed.

Lemma answer_frame_asks id r : asks (answer_frame id r) = None.
Proof. by destruct r as [[]|]. Qed.
End frames.

(** ** What one end keeps, whoever its peer is *)

(** Why an end said a message: a call it began, its handler's answer, or the
    answer to a message it could not parse. *)
Inductive said_why `{JT : JsonText} (e : end_) (d : json) : Prop :=
| why_call k : k ∈ begun e -> d = ca_frame k -> said_why e d
| why_answer f r : (f, r) ∈ en_log e -> d = answer_frame (fr_ID f) r -> said_why e d
| why_malformed d' id er :
    d' ∈ en_taken e -> ParseFrame (inl d') = inr (id, er) -> d = EncodeCallError id er -> said_why e d.

Record log_ok `{JT : JsonText} (p : party) (e : end_) : Prop := {
  lg_read : cs_read (en_sys e) = omap frame_of (en_taken e);
  lg_handled : (en_log e).*1 = cs_handled (en_sys e);
  lg_handles : forall f r, (f, r) ∈ en_log e -> pa_handles p f r
}.

Record calls_ok (e : end_) : Prop := {
  cl_ids : NoDup (ids (begun e));
  cl_made : forall k, k ∈ begun e -> exists n pl, ca_id k = Itoa n /\ 0 < n <= cn_nextID (en_conn e) /\
    ca_frame k = EncodeCall (ca_id k) (ca_action k) pl
}.

(** An id is asked under once, and exactly by the calls whose frame is queued. *)
Record voice_ok `{JT : JsonText} (e : end_) : Prop := {
  vc_why : forall d, d ∈ said e -> said_why e d;
  vc_once : NoDup (omap asks (said e));
  vc_unsent : forall k, k ∈ cs_callers (en_sys e) -> ca_sent k = false -> ca_id k ∉ omap asks (said e);
  vc_sent : forall k, k ∈ cs_callers (en_sys e) -> ca_sent k = true -> ca_frame k ∈ said e
}.

Section one_end.
Context `{JT : JsonText} (p : party).

Lemma caller_begun e k : k ∈ cs_callers (en_sys e) -> bare k ∈ begun e.
Proof. intros Hk. apply list_elem_of_fmap. exists k. split; [done|]. apply elem_of_app. by left. Qed.

Lemma itoa_not_empty n : Itoa n <> "".
Proof. intros E. pose proof (parse_signed_Itoa n) as Hp. by rewrite E in Hp. Qed.

Lemma begun_cases e e' :
  end_step p e e' ->
  (begun e' ≡ₚ begun e /\ cn_nextID (en_conn e') = cn_nextID (en_conn e)) \/
  exists action pl, cn_nextID (en_conn e) + 1 < 2 ^ 64 /\
    en_conn e' = (begin_call action pl (en_conn e)).1 /\ begun e' = (begin_call action pl (en_conn e)).2 :: begun e.
Proof.
  assert (Hmid : forall ks1 k ks2 (rs : list call),
    bare <$> (ks1 ++ ks2) ++ k :: rs ≡ₚ bare <$> (ks1 ++ k :: ks2) ++ rs).
  { intros. apply fmap_Permutation. solve_Permutation. }
  unfold begun, begun_of, en_conn. intros [s s' ws ts l Hc|d s s' ws ts l Hc|d s s' ws ts l Hc|f r s s' ws ts l Hr Hc];
    inversion Hc; subst; cbn; try by left.
  all: try (left; split; [apply Hmid|done]).
  - right. by exists action, payload.
  - left. by rewrite !fmap_app.
  - left. by match goal with He : enqueued _ _ _ |- _ => destruct (enqueued_same _ _ _ He) as (-> & _) end.
  - left. unfold deliver. by repeat case_match.
  - left. by match goal with He : enqueued _ _ _ |- _ => destruct (enqueued_same _ _ _ He) as (-> & _) end.
Qed.

Lemma end_grows e e' : end_step p e e' -> begun e ⊆ begun e' /\ en_log e ⊆ en_log e' /\ en_taken e ⊆ en_taken e'.
Proof.
  intros Hs. split.
  - destruct (begun_cases e e' Hs) as [[-> _]|(action & pl & _ & _ & ->)]; set_solver.
  - destruct Hs; cbn; split; try done; by intros x ?; apply elem_of_app; left.
Qed.

Lemma why_grows e e' d : end_step p e e' -> said_why e d -> said_why e' d.
Proof.
  intros (Hb & Hl & Ht)%end_grows [k Hk ->|f r Hf ->|d' id er Hd He ->].
  - by apply (why_call _ _ k); [apply Hb|].
  - by apply (why_answer _ _ f r); [apply Hl|].
  - by apply (why_malformed _ _ d' id er); [apply Ht|..].
Qed.

Lemma log_step e e' : log_ok p e -> end_step p e e' -> log_ok p e'.
Proof.
  intros L Hs. destruct Hs as [s s' ws ts l Hc|d s s' ws ts l Hc|d s s' ws ts l Hc|f r s s' ws ts l Hr Hc];
    destruct L as [L1 L2 L3]; inversion Hc; subst; cbn in L1, L2, L3; split; cbn; try done.
  1-3: rewrite omap_app, <- L1; cbn; unfold frame_of;
    match goal with Hp : ParseFrame _ = _ |- _ => rewrite Hp end; by rewrite ?app_nil_r.
  - by rewrite fmap_app, <- L2.
  - intros f' r' [Hin|[=]%list_elem_of_singleton]%elem_of_app; subst; auto.
Qed.

Lemma fresh_id e : calls_ok e -> 0 <= cn_nextID (en_conn e) -> cn_nextID (en_conn e) + 1 < 2 ^ 64 ->
  Itoa (wrap_uint64 (cn_nextID (en_conn e) + 1)) ∉ ids (begun e).
Proof.
  intros [_ C] H0 Hn. assert (wrap_uint64 (cn_nextID (en_conn e) + 1) = cn_nextID (en_conn e) + 1) as ->
    by (apply Z.mod_small; lia).
  intros (k & Hid & Hk)%list_elem_of_fmap. destruct (C k Hk) as (n & pl & Hn' & Hle & _).
  rewrite Hn' in Hid. apply Itoa_inj in Hid. lia.
Qed.

Lemma calls_step e e' : 0 <= cn_nextID (en_conn e) -> calls_ok e -> end_step p e e' -> calls_ok e'.
Proof.
  intros Hnext C Hs. pose proof C as [C1 C2]. destruct (begun_cases e e' Hs) as [[Hb Hn]|(action & pl & Hn & Hc & Hb)].
  - split; [unfold ids; by rewrite Hb|]. intros k. rewrite Hb, Hn. apply C2.
  - assert (Hw : wrap_uint64 (cn_nextID (en_conn e) + 1) = cn_nextID (en_conn e) + 1) by (apply Z.mod_small; lia).
    split; rewrite Hb.
    + apply NoDup_cons. split; [|done]. by apply fresh_id.
    + intros k [->|Hk]%elem_of_cons; rewrite Hc; cbn; rewrite Hw.
      * exists (cn_nextID (en_conn e) + 1), pl. split; [done|]. split; [lia|done].
      * destruct (C2 k Hk) as (n & pl' & ? & ? & ?). exists n, pl'. split; [done|]. split; [lia|done].
Qed.

Lemma asks_call e k : calls_ok e -> k ∈ begun e -> asks (ca_frame k) = Some (ca_id k).
Proof. intros [_ C] Hk. by destruct (C k Hk) as (n & pl & _ & _ & ->). Qed.

Lemma asked_begun e id : calls_ok e -> (forall d, d ∈ said e -> said_why e d) ->
  id ∈ omap asks (said e) -> id ∈ ids (begun e).
Proof.
  intros C W (d & Hd & Ha)%list_elem_of_omap. destruct (W d Hd) as [k Hk ->|f r _ ->|d' id' er _ _ ->].
  - rewrite (asks_call e k C Hk) in Ha. injection Ha as <-. by apply list_elem_of_fmap_2.
  - by rewrite answer_frame_asks in Ha.
  - done.
Qed.

(** Nothing is said, or nothing that asks. *)
Lemma voice_adds e e' l :
  end_step p e e' -> voice_ok e ->
  said e' = said e ++ l -> omap asks l = [] -> (forall d, d ∈ l -> said_why e' d) ->
  cs_callers (en_sys e') ⊆ cs_callers (en_sys e) -> voice_ok e'.
Proof.
  intros Hs [V1 V2 V3 V4] Hsaid Hask Hwhy Hsub. split; rewrite Hsaid, ?omap_app, ?Hask, ?app_nil_r; auto.
  - intros d [Hd|Hd]%elem_of_app; [|auto]. by eapply why_grows; auto.
  - intros k Hk Hsent. apply elem_of_app. left. auto.
Qed.

Lemma voice_call e e' k :
  end_step p e e' -> calls_ok e -> voice_ok e ->
  said e' = said e -> cs_callers (en_sys e') = k :: cs_callers (en_sys e) -> ca_sent k = false ->
  ca_id k ∉ ids (begun e) -> voice_ok e'.
Proof.
  intros Hs C [V1 V2 V3 V4] Hsaid Hcs Hun Hnew. split; rewrite Hsaid; auto.
  - intros d Hd. by eapply why_grows; auto.
  - intros k'. rewrite Hcs. intros [->|Hk]%elem_of_cons; [|auto]. intros _ Hin. apply Hnew. by apply asked_begun.
  - intros k'. rewrite Hcs. intros [->|Hk]%elem_of_cons; [congruence|auto].
Qed.

Lemma voice_queue e e' ks1 k ks2 :
  end_step p e e' -> calls_ok e -> voice_ok e ->
  said e' = said e ++ [ca_frame k] -> cs_callers (en_sys e) = ks1 ++ k :: ks2 ->
  cs_callers (en_sys e') = ks1 ++ mark_sent k :: ks2 -> ca_sent k = false -> NoDup (ids (cs_callers (en_sys e))) ->
  voice_ok e'.
Proof.
  intros Hs C [V1 V2 V3 V4] Hsaid Hcs Hcs' Hun Hnd.
  assert (Hk : k ∈ cs_callers (en_sys e)) by (rewrite Hcs; set_solver).
  pose proof (asks_call e (bare k) C (caller_begun e k Hk)) as Ha. cbn in Ha.
  assert (Hask : omap asks (said e') = omap asks (said e) ++ [ca_id k]) by (rewrite Hsaid, omap_app; cbn; by rewrite Ha).
  rewrite Hcs, ids_middle in Hnd. apply NoDup_cons in Hnd as [Hout Hnd].
  assert (Hold : forall k', k' ∈ ks1 ++ ks2 -> k' ∈ cs_callers (en_sys e) /\ ca_id k' <> ca_id k).
  { intros k' Hin. split; [rewrite Hcs; set_solver|]. intros Heq. apply Hout. rewrite <- Heq. by apply list_elem_of_fmap_2. }
  assert (Hnow : forall k', k' ∈ cs_callers (en_sys e') -> k' = mark_sent k \/ k' ∈ ks1 ++ ks2)
    by (intros k'; rewrite Hcs'; set_solver).
  split; rewrite ?Hask, ?Hsaid.
  - intros d [Hd| ->%list_elem_of_singleton]%elem_of_app; [by eapply why_grows; auto|].
    eapply why_grows; [done|]. by apply (why_call _ _ (bare k)), eq_refl; apply caller_begun.
  - apply NoDup_app. split; [done|]. split; [|apply NoDup_singleton].
    intros id Hid ->%list_elem_of_singleton. by apply (V3 k).
  - intros k' [->|Hin]%Hnow Hun'; [done|]. destruct (Hold k' Hin) as [Hin' Hne].
    intros [Hid|Hid%list_elem_of_singleton]%elem_of_app; [by apply (V3 k')|done].
  - intros k' [->|Hin]%Hnow Hsent; apply elem_of_app; [right; by apply list_elem_of_singleton|].
    left. apply V4, Hsent. by apply Hold.
Qed.

(** An answer is queued, unless the connection is gone. *)
Lemma enqueued_said d c e e' :
  enqueued d c (en_conn e') -> send c = send (en_conn e) -> en_wrote e' = en_wrote e ->
  exists m, said e' = said e ++ m /\ (m = [d] \/ m = [] /\ cn_done c = true).
Proof.
  unfold said. intros [[_ ->]|[Hd ->]] E ->; cbn; rewrite E.
  - exists [d]. rewrite app_assoc. auto.
  - exists []. rewrite app_nil_r. auto.
Qed.

Lemma voice_answers d c e e' :
  end_step p e e' -> voice_ok e ->
  enqueued d c (en_conn e') -> send c = send (en_conn e) -> en_wrote e' = en_wrote e ->
  asks d = None -> said_why e' d -> cs_callers (en_sys e') = cs_callers (en_sys e) -> voice_ok e'.
Proof.
  intros Hs V He Hsend Hw Ha Hwhy Hcs. destruct (enqueued_said d c e e' He Hsend Hw) as (m & Hsaid & Hm).
  apply (voice_adds e e' m); [done|done|done|..|by rewrite Hcs]; destruct Hm as [->|[-> _]]; cbn; rewrite ?Ha; try done.
  - by intros d' ->%list_elem_of_singleton.
  - by intros d' ?%not_elem_of_nil.
Qed.

Lemma voice_quiet e e' :
  end_step p e e' -> voice_ok e ->
  said e' = said e -> cs_callers (en_sys e') ⊆ cs_callers (en_sys e) -> voice_ok e'.
Proof.
  intros Hs V Hsaid Hcs. apply (voice_adds e e' []); [done|done|by rewrite app_nil_r|done| |done]. by intros d ?%not_elem_of_nil.
Qed.

Lemma callers_less (ks1 : list call) k ks2 : ks1 ++ ks2 ⊆ ks1 ++ k :: ks2.
Proof. intros x. rewrite !elem_of_app, elem_of_cons. tauto. Qed.

Lemma voice_step e e' : conn_ok (en_sys e) -> calls_ok e -> end_step p e e' -> voice_ok e -> voice_ok e'.
Proof.
  intros Hok C Hs V. pose proof Hs as Hstep.
  destruct Hs as [s s' ws ts l Hc|d s s' ws ts l Hc|d s s' ws ts l Hc|f r s s' ws ts l Hr Hc]; inversion Hc; subst.
  - apply (voice_call _ _ (begin_call action payload c).2 Hstep C V); [done..|].
    refine (fresh_id (mkEnd (mkConnSystem c ks fs hs rs) ws ts l) C _ _); [apply (bk_next _ _ (ck_book _ Hok))|done].
  - apply (voice_queue _ _ ks1 k ks2 Hstep C V); try done; [|apply (bk_nodup _ _ (ck_book _ Hok))].
    unfold said. cbn. by rewrite app_assoc.
  - apply (voice_quiet _ _ Hstep V); [done|apply callers_less].
  - apply (voice_quiet _ _ Hstep V); [done|apply callers_less].
  - by apply (voice_quiet _ _ Hstep V).
  - apply (voice_quiet _ _ Hstep V); [|done]. unfold said. cbn. rewrite <- app_assoc.
    by match goal with E : send _ = _ |- _ => rewrite E end.
  - match goal with He : enqueued ?d0 _ _ |- _ => apply (voice_answers d0 c _ _ Hstep V He); try done end.
    eapply (why_malformed _ _ d); eauto. apply elem_of_app. right. by apply list_elem_of_singleton.
  - by apply (voice_quiet _ _ Hstep V).
  - apply (voice_quiet _ _ Hstep V); [|done]. unfold said, en_conn. cbn. by rewrite (proj2 (deliver_queues _ _ _)).
  - match goal with He : enqueued ?d0 ?c0 _ |- _ => apply (voice_answers d0 c0 _ _ Hstep V He); try done end.
    + apply answer_frame_asks.
    + eapply (why_answer _ _ f r); [|done]. apply elem_of_app. right. by apply list_elem_of_singleton.
Qed.

Definition goes_on (e e' : end_) : Prop :=
  said e ⊆ said e' /\ (cn_done (en_conn e') = false -> cn_done (en_conn e) = false).

Lemma goes_on_said e e' m :
  said e' = said e ++ m -> cn_done (en_conn e') = cn_done (en_conn e) -> goes_on e e'.
Proof. intros E D. split; [|by rewrite D]. rewrite E. intros x Hx. apply elem_of_app. by left. Qed.

Lemma goes_on_answers d c e e' :
  enqueued d c (en_conn e') -> send c = send (en_conn e) -> en_wrote e' = en_wrote e ->
  cn_done c = cn_done (en_conn e) -> goes_on e e'.
Proof.
  intros He Hsend Hw Hd. destruct (enqueued_said d c e e' He Hsend Hw) as (m & Hm & _).
  destruct (enqueued_same _ _ _ He) as (_ & _ & _ & Hd'). apply (goes_on_said _ _ m); [done|congruence].
Qed.

Lemma end_goes_on e e' : end_step p e e' -> goes_on e e'.
Proof.
  intros [s s' ws ts l Hc|d s s' ws ts l Hc|d s s' ws ts l Hc|f r s s' ws ts l Hr Hc]; inversion Hc; subst; try done.
  - apply (goes_on_said _ _ [ca_frame k]); [|done]. unfold said. cbn. by rewrite app_assoc.
  - apply (goes_on_said _ _ []); [|done]. unfold said. cbn. rewrite app_nil_r, <- app_assoc.
    by match goal with E : send _ = _ |- _ => rewrite E end.
  - match goal with He : enqueued _ _ _ |- _ => eapply goes_on_answers; [exact He|done..] end.
  - unfold goes_on, said, en_conn, deliver. cbn. by repeat case_match.
  - match goal with He : enqueued _ _ _ |- _ => eapply goes_on_answers; [exact He|done..] end.
Qed.
End one_end.

(** An end owes an answer to every call it has handled and every message it could
    not parse; it gives it, unless the connection is gone. *)
Record duty_ok `{JT : JsonText} (e : end_) : Prop := {
  dt_handled : forall f r, (f, r) ∈ en_log e -> answer_frame (fr_ID f) r ∈ said e;
  dt_malformed : forall d id er, d ∈ en_taken e -> ParseFrame (inl d) = inr (id, er) -> EncodeCallError id er ∈ said e
}.

Record end_ok `{JT : JsonText} (p : party) (e : end_) : Prop := {
  eo_conn : conn_ok (en_sys e);
  eo_log : log_ok p e;
  eo_calls : calls_ok e;
  eo_voice : voice_ok e;
  eo_duty : cn_done (en_conn e) = false -> duty_ok e
}.

Section one_end_kept.
Context `{JT : JsonText} (p : party).

Lemma enqueued_gives d c e' : enqueued d c (en_conn e') -> cn_done (en_conn e') = false -> d ∈ said e'.
Proof.
  unfold said. intros [[_ ->]|[Hd ->]] Hd'; [|congruence]. cbn. rewrite !elem_of_app, list_elem_of_singleton. auto.
Qed.

Lemma duty_step e e' :
  end_step p e e' -> (cn_done (en_conn e) = false -> duty_ok e) -> cn_done (en_conn e') = false -> duty_ok e'.
Proof.
  intros Hs D Hd. destruct (end_goes_on p e e' Hs) as [Hsub Hd']. specialize (D (Hd' Hd)) as [D1 D2].
  destruct Hs as [s s' ws ts l Hc|d s s' ws ts l Hc|d s s' ws ts l Hc|f r s s' ws ts l Hr Hc]; inversion Hc; subst;
    split; try (intros; apply Hsub; eauto; fail).
  - intros d' id' er' [Hin|Heq%list_elem_of_singleton]%elem_of_app Hp; [apply Hsub; eauto|]. subst d'.
    match goal with He : enqueued _ _ _, E : ParseFrame _ = _ |- _ => rewrite E in Hp; injection Hp as <- <-;
      eapply enqueued_gives; [exact He|done..] end.
  - intros d' id' er' [Hin|Heq%list_elem_of_singleton]%elem_of_app Hp; [apply Hsub; eauto|]. congruence.
  - intros d' id' er' [Hin|Heq%list_elem_of_singleton]%elem_of_app Hp; [apply Hsub; eauto|]. congruence.
  - intros f' r' [Hin|[= -> ->]%list_elem_of_singleton]%elem_of_app; [apply Hsub; eauto|].
    match goal with He : enqueued _ _ _ |- _ => eapply enqueued_gives; [exact He|done..] end.
Qed.

Lemma end_conn_step e e' : end_step p e e' -> exists ev, conn_step (pa_timeout p) ev (en_sys e) (en_sys e').
Proof. intros []; eauto. Qed.

Lemma end_step_ok e e' : end_ok p e -> end_step p e e' -> end_ok p e'.
Proof.
  intros [B L C V D] Hs. split.
  - destruct (end_conn_step e e' Hs) as [ev Hc]. by eapply conn_step_ok.
  - by eapply log_step.
  - eapply calls_step; [apply (bk_next _ _ (ck_book _ B))|done|done].
  - by eapply voice_step.
  - by eapply duty_step.
Qed.

Lemma new_end_ok : end_ok p new_end.
Proof.
  split; [eapply conn_reachable_ok, (cr_new 0)| | | |]; split; cbn; try done; try apply NoDup_nil_2;
    try (intros; by match goal with Hin : _ ∈ [] |- _ => apply not_elem_of_nil in Hin end).
Qed.

(** *** What the peer makes of what is said *)

Lemma parse_error_id d id er : ParseFrame (inl d) = inr (id, er) -> id <> "".
Proof.
  intros Hp. destruct (malformed_answered _ _ _ Hp) as (_ & _ & f & Hf & <- & _).
  apply frame_of_inl in Hf. by destruct (frame_id _ f Hf).
Qed.

Lemma handled_read e f r : end_ok p e -> (f, r) ∈ en_log e -> f ∈ cs_read (en_sys e) /\ is_call f = true.
Proof.
  intros [B [_ L _] _ _ _] Hin. assert (Hf : f ∈ cs_handled (en_sys e)) by (rewrite <- L; by apply (list_elem_of_fmap_2 fst _ (f, r))).
  assert (Hq : f ∈ filter (fun f => is_call f = true) (cs_read (en_sys e))).
  { rewrite (qu_order _ _ _ (ck_queues _ B)). apply elem_of_app. by left. }
  by apply list_elem_of_filter in Hq as [? ?].
Qed.

Lemma read_taken e f : log_ok p e -> f ∈ cs_read (en_sys e) -> exists d, d ∈ en_taken e /\ frame_of d = Some f.
Proof. intros [-> _ _] (d & Hd & Hf)%list_elem_of_omap. eauto. Qed.

Inductive hears (e : end_) (d : json) : Prop :=
| hears_call k pl : k ∈ begun e -> ca_id k <> "" -> d = EncodeCall (ca_id k) (ca_action k) pl -> ca_frame k = d -> hears e d
| hears_answer f f0 r0 :
    frame_of d = Some f -> (f0, r0) ∈ en_log e -> fr_ID f = fr_ID f0 -> response_of f = Some (result_of r0) -> hears e d
| hears_malformed f d0 er :
    frame_of d = Some f -> d0 ∈ en_taken e -> ParseFrame (inl d0) = inr (fr_ID f, er) ->
    response_of f = Some (carried er) -> hears e d.

Lemma said_heard e d : end_ok p e -> d ∈ said e -> hears e d.
Proof.
  intros E Hd. destruct (vc_why _ (eo_voice _ _ E) d Hd) as [k Hk ->|f r Hf ->|d' id er Hd' He ->].
  - destruct (cl_made _ (eo_calls _ _ E) k Hk) as (n & pl & Hn & _ & Hfr).
    apply (hears_call _ _ k pl); [done|rewrite Hn; apply itoa_not_empty|done|done].
  - destruct (handled_read e f r E Hf) as [Hr _]. destruct (read_taken e f (eo_log _ _ E) Hr) as (d & _ & Hfd).
    destruct (frame_id d f Hfd) as [Hne _]. destruct (answer_frame_read (fr_ID f) r Hne) as (f' & H1 & H2 & H3).
    by apply (hears_answer _ _ f' f r).
  - pose proof (parse_error_id d' id er He) as Hne. pose proof (frame_of_error id er Hne) as Hf.
    by eapply (hears_malformed _ _ _ d' er).
Qed.
End one_end_kept.

(** ** The two ends together *)

(** A call in flight whose answer has been read has it. *)
Definition heard (a : end_) : Prop :=
  forall k f r, k ∈ cs_callers (en_sys a) -> f ∈ cs_read (en_sys a) -> response_of f = Some r ->
    fr_ID f = ca_id k -> exists r', pending (en_conn a) !! ca_id k = Some (Some r').

Record half_ok `{JT : JsonText} (p : party) (a b : end_) : Prop := {
  ha_end : end_ok p a;
  ha_order : en_taken a `prefix_of` en_wrote b;
  ha_heard : heard a
}.

Definition wire_ok `{JT : JsonText} (pa pb : party) (s : end_ * end_) : Prop :=
  half_ok pa s.1 s.2 /\ half_ok pb s.2 s.1.

(** What end [b] made of the call [k] of its peer. *)
Definition answers_to (b : end_) (k : call) (pl : option json) (r : callResult) : Prop :=
  (exists r0, (asked_frame k pl, r0) ∈ en_log b /\ r = result_of r0) \/
  (ca_action k = "" /\ r = carried (framework_error "action is empty")).

Section pair.
Context `{JT : JsonText}.

Lemma taken_said a b d : en_taken a `prefix_of` en_wrote b -> d ∈ en_taken a -> d ∈ said b.
Proof. intros [m E] Hd. apply elem_of_app. left. rewrite E. apply elem_of_app. by left. Qed.

Lemma call_read pa pb a b f :
  end_ok pa a -> end_ok pb b -> en_taken b `prefix_of` en_wrote a -> f ∈ cs_read (en_sys b) -> is_call f = true ->
  exists k pl, k ∈ begun a /\ ca_frame k = EncodeCall (ca_id k) (ca_action k) pl /\ f = asked_frame k pl.
Proof.
  intros Ea Eb Ho Hf Hc. destruct (read_taken pb b f (eo_log _ _ Eb) Hf) as (d & Hd & Hfd).
  assert (Hno : forall f1 r, frame_of d = Some f1 -> response_of f1 = Some r -> False).
  { intros f1 r E1 E2. assert (f1 = f) as -> by congruence. by rewrite (response_not_call f r E2) in Hc. }
  destruct (said_heard pa a d Ea (taken_said b a d Ho Hd)) as [k pl Hk Hne -> Hfr|f1 ? ? E1 _ _ E2|f1 ? ? E1 _ _ E2].
  - exists k, pl. split; [done|]. split; [done|]. destruct (decide (ca_action k = "")) as [Ha|Ha].
    + rewrite Ha in Hfd. apply frame_of_inl in Hfd. by rewrite parse_no_action in Hfd.
    + rewrite frame_of_call in Hfd by done. by injection Hfd as <-.
  - by destruct (Hno f1 _ E1 E2).
  - by destruct (Hno f1 _ E1 E2).
Qed.

Lemma begun_same a k k' : calls_ok a -> k ∈ begun a -> k' ∈ begun a -> ca_id k = ca_id k' -> k = k'.
Proof. intros [C _] H1 H2 E. by apply (NoDup_fmap_inj_in ca_id (begun a)). Qed.

(** A response read is the peer's answer to a call begun. *)
Lemma response_read pa pb a b f r :
  end_ok pa a -> end_ok pb b -> en_taken a `prefix_of` en_wrote b -> en_taken b `prefix_of` en_wrote a ->
  f ∈ cs_read (en_sys a) -> response_of f = Some r ->
  exists k pl, k ∈ begun a /\ ca_id k = fr_ID f /\ ca_frame k = EncodeCall (ca_id k) (ca_action k) pl /\ answers_to b k pl r.
Proof.
  intros Ea Eb Ho Ho' Hf Hr. destruct (read_taken pa a f (eo_log _ _ Ea) Hf) as (d & Hd & Hfd).
  destruct (said_heard pb b d Eb (taken_said a b d Ho Hd)) as [k pl Hk Hne -> Hfr|f1 f0 r0 E1 Hl Hid E2|f1 d0 er E1 Hd0 Hp E2].
  - destruct (decide (ca_action k = "")) as [Ha|Ha].
    + rewrite Ha in Hfd. apply frame_of_inl in Hfd. by rewrite parse_no_action in Hfd.
    + rewrite frame_of_call in Hfd by done. by injection Hfd as <-.
  - assert (f1 = f) as -> by congruence. assert (r = result_of r0) as -> by congruence.
    destruct (handled_read pb b f0 r0 Eb Hl) as [Hf0 Hc]. destruct (call_read pa pb a b f0 Ea Eb Ho' Hf0 Hc) as (k & pl & Hk & Hfr & ->).
    exists k, pl. split; [done|]. split; [done|]. split; [done|]. left. by exists r0.
  - assert (f1 = f) as -> by congruence. assert (r = carried er) as -> by congruence.
    destruct (said_heard pa a d0 Ea (taken_said b a d0 Ho' Hd0)) as [k pl Hk Hne -> Hfr|f2 ? ? E3|f2 ? ? E3].
    + exists k, pl. split; [done|]. destruct (decide (ca_action k = "")) as [Ha|Ha].
      * pose proof Hp as Hp'. rewrite Ha, parse_no_action in Hp' by done. injection Hp' as Hid <-.
        split; [done|]. split; [done|]. by right.
      * pose proof (frame_of_call (ca_id k) (ca_action k) pl Hne Ha) as Hx%frame_of_inl. congruence.
    + apply frame_of_inl in E3. congruence.
    + apply frame_of_inl in E3. congruence.
Qed.

(** *** Every reachable state *)

Lemma pending_delivered id r c id' :
  is_Some (pending c !! id) -> exists r', pending (deliver id r c) !! id = Some (Some r') /\
    (id' <> id -> pending (deliver id r c) !! id' = pending c !! id').
Proof.
  intros [[r0|] E]; unfold deliver; rewrite E; [by exists r0|]. exists r. cbn.
  split; [apply lookup_insert_eq|]. intros Hne. by rewrite lookup_insert_ne.
Qed.

Lemma pending_delivered_keeps id r c id' r0 :
  pending c !! id' = Some (Some r0) -> pending (deliver id r c) !! id' = Some (Some r0).
Proof.
  intros E. unfold deliver. destruct (pending c !! id) as [[|]|] eqn:E'; [done| |done]. cbn.
  rewrite lookup_insert_ne; [done|]. intros ->. congruence.
Qed.

Lemma heard_less a a' ks1 k ks2 :
  heard a -> NoDup (ids (cs_callers (en_sys a))) -> cs_callers (en_sys a) = ks1 ++ k :: ks2 ->
  cs_callers (en_sys a') = ks1 ++ ks2 -> cs_read (en_sys a') = cs_read (en_sys a) ->
  pending (en_conn a') = delete (ca_id k) (pending (en_conn a)) -> heard a'.
Proof.
  intros Hh Hnd Hcs Hcs' Hrd Hp k' f r. rewrite Hcs', Hrd, Hp. intros Hk Hf Hr Hid.
  rewrite Hcs, ids_middle in Hnd. apply NoDup_cons in Hnd as [Hout _].
  rewrite lookup_delete_ne; [apply (Hh k' f r); try done; rewrite Hcs; by apply callers_less|].
  intros E. apply Hout. rewrite E. by apply list_elem_of_fmap_2.
Qed.

Lemma heard_step p a a' :
  end_ok p a -> (forall f r, f ∈ cs_read (en_sys a) -> response_of f = Some r -> fr_ID f ∈ ids (begun a)) ->
  end_step p a a' -> heard a -> heard a'.
Proof.
  intros [B L C _ _] Hfrom Hs Hh. pose proof (ck_book _ B) as [B1 B2 B3 B4].
  destruct Hs as [s s' ws ts l Hc|d s s' ws ts l Hc|d s s' ws ts l Hc|f r s s' ws ts l Hr Hc]; inversion Hc; subst; try done.
  - pose proof (fresh_id _ C (proj1 B1)) as Hnew. intros k f r [->|Hk]%elem_of_cons Hf Hr Hid.
    + exfalso. apply Hnew; [done|]. pose proof (Hfrom f r Hf Hr) as Hx. by rewrite Hid in Hx.
    + destruct (Hh k f r Hk Hf Hr Hid) as [r' Hr']. exists r'. cbn. rewrite lookup_insert_ne; [done|].
      intros E. apply Hnew; [done|]. pose proof (list_elem_of_fmap_2 ca_id _ _ (caller_begun (mkEnd (mkConnSystem c ks fs hs rs) ws ts l) k Hk)) as Hx.
      change (ca_id k ∈ ids (begun (mkEnd (mkConnSystem c ks fs hs rs) ws ts l))) in Hx. by rewrite <- E in Hx.
  - intros k' f r Hk' Hf Hr Hid. cbn.
    assert (Hold : exists k0, k0 ∈ ks1 ++ k :: ks2 /\ ca_id k0 = ca_id k').
    { cbn in Hk'. apply elem_of_app in Hk' as [?|[->|?]%elem_of_cons]; [exists k'|exists k|exists k'];
        rewrite elem_of_app, elem_of_cons; auto. }
    destruct Hold as (k0 & Hk0 & E). rewrite <- E in Hid |- *. by apply (Hh k0 f r).
  - by eapply (heard_less _ _ ks1 k ks2 Hh).
  - by eapply (heard_less _ _ ks1 k ks2 Hh).
  - match goal with He : enqueued _ _ _ |- _ => destruct (enqueued_same _ _ _ He) as (_ & Ep & _) end.
    intros k f' r Hk Hf' Hr' Hid. cbn. rewrite Ep. by apply (Hh k f' r).
  - intros k f' r Hk Hf' Hr' Hid. apply elem_of_app in Hf' as [Hf'| ->%list_elem_of_singleton]; [by apply (Hh k f' r)|].
    unfold response_of in Hr'. by match goal with E : fr_Type f = _ |- _ => rewrite E in Hr' end.
  - intros k f' r' Hk Hf' Hr' Hid. apply elem_of_app in Hf' as [Hf'| ->%list_elem_of_singleton].
    + destruct (Hh k f' r' Hk Hf' Hr' Hid) as [r0 Hr0]. exists r0. by apply pending_delivered_keeps.
    + rewrite <- Hid. destruct (pending_delivered (fr_ID f) r c (fr_ID f)) as (r0 & Hr0 & _); [|by exists r0].
      rewrite Hid. apply B4. by apply list_elem_of_fmap_2.
  - match goal with He : enqueued _ _ _ |- _ => destruct (enqueued_same _ _ _ He) as (_ & Ep & _) end.
    intros k f' r' Hk Hf' Hr' Hid. cbn. rewrite Ep. by apply (Hh k f' r').
Qed.

Lemma wrote_grows p a a' : end_step p a a' -> en_wrote a `prefix_of` en_wrote a'.
Proof. intros []; cbn; try done. by apply prefix_app_r. Qed.

Lemma half_moves pa pb a b a' :
  half_ok pa a b -> half_ok pb b a -> end_step pa a a' -> en_taken a' `prefix_of` en_wrote b ->
  half_ok pa a' b /\ half_ok pb b a'.
Proof.
  intros [Ea Oa Ha] [Eb Ob Hb] Hs Ho. split; split; [by eapply end_step_ok|done| |done| |done].
  - apply (heard_step pa a a' Ea); [|done|done]. intros f r Hf Hr.
    destruct (response_read pa pb a b f r Ea Eb Oa Ob Hf Hr) as (k & pl & Hk & <- & _). by apply list_elem_of_fmap_2.
  - etrans; [done|]. by eapply wrote_grows.
Qed.

Lemma wire_step_ok pa pb s s' : wire_ok pa pb s -> wire_step pa pb s s' -> wire_ok pa pb s'.
Proof.
  intros Hok Hs. destruct Hs as [a a' b Hs Ho|a b b' Hs Ho]; destruct Hok as [Ha Hb].
  - by apply (half_moves pa pb a b a').
  - by destruct (half_moves pb pa b a b' Hb Ha Hs Ho).
Qed.

Lemma wire_reachable_ok pa pb s : wire_reachable pa pb s -> wire_ok pa pb s.
Proof.
  unfold wire_reachable. intros Hr. remember (new_end, new_end) as s0 eqn:E. assert (H0 : wire_ok pa pb s0).
  { subst s0. split; (split; [apply new_end_ok|done|]); by intros k f r ?%not_elem_of_nil. }
  clear E. induction Hr as [|x y z Hs _ IH]; [done|]. apply IH. by eapply wire_step_ok.
Qed.
End pair.

(** ** What a call means at the other end *)

Section promises.
Context `{JT : JsonText} (pa pb : party).

(** The calls of [a] as its peer [b], made as [p], handled them. *)
Record calls_carried (p : party) (a b : end_) : Prop := {
  cc_answers : forall k r, (k, call_return (ca_action k) r) ∈ cs_returned (en_sys a) ->
    exists pl, ca_frame k = EncodeCall (ca_id k) (ca_action k) pl /\
      ((exists r0, (asked_frame k pl, r0) ∈ en_log b /\ pa_handles p (asked_frame k pl) r0 /\ r = result_of r0) \/
       (ca_action k = "" /\ r = carried (framework_error "action is empty")));
  cc_once : NoDup (fr_ID <$> (en_log b).*1);
  cc_order : (en_log b).*1 `prefix_of` filter (fun f => is_call f = true) (omap frame_of (said a))
}.

Lemma returned_read a k r :
  conn_ok (en_sys a) -> (k, call_return (ca_action k) r) ∈ cs_returned (en_sys a) ->
  answered_by (cs_read (en_sys a)) (ca_id k) r.
Proof. intros [_ [_ A2 A3] _]. destruct r as [pl|e]; cbn; [apply A2|apply A3]. Qed.

Lemma returned_begun a k out : (k, out) ∈ cs_returned (en_sys a) -> bare k ∈ begun a.
Proof.
  intros Hk. apply list_elem_of_fmap_2, elem_of_app. right. by apply (list_elem_of_fmap_2 fst _ (k, out)).
Qed.

Lemma handled_prefix p b : end_ok p b ->
  (en_log b).*1 `prefix_of` filter (fun f => is_call f = true) (omap frame_of (en_taken b)).
Proof.
  intros [B [<- -> _] _ _ _]. exists (calls (en_conn b)). apply (qu_order _ _ _ (ck_queues _ B)).
Qed.

Lemma half_carried a b p p' : half_ok p a b -> half_ok p' b a -> calls_carried p' a b.
Proof.
  intros [Ea Oa _] [Eb Ob _]. pose proof (handled_prefix p' b Eb) as Hpre.
  assert (Hsaid : en_taken b `prefix_of` said a) by (etrans; [exact Ob|by apply prefix_app_r]).
  destruct Hsaid as [m Hm]. split.
  - intros k r Hk. destruct (returned_read a k r (eo_conn _ _ Ea) Hk) as (f & Hf & Hid & Hr).
    destruct (response_read p p' a b f r Ea Eb Oa Ob Hf Hr) as (k' & pl & Hk' & Hid' & Hfr & Ha).
    assert (k' = bare k) as ->.
    { apply (begun_same a); [apply Ea|done|by eapply returned_begun|cbn; congruence]. }
    exists pl. split; [done|]. destruct Ha as [(r0 & Hl & ->)|?]; [left|by right].
    exists r0. split; [done|]. split; [|done]. by apply (lg_handles _ _ (eo_log _ _ Eb)).
  - apply (sublist_NoDup _ _ (vc_once _ (eo_voice _ _ Ea))). rewrite Hm, omap_app.
    apply sublist_inserts_r. etrans; [|apply calls_ask]. destruct Hpre as [n ->].
    rewrite fmap_app. by apply sublist_inserts_r.
  - rewrite Hm, omap_app, filter_app. by apply prefix_app_r.
Qed.

(** C14: across the connection a call is a call.  What [Call] returns at one end,
    a payload or a CALLERROR, is what the other end's handler answered to that
    very call, its id, action and payload intact; a handler that panicked is
    InternalError, and an empty action is refused before any handler.  No call is
    handled twice, and the calls are handled in the order in which they were
    queued.  This holds in both directions at once, however the goroutines of the
    two ends interleave and whichever calls are given up. *)
Theorem calls_reach_the_handler a b :
  wire_reachable pa pb (a, b) -> calls_carried pb a b /\ calls_carried pa b a.
Proof. intros [Ha Hb]%wire_reachable_ok. split; by eapply half_carried. Qed.
End promises.

(** ** A call that is sent is answered *)

Definition open (e : end_) : Prop := cn_done (en_conn e) = false.

(** Nothing is left to do at an end but to wait. *)
Definition idle (a b : end_) : Prop :=
  send (en_conn a) = [] /\ calls (en_conn a) = [] /\ en_taken a = en_wrote b.

Section progress.
Context `{JT : JsonText}.

(** What a message still asks of the two ends: a call or a malformed frame makes
    an answer, an answer makes nothing. *)
Definition weight (d : json) : nat :=
  match frame_of d with Some f => if is_call f then 5 else 1 | None => 5 end.

Definition half_work (a b : end_) : nat :=
  sum_list_with (fun d => S (weight d)) (send (en_conn a)) +
  sum_list_with weight (drop (length (en_taken b)) (en_wrote a)) + 4 * length (calls (en_conn a)).

Definition pair_work (s : end_ * end_) : nat := half_work s.1 s.2 + half_work s.2 s.1.

Lemma frame_kind d f : frame_of d = Some f -> is_call f = true \/ exists r, response_of f = Some r.
Proof.
  intros Hp%frame_of_inl. unfold ParseFrame in Hp.
  destruct (dec_raw_array d) as [[|t [|i [|x l]]]|]; try done.
  destruct (dec_int t 0) as [typ|]; [|done]. destruct (dec_string i "") as [id|]; [|done].
  case_bool_decide; [done|]. unfold parse_call, parse_result, parse_error in Hp.
  repeat (case_match; try discriminate); injection Hp as <-; (by left) || (right; by eexists).
Qed.

Lemma weight_answer id r : id <> "" -> weight (answer_frame id r) = 1%nat.
Proof.
  intros Hid. unfold weight. destruct (answer_frame_read id r Hid) as (f & -> & _ & Hr).
  by rewrite (response_not_call f _ Hr).
Qed.

Lemma weight_error id er : id <> "" -> weight (EncodeCallError id er) = 1%nat.
Proof. apply (weight_answer id (Some (inr er))). Qed.

(** A step that leaves less to do, begins nothing and closes nothing. *)
Definition drains (p : party) (a b a' : end_) : Prop :=
  end_step p a a' /\ en_taken a' `prefix_of` en_wrote b /\
  (half_work a' b + half_work b a' < half_work a b + half_work b a)%nat /\
  cs_callers (en_sys a') = cs_callers (en_sys a) /\ open a'.

Lemma drains_write p a b d l :
  send (en_conn a) = d :: l -> en_taken a `prefix_of` en_wrote b -> en_taken b `prefix_of` en_wrote a -> open a ->
  exists a', drains p a b a'.
Proof.
  destruct a as [[c ks fs hs rs] ws ts g]. unfold open, en_conn. cbn. intros Hsend Ho [m Hm] Hd.
  eexists. split; [eapply es_wrote, cs_write, Hsend|]. split; [done|]. split; [|done].
  unfold half_work, en_conn. cbn. rewrite Hsend, Hm. cbn.
  rewrite <- app_assoc, !drop_app_length, sum_list_with_app. cbn. lia.
Qed.

Lemma drains_handle p a b f l r :
  end_ok p a -> send (en_conn a) = [] -> calls (en_conn a) = f :: l -> pa_handles p f r ->
  en_taken a `prefix_of` en_wrote b -> open a -> exists a', drains p a b a'.
Proof.
  intros E. assert (Hid : calls (en_conn a) = f :: l -> fr_ID f <> "").
  { intros Hc. assert (Hf : f ∈ filter (fun f => is_call f = true) (cs_read (en_sys a))).
    { rewrite (qu_order _ _ _ (ck_queues _ (eo_conn _ _ E))). apply elem_of_app. right.
      unfold en_conn in Hc. rewrite Hc. by left. }
    apply list_elem_of_filter in Hf as [_ Hf]. destruct (read_taken p a f (eo_log _ _ E) Hf) as (d & _ & Hfd).
    by apply (frame_id d f). }
  destruct a as [[c ks fs hs rs] ws ts g]. unfold open, en_conn in *. cbn in *. intros Hsend Hc Hr Ho Hd.
  eexists. split; [eapply es_answered; [exact Hr|]; eapply cs_handle; [exact Hc|]; left; split; [|reflexivity]|].
  { unfold send_room. cbn. rewrite Hsend. cbn. unfold sendBuffer. lia. }
  split; [done|]. split; [|done]. unfold half_work, en_conn. cbn. rewrite Hsend, Hc. cbn.
  rewrite weight_answer by auto. lia.
Qed.

Lemma drains_read p a b d m :
  send (en_conn a) = [] -> calls (en_conn a) = [] -> en_wrote b = en_taken a ++ d :: m -> open a ->
  exists a', drains p a b a'.
Proof.
  destruct a as [[c ks fs hs rs] ws ts g]. unfold open, en_conn. cbn. intros Hsend Hc Hw Hd.
  assert (Hpre : ts ++ [d] `prefix_of` en_wrote b) by (exists m; by rewrite Hw, <- app_assoc).
  assert (Hun : forall x n, drop (length (ts ++ [x])) (ts ++ x :: n) = n).
  { intros x n. by rewrite (cons_middle x ts n), app_assoc, drop_app_length. }
  assert (Hleft : (sum_list_with weight (drop (length ts) (en_wrote b)) =
    weight d + sum_list_with weight (drop (length (ts ++ [d])) (en_wrote b)))%nat).
  { rewrite Hw, Hun, drop_app_length. done. }
  destruct (ParseFrame (inl d)) as [f|[id er]] eqn:Hp.
  - pose proof (proj2 (frame_of_inl d f) Hp) as Hf. destruct (frame_kind d f Hf) as [Hk|[r Hr]].
    + assert (Hwd : weight d = 5%nat) by (unfold weight; by rewrite Hf, Hk).
      eexists. split; [eapply es_took, cs_read_call; [exact Hp| |]|].
      * by apply Z.eqb_eq.
      * rewrite Hc. cbn. unfold callBuffer. lia.
      * split; [done|]. split; [|done]. unfold half_work, en_conn. cbn. rewrite Hsend, Hc, Hleft, Hwd. cbn. lia.
    + assert (Hwd : weight d = 1%nat) by (unfold weight; by rewrite Hf, (response_not_call f r Hr)).
      eexists. split; [eapply es_took, cs_read_response; [exact Hp|exact Hr]|]. split; [done|].
      destruct (deliver_queues (fr_ID f) r c) as [Eq1 Eq2].
      split; [|split; [done|]]; unfold half_work, open, en_conn; cbn.
      * rewrite Eq1, Eq2, Hsend, Hc, Hleft, Hwd. cbn. lia.
      * unfold deliver. by repeat case_match.
  - assert (Hwd : weight d = 5%nat) by (unfold weight, frame_of; by rewrite Hp).
    eexists. split; [eapply es_took, cs_read_malformed; [exact Hp|]; left; split; [|reflexivity]|].
    { unfold send_room. rewrite Hsend. cbn. unfold sendBuffer. lia. }
    split; [done|]. split; [|done]. unfold half_work, en_conn. cbn. rewrite Hsend, Hc, Hleft, Hwd. cbn.
    rewrite weight_error by (by eapply parse_error_id). lia.
Qed.

Lemma end_moves p p' a b :
  (forall f, exists r, pa_handles p f r) -> half_ok p a b -> half_ok p' b a -> open a ->
  idle a b \/ exists a', drains p a b a'.
Proof.
  intros Htot [Ea Oa _] [_ Ob _] Hd. destruct (send (en_conn a)) as [|d l] eqn:Hsend; [|right; by eapply drains_write].
  destruct (calls (en_conn a)) as [|f l] eqn:Hc.
  - pose proof Oa as [[|d m] Hm]; [left; split; [done|]; split; [done|]; by rewrite Hm, app_nil_r|].
    right. by eapply drains_read.
  - right. destruct (Htot f) as [r Hr]. by eapply drains_handle.
Qed.

Context (pa pb : party).
Hypothesis handlers_answer : forall f, (exists r, pa_handles pa f r) /\ (exists r, pa_handles pb f r).

Definition same_calls (s s' : end_ * end_) : Prop :=
  cs_callers (en_sys s'.1) = cs_callers (en_sys s.1) /\ cs_callers (en_sys s'.2) = cs_callers (en_sys s.2).

Definition both_open (s : end_ * end_) : Prop := open s.1 /\ open s.2.

Lemma pair_moves s : wire_ok pa pb s -> both_open s ->
  (idle s.1 s.2 /\ idle s.2 s.1) \/
  exists s', wire_step pa pb s s' /\ (pair_work s' < pair_work s)%nat /\ same_calls s s' /\ both_open s'.
Proof.
  destruct s as [a b]. intros [Ha Hb] [Oa Ob]. cbn in *.
  destruct (end_moves pa pb a b) as [Ia|(a' & Hs & Hp & Hw & Hcs & Ho)]; [by intros f; apply handlers_answer|done..| |].
  - destruct (end_moves pb pa b a) as [Ib|(b' & Hs & Hp & Hw & Hcs & Ho)]; [by intros f; apply handlers_answer|done..|by left|].
    right. exists (a, b'). split; [by apply ws_right|]. split; [unfold pair_work; cbn; lia|]. done.
  - right. exists (a', b). split; [by apply ws_left|]. split; [unfold pair_work; cbn; lia|]. done.
Qed.

(** Left to themselves the two ends come to rest, the same calls in flight. *)
Lemma pair_drains s : wire_ok pa pb s -> both_open s ->
  exists s', rtc (wire_step pa pb) s s' /\ wire_ok pa pb s' /\ both_open s' /\ same_calls s s' /\
    idle s'.1 s'.2 /\ idle s'.2 s'.1.
Proof.
  remember (pair_work s) as n eqn:En. revert s En. induction n as [n IH] using lt_wf_ind. intros s -> Hok Ho.
  destruct (pair_moves s Hok Ho) as [[I1 I2]|(s1 & Hs & Hw & [C1 C2] & Ho1)]; [by exists s|].
  destruct (IH _ Hw s1 eq_refl) as (s' & Hr & Hok' & Ho' & [C3 C4] & Hi); [by eapply wire_step_ok|done|].
  exists s'. split; [by eapply rtc_l|]. split; [done|]. split; [done|]. split; [|done]. split; congruence.
Qed.

(** At rest, every call whose frame was queued has its answer. *)
Lemma idle_answered a b k :
  half_ok pa a b -> half_ok pb b a -> open b -> idle a b -> idle b a ->
  k ∈ cs_callers (en_sys a) -> ca_sent k = true -> exists r, pending (en_conn a) !! ca_id k = Some (Some r).
Proof.
  intros [Ea _ Hh] [Eb _ _] Ob (Sa & _ & Ta) (Sb & Cb & Tb) Hk Hsent.
  assert (Hback : forall d f r, d ∈ said b -> frame_of d = Some f -> fr_ID f = ca_id k -> response_of f = Some r ->
    exists r, pending (en_conn a) !! ca_id k = Some (Some r)).
  { intros d f r Hd Hf Hid Hr. apply (Hh k f r Hk); [|done|done]. rewrite (lg_read _ _ (eo_log _ _ Ea)).
    apply list_elem_of_omap. exists d. split; [|done]. unfold said in Hd. by rewrite Sb, app_nil_r, <- Ta in Hd. }
  assert (Hthere : ca_frame k ∈ en_taken b).
  { pose proof (vc_sent _ (eo_voice _ _ Ea) k Hk Hsent) as Hd. unfold said in Hd. by rewrite Sa, app_nil_r, <- Tb in Hd. }
  destruct (cl_made _ (eo_calls _ _ Ea) (bare k) (caller_begun a k Hk)) as (n & pl & Hn & _ & Hfr). cbn in Hn, Hfr.
  assert (Hne : ca_id k <> "") by (rewrite Hn; apply itoa_not_empty).
  destruct (eo_duty _ _ Eb Ob) as [D1 D2]. rewrite Hfr in Hthere. destruct (decide (ca_action k = "")) as [Ha|Ha].
  - rewrite Ha in Hthere. pose proof (D2 _ _ _ Hthere (parse_no_action _ pl Hne)) as Hd.
    by eapply Hback; [exact Hd|apply frame_of_error|..].
  - set (f := asked_frame k pl). assert (Hf : f ∈ cs_handled (en_sys b)).
    { rewrite <- (app_nil_r (cs_handled _)), <- Cb. unfold en_conn. rewrite <- (qu_order _ _ _ (ck_queues _ (eo_conn _ _ Eb))).
      apply list_elem_of_filter. split; [done|]. rewrite (lg_read _ _ (eo_log _ _ Eb)). apply list_elem_of_omap.
      eexists. split; [exact Hthere|]. by apply frame_of_call. }
    rewrite <- (lg_handled _ _ (eo_log _ _ Eb)) in Hf. apply list_elem_of_fmap in Hf as ([f' r] & Heq & Hl). cbn in Heq. subst f'.
    destruct (answer_frame_read (ca_id k) r Hne) as (f' & H1 & H2 & H3). by apply (Hback _ f' (result_of r) (D1 f r Hl)).
Qed.

Lemma same_calls_in s s' k : same_calls s s' -> k ∈ cs_callers (en_sys s.1) -> k ∈ cs_callers (en_sys s'.1).
Proof. by intros [-> _]. Qed.

(** A call whose frame is not queued yet finds room at rest. *)
Lemma queue_at_rest a b k :
  wire_ok pa pb (a, b) -> send (en_conn a) = [] -> open a -> k ∈ cs_callers (en_sys a) -> ca_sent k = false ->
  exists a', wire_step pa pb (a, b) (a', b) /\ open a' /\ mark_sent k ∈ cs_callers (en_sys a').
Proof.
  intros [[_ Ho _] _] Hsend Hd Hk Hsent. destruct a as [[c ks fs hs rs] ws ts g]. unfold en_conn, open in *. cbn in *.
  apply list_elem_of_split in Hk as (ks1 & ks2 & ->). eexists. split; [|split].
  - apply ws_left; [eapply es_inside, cs_queue; [done|]|done]. unfold send_room. rewrite Hsend. cbn. unfold sendBuffer. lia.
  - done.
  - cbn. rewrite elem_of_app, elem_of_cons. auto.
Qed.

Lemma call_sent_in_time s k : wire_ok pa pb s -> both_open s -> k ∈ cs_callers (en_sys s.1) ->
  exists s', rtc (wire_step pa pb) s s' /\ wire_ok pa pb s' /\ both_open s' /\ mark_sent k ∈ cs_callers (en_sys s'.1).
Proof.
  intros Hok Ho Hk. destruct (ca_sent k) eqn:Hsent.
  { exists s. split; [done|]. split; [done|]. split; [done|]. destruct k; cbn in *. by subst. }
  destruct (pair_drains s Hok Ho) as ([a b] & Hr & Hok' & [Oa Ob] & Hcs & (Hidle & _) & _).
  destruct (queue_at_rest a b k Hok' Hidle Oa (same_calls_in _ _ k Hcs Hk) Hsent) as (a' & Hs & Oa' & Hk').
  exists (a', b). split; [by eapply rtc_r|]. split; [by eapply wire_step_ok|]. done.
Qed.

(** C15: no call is stuck.  Wherever the two ends stand, whatever they have queued
    for each other and however many calls are in flight, as long as the connection
    is open every call can still return what the peer's handler answers to it:
    nothing but a timeout, a cancellation or the end of the connection keeps an
    answer from its call. *)
Theorem every_call_can_return a b k :
  wire_reachable pa pb (a, b) -> open a -> open b -> k ∈ cs_callers (en_sys a) ->
  exists a' b' r, rtc (wire_step pa pb) (a, b) (a', b') /\ open a' /\ open b' /\
    (mark_sent k, call_return (ca_action k) r) ∈ cs_returned (en_sys a').
Proof.
  intros Hr Oa Ob Hk. pose proof (wire_reachable_ok pa pb (a, b) Hr) as Hok.
  destruct (call_sent_in_time (a, b) k Hok (conj Oa Ob) Hk) as (s1 & Hr1 & Hok1 & Ho1 & Hk1).
  destruct (pair_drains s1 Hok1 Ho1) as ([a2 b2] & Hr2 & [Ha2 Hb2] & [Oa2 Ob2] & Hcs & Ia & Ib).
  pose proof (same_calls_in _ _ _ Hcs Hk1) as Hk2. cbn in *.
  destruct (idle_answered a2 b2 (mark_sent k) Ha2 Hb2 Ob2 Ia Ib Hk2 eq_refl) as [r Hp].
  destruct a2 as [[c ks fs hs rs] ws ts g]. unfold en_conn in *. cbn in *.
  apply list_elem_of_split in Hk2 as (ks1 & ks2 & ->).
  exists (mkEnd (mkConnSystem (forget (ca_id k) c) (ks1 ++ ks2) fs hs ((mark_sent k, call_return (ca_action k) r) :: rs)) ws ts g), b2, r.
  split; [|split; [done|split; [done|by left]]].
  etrans; [exact Hr1|]. eapply rtc_r; [exact Hr2|]. apply ws_left; [|apply Ha2].
  by apply es_inside, (cs_answered _ (mark_sent k)).
Qed.
End progress.

(** Either end is "the" end: the pair is symmetric. *)
Lemma wire_swap `{JT : JsonText} pa pb s : wire_reachable pa pb s -> wire_reachable pb pa (s.2, s.1).
Proof.
  assert (Hall : forall x y, rtc (wire_step pa pb) x y -> rtc (wire_step pb pa) (x.2, x.1) (y.2, y.1)); [|apply Hall].
  induction 1 as [|x y z Hs _ IH]; [apply rtc_refl|]. eapply rtc_l; [|exact IH].
  destruct Hs; [by apply ws_right|by apply ws_left].
Qed.

(** ** A station's call at the central system

    The central system's connection is made with [V16Handler.HandleCall], in
    whatever state it is when the call's turn comes; a station's call returns
    what that handler answers to its action and payload, so playing the
    station's calls against [HandleCall] itself loses nothing. *)

Section station_and_csms.
Context `{MO : MapOrder} `{EV : Env} `{JT : JsonText} (cfg : Config) (id : string) (station : party) (callTimeout : Z).

Definition csms_party : party :=
  mkParty callTimeout (fun f r => exists w, r = Some (HandleCall cfg id (fr_Action f) (fr_Payload f) w).1).

Lemma station_call_handled a b k j :
  wire_reachable station csms_party (a, b) -> (k, inl (Some j)) ∈ cs_returned (en_sys a) ->
  exists pl w, ca_frame k = EncodeCall (ca_id k) (ca_action k) pl /\
    (HandleCall cfg id (ca_action k) (Some (payload_or_empty pl)) w).1 = inl j.
Proof.
  intros [Ha Hb]%wire_reachable_ok Hk. destruct (half_carried _ _ _ _ Ha Hb) as [Hc _ _].
  destruct (Hc k (inl (Some j)) Hk) as (pl & Hfr & [(r0 & _ & [w ->] & Hr)|[_ Hr]]); [|done].
  exists pl, w. split; [done|]. cbn in Hr. destruct (HandleCall _ _ _ _ w).1; [congruence|done].
Qed.
End station_and_csms.

(** ** Instances: a Heartbeat asked, handled and answered *)

#[local] Existing Instance plain_text.

Definition beat_result : json := JObj [("currentTime", JStr "2026-01-01T00:00:00Z")].
Definition beat_party : party :=
  mkParty 30 (fun f r => r = Some (if bool_decide (fr_Action f = "Heartbeat") then inl beat_result
                                   else inr (Errorf ErrNotImplemented (fr_Action f)))).
Definition beat_call : call := (begin_call "Heartbeat" None new_conn).2.

Definition beat_asked : Frame := asked_frame beat_call None.
Definition beat_reply : json := EncodeCallResult "1" (Some beat_result).
Definition reply_frame : Frame := mkFrame MessageTypeCallResult "1" "" (Some beat_result) "" "" None.
Definition beat_out : callResult := inl (Some beat_result).
Definition asking : conn := (begin_call "Heartbeat" None new_conn).1.
Definition asking_with (c : conn) (fs : list Frame) (ws ts : list json) : end_ :=
  mkEnd (mkConnSystem c [mark_sent beat_call] fs [] []) ws ts [].

Definition queued : end_ := asking_with (push (ca_frame beat_call) asking) [] [] [].
Definition asked : end_ := asking_with asking [] [ca_frame beat_call] [].
Definition replied : end_ := asking_with (deliver "1" beat_out asking) [reply_frame] [ca_frame beat_call] [beat_reply].
Definition returned : end_ :=
  mkEnd (mkConnSystem (forget "1" (deliver "1" beat_out asking)) [] [reply_frame] []
    [(mark_sent beat_call, inl (Some beat_result))]) [ca_frame beat_call] [beat_reply] [].

Definition reading : end_ :=
  mkEnd (mkConnSystem (push_call beat_asked new_conn) [] [beat_asked] [] []) [] [ca_frame beat_call] [].
Definition replying (c : conn) (ws : list json) : end_ :=
  mkEnd (mkConnSystem c [] [beat_asked] [beat_asked] []) ws [ca_frame beat_call] [(beat_asked, Some (inl beat_result))].

Lemma queued_reachable : wire_reachable beat_party beat_party (queued, new_end).
Proof.
  eapply rtc_l; [apply ws_left; [eapply es_inside, (cs_call 30 "Heartbeat" None)|]|]; [vm_compute; reflexivity|done|].
  apply rtc_once, ws_left; [apply es_inside, (cs_queue 30 beat_call _ [] [])|done];
    [reflexivity|unfold send_room; vm_compute; lia].
Defined.

Lemma replied_reachable : wire_reachable beat_party beat_party (asked, replying new_conn [beat_reply]).
Proof.
  unfold wire_reachable. etrans; [exact queued_reachable|].
  apply (rtc_l _ _ (asked, new_end)); [apply ws_left; [by apply (es_wrote _ (ca_frame beat_call) _ _ []), (cs_write 30 _ [] (push (ca_frame beat_call) asking))|done]|].
  apply (rtc_l _ _ (asked, reading)).
  { apply ws_right; [|done].
    apply (es_took _ (ca_frame beat_call) _ _ _ []), (cs_read_call _ _ beat_asked); [vm_compute; reflexivity|done|vm_compute; lia]. }
  apply (rtc_l _ _ (asked, replying (push beat_reply new_conn) [])).
  { apply ws_right; [|done]. apply (es_answered _ beat_asked (Some (inl beat_result)) _ _ _ _ []); [vm_compute; reflexivity|].
    eapply cs_handle; [done|]. left. split; [unfold send_room; vm_compute; lia|done]. }
  apply rtc_once, ws_right; [by apply (es_wrote _ beat_reply _ _ []), (cs_write 30 _ [] (push beat_reply new_conn))|done].
Defined.

Lemma returned_reachable : wire_reachable beat_party beat_party (returned, replying new_conn [beat_reply]).
Proof.
  unfold wire_reachable. etrans; [exact replied_reachable|].
  apply (rtc_l _ _ (replied, replying new_conn [beat_reply])).
  { apply ws_left; [|done].
    apply (es_took _ beat_reply _ _ _ []), (cs_read_response _ _ reply_frame); [vm_compute; reflexivity|done]. }
  apply rtc_once, ws_left; [|done].
  apply es_inside, (cs_answered 30 (mark_sent beat_call) beat_out _ [] []); [done|vm_compute; reflexivity].
Defined.

Lemma calls_reach_the_handler_witness :
  exists r0, beat_party.(pa_handles) beat_asked r0 /\ beat_out = result_of r0.
Proof.
  destruct (calls_reach_the_handler beat_party beat_party returned _ returned_reachable) as [[Ha _ _] _].
  destruct (Ha (mark_sent beat_call) beat_out) as (pl & Hpl & [(r0 & _ & Hr & Ho)|[Hx _]]); [left| |discriminate].
  injection Hpl as Hpl. exists r0. split; [|exact Ho].
  unfold asked_frame in Hr. rewrite <- Hpl in Hr. exact Hr.
Defined.

Lemma every_call_can_return_witness :
  exists a' b' r, rtc (wire_step beat_party beat_party) (queued, new_end) (a', b') /\ open a' /\ open b' /\
    (mark_sent beat_call, call_return "Heartbeat" r) ∈ cs_returned (en_sys a').
Proof.
  apply (every_call_can_return beat_party beat_party) with (k := mark_sent beat_call).
  - intros f. split; by eexists.
  - exact queued_reachable.
  - reflexivity.
  - reflexivity.
  - left.
Defined.
