(* ===== verification/SimulatorClose.v ===== *)
(** * The simulated station winds down (simulator/simulator.go, Connect, Run,
      Close and Wait, and handlers.go, after)

    The goroutines of one [Run], from the moment the connection is made: the
    connection's own, with the commands queued for the handler; the heartbeat's;
    those [after] starts for the side effects of a command; and [Run] itself.
    One select, one channel or one counter of the WaitGroup is one step.  What
    the goroutines say is Simulator.v's; here only that they are saying it. *)

From S2P Require Import Prelude Conn.

(** [closeOnce]: not called, its function running, or over. *)
Inductive once_pc := OnceFresh | OnceRunning | OnceDone.

(** A goroutine in [Close]: before [closeOnce], or between its two closes. *)
Inductive in_close := CloseWant | CloseMid.

(** [conn.Run] with the commands queued, then [s.Close]. *)
Inductive station_pc := ConnServing (queued : nat) | ConnClosing (p : in_close) | ConnFinished.

(** [heartbeatLoop]: not started, at its select, in a call begun while the
    connection was up or later, or over. *)
Inductive beat_pc := BeatUnborn | BeatWait | BeatCall (up : bool) | BeatFinished.

(** A side effect: before its select, or with so many calls still to make. *)
Inductive after_pc := AfterSettling (calls : nat) | AfterRunning (calls : nat).

Inductive run_pc :=
| RunConnecting
| RunFailing (p : in_close)
| RunFailed
| RunServing
| RunClosing (p : in_close)
| RunWaiting
| RunReturned.

(** The station's [done] channel, the connection's, the context, [closeOnce], the
    goroutines and the WaitGroup's counter. *)
Record winding := mkWinding {
  sl_done : bool;
  sl_lost : bool;
  sl_ctx : bool;
  sl_once : once_pc;
  sl_conn : station_pc;
  sl_beat : beat_pc;
  sl_afters : list after_pc;
  sl_wg : Z;
  sl_run : run_pc
}.

(** [Connect] once the dial has succeeded and [conn.Run] is started. *)
Definition connected : winding := mkWinding false false false OnceFresh (ConnServing 0) BeatUnborn [] 1 RunConnecting.

(** One step of [Close]: the first caller closes [done] and then the connection,
    the others wait for it. *)
Inductive close_step : bool -> bool -> once_pc -> in_close -> bool -> bool -> once_pc -> option in_close -> Prop :=
| cl_first d l : close_step d l OnceFresh CloseWant true l OnceRunning (Some CloseMid)
| cl_conn d l : close_step d l OnceRunning CloseMid d true OnceDone None
| cl_later d l : close_step d l OnceDone CloseWant d l OnceDone None.

Definition conn_after (p : option in_close) : station_pc :=
  match p with Some p => ConnClosing p | None => ConnFinished end.
Definition failing_after (p : option in_close) : run_pc :=
  match p with Some p => RunFailing p | None => RunFailed end.
Definition closing_after (p : option in_close) : run_pc :=
  match p with Some p => RunClosing p | None => RunWaiting end.

Section steps.
(** The scenario in which the station goes silent, and the most calls a side
    effect makes. *)
Context (silent : bool) (most : nat).

Inductive wind_step : winding -> winding -> Prop :=
| ls_cancel d l o c b a w r :
    wind_step (mkWinding d l false o c b a w r) (mkWinding d l true o c b a w r)
| ls_lost d x o c b a w r :
    wind_step (mkWinding d false x o c b a w r) (mkWinding d true x o c b a w r)
| ls_read q d x o b a w r :
    (q < callBuffer)%nat ->
    wind_step (mkWinding d false x o (ConnServing q) b a w r) (mkWinding d false x o (ConnServing (S q)) b a w r)
| ls_handle q d l x o b a w r :
    wind_step (mkWinding d l x o (ConnServing (S q)) b a w r) (mkWinding d l x o (ConnServing q) b a w r)
| ls_handle_after q n d l x o b a w r :
    (n <= most)%nat ->
    wind_step (mkWinding d l x o (ConnServing (S q)) b a w r)
      (mkWinding d l x o (ConnServing q) b (a ++ [AfterSettling n]) (w + 1) r)
| ls_conn_ends q d x o b a w r :
    wind_step (mkWinding d true x o (ConnServing q) b a w r) (mkWinding d true x o (ConnClosing CloseWant) b a w r)
| ls_conn_closes p p' d l o d' l' o' x b a w r :
    close_step d l o p d' l' o' p' ->
    wind_step (mkWinding d l x o (ConnClosing p) b a w r)
      (mkWinding d' l' x o' (conn_after p') b a (if p' is Some _ then w else w - 1) r)
| ls_booted d l x o c b a w :
    wind_step (mkWinding d l x o c b a w RunConnecting) (mkWinding d l x o c BeatWait a (w + 1) RunServing)
| ls_boot_fails d l x o c b a w :
    wind_step (mkWinding d l x o c b a w RunConnecting) (mkWinding d l x o c b a w (RunFailing CloseWant))
| ls_failing p p' d l o d' l' o' x c b a w :
    close_step d l o p d' l' o' p' ->
    wind_step (mkWinding d l x o c b a w (RunFailing p)) (mkWinding d' l' x o' c b a w (failing_after p'))
| ls_wakes d l x o c b a w :
    d || x = true ->
    wind_step (mkWinding d l x o c b a w RunServing) (mkWinding d l x o c b a w (RunClosing CloseWant))
| ls_closing p p' d l o d' l' o' x c b a w :
    close_step d l o p d' l' o' p' ->
    wind_step (mkWinding d l x o c b a w (RunClosing p)) (mkWinding d' l' x o' c b a w (closing_after p'))
| ls_returns d l x o c b a :
    wind_step (mkWinding d l x o c b a 0 RunWaiting) (mkWinding d l x o c b a 0 RunReturned)
| ls_beat_fires d l x o c a w r :
    silent = false ->
    wind_step (mkWinding d l x o c BeatWait a w r) (mkWinding d l x o c (BeatCall (negb l)) a w r)
| ls_beat_answered d l x o c a w r :
    wind_step (mkWinding d l x o c (BeatCall true) a w r) (mkWinding d l x o c BeatWait a w r)
| ls_beat_fails up d l x o c a w r :
    wind_step (mkWinding d l x o c (BeatCall up) a w r) (mkWinding d l x o c BeatFinished a (w - 1) r)
| ls_beat_ends d l x o c a w r :
    silent || d || x = true ->
    wind_step (mkWinding d l x o c BeatWait a w r) (mkWinding d l x o c BeatFinished a (w - 1) r)
| ls_settled n a1 a2 d l x o c b w r :
    wind_step (mkWinding d l x o c b (a1 ++ AfterSettling n :: a2) w r)
      (mkWinding d l x o c b (a1 ++ AfterRunning n :: a2) w r)
| ls_dropped n a1 a2 l x o c b w r :
    wind_step (mkWinding true l x o c b (a1 ++ AfterSettling n :: a2) w r) (mkWinding true l x o c b (a1 ++ a2) (w - 1) r)
| ls_said n a1 a2 d l x o c b w r :
    wind_step (mkWinding d l x o c b (a1 ++ AfterRunning (S n) :: a2) w r)
      (mkWinding d l x o c b (a1 ++ AfterRunning n :: a2) w r)
| ls_after_ends n a1 a2 d l x o c b w r :
    wind_step (mkWinding d l x o c b (a1 ++ AfterRunning n :: a2) w r) (mkWinding d l x o c b (a1 ++ a2) (w - 1) r).

Definition wind_reachable (s : winding) : Prop := rtc wind_step connected s.
End steps.

(** ** The goroutines counted, and who is in [Close] *)

Definition conn_counted (c : station_pc) : Z := if c is ConnFinished then 0 else 1.
Definition beat_counted (b : beat_pc) : Z := match b with BeatUnborn | BeatFinished => 0 | _ => 1 end.

Definition mids (c : station_pc) (r : run_pc) : nat :=
  (if c is ConnClosing CloseMid then 1 else 0) +
  (match r with RunFailing CloseMid | RunClosing CloseMid => 1 | _ => 0 end).

(** What [closeOnce] and the program counters say of each other. *)
Definition once_ok (s : winding) : Prop :=
  match sl_once s with
  | OnceFresh => sl_done s = false /\ mids (sl_conn s) (sl_run s) = 0%nat
  | OnceRunning => sl_done s = true /\ mids (sl_conn s) (sl_run s) = 1%nat
  | OnceDone => sl_done s = true /\ sl_lost s = true /\ mids (sl_conn s) (sl_run s) = 0%nat
  end.

Definition past_close (r : run_pc) : bool :=
  match r with RunFailed | RunWaiting | RunReturned => true | _ => false end.
Definition before_beat (r : run_pc) : bool :=
  match r with RunConnecting | RunFailing _ | RunFailed => true | _ => false end.

Record wind_ok (s : winding) : Prop := {
  wo_wg : sl_wg s = conn_counted (sl_conn s) + beat_counted (sl_beat s) + Z.of_nat (length (sl_afters s));
  wo_once : once_ok s;
  wo_conn : sl_conn s = ConnFinished -> sl_once s = OnceDone;
  wo_run : past_close (sl_run s) = true -> sl_once s = OnceDone;
  wo_beat : before_beat (sl_run s) = (if sl_beat s is BeatUnborn then true else false);
  wo_returned : sl_run s = RunReturned -> sl_wg s = 0
}.

Lemma conn_counted_range c : 0 <= conn_counted c <= 1.
Proof. by destruct c. Qed.

Lemma beat_counted_range b : 0 <= beat_counted b <= 1.
Proof. by destruct b. Qed.

Section kept.
Context (silent : bool) (most : nat).

Lemma wind_step_ok s s' : wind_ok s -> wind_step silent most s s' -> wind_ok s'.
Proof.
  intros Hok Hs. destruct Hs as [d l o c b a w r|d x o c b a w r|q d x o b a w r Hq|q d l x o b a w r
    |q n d l x o b a w r Hn|q d x o b a w r|p p' d l o d' l' o' x b a w r Hc|d l x o c b a w|d l x o c b a w
    |p p' d l o d' l' o' x c b a w Hc|d l x o c b a w Hx|p p' d l o d' l' o' x c b a w Hc|d l x o c b a
    |d l x o c a w r Hsi|d l x o c a w r|up d l x o c a w r|d l x o c a w r Hx|n a1 a2 d l x o c b w r
    |n a1 a2 l x o c b w r|n a1 a2 d l x o c b w r|n a1 a2 d l x o c b w r];
    destruct Hok as [W O C R B T]; unfold once_ok in O; cbn in *.
  all: try (inversion Hc; subst; cbn in * ).
  all: split; unfold once_ok; cbn.
  all: rewrite ?length_app in *; cbn in *.
  all: try lia; try done.
  all: try (intros E; first [by specialize (C E)|by specialize (R E)]).
  all: try (intros Hr; specialize (T Hr); try pose proof (conn_counted_range c); try pose proof (beat_counted_range b); lia).
  all: try (destruct b; cbn in *; lia || done).
  all: try (destruct O as (? & ?); split_and!; try done; lia).
  by destruct o; naive_solver.
Qed.

Lemma wind_reachable_ok s : wind_reachable silent most s -> wind_ok s.
Proof.
  assert (Hall : forall x y, rtc (wind_step silent most) x y -> wind_ok x -> wind_ok y).
  { induction 1; [done|]. eauto using wind_step_ok. }
  intros Hr. apply (Hall connected s Hr). by split.
Qed.

(** ** Nothing goes on after Run *)

(** No goroutine is left, and the connection is closed. *)
Record quiet (s : winding) : Prop := {
  qt_done : sl_done s = true;
  qt_lost : sl_lost s = true;
  qt_once : sl_once s = OnceDone;
  qt_conn : sl_conn s = ConnFinished;
  qt_beat : beat_counted (sl_beat s) = 0;
  qt_afters : sl_afters s = []
}.

Lemma returned_quiet s : wind_ok s -> sl_run s = RunReturned -> quiet s.
Proof.
  intros [W O C R B T] Hr. rewrite Hr in R. specialize (R eq_refl). specialize (T Hr). unfold once_ok in O. rewrite R in O.
  destruct O as (Hd & Hl & _). destruct s as [d l x o c b a w r]. cbn in *. subst.
  pose proof (conn_counted_range c). pose proof (beat_counted_range b).
  split; cbn; try done; [|lia|destruct a; [done|cbn in *; lia]]. destruct c; cbn in *; lia || done.
Qed.

Definition run_over (r : run_pc) : bool := match r with RunFailed | RunReturned => true | _ => false end.

Lemma quiet_stays s s' :
  quiet s -> run_over (sl_run s) = true -> wind_step silent most s s' -> quiet s' /\ sl_run s' = sl_run s.
Proof.
  intros [Q1 Q2 Q3 Q4 Q5 Q6] Hr Hs. destruct Hs; cbn in *; try done;
    try (by destruct a1); by split; [split|].
Qed.

(** ** The end of Run *)

(** The steps the goroutines can still take once the connection is lost. *)
Definition conn_work (c : station_pc) : nat :=
  match c with ConnServing q => 3 + q * (most + 3) | ConnClosing CloseWant => 2 | ConnClosing CloseMid => 1 | ConnFinished => 0 end.
Definition beat_work (b : beat_pc) : nat :=
  match b with BeatUnborn => 5 | BeatCall true => 4 | BeatWait => 3 | BeatCall false => 2 | BeatFinished => 0 end.
Definition after_work (p : after_pc) : nat := match p with AfterSettling n => n + 2 | AfterRunning n => n + 1 end.
Definition run_work (r : run_pc) : nat :=
  match r with
  | RunConnecting => 6 | RunServing => 5 | RunClosing CloseWant => 4 | RunClosing CloseMid => 3 | RunWaiting => 2
  | RunFailing CloseWant => 2 | RunFailing CloseMid => 1 | RunFailed | RunReturned => 0
  end.
Definition wind_work (s : winding) : nat :=
  (if sl_ctx s then 0 else 1) + conn_work (sl_conn s) + beat_work (sl_beat s) +
  sum_list_with after_work (sl_afters s) + run_work (sl_run s).

Definition winds (s : winding) : Prop := wind_ok s /\ sl_lost s = true.

Lemma wind_works s s' : winds s -> wind_step silent most s s' -> winds s' /\ (wind_work s' < wind_work s)%nat.
Proof.
  intros [Hok Hl] Hs. split; [split; [by eapply wind_step_ok|]|].
  - destruct Hs as [| | | | | |p p' d l o d' l' o' x b a w r Hc| | |p p' d l o d' l' o' x c b a w Hc|
      |p p' d l o d' l' o' x c b a w Hc| | | | | | | | |]; cbn in *; try done; by destruct Hc.
  - destruct Hs as [| | | | | |p p' d l o d' l' o' x b a w r Hc|d l x o c b a w| |p p' d l o d' l' o' x c b a w Hc|
      |p p' d l o d' l' o' x c b a w Hc| | | |up d l x o c a w r| | | | |]; unfold wind_work; cbn in *; subst;
      rewrite ?sum_list_with_app; cbn; try lia; try (by destruct Hc; cbn; lia); try done.
    + pose proof (wo_beat _ Hok) as B. cbn in B. destruct b; done || (cbn; lia).
    + destruct up; lia.
Qed.

(** Some goroutine can take a step, without a cancellation. *)
Definition moves (s : winding) : Prop := exists s', wind_step silent most s s' /\ sl_ctx s' = sl_ctx s.

Lemma after_moves p a d l x o c b w r : moves (mkWinding d l x o c b (p :: a) w r).
Proof.
  destruct p as [n|n]; eexists; split; [apply (ls_settled _ _ n [] a)|done|apply (ls_after_ends _ _ n [] a)|done].
Qed.

Lemma beat_moves b a d l x o c w r : beat_counted b = 1 -> moves (mkWinding d l x o c b a w r).
Proof.
  destruct b as [| |up|]; try done; intros _.
  - destruct silent eqn:Hs; eexists; split; [apply ls_beat_ends; by rewrite Hs|done|by apply ls_beat_fires|done].
  - eexists. split; [apply ls_beat_fails|done].
Qed.

Lemma conn_moves c b a d x o w r :
  once_ok (mkWinding d true x o c b a w r) -> c <> ConnFinished -> moves (mkWinding d true x o c b a w r).
Proof.
  unfold once_ok. intros O Hc. destruct c as [q|p|]; [eexists; split; [apply ls_conn_ends|done]| |done].
  assert (Hclose : forall d' l' o' p', close_step d true o p d' l' o' p' -> moves (mkWinding d true x o (ConnClosing p) b a w r)).
  { intros d' l' o' p' H. eexists. split; [by eapply ls_conn_closes|done]. }
  destruct o, p; cbn in O; try (destruct O as (? & ?); lia); try (destruct O as (? & ? & ?); lia);
    try (by eapply Hclose; constructor).
  destruct r as [|p| | |p| |]; try (destruct O; lia); destruct p; try (destruct O; lia);
    (eexists; split; [(eapply ls_failing + eapply ls_closing); apply cl_conn|done]).
Qed.

Lemma run_moves b d x o r :
  wind_ok (mkWinding d true x o ConnFinished b [] 0 r) -> run_over r = false ->
  moves (mkWinding d true x o ConnFinished b [] 0 r).
Proof.
  intros [W O C _ _ _] Hr. unfold once_ok in O. cbn in *. specialize (C eq_refl). subst o. destruct O as (-> & _ & O).
  destruct r as [|p| | |p| |]; try done; try (destruct p; [|done]); eexists; split.
  - apply ls_boot_fails.
  - done.
  - eapply ls_failing, cl_later.
  - done.
  - by apply ls_wakes.
  - done.
  - eapply ls_closing, cl_later.
  - done.
  - apply ls_returns.
  - done.
Qed.

Lemma wind_progress s : winds s -> moves s \/ (quiet s /\ run_over (sl_run s) = true).
Proof.
  intros [Hok Hl]. pose proof Hok as [W O C R B T]. destruct s as [d l x o c b a w r]. cbn in *. subst l.
  destruct a as [|p a]; [|left; apply after_moves].
  pose proof (beat_counted_range b). destruct (decide (beat_counted b = 1)); [left; by apply beat_moves|].
  assert (Hc : c = ConnFinished \/ c <> ConnFinished) by (destruct c; auto).
  destruct Hc as [->|Hc]; [|left; by apply conn_moves].
  assert (w = 0) as -> by (cbn in W; lia). destruct (run_over r) eqn:Hr; [right|left; by apply run_moves].
  split; [|done]. specialize (C eq_refl). unfold once_ok in O. cbn in *. subst o. destruct O as (Hd & _ & _).
  split; cbn; (done || lia).
Qed.

(** C39: Run waits for everything.  Once [Run] has returned without an error, every
    goroutine of the station is over and none starts any more: not the
    connection's, not the heartbeat's, no side effect of a command.  And it does
    return: from any point at which the connection is lost, the goroutines have
    only so many steps left, and they come to a stop only when all are over. *)
Theorem Run_waits s :
  wind_reachable silent most s ->
  (sl_run s = RunReturned -> forall s', rtc (wind_step silent most) s s' -> quiet s' /\ sl_run s' = RunReturned) /\
  (sl_lost s = true -> forall n s', nsteps (wind_step silent most) n s s' ->
     (n <= wind_work s)%nat /\ (moves s' \/ (quiet s' /\ run_over (sl_run s') = true))).
Proof.
  intros Hr. pose proof (wind_reachable_ok s Hr) as Hok. split.
  - intros Hret s' Hs. pose proof (returned_quiet s Hok Hret) as Hq.
    induction Hs as [s|s s1 s' Hs _ IH]; [done|].
    destruct (quiet_stays s s1 Hq) as [Hq1 Hr1]; [by rewrite Hret|done|].
    apply IH; [by eapply rtc_r| |congruence|done]. by eapply wind_step_ok.
  - intros Hl n s' Hs. destruct (nsteps_work (wind_step silent most) winds wind_work wind_works n s s') as [Hw Hn]; [done|done|].
    split; [lia|]. by apply wind_progress.
Qed.
End kept.

(** ** Instances *)

(** The peer drops the connection of a booted station, and Run returns. *)
Definition all_over : winding := mkWinding true true false OnceDone ConnFinished BeatFinished [] 0 RunReturned.

Lemma all_over_reachable : wind_reachable false 3 all_over.
Proof.
  eapply rtc_l; [apply ls_booted|].
  eapply rtc_l; [apply ls_lost|].
  eapply rtc_l; [apply ls_conn_ends|].
  eapply rtc_l; [apply ls_conn_closes, cl_first|].
  eapply rtc_l; [apply ls_conn_closes, cl_conn|].
  eapply rtc_l; [by apply ls_wakes|].
  eapply rtc_l; [apply ls_closing, cl_later|].
  eapply rtc_l; [by apply ls_beat_ends|].
  eapply rtc_l; [apply ls_returns|]. apply rtc_refl.
Defined.

Lemma Run_waits_witness : quiet all_over /\ sl_run all_over = RunReturned.
Proof. apply (proj1 (Run_waits false 3 all_over all_over_reachable)); [reflexivity|apply rtc_refl]. Defined.

(** [Close] itself waits for nothing: when the boot fails while a command's side
    effect runs, [Run] has closed the station and returned, and the side effect
    still has a call to make. *)
Example Close_does_not_wait :
  exists s, wind_reachable false 3 s /\ sl_run s = RunFailed /\ sl_done s = true /\ sl_afters s = [AfterRunning 1].
Proof.
  exists (mkWinding true true false OnceDone (ConnServing 0) BeatUnborn [AfterRunning 1] 2 RunFailed). split; [|done].
  eapply rtc_l; [apply (ls_read _ _ 0); unfold callBuffer; lia|].
  eapply rtc_l; [apply (ls_handle_after _ _ 0 1); lia|].
  eapply rtc_l; [apply (ls_settled _ _ 1 [] [])|].
  eapply rtc_l; [apply ls_boot_fails|].
  eapply rtc_l; [apply ls_failing, cl_first|].
  eapply rtc_l; [apply ls_failing, cl_conn|]. apply rtc_refl.
Qed.
