(* ===== verification/FakeClock.v ===== *)
(** * The clock the tests turn by hand (internal/clocktest/clock.go)

    It stands in for the clock and the timers core is made with, so what it
    promises is what the tests of core rely on.  A [*Timer] is shared: the clock's
    slice, whoever holds the handle to stop it, and an [Advance] on its way
    through the timers that came due.  So timers are cells of a store and a
    handle is their address; a callback is a value of any type. *)

From S2P Require Import Prelude GoLib GoTime GoSort Ocpp Errors Config State Bus World Core Persist Reservations CoreOps Load Samples.

Lemma filter_iff_in {A} (P Q : A -> Prop) `{forall x, Decision (P x)} `{forall x, Decision (Q x)} (l : list A) :
  (forall x, x ∈ l -> P x <-> Q x) -> filter P l = filter Q l.
Proof.
  induction l as [|x l IH]; intros Hpq; [done|]. rewrite !filter_cons, IH by (intros y Hy; apply Hpq; by right).
  specialize (Hpq x ltac:(left)). destruct (decide (P x)), (decide (Q x)); tauto.
Qed.

Lemma sorted_impl {A} (R S : A -> A -> Prop) l : (forall a b, R a b -> S a b) -> StronglySorted R l -> StronglySorted S l.
Proof. intros Hrs. induction 1 as [|x l _ IH Hx]; constructor; [done|]. eapply Forall_impl; [exact Hx|auto]. Qed.

Section clock.
Context {F : Type}.

(** [Timer]. *)
Record TestTimer := mkTestTimer { tc_at : Time; tc_fn : F; tc_stopped : bool }.

(** [Clock]; [ck_cells] and [ck_next] are the memory its timers live in. *)
Record Clock := mkClock {
  ck_now : Time;
  ck_timers : list nat;
  ck_cells : gmap nat TestTimer;
  ck_next : nat
}.

(** [New]. *)
Definition new_clock (start : Time) : Clock := mkClock start [] ∅ 0.

Definition stop_cell (t : TestTimer) : TestTimer := mkTestTimer (tc_at t) (tc_fn t) true.
Definition set_cells (m : gmap nat TestTimer) (c : Clock) : Clock := mkClock (ck_now c) (ck_timers c) m (ck_next c).

(** [Timer.Stop]. *)
Definition Timer_Stop (h : nat) (c : Clock) : bool * Clock :=
  match ck_cells c !! h with
  | Some t => if tc_stopped t then (false, c) else (true, set_cells (<[h := stop_cell t]> (ck_cells c)) c)
  | None => (false, c)
  end.

Definition AfterFunc (d : Z) (fn : F) (c : Clock) : nat * Clock :=
  (ck_next c,
   mkClock (ck_now c) (ck_timers c ++ [ck_next c])
     (<[ck_next c := mkTestTimer (TimeAdd (ck_now c) d) fn false]> (ck_cells c)) (S (ck_next c))).

(** The loop of [Advance]: the timers that are due, which are stopped, those that
    are kept, and the store. *)
Fixpoint sweep (now : Time) (l : list nat) (m : gmap nat TestTimer) : list nat * list nat * gmap nat TestTimer :=
  match l with
  | [] => ([], [], m)
  | h :: l =>
    match m !! h with
    | None => sweep now l m
    | Some t =>
      if tc_stopped t then sweep now l m
      else if negb (After (tc_at t) now) then
        let '(due, pending, m') := sweep now l (<[h := stop_cell t]> m) in (h :: due, pending, m')
      else
        let '(due, pending, m') := sweep now l m in (due, h :: pending, m')
    end
  end.

Definition deadline (m : gmap nat TestTimer) (h : nat) : Z :=
  match m !! h with Some t => instant (tc_at t) | None => 0 end.

(** [Advance] up to the callbacks: the timers to call, in the order of the calls. *)
Definition Advance (d : Z) (c : Clock) : list nat * Clock :=
  let now := TimeAdd (ck_now c) d in
  let '(due, pending, m) := sweep now (ck_timers c) (ck_cells c) in
  (SliceStable (deadline m) due, mkClock now pending m (ck_next c)).

Definition is_live (m : gmap nat TestTimer) (h : nat) : bool :=
  match m !! h with Some t => negb (tc_stopped t) | None => false end.

Definition Clock_Pending (c : Clock) : nat :=
  foldl (fun n h => if is_live (ck_cells c) h then S n else n) O (ck_timers c).

(** ** What the clock keeps *)

(** The timers that have neither fired nor been stopped. *)
Definition live (c : Clock) (h : nat) (t : TestTimer) : Prop := ck_cells c !! h = Some t /\ tc_stopped t = false.

Record clock_ok (c : Clock) : Prop := {
  co_order : StronglySorted Nat.lt (ck_timers c);
  co_cells : forall h, is_Some (ck_cells c !! h) <-> (h < ck_next c)%nat;
  co_timers : forall h, h ∈ ck_timers c -> (h < ck_next c)%nat;
  co_live : forall h t, live c h t -> h ∈ ck_timers c
}.

Lemma new_clock_ok start : clock_ok (new_clock start).
Proof.
  split; cbn; [constructor| |by intros h ?%not_elem_of_nil|by intros h t [E _]].
  intros h. rewrite lookup_empty. split; [by intros []|lia].
Qed.

Lemma sorted_snoc l n : StronglySorted Nat.lt l -> (forall h, h ∈ l -> (h < n)%nat) -> StronglySorted Nat.lt (l ++ [n]).
Proof.
  induction 1 as [|x l Hl IH Hx]; intros Hn; [by constructor; [constructor|]|]. cbn. constructor.
  - apply IH. intros h Hh. apply Hn. by right.
  - apply Forall_app. split; [done|]. constructor; [|done]. apply Hn. by left.
Qed.

Lemma AfterFunc_ok d fn c : clock_ok c -> clock_ok (AfterFunc d fn c).2.
Proof.
  intros [C1 C2 C3 C4]. split; cbn.
  - by apply sorted_snoc.
  - intros h. destruct (decide (h = ck_next c)) as [->|Hne].
    + rewrite lookup_insert_eq. split; [lia|by eexists].
    + rewrite lookup_insert_ne by done. rewrite C2. lia.
  - intros h [Hh%C3| ->%list_elem_of_singleton]%elem_of_app; lia.
  - intros h t [Hc Hs]. cbn in Hc. apply elem_of_app. destruct (decide (h = ck_next c)) as [->|Hne].
    + right. by apply list_elem_of_singleton.
    + left. rewrite lookup_insert_ne in Hc by done. by apply (C4 h t).
Qed.

Lemma AfterFunc_live d fn c h t : clock_ok c ->
  live (AfterFunc d fn c).2 h t <->
  live c h t \/ (h = (AfterFunc d fn c).1 /\ t = mkTestTimer (TimeAdd (ck_now c) d) fn false).
Proof.
  intros [_ C2 _ _]. unfold live. cbn. destruct (decide (h = ck_next c)) as [->|Hne].
  - rewrite lookup_insert_eq. split; [intros [[= <-] _]; by right|intros [[E _]|[_ ->]]; [|done]].
    assert (is_Some (ck_cells c !! ck_next c)) as Hx%C2 by by eexists. lia.
  - rewrite lookup_insert_ne by done. split; [by left|by intros [?|[? _]]].
Qed.

Lemma Stop_live h c h' t : live (Timer_Stop h c).2 h' t <-> live c h' t /\ h' <> h.
Proof.
  unfold Timer_Stop, live. destruct (ck_cells c !! h) as [t0|] eqn:E; [destruct (tc_stopped t0) eqn:Es|]; cbn.
  - split; [intros [E' Hs]; split; [done|]|by intros [? _]]. intros ->. congruence.
  - destruct (decide (h' = h)) as [->|Hne].
    + rewrite lookup_insert_eq. split; [by intros [[= <-] Hs]|by intros [_ ?]].
    + rewrite lookup_insert_ne by done. split; [by intros [? ?]|by intros [? _]].
  - split; [intros [E' Hs]; split; [done|]|by intros [? _]]. intros ->. congruence.
Qed.

(** [Stop] says whether it was in time. *)
Lemma Stop_answer h c : (Timer_Stop h c).1 = true <-> exists t, live c h t.
Proof.
  unfold Timer_Stop, live. destruct (ck_cells c !! h) as [t0|] eqn:E; [destruct (tc_stopped t0) eqn:Es|]; cbn.
  - split; [done|]. intros (t & [= <-] & Hs). congruence.
  - split; [|done]. intros _. by exists t0.
  - split; [done|]. by intros (t & ? & _).
Qed.

Lemma Stop_ok h c : clock_ok c -> clock_ok (Timer_Stop h c).2.
Proof.
  intros Hc. pose proof Hc as [C1 C2 C3 C4]. split.
  - unfold Timer_Stop. by repeat case_match.
  - intros h'. unfold Timer_Stop. destruct (ck_cells c !! h) as [t|] eqn:E; [destruct (tc_stopped t)|]; cbn; try apply C2.
    destruct (decide (h' = h)) as [->|Hne]; [|rewrite lookup_insert_ne by done; apply C2].
    rewrite lookup_insert_eq. rewrite <- C2, E. split; intros _; by eexists.
  - intros h'. unfold Timer_Stop. repeat case_match; apply C3.
  - intros h' t [Hl _]%Stop_live. apply C4 in Hl. unfold Timer_Stop. by repeat case_match.
Qed.

(** ** Advance *)

Definition is_due (now : Time) (m : gmap nat TestTimer) (h : nat) : Prop :=
  exists t, m !! h = Some t /\ tc_stopped t = false /\ After (tc_at t) now = false.
Definition is_kept (now : Time) (m : gmap nat TestTimer) (h : nat) : Prop :=
  exists t, m !! h = Some t /\ tc_stopped t = false /\ After (tc_at t) now = true.

#[local] Instance is_due_dec now m h : Decision (is_due now m h).
Proof.
  unfold is_due. destruct (m !! h) as [t|]; [|right; by intros (t & ? & _)].
  destruct (decide (tc_stopped t = false /\ After (tc_at t) now = false)) as [?|Hn]; [left; by exists t|].
  right. intros (t' & [= <-] & ?). by apply Hn.
Defined.

#[local] Instance is_kept_dec now m h : Decision (is_kept now m h).
Proof.
  unfold is_kept. destruct (m !! h) as [t|]; [|right; by intros (t & ? & _)].
  destruct (decide (tc_stopped t = false /\ After (tc_at t) now = true)) as [?|Hn]; [left; by exists t|].
  right. intros (t' & [= <-] & ?). by apply Hn.
Defined.

Lemma due_ext now m m' h : m !! h = m' !! h -> is_due now m h <-> is_due now m' h.
Proof. unfold is_due. by intros ->. Qed.

Lemma kept_ext now m m' h : m !! h = m' !! h -> is_kept now m h <-> is_kept now m' h.
Proof. unfold is_kept. by intros ->. Qed.

Lemma sweep_spec now l : NoDup l -> forall m due kept m',
  sweep now l m = (due, kept, m') ->
  due = filter (is_due now m) l /\ kept = filter (is_kept now m) l /\
  (forall h, m' !! h = if decide (h ∈ due) then stop_cell <$> m !! h else m !! h).
Proof.
  induction 1 as [|h l Hout Hnd IH]; intros m due kept m' E; cbn [sweep] in E.
  { injection E as <- <- <-. split; [done|]. split; [done|]. intros h. by rewrite decide_False by apply not_elem_of_nil. }
  rewrite !filter_cons. destruct (m !! h) as [t|] eqn:Et.
  2: { rewrite !decide_False by (intros (t & ? & _); congruence). by apply IH. }
  destruct (tc_stopped t) eqn:Es.
  { rewrite !decide_False by (intros (t' & ? & ? & _); congruence). by apply IH. }
  destruct (After (tc_at t) now) eqn:Ea; cbn [negb] in E.
  - destruct (sweep now l m) as [[due0 kept0] m0] eqn:E0. injection E as <- <- <-.
    destruct (IH m _ _ _ E0) as (-> & -> & Hm). rewrite decide_False by (intros (t' & ? & _ & ?); congruence).
    by rewrite decide_True by (exists t; done).
  - destruct (sweep now l _) as [[due0 kept0] m0] eqn:E0. injection E as <- <- <-.
    destruct (IH _ _ _ _ E0) as (-> & -> & Hm). rewrite decide_True by (exists t; done).
    rewrite decide_False by (intros (t' & ? & _ & ?); congruence).
    assert (Hdue : filter (is_due now (<[h:=stop_cell t]> m)) l = filter (is_due now m) l).
    { apply filter_iff_in. intros x Hx. apply due_ext. rewrite lookup_insert_ne; [done|]. by intros ->. }
    rewrite Hdue in Hm |- *. split; [done|]. split.
    + apply filter_iff_in. intros x Hx. apply kept_ext. rewrite lookup_insert_ne; [done|]. by intros ->.
    + intros h'. rewrite Hm. destruct (decide (h' = h)) as [->|Hne].
      * rewrite lookup_insert_eq, decide_False by (intros [_ ?]%list_elem_of_filter; done).
        rewrite decide_True by left. by rewrite Et.
      * rewrite lookup_insert_ne by done.
        destruct (decide (h' ∈ filter (is_due now m) l)) as [Hd|Hd], (decide (h' ∈ h :: _)) as [Hd'|Hd']; try done.
        -- destruct Hd'. by right.
        -- by apply elem_of_cons in Hd' as [?|?].
Qed.

(** The order of the calls: by deadline, and as they were scheduled where
    deadlines are equal. *)
Definition called_before (m : gmap nat TestTimer) (h h' : nat) : Prop :=
  deadline m h < deadline m h' \/ (deadline m h = deadline m h' /\ (h < h')%nat).

Record advanced (d : Z) (c c' : Clock) (due : list nat) : Prop := {
  av_now : ck_now c' = TimeAdd (ck_now c) d;
  av_next : ck_next c' = ck_next c;
  av_due : forall h, h ∈ due <-> exists t, live c h t /\ After (tc_at t) (ck_now c') = false;
  av_order : StronglySorted (called_before (ck_cells c)) due;
  av_live : forall h t, live c' h t <-> live c h t /\ After (tc_at t) (ck_now c') = true;
  av_cells : forall h, ck_cells c' !! h = if decide (h ∈ due) then stop_cell <$> ck_cells c !! h else ck_cells c !! h;
  av_ok : clock_ok c'
}.

Lemma sorted_NoDup l : StronglySorted Nat.lt l -> NoDup l.
Proof.
  induction 1 as [|x l Hl IH Hx]; constructor; [|done]. rewrite Forall_forall in Hx. intros Hin%Hx. lia.
Qed.

Lemma sorted_filter (P : nat -> Prop) `{forall h, Decision (P h)} l : StronglySorted Nat.lt l -> StronglySorted Nat.lt (filter P l).
Proof.
  induction 1 as [|x l Hl IH Hx]; [constructor|]. rewrite filter_cons. case_decide; [|done].
  constructor; [done|]. rewrite Forall_forall in Hx |- *. intros y [_ Hy]%list_elem_of_filter. by apply Hx.
Qed.

Lemma Advance_spec d c due c' : clock_ok c -> Advance d c = (due, c') -> advanced d c c' due.
Proof.
  intros [C1 C2 C3 C4]. unfold Advance. destruct (sweep _ _ _) as [[due0 kept] m] eqn:E. intros [= <- <-].
  destruct (sweep_spec _ _ (sorted_NoDup _ C1) _ _ _ _ E) as (Hdue & Hkept & Hm).
  set (now := TimeAdd (ck_now c) d) in *.
  assert (Hin : forall h, h ∈ SliceStable (deadline m) due0 <-> h ∈ due0) by (intros h; apply elem_of_SliceStable).
  assert (Hiff : forall h, h ∈ due0 <-> exists t, live c h t /\ After (tc_at t) now = false).
  { intros h. rewrite Hdue, list_elem_of_filter. unfold is_due, live. split.
    - intros [(t & ? & ? & ?) _]. by exists t.
    - intros (t & [? ?] & ?). split; [by exists t|]. by apply (C4 h t). }
  assert (Hdl : forall h, deadline m h = deadline (ck_cells c) h).
  { intros h. unfold deadline. rewrite Hm. destruct (decide (h ∈ due0)); [|done]. by destruct (ck_cells c !! h). }
  assert (Hlive : forall h t, live (mkClock now kept m (ck_next c)) h t <-> live c h t /\ After (tc_at t) now = true).
  { intros h t. unfold live. cbn. rewrite Hm. destruct (decide (h ∈ due0)) as [Hd|Hd].
    - apply Hiff in Hd as (t0 & [E0 Hs0] & Ha0). rewrite E0. cbn. split; [by intros [[= <-] ?]|intros [[[= <-] _] ?]; congruence].
    - split; [|by intros [? _]]. intros [Et Hs]. split; [done|]. destruct (After (tc_at t) now) eqn:Ea; [done|].
      destruct Hd. apply Hiff. by exists t. }
  split; try done; cbn.
  - intros h. by rewrite Hin.
  - assert (Hs : StronglySorted Nat.lt due0) by (rewrite Hdue; by apply sorted_filter).
    eapply sorted_impl; [|apply (SliceStable_keeps (deadline m) _ _ Hs)].
    intros h h' [Ha Hr]. unfold called_before. rewrite <- !Hdl. unfold ascending in *. cbn in *.
    rewrite !Z.leb_le in *. destruct (Z.eq_dec (deadline m h) (deadline m h')); [right|left; lia].
    split; [done|]. apply Hr. lia.
  - intros h. rewrite Hm. by destruct (decide (h ∈ due0)) as [Hd|Hd]; [rewrite decide_True by by rewrite Hin|rewrite decide_False by by rewrite Hin].
  - split; cbn.
    + rewrite Hkept. by apply sorted_filter.
    + intros h. rewrite Hm, <- C2. destruct (decide (h ∈ due0)); [|done]. by rewrite fmap_is_Some.
    + intros h. rewrite Hkept. intros [_ Hh]%list_elem_of_filter. by apply C3.
    + intros h t Hl. pose proof (proj1 (Hlive h t) Hl) as [[E0 Hs0] Ha0]. rewrite Hkept. apply list_elem_of_filter.
      split; [by exists t|]. by apply (C4 h t).
Qed.

(** [Pending] counts the live timers. *)
Lemma Pending_counts c l : clock_ok c -> NoDup l -> (forall h, h ∈ l <-> exists t, live c h t) -> Clock_Pending c = length l.
Proof.
  intros Hc Hl Hin. assert (Hfold : forall l0 n,
    foldl (fun n h => if is_live (ck_cells c) h then S n else n) n l0 =
    (n + length (filter (fun h => is_live (ck_cells c) h = true) l0))%nat).
  { induction l0 as [|h l0 IH]; intros n; cbn [foldl]; [cbn; lia|]. rewrite IH, filter_cons.
    destruct (is_live (ck_cells c) h) eqn:E; [rewrite decide_True by done|rewrite decide_False by done]; cbn; lia. }
  unfold Clock_Pending. rewrite Hfold. cbn. apply Permutation_length, NoDup_Permutation; [|done|].
  - apply NoDup_filter, sorted_NoDup, Hc.
  - intros h. rewrite list_elem_of_filter, Hin. unfold is_live, live. split.
    + intros [Hlive _]. destruct (ck_cells c !! h) as [t|] eqn:E; [|done]. exists t. split; [done|]. by destruct (tc_stopped t).
    + intros (t & E & Hs). split; [by rewrite E, Hs|]. by apply (co_live c Hc h t).
Qed.

(** ** The clock among goroutines

    [Advance] gives up the lock before it calls back, so anything can happen to
    the clock between two of its callbacks: other goroutines', or the callbacks'
    own, calls.  [cy_running] are the calls each [Advance] under way has still to
    make; [cy_stops] and [cy_ran] remember which timers a [Stop] was in time for
    and which have been called. *)
Record clock_sys := mkClockSys {
  cy_clock : Clock;
  cy_running : list (list nat);
  cy_stops : list nat;
  cy_ran : list nat
}.

Inductive clock_event :=
| EvAfter (d : Z) (fn : F) (h : nat)
| EvStop (h : nat) (ok : bool)
| EvAdvance (d : Z) (due : list nat)
| EvRun (h : nat) (fn : F).

Inductive clock_step : clock_event -> clock_sys -> clock_sys -> Prop :=
| ck_after d fn h c c' q st rn :
    AfterFunc d fn c = (h, c') -> clock_step (EvAfter d fn h) (mkClockSys c q st rn) (mkClockSys c' q st rn)
| ck_stop h (ok : bool) c c' q st rn :
    (h < ck_next c)%nat -> Timer_Stop h c = (ok, c') ->
    clock_step (EvStop h ok) (mkClockSys c q st rn) (mkClockSys c' q (if ok then h :: st else st) rn)
| ck_advance d due c c' q st rn :
    Advance d c = (due, c') -> clock_step (EvAdvance d due) (mkClockSys c q st rn) (mkClockSys c' (due :: q) st rn)
| ck_run h t l c q1 q2 st rn :
    ck_cells c !! h = Some t ->
    clock_step (EvRun h (tc_fn t)) (mkClockSys c (q1 ++ (h :: l) :: q2) st rn) (mkClockSys c (q1 ++ l :: q2) st (h :: rn)).

Inductive clock_reachable (start : Time) : list clock_event -> clock_sys -> Prop :=
| cy_new : clock_reachable start [] (mkClockSys (new_clock start) [] [] [])
| cy_step evs ev s s' :
    clock_reachable start evs s -> clock_step ev s s' -> clock_reachable start (evs ++ [ev]) s'.

(** Every timer is in one place: live, stopped in time, about to be called, or
    called. *)
Definition spent (s : clock_sys) : list nat := cy_stops s ++ concat (cy_running s) ++ cy_ran s.

Record sys_ok (s : clock_sys) : Prop := {
  so_clock : clock_ok (cy_clock s);
  so_once : NoDup (spent s);
  so_place : forall h, h ∈ spent s <-> exists t, ck_cells (cy_clock s) !! h = Some t /\ tc_stopped t = true
}.

Lemma spent_run h l q1 q2 (st rn : list nat) :
  st ++ concat (q1 ++ l :: q2) ++ h :: rn ≡ₚ st ++ concat (q1 ++ (h :: l) :: q2) ++ rn.
Proof. rewrite !concat_app. cbn. solve_Permutation. Qed.

Lemma sys_ok_spent s s' :
  clock_ok (cy_clock s') -> ck_cells (cy_clock s') = ck_cells (cy_clock s) -> spent s' ≡ₚ spent s -> sys_ok s -> sys_ok s'.
Proof.
  intros Hc Hm Hp [_ S2 S3]. split; [done|by rewrite Hp|]. intros h. by rewrite Hp, Hm.
Qed.

Lemma order_NoDup m l : StronglySorted (called_before m) l -> NoDup l.
Proof.
  induction 1 as [|x l Hl IH Hx]; constructor; [|done]. rewrite Forall_forall in Hx. intros [?|[_ ?]]%Hx; lia.
Qed.

Lemma clock_step_ok ev s s' : sys_ok s -> clock_step ev s s' -> sys_ok s'.
Proof.
  intros Hs Hst. pose proof Hs as [S1 S2 S3].
  destruct Hst as [d fn h c c' q st rn E|h ok c c' q st rn Hh E|d due c c' q st rn E|h t l c q1 q2 st rn E];
    unfold spent in *; cbn in *.
  - pose proof (AfterFunc_ok d fn c S1) as Hc. rewrite E in Hc. split; cbn; [done|done|]. intros h'. unfold spent. cbn.
    rewrite S3. injection E as <- <-. cbn. destruct (decide (h' = ck_next c)) as [->|Hne]; [|by rewrite lookup_insert_ne].
    rewrite lookup_insert_eq. split; [|by intros (t & [= <-] & ?)]. intros (t & Et & _).
    assert (is_Some (ck_cells c !! ck_next c)) as Hx%(co_cells c S1) by by eexists. lia.
  - pose proof (Stop_ok h c S1) as Hc. pose proof (Stop_answer h c) as Ha. rewrite E in Hc, Ha. cbn in Ha.
    unfold Timer_Stop in E. destruct (ck_cells c !! h) as [t|] eqn:Et; [destruct (tc_stopped t) eqn:Es|];
      injection E as <- <-; cbn in *; [by apply (sys_ok_spent (mkClockSys c q st rn))| |by apply (sys_ok_spent (mkClockSys c q st rn))].
    split; [done|..]; unfold spent; cbn.
    + constructor; [|done]. rewrite S3. intros (t' & ? & ?). congruence.
    + intros h'. rewrite elem_of_cons, S3. destruct (decide (h' = h)) as [->|Hne].
      * rewrite lookup_insert_eq. split; [intros _; by eexists|by left].
      * rewrite lookup_insert_ne by done. split; [by intros [?|?]|by right].
  - pose proof (Advance_spec d c due c' S1 E) as [A1 A2 A3 A4 A5 A6 A7]. split; cbn; [done|..]; unfold spent; cbn.
    + assert (Hp : st ++ (due ++ concat q) ++ rn ≡ₚ due ++ st ++ concat q ++ rn) by solve_Permutation.
      rewrite Hp. apply NoDup_app. split; [by eapply order_NoDup|]. split; [|done].
      intros h (t & [Et Hs'] & _)%A3. rewrite S3. intros (t' & ? & ?). congruence.
    + intros h. assert (Hin : h ∈ st ++ (due ++ concat q) ++ rn <-> h ∈ due \/ h ∈ st ++ concat q ++ rn)
        by (rewrite !elem_of_app; tauto).
      rewrite Hin, S3, A6. destruct (decide (h ∈ due)) as [Hd|Hd].
      * split; [intros _|by left]. apply A3 in Hd as (t & [Et _] & _). rewrite Et. by eexists.
      * split; [by intros [?|?]|by right].
  - apply (sys_ok_spent (mkClockSys c (q1 ++ (h :: l) :: q2) st rn)); [done|done| |done]. apply spent_run.
Qed.

Lemma clock_reachable_ok start evs s : clock_reachable start evs s -> sys_ok s.
Proof.
  induction 1 as [|evs ev s s' _ IH Hs]; [|by eapply clock_step_ok]. split; cbn; [apply new_clock_ok|constructor|].
  intros h. unfold spent. cbn. rewrite lookup_empty. split; [by intros ?%not_elem_of_nil|by intros (t & ? & _)].
Qed.

(** Every timer is called at most once, and exactly if it should be.  However
    any number of goroutines call the clock, between the callbacks too, a timer is
    live, was stopped in time, waits for its call, or has had it, and never two of
    these.  [Stop] answers true exactly where it has kept a call from happening.
    [Advance] picks exactly the live timers whose deadline the new time has
    reached, and calls them in the order of their deadlines, equal ones as they
    were scheduled; the others stay live. *)
Theorem timers_called_once start evs s :
  clock_reachable start evs s ->
  NoDup (cy_stops s ++ concat (cy_running s) ++ cy_ran s) /\
  (forall h, (h < ck_next (cy_clock s))%nat ->
     (exists t, live (cy_clock s) h t) \/ h ∈ cy_stops s \/ h ∈ concat (cy_running s) \/ h ∈ cy_ran s) /\
  (forall h, (Timer_Stop h (cy_clock s)).1 = true -> h ∉ spent s) /\
  (forall d due c', Advance d (cy_clock s) = (due, c') -> advanced d (cy_clock s) c' due).
Proof.
  intros [S1 S2 S3]%clock_reachable_ok. split; [done|]. split; [|split].
  - intros h [t Et]%(co_cells _ S1). destruct (tc_stopped t) eqn:Es; [right|left; by exists t].
    assert (Hin : h ∈ spent s) by (apply S3; by exists t). unfold spent in Hin. by rewrite !elem_of_app in Hin.
  - intros h (t & Et & Es)%Stop_answer. rewrite S3. intros (t' & ? & ?). congruence.
  - intros d due c' E. by apply Advance_spec.
Qed.
End clock.

Arguments TestTimer : clear implicits.
Arguments Clock : clear implicits.
Arguments clock_sys : clear implicits.
Arguments clock_event : clear implicits.

(** ** The timers of core

    [World] has a timer as an armed entry that becomes an expiring call; the model
    of core is proved against that, and this clock is one that behaves so. *)
Abbreviation timer_event := (clock_event (Z * Time)).

Definition timer_call (t : Timer) : Z * Time := (tm_id t, tm_expiresAt t).

Definition fire_all (due : list nat) (w : World) : World := foldl (fun w h => (fire h w).2) w due.

(** What [World] promises of each event. *)
Inductive timer_spec : timer_event -> World -> World -> Prop :=
| ts_after d id at_ h w w' : afterFunc d id at_ w = (h, w') -> timer_spec (EvAfter d (id, at_) h) w w'
| ts_stop h w : timer_spec (EvStop h (bool_decide (is_Some (timers w !! h)))) w (Stop h w).2
| ts_advance d due w :
    NoDup due -> (forall h, h ∈ due -> is_Some (timers w !! h)) -> timer_spec (EvAdvance d due) w (fire_all due w)
| ts_run h fn w :
    fn ∈ expiring w -> timer_spec (EvRun h fn) w (set_expiring (remove_first fn (expiring w)) w).

Inductive timer_run (w0 : World) : list timer_event -> World -> Prop :=
| tr_start : timer_run w0 [] w0
| tr_step evs ev w w' : timer_run w0 evs w -> timer_spec ev w w' -> timer_run w0 (evs ++ [ev]) w'.

Definition live_call (c : Clock (Z * Time)) (h : nat) : option (Z * Time) :=
  match ck_cells c !! h with
  | Some t => if tc_stopped t then None else Some (tc_fn t)
  | None => None
  end.

Definition running_calls (s : clock_sys (Z * Time)) : list (Z * Time) :=
  omap (fun h => tc_fn <$> ck_cells (cy_clock s) !! h) (concat (cy_running s)).

Record tracks (s : clock_sys (Z * Time)) (w : World) : Prop := {
  tk_next : next_timer w = ck_next (cy_clock s);
  tk_timers : forall h, timer_call <$> timers w !! h = live_call (cy_clock s) h;
  tk_calls : expiring w ≡ₚ running_calls s
}.

Lemma live_call_live c h f : live_call c h = Some f <-> exists t, live c h t /\ tc_fn t = f.
Proof.
  unfold live_call, live. destruct (ck_cells c !! h) as [t|]; [destruct (tc_stopped t) eqn:E|].
  - split; [done|]. intros (t' & [[= <-] ?] & _). congruence.
  - split; [intros [= <-]; by exists t|]. by intros (t' & [[= <-] _] & <-).
  - split; [done|]. by intros (t' & [? _] & _).
Qed.

Lemma remove_first_perm p l : p ∈ l -> l ≡ₚ p :: remove_first p l.
Proof.
  induction l as [|q l IH]; [by intros ?%not_elem_of_nil|]. intros Hp. cbn. case_decide as Hq; [by subst|].
  apply elem_of_cons in Hp as [->|Hp]; [done|]. rewrite IH at 1 by done. by constructor.
Qed.

Lemma omap_ext_in {A B} (f g : A -> option B) (l : list A) : (forall x, x ∈ l -> f x = g x) -> omap f l = omap g l.
Proof.
  intros Hfg. apply list_omap_ext. induction l as [|x l IH]; constructor; [apply Hfg; by left|].
  apply IH. intros y Hy. apply Hfg. by right.
Qed.

Lemma fire_all_fields due w : NoDup due -> (forall h, h ∈ due -> is_Some (timers w !! h)) ->
  next_timer (fire_all due w) = next_timer w /\
  (forall h, timers (fire_all due w) !! h = if decide (h ∈ due) then None else timers w !! h) /\
  expiring (fire_all due w) ≡ₚ omap (fun h => timer_call <$> timers w !! h) due ++ expiring w.
Proof.
  intros Hnd. revert w. induction Hnd as [|h l Hh Hnd IH]; intros w Hin.
  { split; [done|]. split; [|done]. intros h. by rewrite decide_False by apply not_elem_of_nil. }
  destruct (Hin h) as [t Et]; [by left|]. cbn [fire_all foldl]. fold (fire_all l (fire h w).2).
  assert (Ef : (fire h w).2 = set_expiring (timer_call t :: expiring w) (set_timers (delete h (timers w)) (next_timer w) w)).
  { unfold fire. rewrite M_bind_eq. cbn. by rewrite Et. }
  assert (Hin' : forall h', h' ∈ l -> timers (fire h w).2 !! h' = timers w !! h').
  { intros h' Hh'. rewrite Ef. cbn. rewrite lookup_delete_ne; [done|]. by intros ->. }
  destruct (IH (fire h w).2) as (I1 & I2 & I3).
  { intros h' Hh'. rewrite Hin' by done. apply Hin. by right. }
  rewrite I1, I3. split; [by rewrite Ef|]. split.
  - intros h'. rewrite I2, Ef. cbn. destruct (decide (h' = h)) as [->|Hne].
    + rewrite (decide_False _ _ Hh), decide_True by left. by rewrite lookup_delete_eq.
    + rewrite lookup_delete_ne by done. destruct (decide (h' ∈ l)) as [Hl|Hl]; [by rewrite decide_True by by right|].
      by rewrite decide_False by by intros [?|?]%elem_of_cons.
  - rewrite (omap_ext_in _ (fun h' => timer_call <$> timers w !! h')) by (intros h' Hh'; by rewrite Hin').
    rewrite Ef. cbn. rewrite Et. cbn. by rewrite Permutation_middle.
Qed.

Lemma AfterFunc_tracks d fn c q st rn w :
  sys_ok (mkClockSys c q st rn) -> tracks (mkClockSys c q st rn) w ->
  let '(h, c') := AfterFunc d fn c in
  tracks (mkClockSys c' q st rn) (afterFunc d fn.1 fn.2 w).2 /\ (afterFunc d fn.1 fn.2 w).1 = h.
Proof.
  intros [S1 _ S3] [T1 T2 T3]. cbn in *. destruct fn as [id at_]. split; [|done].
  assert (Hnew : ck_cells c !! ck_next c = None).
  { apply eq_None_not_Some. intros Hx%(co_cells c S1). lia. }
  split; cbn; [by rewrite T1| |].
  - intros h. unfold live_call. cbn. rewrite T1. destruct (decide (h = ck_next c)) as [->|Hne].
    + by rewrite !lookup_insert_eq.
    + rewrite !lookup_insert_ne by done. apply T2.
  - rewrite T3. unfold running_calls. cbn. apply reflexive_eq, omap_ext_in. intros h Hh. rewrite lookup_insert_ne; [done|]. intros <-.
    destruct (proj1 (S3 (ck_next c))) as (t & Et & _); [|by rewrite Hnew in Et]. unfold spent. cbn. rewrite !elem_of_app. tauto.
Qed.

Lemma Stop_tracks h c q st st' rn w :
  tracks (mkClockSys c q st rn) w -> tracks (mkClockSys (Timer_Stop h c).2 q st' rn) (Stop h w).2.
Proof.
  intros [T1 T2 T3]. cbn in *. unfold Timer_Stop. split; cbn.
  - rewrite T1. by repeat case_match.
  - intros h'. destruct (decide (h' = h)) as [->|Hne].
    + rewrite lookup_delete_eq. unfold live_call. destruct (ck_cells c !! h) as [t|] eqn:E; [destruct (tc_stopped t) eqn:Es|]; cbn.
      * by rewrite E, Es.
      * by rewrite lookup_insert_eq.
      * by rewrite E.
    + rewrite lookup_delete_ne, T2 by done. unfold live_call.
      destruct (ck_cells c !! h) as [t|]; [destruct (tc_stopped t)|]; cbn; [done| |done]. by rewrite lookup_insert_ne.
  - rewrite T3. unfold running_calls. cbn. apply reflexive_eq, omap_ext_in. intros h' _.
    destruct (ck_cells c !! h) as [t|] eqn:E; [destruct (tc_stopped t)|]; cbn; [done| |done].
    destruct (decide (h' = h)) as [->|Hne]; [by rewrite E, lookup_insert_eq|by rewrite lookup_insert_ne].
Qed.

Lemma Advance_tracks d c due c' q st rn w :
  clock_ok c -> Advance d c = (due, c') -> tracks (mkClockSys c q st rn) w ->
  tracks (mkClockSys c' (due :: q) st rn) (fire_all due w) /\ NoDup due /\ (forall h, h ∈ due -> is_Some (timers w !! h)).
Proof.
  intros Hc E [T1 T2 T3]. cbn in *. destruct (Advance_spec d c due c' Hc E) as [A1 A2 A3 A4 A5 A6 A7].
  assert (Hnd : NoDup due) by by eapply order_NoDup.
  assert (Hcall : forall h, h ∈ due -> timer_call <$> timers w !! h = tc_fn <$> ck_cells c !! h).
  { intros h (t & [Et Hs] & _)%A3. rewrite T2. unfold live_call. by rewrite Et, Hs. }
  assert (Harm : forall h, h ∈ due -> is_Some (timers w !! h)).
  { intros h Hh. pose proof (Hcall h Hh) as Hx. apply A3 in Hh as (t & [Et _] & _). rewrite Et in Hx.
    destruct (timers w !! h); [by eexists|done]. }
  split; [|done]. destruct (fire_all_fields due w Hnd Harm) as (F1 & F2 & F3).
  split; cbn; [by rewrite F1, A2| |].
  - intros h. rewrite F2. apply option_eq. intros f. rewrite live_call_live. destruct (decide (h ∈ due)) as [Hd|Hd].
    + split; [done|]. intros (t & [[Et Hs] Ha]%A5 & _). apply A3 in Hd as (t' & [Et' _] & Ha'). congruence.
    + rewrite T2, live_call_live. split; intros (t & Hl & <-); exists t; (split; [|done]).
      * apply A5. split; [done|]. destruct (After (tc_at t) (ck_now c')) eqn:Ea; [done|]. destruct Hd. apply A3. by exists t.
      * by apply A5 in Hl as [? _].
  - rewrite F3, T3. unfold running_calls. cbn. rewrite omap_app. f_equiv.
    + apply reflexive_eq, omap_ext_in. intros h Hh.
      rewrite Hcall, A6, decide_True by done. by destruct (ck_cells c !! h).
    + apply reflexive_eq, omap_ext_in. intros h _. cbn. rewrite A6. case_decide; [|done]. by destruct (ck_cells c !! h).
Qed.

Lemma run_tracks h t l c q1 q2 st rn w :
  ck_cells c !! h = Some t -> tracks (mkClockSys c (q1 ++ (h :: l) :: q2) st rn) w ->
  tc_fn t ∈ expiring w /\
  tracks (mkClockSys c (q1 ++ l :: q2) st (h :: rn)) (set_expiring (remove_first (tc_fn t) (expiring w)) w).
Proof.
  intros E [T1 T2 T3]. cbn in *.
  assert (Hp : expiring w ≡ₚ tc_fn t :: running_calls (mkClockSys c (q1 ++ l :: q2) st (h :: rn))).
  { rewrite T3. unfold running_calls. cbn. rewrite !concat_app. cbn. rewrite !omap_app. cbn. rewrite E, ?omap_app. cbn.
    symmetry. apply Permutation_middle. }
  assert (Hin : tc_fn t ∈ expiring w) by (rewrite Hp; by left). split; [done|]. split; cbn; [done|done|].
  rewrite (remove_first_perm _ _ Hin) in Hp. by apply Permutation_cons_inv in Hp.
Qed.

Lemma clock_step_tracks ev s s' w :
  sys_ok s -> tracks s w -> clock_step ev s s' -> exists w', timer_spec ev w w' /\ tracks s' w'.
Proof.
  intros Hs Htk Hst.
  destruct Hst as [d fn h c c' q st rn E|h ok c c' q st rn Hh E|d due c c' q st rn E|h t l c q1 q2 st rn E].
  - pose proof (AfterFunc_tracks d fn c q st rn w Hs Htk) as Ht. rewrite E in Ht. destruct Ht as [Ht Hh], fn as [id at_].
    eexists. split; [|exact Ht]. constructor. by rewrite <- Hh, <- surjective_pairing.
  - eexists. split; [|pose proof (Stop_tracks h c q st (if ok then h :: st else st) rn w Htk) as Ht; rewrite E in Ht; exact Ht].
    replace ok with (bool_decide (is_Some (timers w !! h))); [constructor|].
    pose proof (Stop_answer h c) as Ha. rewrite E in Ha. cbn in Ha. apply eq_true_iff_eq.
    rewrite bool_decide_eq_true, Ha, <- (fmap_is_Some timer_call), (tk_timers _ _ Htk h). cbn. split.
    + intros [f (t & ? & _)%live_call_live]. by exists t.
    + intros (t & ?). exists (tc_fn t). apply live_call_live. by exists t.
  - destruct (Advance_tracks d c due c' q st rn w (so_clock _ Hs) E Htk) as (Ht & Hnd & Hin).
    eexists. split; [|exact Ht]. by constructor.
  - destruct (run_tracks h t l c q1 q2 st rn w E Htk) as [Hin Ht]. eexists. split; [|exact Ht]. by constructor.
Qed.

(** C35: the clock the tests turn keeps the promises core's timers are modelled by.
    Whatever the goroutines do with it, every event is one of [World]: a new timer
    is armed, [Stop] disarms and tells whether the timer was armed, [Advance] makes
    armed timers expiring calls, and a call that is made was expiring.  So what is
    proved of core holds of core on this clock. *)
Theorem clock_refines_timers start evs s w0 :
  clock_reachable start evs s -> timers w0 = ∅ -> next_timer w0 = O -> expiring w0 = [] ->
  exists w, timer_run w0 evs w /\ tracks s w.
Proof.
  intros Hr Ht0 Hn0 He0. induction Hr as [|evs ev s s' Hr IH Hs].
  - exists w0. split; [constructor|]. split; cbn; [done| |by rewrite He0].
    intros h. unfold live_call. cbn. by rewrite Ht0, !lookup_empty.
  - destruct IH as (w & Hw & Htk). destruct (clock_step_tracks ev s s' w) as (w' & Hsp & Htk'); [|done|done|].
    + by eapply clock_reachable_ok.
    + exists w'. split; [by econstructor|done].
Qed.

(** Three reservations' timers: the last is stopped, the others come due in the
    order of their deadlines, and the first of the two calls has been made. *)
Definition sample_one : Clock (Z * Time) := (AfterFunc 30 (1, zeroTime) (new_clock zeroTime)).2.
Definition sample_two : Clock (Z * Time) := (AfterFunc 10 (2, zeroTime) sample_one).2.
Definition sample_armed : Clock (Z * Time) := (AfterFunc 20 (3, zeroTime) sample_two).2.
Definition sample_clock : Clock (Z * Time) := (Advance 30 (Timer_Stop 2 sample_armed).2).2.
Definition sample_turn : clock_sys (Z * Time) := mkClockSys sample_clock [[0%nat]] [2%nat] [1%nat].
Definition sample_turns : list timer_event :=
  [EvAfter 30 (1, zeroTime) 0; EvAfter 10 (2, zeroTime) 1; EvAfter 20 (3, zeroTime) 2; EvStop 2 true;
   EvAdvance 30 [1; 0]%nat; EvRun 1 (2, zeroTime)].

Lemma sample_turn_reachable : clock_reachable zeroTime sample_turns sample_turn.
Proof.
  unfold sample_turn, sample_turns.
  apply (cy_step _ [_; _; _; _; _] _ (mkClockSys sample_clock [[1; 0]%nat] [2%nat] [])).
  2: apply (ck_run 1 (mkTestTimer (TimeAdd zeroTime 10) (2, zeroTime) true) [0%nat] sample_clock [] [] [2%nat] []); by vm_compute.
  apply (cy_step _ [_; _; _; _] _ (mkClockSys (Timer_Stop 2 sample_armed).2 [] [2%nat] [])); [|constructor; by vm_compute].
  apply (cy_step _ [_; _; _] _ (mkClockSys sample_armed [] [] [])).
  2: { apply (ck_stop 2 true sample_armed (Timer_Stop 2 sample_armed).2 [] [] []); [vm_compute; lia|by vm_compute]. }
  apply (cy_step _ [_; _] _ (mkClockSys sample_two [] [] [])); [|by constructor].
  apply (cy_step _ [_] _ (mkClockSys sample_one [] [] [])); [|by constructor].
  apply (cy_step _ [] _ (mkClockSys (new_clock zeroTime) [] [] [])); [constructor|by constructor].
Qed.

Lemma timers_called_once_witness : NoDup (cy_stops sample_turn ++ concat (cy_running sample_turn) ++ cy_ran sample_turn).
Proof. exact (proj1 (timers_called_once zeroTime sample_turns sample_turn sample_turn_reachable)). Defined.

Lemma clock_refines_timers_witness :
  exists w, timer_run (initial_world (Some sample_config) None) sample_turns w /\ expiring w ≡ₚ [(1, zeroTime)].
Proof.
  destruct (clock_refines_timers zeroTime sample_turns sample_turn (initial_world (Some sample_config) None)
              sample_turn_reachable eq_refl eq_refl eq_refl) as (w & Hw & [_ _ Hc]).
  exists w. split; [exact Hw|]. rewrite Hc. by vm_compute.
Defined.
