(* ===== verification/TestClient.v ===== *)
(** * The raw client the tests drive a CSMS with (internal/ocpptest/client.go)

    A second reading of the wire format, written apart from ocppj so that a fault
    there cannot hide behind it; what the tests see of a CSMS they see through it.
    The socket and the five-second clock are not modelled: a read that fails is
    the [Close] it leads to, a write that fails and a timeout are the choice of
    their branch.  A handler is the function of the call it was for that call. *)

From S2P Require Import Prelude GoLib Json Ocpp Errors GoHttp GoHttpServe Frame Conn.

Definition TypeCall : Z := 2.
Definition TypeCallResult : Z := 3.
Definition TypeCallError : Z := 4.
Definition unsolicitedBuffer : nat := 16.

Record Response := mkResponse {
  rs_Type : Z;
  rs_ID : string;
  rs_Payload : option json;
  rs_ErrorCode : string;
  rs_ErrorDescription : string
}.

Definition IsError (r : Response) : bool := rs_Type r =? TypeCallError.

(** [Call]: an inbound CALL, and what [OnCall] is given for it: a result that may
    be nil, or an error's text. *)
Record InboundCall := mkInboundCall { ic_ID : string; ic_Action : string; ic_Payload : json }.
Definition call_handler : Type := InboundCall -> option json + string.

(** [Client]; a pending call's channel has room for one response. *)
Record client := mkClient {
  cl_nextID : Z;
  cl_pending : gmap string (option Response);
  cl_unsolicited : list Response;
  cl_done : bool
}.

(** What [Dial] starts with. *)
Definition new_client : client := mkClient 0 ∅ [] false.

(** [Handshake]: what the server said during the upgrade. *)
Record Handshake := mkHandshake { hs_StatusCode : Z; hs_Subprotocol : string; hs_Header : Header }.

(** [Dial], from the dialer's response, if there was one, and its error: the
    handshake is kept where the connection was refused. *)
Definition Dial (resp : option (Z * Header)) (err : option string) : option client * Handshake * option string :=
  let hs := match resp with
            | Some (code, header) => mkHandshake code (Get "Sec-WebSocket-Protocol" header) header
            | None => mkHandshake 0 "" ∅
            end in
  match err with
  | Some e => (None, hs, Some e)
  | None => (Some new_client, hs, None)
  end.

(** [MustDial]: the client, or what it fails the test with. *)
Definition MustDial (url : string) (resp : option (Z * Header)) (err : option string) : client + string :=
  match Dial resp err with
  | (Some c, _, _) => inl c
  | (None, _, e) => inr ("dialling " +:+ url +:+ ": " +:+ default "" e)
  end.

Definition client_set_pending (m : gmap string (option Response)) (c : client) : client :=
  mkClient (cl_nextID c) m (cl_unsolicited c) (cl_done c).

(** ** Reading *)

(** The head of [readLoop]: the type, the id and the elements of a message. *)
Definition client_parse (data : message) : option (Z * string * list json) :=
  match data with
  | inr _ => None
  | inl j =>
    raw ← dec_raw_array j;
    match raw with
    | t :: i :: _ :: _ =>
      typ ← dec_int t 0;
      id ← dec_string i "";
      Some (typ, id, raw)
    | _ => None
    end
  end.

(** The answers among them; a code or a description that is not a string stays
    empty. *)
Definition client_response (typ : Z) (id : string) (raw : list json) : option Response :=
  if typ =? TypeCallResult then Some (mkResponse typ id (raw !! 2%nat) "" "")
  else if typ =? TypeCallError then
    Some (mkResponse typ id None
            (match raw !! 2%nat with Some c => default "" (dec_string c "") | None => "" end)
            (match raw !! 3%nat with Some d => default "" (dec_string d "") | None => "" end))
  else None.

(** [answerCall], up to the frame it sends. *)
Definition answer_error (id code text : string) : json :=
  JArr [JInt TypeCallError; JStr id; JStr code; JStr text; JObj []].

Definition test_answer (handler : option call_handler) (c : InboundCall) : json :=
  match handler with
  | None => answer_error (ic_ID c) "NotImplemented" "no handler registered"
  | Some h =>
    match h c with
    | inr text => answer_error (ic_ID c) "GenericError" text
    | inl result => JArr [JInt TypeCallResult; JStr (ic_ID c); payload_or_empty result]
    end
  end.

Definition answerCall (handler : option call_handler) (raw : list json) (id : string) : option json :=
  match raw with
  | _ :: _ :: a :: payload :: _ =>
    action ← dec_string a "";
    Some (test_answer handler (mkInboundCall id action payload))
  | _ => None
  end.

Definition route (r : Response) (c : client) : client :=
  match cl_pending c !! rs_ID r with
  | Some None => client_set_pending (<[rs_ID r := Some r]> (cl_pending c)) c
  | Some (Some _) => c
  | None =>
    if decide (length (cl_unsolicited c) < unsolicitedBuffer)%nat
    then mkClient (cl_nextID c) (cl_pending c) (cl_unsolicited c ++ [r]) (cl_done c)
    else c
  end.

(** A turn of [readLoop]: the client after it, and the answer it sends. *)
Definition client_read (handler : option call_handler) (data : message) (c : client) : client * option json :=
  match client_parse data with
  | None => (c, None)
  | Some (typ, id, raw) =>
    if typ =? TypeCall then (c, answerCall handler raw id)
    else match client_response typ id raw with
         | Some r => (route r c, None)
         | None => (c, None)
         end
  end.

(** ** Calling *)

Definition client_frame (id action : string) (payload : option json) : json :=
  JArr [JInt TypeCall; JStr id; JStr action; payload_or_empty payload].

(** [Call] up to its pending entry. *)
Record waiting := mkWaiting { wt_ID : string; wt_Action : string; wt_frame : json }.

Definition begin_Call (action : string) (payload : option json) (c : client) : client * waiting :=
  let n := wrap_int (cl_nextID c + 1) in
  let id := Itoa n in
  (mkClient n (<[id := None]> (cl_pending c)) (cl_unsolicited c) (cl_done c),
   mkWaiting id action (client_frame id action payload)).

Definition client_forget (id : string) (c : client) : client := client_set_pending (delete id (cl_pending c)) c.

Definition closed_text (action : string) : string := "connection closed while waiting for " +:+ action.
Definition timeout_text (action : string) : string := "no answer to " +:+ action +:+ " within 5s".

(** [MustCall] and [CallExpectingError], over what [Call] returned: what they give
    the test, or what they fail it with. *)
Definition MustCall (action : string) (r : Response + string) : option json + string :=
  match r with
  | inr text => inr (action +:+ ": " +:+ text)
  | inl r => if IsError r then inr (action +:+ " answered with " +:+ rs_ErrorCode r +:+ ": " +:+ rs_ErrorDescription r)
             else inl (rs_Payload r)
  end.

Definition CallExpectingError (action : string) (r : Response + string) : Response + string :=
  match r with
  | inr text => inr (action +:+ ": " +:+ text)
  | inl r => if IsError r then inl r else inr (action +:+ " succeeded, expected a CALLERROR")
  end.

Definition NextUnsolicited (c : client) : option (Response * client) :=
  match cl_unsolicited c with
  | [] => None
  | r :: l => Some (r, mkClient (cl_nextID c) (cl_pending c) l (cl_done c))
  end.

Definition client_Close (c : client) : client := mkClient (cl_nextID c) (cl_pending c) (cl_unsolicited c) true.

(** ** What the client and ocppj make of one another *)

Definition what_it_says (r : Response) : callResult :=
  if IsError r then inr (mkRPCError (rs_ErrorCode r) (rs_ErrorDescription r) None) else inl (rs_Payload r).

(** What a test's handler says to a CALL, as ocppj names it. *)
Definition handler_says (handler : option call_handler) (c : InboundCall) : callResult :=
  match handler with
  | None => inr (mkRPCError ErrNotImplemented "no handler registered" None)
  | Some h => match h c with
              | inr text => inr (mkRPCError ErrGenericError text None)
              | inl result => inl (Some (payload_or_empty result))
              end
  end.

Section agreement.
Context `{JsonText}.

(** A frame ocppj accepts is an array the client reads alike. *)
Lemma accepted_parses data f : ParseFrame data = inl f ->
  exists raw, client_parse data = Some (fr_Type f, fr_ID f, raw) /\ fr_ID f <> "" /\
  ((fr_Type f = MessageTypeCall /\ parse_call (fr_ID f) raw = inl f) \/
   (fr_Type f = MessageTypeCallResult /\ parse_result (fr_ID f) raw = inl f) \/
   (fr_Type f = MessageTypeCallError /\ parse_error (fr_ID f) raw = inl f)).
Proof.
  unfold ParseFrame, client_parse. destruct data as [j|]; [|done]. destruct (dec_raw_array j) as [raw|]; [|done].
  destruct raw as [|t [|i [|x l]]]; try done. cbn [mbind option_bind].
  destruct (dec_int t 0) as [typ|]; [|done]. destruct (dec_string i "") as [id|]; [|done]. cbn [mbind option_bind].
  case_bool_decide as Hid; [done|].
  assert (Hc : forall p, parse_call id (t :: i :: x :: l) = inl p -> fr_Type p = MessageTypeCall /\ fr_ID p = id).
  { unfold parse_call. intros p. repeat case_match; by intros; simplify_eq. }
  assert (Hr : forall p, parse_result id (t :: i :: x :: l) = inl p -> fr_Type p = MessageTypeCallResult /\ fr_ID p = id).
  { unfold parse_result. intros p. repeat case_match; by intros; simplify_eq. }
  assert (He : forall p, parse_error id (t :: i :: x :: l) = inl p -> fr_Type p = MessageTypeCallError /\ fr_ID p = id).
  { unfold parse_error. intros p. repeat case_match; by intros; simplify_eq. }
  destruct (Z.eqb_spec typ MessageTypeCall) as [->|]; [|destruct (Z.eqb_spec typ MessageTypeCallResult) as [->|];
    [|destruct (Z.eqb_spec typ MessageTypeCallError) as [->|]; [|done]]]; intros E.
  - destruct (Hc f E) as [-> ->]. eexists. split; [done|]. auto.
  - destruct (Hr f E) as [-> ->]. eexists. split; [done|]. auto.
  - destruct (He f E) as [-> ->]. eexists. split; [done|]. auto.
Qed.

Lemma test_answer_parses h c : ic_ID c <> "" ->
  exists g, ParseFrame (inl (test_answer h c)) = inl g /\ fr_ID g = ic_ID c /\ response_of g = Some (handler_says h c).
Proof.
  intros Hid.
  assert (Herr : forall code text, exists g, ParseFrame (inl (answer_error (ic_ID c) code text)) = inl g /\
            fr_ID g = ic_ID c /\ response_of g = Some (inr (mkRPCError code text None))).
  { intros code text. unfold ParseFrame, answer_error, TypeCallError. cbn [dec_raw_array].
    rewrite dec_int_JInt by (unfold int_ok, int_min, int_max; lia). cbn. rewrite bool_decide_eq_false_2 by done.
    by eexists. }
  unfold test_answer, handler_says. destruct h as [h|]; [destruct (h c) as [result|text]|]; [|apply Herr..].
  unfold ParseFrame, TypeCallResult. cbn [dec_raw_array].
  rewrite dec_int_JInt by (unfold int_ok, int_min, int_max; lia). cbn. rewrite bool_decide_eq_false_2 by done.
  by eexists.
Qed.

(** C37: the client and ocppj agree on the wire, though they share no code.  Every
    frame ocppj accepts the client reads as ocppj does: an answer goes to its id
    with the same payload, or code and description; a CALL reaches the test's
    handler with its id, action and payload, and gets exactly one answer, which
    ocppj reads as that id's answer and as what the handler said.  What the client
    calls with, ocppj reads as that call. *)
Theorem client_agrees h data f c :
  ParseFrame data = inl f ->
  match response_of f with
  | Some r => exists resp, client_read h data c = (route resp c, None) /\ rs_ID resp = fr_ID f /\ what_it_says resp = r
  | None => exists payload ans g,
      fr_Payload f = Some payload /\ client_read h data c = (c, Some ans) /\
      ParseFrame (inl ans) = inl g /\ fr_ID g = fr_ID f /\
      response_of g = Some (handler_says h (mkInboundCall (fr_ID f) (fr_Action f) payload))
  end /\
  forall id action payload, id <> "" -> action <> "" ->
    ParseFrame (inl (client_frame id action payload)) =
      inl (mkFrame MessageTypeCall id action (Some (payload_or_empty payload)) "" "" None).
Proof.
  intros Hp. split.
  2: { intros id action payload Hi Ha. by destruct (frames_roundtrip id action payload (framework_error "") Hi Ha). }
  destruct (accepted_parses data f Hp) as (raw & Hraw & Hid & [[Ht Hf]|[[Ht Hf]|[Ht Hf]]]);
    unfold response_of, client_read; rewrite Hraw, Ht; cbn.
  - unfold parse_call in Hf. destruct raw as [|t [|i [|a [|pl [|]]]]]; try done.
    destruct (dec_string a "") as [action|] eqn:Ea; [|done]. case_bool_decide; [done|]. injection Hf as Ef.
    destruct (test_answer_parses h (mkInboundCall (fr_ID f) action pl)) as (g & Hg & Hgi & Hgr); [done|].
    exists pl, (test_answer h (mkInboundCall (fr_ID f) action pl)), g. rewrite <- Ef. cbn. by rewrite Ea.
  - unfold parse_result in Hf. destruct raw as [|t [|i [|pl [|]]]]; try done. injection Hf as Ef.
    eexists. split; [done|]. by rewrite <- Ef.
  - unfold parse_error in Hf. destruct raw as [|t [|i [|code [|d rest]]]]; try done.
    destruct (dec_string code "") as [cd|] eqn:Ec; [|done]. injection Hf as Ef.
    eexists. split; [done|]. rewrite <- Ef. cbn. by rewrite Ec.
Qed.

End agreement.

(** ** The client among goroutines

    Any number of [Call]s, the reader, and the test; a locked section or a channel
    operation is a step. *)
Record client_system := mkClientSystem {
  sy_client : client;
  sy_waiting : list waiting;
  sy_read : list message;
  sy_returned : list (waiting * (Response + string))
}.

(** How a waiting [Call] can return without an answer: its payload cannot be
    encoded or its frame not sent, the connection is closed, or the time is up. *)
Inductive call_fails (c : client) (w : waiting) : string -> Prop :=
| cf_unsent text : call_fails c w text
| cf_closed : cl_done c = true -> call_fails c w (closed_text (wt_Action w))
| cf_timeout : call_fails c w (timeout_text (wt_Action w)).

Inductive client_step : client_system -> client_system -> Prop :=
(* the id counter is 64 bits wide: it does not wrap in the life of a test *)
| cl_call action payload c ws ms rs :
    cl_nextID c + 1 <= int_max ->
    client_step (mkClientSystem c ws ms rs)
      (mkClientSystem (begin_Call action payload c).1 ((begin_Call action payload c).2 :: ws) ms rs)
| cl_answered w r c ws1 ws2 ms rs :
    cl_pending c !! wt_ID w = Some (Some r) ->
    client_step (mkClientSystem c (ws1 ++ w :: ws2) ms rs)
      (mkClientSystem (client_forget (wt_ID w) c) (ws1 ++ ws2) ms ((w, inl r) :: rs))
| cl_failed w text c ws1 ws2 ms rs :
    call_fails c w text ->
    client_step (mkClientSystem c (ws1 ++ w :: ws2) ms rs)
      (mkClientSystem (client_forget (wt_ID w) c) (ws1 ++ ws2) ms ((w, inr text) :: rs))
| cl_reads h data c ws ms rs :
    client_step (mkClientSystem c ws ms rs) (mkClientSystem (client_read h data c).1 ws (ms ++ [data]) rs)
| cl_next r c c' ws ms rs :
    NextUnsolicited c = Some (r, c') -> client_step (mkClientSystem c ws ms rs) (mkClientSystem c' ws ms rs)
| cl_closes c ws ms rs : client_step (mkClientSystem c ws ms rs) (mkClientSystem (client_Close c) ws ms rs).

Inductive client_reachable : client_system -> Prop :=
| cl_dialled : client_reachable (mkClientSystem new_client [] [] [])
| cl_then s s' : client_reachable s -> client_step s s' -> client_reachable s'.

(** The message a response was read from. *)
Definition heard (ms : list message) (r : Response) : Prop :=
  exists data raw, data ∈ ms /\ client_parse data = Some (rs_Type r, rs_ID r, raw) /\
    client_response (rs_Type r) (rs_ID r) raw = Some r.

Lemma heard_more ms ms' r : heard ms r -> heard (ms ++ ms') r.
Proof. intros (data & raw & Hin & Hr). exists data, raw. split; [|done]. apply elem_of_app. by left. Qed.

Record client_ok (s : client_system) : Prop := {
  cl_counter : 0 <= cl_nextID (sy_client s) <= int_max;
  cl_numbered : forall id, id ∈ wt_ID <$> sy_waiting s -> exists n, id = Itoa n /\ 0 < n <= cl_nextID (sy_client s);
  cl_distinct : NoDup (wt_ID <$> sy_waiting s);
  cl_entries : forall id, is_Some (cl_pending (sy_client s) !! id) <-> id ∈ wt_ID <$> sy_waiting s;
  cl_own : forall id r, cl_pending (sy_client s) !! id = Some (Some r) -> rs_ID r = id /\ heard (sy_read s) r;
  cl_told : forall w r, (w, inl r) ∈ sy_returned s -> rs_ID r = wt_ID w /\ heard (sy_read s) r;
  cl_room : (length (cl_unsolicited (sy_client s)) <= unsolicitedBuffer)%nat
}.

Lemma client_response_heads typ id raw r : client_response typ id raw = Some r -> rs_Type r = typ /\ rs_ID r = id.
Proof. unfold client_response. repeat case_match; by intros; simplify_eq. Qed.

Lemma begin_Call_ok action payload c ws ms rs :
  cl_nextID c + 1 <= int_max -> client_ok (mkClientSystem c ws ms rs) ->
  client_ok (mkClientSystem (begin_Call action payload c).1 ((begin_Call action payload c).2 :: ws) ms rs).
Proof.
  intros Hn [C1 C2 C3 C4 C5 C6 C7]. cbn in *. unfold begin_Call.
  rewrite wrap_int_id by (unfold int_ok, int_min, int_max in *; lia). cbn.
  assert (Hfresh : Itoa (cl_nextID c + 1) ∉ wt_ID <$> ws).
  { intros (n & Heq & Hle)%C2. apply Itoa_inj in Heq. lia. }
  split; cbn; [lia| |by apply NoDup_cons| | |done|done].
  - intros id [->|Hin]%elem_of_cons; [exists (cl_nextID c + 1); split; [done|lia]|].
    destruct (C2 id Hin) as (n & -> & Hle). exists n. split; [done|lia].
  - intros id. rewrite elem_of_cons, <- C4. destruct (decide (id = Itoa (cl_nextID c + 1))) as [->|Hne].
    + rewrite lookup_insert_eq. split; [by left|by eexists].
    + rewrite lookup_insert_ne by done. split; [by right|by intros [?|?]].
  - intros id r [[_ ?]|[_ E]]%lookup_insert_Some; [done|]. by apply C5.
Qed.

Lemma wt_middle ws1 w ws2 : wt_ID <$> ws1 ++ w :: ws2 ≡ₚ wt_ID w :: (wt_ID <$> ws1 ++ ws2).
Proof. by rewrite <- Permutation_middle. Qed.

Lemma client_forget_ok w out c ws1 ws2 ms rs :
  (forall r, out = inl r -> cl_pending c !! wt_ID w = Some (Some r)) ->
  client_ok (mkClientSystem c (ws1 ++ w :: ws2) ms rs) ->
  client_ok (mkClientSystem (client_forget (wt_ID w) c) (ws1 ++ ws2) ms ((w, out) :: rs)).
Proof.
  intros Hout [C1 C2 C3 C4 C5 C6 C7]. cbn in *. rewrite wt_middle in C3. apply NoDup_cons in C3 as [Hno C3].
  split; cbn; try done.
  - intros id Hin. apply C2. rewrite wt_middle. by right.
  - intros id. destruct (decide (id = wt_ID w)) as [->|Hne].
    + rewrite lookup_delete_eq. split; [by intros []|by intros ?].
    + rewrite lookup_delete_ne by done. rewrite C4, wt_middle, elem_of_cons. naive_solver.
  - intros id r [_ E]%lookup_delete_Some. by apply C5.
  - intros w' r [Heq|Hin]%elem_of_cons; [|by apply C6]. injection Heq as -> <-. by apply C5, Hout.
Qed.

Lemma route_ok r data raw c ws ms rs :
  client_parse data = Some (rs_Type r, rs_ID r, raw) -> client_response (rs_Type r) (rs_ID r) raw = Some r ->
  client_ok (mkClientSystem c ws ms rs) -> client_ok (mkClientSystem (route r c) ws (ms ++ [data]) rs).
Proof.
  intros Hp Hr [C1 C2 C3 C4 C5 C6 C7]. cbn in *.
  assert (Hh : heard (ms ++ [data]) r).
  { exists data, raw. split; [|done]. apply elem_of_app. right. by apply list_elem_of_singleton. }
  assert (C5' : forall id r', cl_pending c !! id = Some (Some r') -> rs_ID r' = id /\ heard (ms ++ [data]) r').
  { intros id r' [? ?]%C5. split; [done|by apply heard_more]. }
  assert (C6' : forall w r', (w, inl r') ∈ rs -> rs_ID r' = wt_ID w /\ heard (ms ++ [data]) r').
  { intros w r' [? ?]%C6. split; [done|by apply heard_more]. }
  unfold route. destruct (cl_pending c !! rs_ID r) as [[r0|]|] eqn:E; [by split| |].
  - split; cbn; try done.
    + intros id. rewrite <- C4. destruct (decide (id = rs_ID r)) as [->|Hne].
      * rewrite lookup_insert_eq, E. split; intros _; by eexists.
      * by rewrite lookup_insert_ne.
    + intros id r' [[<- [= <-]]|[_ E']]%lookup_insert_Some; [done|]. by apply C5'.
  - case_decide; split; cbn; try done. rewrite length_app. cbn. lia.
Qed.

Lemma client_step_ok s s' : client_ok s -> client_step s s' -> client_ok s'.
Proof.
  intros Hs Hst. destruct Hst as [action payload c ws ms rs Hn|w r c ws1 ws2 ms rs Hp|w text c ws1 ws2 ms rs Hf
    |h data c ws ms rs|r c c' ws ms rs Hn|c ws ms rs].
  - by apply begin_Call_ok.
  - apply client_forget_ok; [|done]. by intros r' [= <-].
  - by apply client_forget_ok.
  - assert (Hmore : client_ok (mkClientSystem c ws (ms ++ [data]) rs)).
    { destruct Hs as [C1 C2 C3 C4 C5 C6 C7]. split; cbn in *; try done.
      - intros id r [? ?]%C5. split; [done|by apply heard_more].
      - intros w r [? ?]%C6. split; [done|by apply heard_more]. }
    unfold client_read. destruct (client_parse data) as [[[typ id] raw]|] eqn:E; [|done].
    destruct (typ =? TypeCall); [done|]. destruct (client_response typ id raw) as [r|] eqn:Er; [|done].
    destruct (client_response_heads _ _ _ _ Er) as [<- <-]. by eapply route_ok.
  - unfold NextUnsolicited in Hn. destruct (cl_unsolicited c) as [|r' l] eqn:E; [done|]. injection Hn as -> <-.
    destruct Hs as [C1 C2 C3 C4 C5 C6 C7]. split; cbn in *; try done. rewrite E in C7. cbn in C7. lia.
  - destruct Hs as [C1 C2 C3 C4 C5 C6 C7]. by split.
Qed.

Lemma client_reachable_ok s : client_reachable s -> client_ok s.
Proof.
  induction 1 as [|s s' _ IH Hs]; [|by eapply client_step_ok].
  split; cbn; try done; try lia; try apply NoDup_nil_2.
  - by intros id ?%not_elem_of_nil.
  - intros id. rewrite lookup_empty. split; [by intros []|by intros ?%not_elem_of_nil].
  - by intros w r ?%not_elem_of_nil.
Qed.

(** Every call gets its own answer and nothing else.  Any number of calls may
    be in flight while messages of any kind arrive: each call has one pending
    entry, whichever way a call ends its entry goes with it, and a response a call
    returns was read from a message that carried the call's own id. *)
Theorem client_calls_answered s :
  client_reachable s ->
  NoDup (wt_ID <$> sy_waiting s) /\
  (forall id, is_Some (cl_pending (sy_client s) !! id) <-> exists w, w ∈ sy_waiting s /\ wt_ID w = id) /\
  (forall w r, (w, inl r) ∈ sy_returned s -> rs_ID r = wt_ID w /\ heard (sy_read s) r) /\
  (length (cl_unsolicited (sy_client s)) <= unsolicitedBuffer)%nat.
Proof.
  intros [C1 C2 C3 C4 C5 C6 C7]%client_reachable_ok. split; [done|]. split; [|done].
  intros id. rewrite C4, list_elem_of_fmap. split; intros (w & ? & ?); by exists w.
Qed.

(** The answer to a malformed message can be seen.  If the CSMS refuses what a
    test sent, the CALLERROR it answers with is, unless it carries the id of a
    call in flight, the next thing [NextUnsolicited] has not been given: with the
    id the frame had or -1, and RpcFrameworkError. *)
Theorem refusals_are_seen `{JsonText} s h data id e :
  client_reachable s -> ParseFrame data = inr (id, e) -> id ∉ wt_ID <$> sy_waiting s ->
  (length (cl_unsolicited (sy_client s)) < unsolicitedBuffer)%nat ->
  let '(c, sent) := client_read h (inl (EncodeCallError id e)) (sy_client s) in
  sent = None /\ cl_pending c = cl_pending (sy_client s) /\
  cl_unsolicited c = cl_unsolicited (sy_client s) ++
    [mkResponse TypeCallError (default UnknownMessageID (readable_id data)) None ErrRpcFrameworkError (Description e)].
Proof.
  intros Hs Hp Hid Hroom. destruct (malformed_answered data id e Hp) as (Hread & Hcode & f & Hf & _).
  destruct (accepted_parses _ _ Hf) as (raw & Hraw & _). unfold client_read, client_parse, EncodeCallError in *.
  cbn [dec_raw_array mbind option_bind] in *.
  rewrite dec_int_JInt by (unfold int_ok, MessageTypeCallError, int_min, int_max; lia). cbn. unfold route. cbn.
  assert (Hnone : cl_pending (sy_client s) !! id = None).
  { apply eq_None_not_Some. by intros Hin%(cl_entries s (client_reachable_ok s Hs)). }
  rewrite Hnone, decide_True by done. cbn. by rewrite Hcode, <- Hread.
Qed.

(** The id -1 is nobody's: what cannot even be told apart is always seen. *)
Lemma unknown_id_free s : client_reachable s -> UnknownMessageID ∉ wt_ID <$> sy_waiting s.
Proof.
  intros Hs (n & Heq & Hn)%(cl_numbered s (client_reachable_ok s Hs)). change UnknownMessageID with (Itoa (-1)) in Heq.
  apply Itoa_inj in Heq. lia.
Qed.

(** ** Instances *)

#[local] Existing Instance plain_text.

Definition accepting : call_handler := fun _ => inl (Some (JObj [("status", JStr "Accepted")])).
Definition sample_reset : message := inl (JArr [JInt 2; JStr "5"; JStr "Reset"; JObj []]).
Definition sample_boot : client := (begin_Call "BootNotification" None new_client).1.
Definition sample_booting : waiting := (begin_Call "BootNotification" None new_client).2.
Definition sample_result : message := inl (JArr [JInt 3; JStr "1"; JObj [("interval", JInt 300)]]).
Definition sample_booted : client := (client_read None sample_result sample_boot).1.

Lemma sample_boot_reachable : client_reachable (mkClientSystem sample_boot [sample_booting] [] []).
Proof. eapply cl_then; [apply cl_dialled|]. by apply cl_call. Qed.

Lemma sample_booted_reachable :
  client_reachable (mkClientSystem (client_forget "1" sample_booted) [] [sample_result]
    [(sample_booting, inl (mkResponse 3 "1" (Some (JObj [("interval", JInt 300)])) "" ""))]).
Proof.
  eapply cl_then; [eapply cl_then; [exact sample_boot_reachable|apply (cl_reads None sample_result)]|].
  apply (cl_answered sample_booting _ _ [] []). by vm_compute.
Qed.

Lemma client_agrees_witness :
  exists g, ParseFrame (inl (JArr [JInt 3; JStr "5"; JObj [("status", JStr "Accepted")]])) = inl g /\ fr_ID g = "5".
Proof.
  destruct (client_agrees (Some accepting) sample_reset
              (mkFrame MessageTypeCall "5" "Reset" (Some (JObj [])) "" "" None) new_client ltac:(by vm_compute))
    as [(payload & ans & g & Hpl & Hr & Hg & Hid & _) _].
  injection Hr as <-. exists g. split; [exact Hg|exact Hid].
Defined.

Lemma client_calls_answered_witness :
  rs_ID (mkResponse 3 "1" (Some (JObj [("interval", JInt 300)])) "" "") = "1".
Proof.
  destruct (client_calls_answered _ sample_booted_reachable) as (_ & _ & Hown & _).
  apply (Hown sample_booting). left.
Defined.

Lemma refusals_are_seen_witness :
  cl_unsolicited (client_read None (inl (EncodeCallError "7" (framework_error "CALL has 3 elements, want 4"))) sample_boot).1
    = [mkResponse 4 "7" None "RpcFrameworkError" "CALL has 3 elements, want 4"].
Proof.
  pose proof (refusals_are_seen _ None short_call "7" (framework_error "CALL has 3 elements, want 4")
                sample_boot_reachable ltac:(by vm_compute) ltac:(by vm_compute; intros ?%list_elem_of_singleton)
                ltac:(cbn; unfold unsolicitedBuffer; lia)) as Hx.
  exact (proj2 (proj2 Hx)).
Defined.

(** What the client takes and ocppj does not: it is the looser reader. *)
Example looser_reader :
  (client_read None (inl (JArr [JInt 3; JStr "1"; JNull; JNull])) sample_boot).1 <> sample_boot /\
  ParseFrame (inl (JArr [JInt 3; JStr "1"; JNull; JNull])) =
    inr ("1", framework_error "CALLRESULT has 4 elements, want 3") /\
  (client_read None (inl (JArr [JInt 2; JStr "9"; JStr "Reset"])) new_client) = (new_client, None) /\
  (client_read None (inl (JArr [JInt 2; JStr "9"; JStr "Reset"; JNull])) new_client).2 =
    Some (answer_error "9" "NotImplemented" "no handler registered").
Proof. split; [by vm_compute|]. vm_compute. repeat split. Qed.
