(* ===== verification/OcpiShutdown.v ===== *)
(** * The OCPI server's life (ocpi/server.go, Register, Start, ServeHTTP and Shutdown)

    Ocpi.v's server among goroutines: whoever registers modules, one call of
    Start and the goroutine it leaves, the requests being handled, one call of
    Shutdown.  http.Server is the library's: Serve accepts until its listener is
    closed and gives up at once on a server that is shutting down, closing its
    listener either way; Shutdown closes the listener, waits for Serve to be over
    and for the requests in flight.  Reading and writing on the connections, and
    the timeouts of both, are the library's too. *)

From stdpp Require Import relations.
From S2P Require Import Prelude GoLib GoTime Errors GoRegexp GoSort GoUtf8 GoNet GoBase64 GoHttp Json GoHttpServe.
From S2P Require Import GoHttpFacts GoPath Config Validate ConfigProps ConfigLoad Ocpi OcpiInv OcpiProps.

(** The timeouts [New] makes the http.Server with. *)
Record http_timeouts := mkHttpTimeouts { ht_ReadHeader : Z; ht_Read : Z; ht_Write : Z; ht_Idle : Z }.

Definition DefaultReadHeaderTimeout : Z := 10 * second.
Definition DefaultReadTimeout : Z := 30 * second.
Definition DefaultWriteTimeout : Z := 60 * second.
Definition DefaultIdleTimeout : Z := 120 * second.

Definition ocpi_timeouts (read write idle : Z) : http_timeouts :=
  mkHttpTimeouts DefaultReadHeaderTimeout
    (if read <=? 0 then DefaultReadTimeout else read)
    (if write <=? 0 then DefaultWriteTimeout else write)
    (if idle <=? 0 then DefaultIdleTimeout else idle).

(** Where Start is, and its goroutine. *)
Inductive start_pc := OtNot | OtMarked | OtBound | OtReturned (ok : bool).
Inductive serve_pc := OvNone | OvSpawned | OvAccepting | OvOver.

(** Where Shutdown is: the lifetime context is cancelled, the http.Server is
    shutting down, its Shutdown has returned - without an error or with one -, and
    ours has. *)
Inductive oshut_pc := OsNot | OsCancelled | OsStopped | OsWaiting (clean : bool) | OsReturned (ok : bool).

(** How a request's handler ends: with an answer, or with a panic net/http takes. *)
Inductive request_end := Answered (w : responseWriter) | Panicked.

Record ocpi_life := mkOcpiLife {
  ol_server : Server;
  ol_start : start_pc;
  ol_bound : bool;             (* the port is taken *)
  ol_serve : serve_pc;
  ol_wg : Z;
  ol_requests : list Request;
  ol_ended : list (Request * request_end);
  ol_taken : list Request;     (* every request taken, the newest first *)
  ol_ctx : bool;               (* the context of the server's lifetime is cancelled *)
  ol_shut : oshut_pc
}.

(** [Server.Addr]: what is bound, or what was asked for. *)
Definition Addr (bind bound : string) (l : ocpi_life) : string :=
  match ol_start l with OtBound | OtReturned true => bound | _ => bind end.

(** [Server.Context] is cancelled. *)
Definition lifetime_over (l : ocpi_life) : Prop := ol_ctx l = true.
Definition closing (p : oshut_pc) : Prop :=
  match p with OsStopped | OsWaiting _ | OsReturned _ => True | _ => False end.
Definition drained (p : oshut_pc) : Prop :=
  match p with OsWaiting true | OsReturned true => True | _ => False end.

Section life.
Context `{HttpTexts} `{URLs}.

(** What happens of itself once Shutdown is under way: Serve's goroutine ends,
    and so does every handler, with an answer or with a panic net/http takes. *)
Inductive ending_step : ocpi_life -> ocpi_life -> Prop :=
| oe_refused s st b wg rs an tk cx p : closing p ->
    ending_step (mkOcpiLife s st b OvSpawned wg rs an tk cx p) (mkOcpiLife s st false OvOver (wg - 1) rs an tk cx p)
| oe_over s st b wg rs an tk cx p :
    ending_step (mkOcpiLife s st b OvAccepting wg rs an tk cx p) (mkOcpiLife s st false OvOver (wg - 1) rs an tk cx p)
| oe_answer r now ids1 ids2 s st b sv wg rs1 rs2 an tk cx p :
    ending_step (mkOcpiLife s st b sv wg (rs1 ++ r :: rs2) an tk cx p)
      (mkOcpiLife s st b sv wg (rs1 ++ rs2) ((r, Answered (ServeHTTP s now ids1 ids2 r)) :: an) tk cx p)
| oe_panic r s st b sv wg rs1 rs2 an tk cx p :
    ending_step (mkOcpiLife s st b sv wg (rs1 ++ r :: rs2) an tk cx p)
      (mkOcpiLife s st b sv wg (rs1 ++ rs2) ((r, Panicked) :: an) tk cx p).

Inductive ocpi_step : ocpi_life -> ocpi_life -> Prop :=
| ol_ending l l' : ending_step l l' -> ocpi_step l l'
| ol_register m s st b sv wg rs an tk cx p : tidy m ->
    ocpi_step (mkOcpiLife s st b sv wg rs an tk cx p) (mkOcpiLife (Register s m).1 st b sv wg rs an tk cx p)
(* Start, and Serve *)
| ol_mark bind s b sv wg rs an tk cx p :
    ocpi_step (mkOcpiLife s OtNot b sv wg rs an tk cx p) (mkOcpiLife (Start s bind None).1 OtMarked b sv wg rs an tk cx p)
| ol_bind s b sv wg rs an tk cx p :
    ocpi_step (mkOcpiLife s OtMarked b sv wg rs an tk cx p) (mkOcpiLife s OtBound true sv wg rs an tk cx p)
| ol_bind_fails s b sv wg rs an tk cx p :
    ocpi_step (mkOcpiLife s OtMarked b sv wg rs an tk cx p) (mkOcpiLife s (OtReturned false) b sv wg rs an tk cx p)
| ol_spawn s b sv wg rs an tk cx p :
    ocpi_step (mkOcpiLife s OtBound b sv wg rs an tk cx p) (mkOcpiLife s (OtReturned true) b OvSpawned (wg + 1) rs an tk cx p)
| ol_serve_begins s st b wg rs an tk cx p : ~ closing p ->
    ocpi_step (mkOcpiLife s st b OvSpawned wg rs an tk cx p) (mkOcpiLife s st b OvAccepting wg rs an tk cx p)
| ol_request r s st wg rs an tk cx p :
    ocpi_step (mkOcpiLife s st true OvAccepting wg rs an tk cx p) (mkOcpiLife s st true OvAccepting wg (r :: rs) an (r :: tk) cx p)
(* Shutdown *)
| ol_cancel s st b sv wg rs an tk cx :
    ocpi_step (mkOcpiLife s st b sv wg rs an tk cx OsNot) (mkOcpiLife s st b sv wg rs an tk true OsCancelled)
| ol_stop s st b sv wg rs an tk cx :
    ocpi_step (mkOcpiLife s st b sv wg rs an tk cx OsCancelled)
      (mkOcpiLife s st (match sv with OvAccepting => false | _ => b end) sv wg rs an tk cx OsStopped)
| ol_idle s st b sv wg an tk cx : sv <> OvAccepting ->
    ocpi_step (mkOcpiLife s st b sv wg [] an tk cx OsStopped) (mkOcpiLife s st b sv wg [] an tk cx (OsWaiting true))
| ol_http_timeout s st b sv wg rs an tk cx :
    ocpi_step (mkOcpiLife s st b sv wg rs an tk cx OsStopped) (mkOcpiLife s st b sv wg rs an tk cx (OsWaiting false))
| ol_waited s st b sv rs an tk cx ok :
    ocpi_step (mkOcpiLife s st b sv 0 rs an tk cx (OsWaiting ok)) (mkOcpiLife s st b sv 0 rs an tk cx (OsReturned ok))
| ol_timeout s st b sv wg rs an tk cx ok :
    ocpi_step (mkOcpiLife s st b sv wg rs an tk cx (OsWaiting ok)) (mkOcpiLife s st b sv wg rs an tk cx (OsReturned false)).

(** A server as New leaves it. *)
Definition fresh_life (s : Server) : ocpi_life := mkOcpiLife s OtNot false OvNone 0 [] [] [] false OsNot.

Definition ocpi_reachable (s : Server) : ocpi_life -> Prop := rtc ocpi_step (fresh_life s).

(** ** The invariant *)

(** [w] is what the server makes of the request. *)
Definition request_answered (s : Server) (r : Request) (w : responseWriter) : Prop :=
  exists now ids1 ids2, w = ServeHTTP s now ids1 ids2 r.

Definition serving_pc (v : serve_pc) : bool := match v with OvSpawned | OvAccepting => true | _ => false end.

Record ol_ok (l : ocpi_life) : Prop := {
  oo_built : built (ol_server l);
  oo_wg : ol_wg l = Z.b2z (serving_pc (ol_serve l));
  oo_started : ol_start l <> OtNot -> started (ol_server l) = true;
  oo_served : ol_serve l = OvNone \/ ol_start l = OtReturned true;
  oo_requests : ol_requests l <> [] -> ol_serve l <> OvNone;
  oo_answers : forall r w, (r, Answered w) ∈ ol_ended l ->
    ol_start l <> OtNot /\ request_answered (ol_server l) r w;
  oo_taken : ol_taken l ≡ₚ ol_requests l ++ (ol_ended l).*1;
  oo_ctx : ol_shut l <> OsNot -> lifetime_over l;
  oo_bound : ol_bound l = true -> ol_start l = OtBound \/ serving_pc (ol_serve l) = true;
  oo_closing : closing (ol_shut l) -> ol_serve l = OvAccepting -> ol_bound l = false;
  oo_drained : drained (ol_shut l) -> ol_requests l = [] /\ ol_serve l <> OvAccepting
}.

(** The fields of the two states of a step; the answers stay folded. *)
Ltac life_cbn :=
  cbn [ol_server ol_start ol_bound ol_serve ol_wg ol_requests ol_ended ol_taken ol_ctx ol_shut serving_pc Z.b2z] in *.

Lemma drained_closing p : drained p -> closing p.
Proof. by destruct p. Qed.

Lemma Register_started s m : started s = true -> (Register s m).1 = s.
Proof. intros Hs. unfold Register. destruct (Module_validate m); [by rewrite Hs|done]. Qed.

Lemma ending_ok l l' : ol_ok l -> ending_step l l' -> ol_ok l'.
Proof.
  intros [O1 O2 O3 O4 O5 O6 OT OC O7 O8 O9] Hs.
  destruct Hs as [s st b wg rs an tk cx p Hp|s st b wg rs an tk cx p|r now ids1 ids2 s st b sv wg rs1 rs2 an tk cx p|r s st b sv wg rs1 rs2 an tk cx p];
    life_cbn; split; life_cbn; try done; try lia; try (by (destruct O4; [discriminate|right]));
    try (rewrite OT; cbn; solve_Permutation).
  - intros Hd. split; [by apply O9|done].
  - intros Hd. split; [by apply O9|done].
  - intros _. apply O5. by destruct rs1.
  - intros r' w [[= -> ->]|Hin]%elem_of_cons; [|by apply O6]. split; [|by eexists _, _, _].
    destruct O4 as [->| ->]; [|done]. destruct O5; [by destruct rs1|done].
  - intros Hd. destruct (O9 Hd) as [? ?]. by destruct rs1.
  - intros _. apply O5. by destruct rs1.
  - intros r' w [?|Hin]%elem_of_cons; [done|by apply O6].
  - intros Hd. destruct (O9 Hd) as [? ?]. by destruct rs1.
Qed.

Lemma ocpi_step_ok l l' : ol_ok l -> ocpi_step l l' -> ol_ok l'.
Proof.
  intros Hok Hs. pose proof Hok as [O1 O2 O3 O4 O5 O6 OT OC O7 O8 O9].
  destruct Hs as [l l' He|m s st b sv wg rs an tk cx p Hm|bind s b sv wg rs an tk cx p|s b sv wg rs an tk cx p|s b sv wg rs an tk cx p
    |s b sv wg rs an tk cx p|s st b wg rs an tk cx p Hp|r s st wg rs an tk cx p|s st b sv wg rs an tk cx|s st b sv wg rs an tk cx|s st b sv wg an tk cx Hsv
    |s st b sv wg rs an tk cx|s st b sv rs an tk cx ok|s st b sv wg rs an tk cx ok]; [by eapply ending_ok|..];
    life_cbn; split; life_cbn; try done; try lia; try (by left);
    try (by (destruct O4; [discriminate|right])); try (by intros _; apply OC);
    try (rewrite OT; cbn; solve_Permutation).
  - by constructor.
  - intros Hst. rewrite (Register_started s m (O3 Hst)). by apply O3.
  - intros r w Hin. destruct (O6 r w Hin) as [Hst Ha]. by rewrite (Register_started s m (O3 Hst)).
  - by constructor.
  - destruct O4 as [->|]; [by left|done].
  - intros r w Hin. by destruct (O6 r w Hin).
  - intros Hb. destruct (O7 Hb); [done|by right].
  - intros _. by apply O3.
  - destruct O4 as [->|]; [by left|done].
  - intros r w Hin. by destruct (O6 r w Hin).
  - intros _ ->. by destruct O4.
  - intros _. by apply O3.
  - destruct O4 as [->|]; [by left|done].
  - intros r w Hin. by destruct (O6 r w Hin).
  - intros Hb. destruct (O7 Hb); [done|by right].
  - rewrite O2. by destruct O4 as [->|].
  - intros _. by apply O3.
  - by right.
  - intros r w Hin. by destruct (O6 r w Hin).
  - intros Hd. split; [by apply O9|done].
  - intros Hd. by destruct (Hp (drained_closing p Hd)).
  - intros Hd. by destruct (O9 Hd).
  - intros Hb. apply O7. by destruct sv.
  - by intros _ ->.
Qed.

Lemma ocpi_run_ok l l' : ol_ok l -> rtc ocpi_step l l' -> ol_ok l'.
Proof. intros Hl Hr. induction Hr as [|l l1 l2 Hst _ IH]; [done|]. by eapply IH, ocpi_step_ok. Qed.

Lemma ocpi_reachable_ok s l : built s -> ocpi_reachable s l -> ol_ok l.
Proof.
  intros Hs. apply ocpi_run_ok. split; cbn; try done; [by left|]. intros r w Hin. by apply not_elem_of_nil in Hin.
Qed.

(** ** What is served is settled when it starts *)

Lemma started_step l l' : ol_ok l -> ol_start l <> OtNot -> ocpi_step l l' ->
  ol_server l' = ol_server l /\ ol_start l' <> OtNot.
Proof.
  intros [_ _ O3 _ _ _ _ _ _ _ _] Hst Hs.
  destruct Hs as [l l' He|m s st b sv wg rs an tk cx p Hm|bind s b sv wg rs an tk cx p| | | | | | | | | | |]; try done.
  - by destruct He.
  - split; [|done]. by apply Register_started, O3.
Qed.

(** What is served does not change.  From the moment Start is entered every
    registration is refused and changes nothing, whatever else goes on, so all the
    requests ever answered are answered by one and the same server: [ServeHTTP]'s
    theorems hold of the running program. *)
Theorem served_is_settled s l l' :
  built s -> ocpi_reachable s l -> ol_start l <> OtNot -> rtc ocpi_step l l' ->
  ol_server l' = ol_server l /\ built (ol_server l) /\
  (forall m, (Register (ol_server l) m).1 = ol_server l) /\
  (forall r w, (r, Answered w) ∈ ol_ended l' -> exists now ids1 ids2, w = ServeHTTP (ol_server l) now ids1 ids2 r).
Proof.
  intros Hb Hl Hst Hr. pose proof (ocpi_reachable_ok s l Hb Hl) as Hok.
  assert (Hrun : ol_server l' = ol_server l).
  { clear Hl. revert Hok Hst. induction Hr as [|l l1 l2 Hs _ IH]; intros Hok Hst; [done|].
    destruct (started_step l l1 Hok Hst Hs) as [<- Hst']. apply IH; [by eapply ocpi_step_ok|done]. }
  split; [done|]. split; [by apply (oo_built l Hok)|]. split.
  - intros m. apply Register_started. by apply (oo_started l Hok).
  - intros r w Hin. rewrite <- Hrun. by eapply (oo_answers l' (ocpi_run_ok l l' Hok Hr)).
Qed.

(** ** A Shutdown that succeeds *)

(** Nothing is being answered, nothing will be, and the port is free or about to
    be. *)
Definition ocpi_quiet (l l' : ocpi_life) : Prop :=
  drained (ol_shut l') /\ ol_taken l' = ol_taken l /\ ol_ended l' = ol_ended l.

Lemma ocpi_drained_step l0 l l' : ol_ok l -> ocpi_step l l' -> ocpi_quiet l0 l -> ol_shut l = OsReturned true ->
  ocpi_quiet l0 l' /\ ol_shut l' = OsReturned true.
Proof.
  intros Hok Hs (Hd & Ht & Ha) Hret. destruct (oo_drained l Hok Hd) as [Hrs Hsv]. unfold ocpi_quiet.
  destruct Hs as [l l' He| | | | | | | | | | | | |]; cbn in *; try done.
  destruct He as [| |r now ids1 ids2 s st b sv wg rs1 rs2|r s st b sv wg rs1 rs2]; cbn in *; try done; by destruct rs1.
Qed.

(** C27: a Shutdown that reports success is the end.  By then each request ever
    taken has ended, once: with the server's answer to it, or with a panic of its
    handler; the lifetime's context was cancelled.  Whatever happens later - a
    Start still under way included - no request is taken and none ends, and the
    port is taken only until that Start's goroutine finds the server shut down. *)
Theorem ocpi_Shutdown_waits s l l' :
  built s -> ocpi_reachable s l -> ol_shut l = OsReturned true -> rtc ocpi_step l l' ->
  ol_taken l ≡ₚ (ol_ended l).*1 /\
  (forall r e, (r, e) ∈ ol_ended l -> e = Panicked \/
     exists now ids1 ids2, e = Answered (ServeHTTP (ol_server l) now ids1 ids2 r)) /\
  lifetime_over l /\ ol_taken l' = ol_taken l /\ ol_ended l' = ol_ended l /\ ol_serve l' <> OvAccepting /\
  (ol_bound l' = true -> ol_start l' = OtBound \/ ol_serve l' = OvSpawned).
Proof.
  intros Hb Hl Hret Hr. pose proof (ocpi_reachable_ok s l Hb Hl) as Hok.
  assert (Hrun : forall l0, ocpi_quiet l0 l -> ocpi_quiet l0 l' /\ ol_shut l' = OsReturned true).
  { intros l0. clear Hl. revert Hok Hret. induction Hr as [|l l1 l2 Hs _ IH]; intros Hok Hret Hq; [done|].
    destruct (ocpi_drained_step l0 l l1 Hok Hs Hq Hret) as [Hq1 Hret1]. apply IH; [by eapply ocpi_step_ok|done|done]. }
  destruct (Hrun l) as [(Hd & Ht & Ha) Hret']; [split; [by rewrite Hret|done]|].
  pose proof (ocpi_run_ok l l' Hok Hr) as Hok'.
  destruct (oo_drained l' Hok' Hd) as [_ Hsv]. destruct (oo_drained l Hok) as [Hrs _]; [by rewrite Hret|].
  split_and!; try done.
  - by rewrite (oo_taken l Hok), Hrs.
  - intros r [w|] Hin; [right|by left]. destruct (oo_answers l Hok r w Hin) as [_ (now & ids1 & ids2 & ->)].
    by exists now, ids1, ids2.
  - apply (oo_ctx l Hok). by rewrite Hret.
  - intros Hbd. destruct (oo_bound l' Hok' Hbd) as [?|Hv]; [by left|right]. by destruct (ol_serve l').
Qed.

(** ** Shutdown ends *)

Definition ending_work (l : ocpi_life) : nat :=
  ((if serving_pc (ol_serve l) then 1 else 0) + length (ol_requests l))%nat.

Lemma ending_works l l' : ending_step l l' -> (ending_work l' < ending_work l)%nat.
Proof. unfold ending_work. intros Hs. destruct Hs; cbn; rewrite ?length_app; cbn; lia. Qed.

(** Once Shutdown is closing, what it waits for takes boundedly many steps, one
    for each handler and one for Serve's goroutine, and while any of it is left
    some of it can go on. *)
Theorem ocpi_Shutdown_ends s l :
  built s -> ocpi_reachable s l -> closing (ol_shut l) ->
  (forall n l', nsteps ending_step n l l' -> (n <= ending_work l)%nat) /\
  (ol_wg l <> 0 \/ ol_requests l <> [] -> exists l', ending_step l l').
Proof.
  intros Hb Hl Hc. split.
  - intros n l' Hn. clear Hb Hl Hc. induction Hn as [|n l l1 l2 Hs _ IH]; [lia|]. apply ending_works in Hs. lia.
  - pose proof (ocpi_reachable_ok s l Hb Hl) as Hok. destruct l as [s' st b sv wg rs an tk cx p]. intros Hleft. cbn in *.
    destruct rs as [|r rs]; [|eexists; by apply (oe_panic r s' st b sv wg [] rs)].
    destruct Hleft as [Hw|]; [|done]. pose proof (oo_wg _ Hok) as Ew. cbn in Ew. destruct sv; try done.
    + eexists. by apply oe_refused.
    + eexists. by apply oe_over.
Qed.
End life.

(** ** Instances: one request, and a Shutdown that waits for it *)

#[local] Existing Instance sample_texts.
#[local] Existing Instance sample_urls.

Definition started_sample : Server := (Start unstarted "0.0.0.0:0" None).1.
Definition sample_get : Request := ocpi_request "GET" "/ocpi/versions" "Token dGVzdA==".
Definition sample_reply : responseWriter := ServeHTTP started_sample zeroTime ids ids sample_get.

Definition handling_life : ocpi_life :=
  mkOcpiLife started_sample (OtReturned true) true OvAccepting 1 [sample_get] [] [sample_get] false OsNot.
Definition over_life : ocpi_life :=
  mkOcpiLife started_sample (OtReturned true) false OvOver 0 [] [(sample_get, Answered sample_reply)] [sample_get] true (OsReturned true).

Lemma handling_reachable : ocpi_reachable unstarted handling_life.
Proof.
  eapply rtc_l; [apply (ol_mark "0.0.0.0:0")|]. eapply rtc_l; [apply ol_bind|]. eapply rtc_l; [apply ol_spawn|].
  eapply rtc_l; [by apply ol_serve_begins; intros []|]. eapply rtc_l; [apply (ol_request sample_get)|]. apply rtc_refl.
Qed.

Lemma handling_over : rtc ocpi_step handling_life over_life.
Proof.
  eapply rtc_l; [apply ol_cancel|]. eapply rtc_l; [apply ol_stop|].
  eapply rtc_l; [apply ol_ending, oe_over|].
  eapply rtc_l; [apply ol_ending, (oe_answer sample_get zeroTime ids ids _ _ _ _ _ [] [])|].
  eapply rtc_l; [by apply ol_idle|]. eapply rtc_l; [apply ol_waited|]. apply rtc_refl.
Qed.

Lemma over_reachable : ocpi_reachable unstarted over_life.
Proof. by eapply rtc_trans; [apply handling_reachable|apply handling_over]. Qed.

Lemma served_is_settled_witness :
  exists now ids1 ids2, sample_reply = ServeHTTP started_sample now ids1 ids2 sample_get.
Proof.
  destruct (served_is_settled unstarted handling_life over_life unstarted_built handling_reachable ltac:(done) handling_over)
    as (_ & _ & _ & Hin).
  apply Hin. cbn. left.
Defined.

Lemma ocpi_Shutdown_waits_witness : [sample_get] ≡ₚ (ol_ended over_life).*1 /\ lifetime_over over_life.
Proof.
  destruct (ocpi_Shutdown_waits unstarted over_life over_life unstarted_built over_reachable eq_refl (rtc_refl _ _))
    as (Ht & _ & Ho & _).
  exact (conj Ht Ho).
Defined.

Lemma ocpi_Shutdown_ends_witness :
  let l := mkOcpiLife started_sample (OtReturned true) false OvAccepting 1 [sample_get] [] [sample_get] true OsStopped in
  exists l', ending_step l l'.
Proof.
  apply (ocpi_Shutdown_ends unstarted).
  - apply unstarted_built.
  - eapply rtc_trans; [apply handling_reachable|]. eapply rtc_l; [apply ol_cancel|].
    eapply rtc_l; [apply ol_stop|]. apply rtc_refl.
  - exact I.
  - left. discriminate.
Defined.
