(* ===== verification/StoreMemory.v ===== *)
(** * The store's memory (state/state.go, clone and normalize; state/store.go, Get and Update)

    State.v's store holds a value.  The store of the code holds pointers: slices
    of reservations and transactions, and a registration with slices of its own,
    which whoever has them can write through.  Here the arrays and the
    registration are cells of a memory, [clone] allocates, [normalize] writes in
    place, and everybody else holds addresses; the store in memory then behaves
    as State.v's.  A nil slice and an empty one are the same here: what the store
    keeps has been through [normalize], which makes the one the other. *)

From S2P Require Import Prelude GoLib GoTime Json Errors State.

(** ** Memory *)

(** A slice: its array, if it has one, and its length. *)
Record Slice := mkSlice { sl_addr : option nat; sl_len : nat }.

Record RegistrationCell := mkRegistrationCell {
  rc_RegisteredAt : Time;
  rc_TokenB : string;
  rc_VersionsURL : string;
  rc_Version : string;
  rc_Endpoints : Slice;
  rc_Roles : Slice
}.

Inductive Cell :=
| CReservations (l : list Reservation)
| CTransactions (l : list Transaction)
| CEndpoints (l : list Endpoint)
| CRoles (l : list PartyRole)
| CRegistration (r : RegistrationCell).

Record Memory := mkMemory { cells : gmap nat Cell; fresh : nat }.

(** [State] as the code has it. *)
Record StateValue := mkStateValue {
  vs_Version : Z;
  vs_OCPI : option nat;
  vs_NextReservationID : Z;
  vs_NextTransactionID : Z;
  vs_NextRemoteStartID : Z;
  vs_Reservations : Slice;
  vs_Transactions : Slice
}.

Definition as_reservations (c : Cell) : option (list Reservation) := match c with CReservations l => Some l | _ => None end.
Definition as_transactions (c : Cell) : option (list Transaction) := match c with CTransactions l => Some l | _ => None end.
Definition as_endpoints (c : Cell) : option (list Endpoint) := match c with CEndpoints l => Some l | _ => None end.
Definition as_roles (c : Cell) : option (list PartyRole) := match c with CRoles l => Some l | _ => None end.
Definition as_registration (c : Cell) : option RegistrationCell := match c with CRegistration r => Some r | _ => None end.

(** What a pointer points to, and the elements of a slice. *)
Definition at_addr {A} (get : Cell -> option A) (m : gmap nat Cell) (a : option nat) : option A :=
  a ← a; c ← m !! a; get c.

Definition elements {A} (get : Cell -> option (list A)) (m : gmap nat Cell) (s : Slice) : list A :=
  match at_addr get m (sl_addr s) with Some l => take (sl_len s) l | None => [] end.

Definition registration (m : gmap nat Cell) (r : RegistrationCell) : OCPIRegistration :=
  mkOCPIRegistration (rc_RegisteredAt r) (rc_TokenB r) (rc_VersionsURL r) (rc_Version r)
    (elements as_endpoints m (rc_Endpoints r)) (elements as_roles m (rc_Roles r)).

(** The value behind the pointers. *)
Definition value (m : gmap nat Cell) (v : StateValue) : State.State :=
  mkState (vs_Version v) (registration m <$> at_addr as_registration m (vs_OCPI v))
    (vs_NextReservationID v) (vs_NextTransactionID v) (vs_NextRemoteStartID v)
    (elements as_reservations m (vs_Reservations v)) (elements as_transactions m (vs_Transactions v)).

(** The addresses a registration, and a state, reach. *)
Definition reg_reaches (m : gmap nat Cell) (o : option nat) (a : nat) : Prop :=
  exists r, at_addr as_registration m o = Some r /\ (sl_addr (rc_Endpoints r) = Some a \/ sl_addr (rc_Roles r) = Some a).

Definition reaches (m : gmap nat Cell) (v : StateValue) (a : nat) : Prop :=
  sl_addr (vs_Reservations v) = Some a \/ sl_addr (vs_Transactions v) = Some a \/ vs_OCPI v = Some a \/
  reg_reaches m (vs_OCPI v) a.

(** ** clone *)

Definition alloc (c : Cell) (m : Memory) : nat * Memory :=
  (fresh m, mkMemory (<[fresh m := c]> (cells m)) (S (fresh m))).

(** [append([]T{}, s...)]: a new array, where there is anything to copy. *)
Definition copy_slice {A} (get : Cell -> option (list A)) (put : list A -> Cell) (s : Slice) (m : Memory) : Slice * Memory :=
  match elements get (cells m) s with
  | [] => (mkSlice None 0, m)
  | l => let '(a, m) := alloc (put l) m in (mkSlice (Some a) (length l), m)
  end.

Definition clone_registration (o : option nat) (m : Memory) : option nat * Memory :=
  match at_addr as_registration (cells m) o with
  | None => (None, m)
  | Some r =>
    let '(es, m) := copy_slice as_endpoints CEndpoints (rc_Endpoints r) m in
    let '(ros, m) := copy_slice as_roles CRoles (rc_Roles r) m in
    let '(a, m) := alloc (CRegistration (mkRegistrationCell (rc_RegisteredAt r) (rc_TokenB r) (rc_VersionsURL r)
                                           (rc_Version r) es ros)) m in
    (Some a, m)
  end.

Definition clone (v : StateValue) (m : Memory) : StateValue * Memory :=
  let '(rs, m) := copy_slice as_reservations CReservations (vs_Reservations v) m in
  let '(ts, m) := copy_slice as_transactions CTransactions (vs_Transactions v) m in
  let '(o, m) := clone_registration (vs_OCPI v) m in
  (mkStateValue (vs_Version v) o (vs_NextReservationID v) (vs_NextTransactionID v) (vs_NextRemoteStartID v) rs ts, m).

(** ** normalize *)

(** [for i := range s { f(&s[i]) }], in place. *)
Definition update_elements {A} (get : Cell -> option (list A)) (put : list A -> Cell) (f : A -> A) (s : Slice)
    (m : gmap nat Cell) : gmap nat Cell :=
  match sl_addr s, at_addr get m (sl_addr s) with
  | Some a, Some l => <[a := put ((f <$> take (sl_len s) l) ++ drop (sl_len s) l)]> m
  | _, _ => m
  end.

Definition update_registration (a : option nat) (m : gmap nat Cell) : gmap nat Cell :=
  match a, at_addr as_registration m a with
  | Some a, Some r => <[a := CRegistration (mkRegistrationCell (UTC (rc_RegisteredAt r)) (rc_TokenB r) (rc_VersionsURL r)
                                              (rc_Version r) (rc_Endpoints r) (rc_Roles r))]> m
  | _, _ => m
  end.

Definition normalize_in_place (v : StateValue) (m : gmap nat Cell) : StateValue * gmap nat Cell :=
  (mkStateValue Version (vs_OCPI v) (vs_NextReservationID v) (vs_NextTransactionID v) (vs_NextRemoteStartID v)
     (vs_Reservations v) (vs_Transactions v),
   update_registration (vs_OCPI v)
     (update_elements as_transactions CTransactions normalize_transaction (vs_Transactions v)
        (update_elements as_reservations CReservations normalize_reservation (vs_Reservations v) m))).

(** ** What they do *)

Definition in_memory (m : Memory) : Prop := forall a, is_Some (cells m !! a) -> (a < fresh m)%nat.

(** Nothing that is there is touched. *)
Definition extends (m m' : Memory) : Prop :=
  (fresh m <= fresh m')%nat /\ forall a, (a < fresh m)%nat -> cells m' !! a = cells m !! a.

Lemma memory_extends_refl m : extends m m.
Proof. by split. Qed.

Lemma memory_extends_trans m1 m2 m3 : extends m1 m2 -> extends m2 m3 -> extends m1 m3.
Proof. intros [L1 E1] [L2 E2]. split; [lia|]. intros a Ha. rewrite E2 by lia. by apply E1. Qed.

Lemma alloc_spec c m : in_memory m ->
  in_memory (alloc c m).2 /\ extends m (alloc c m).2 /\ cells (alloc c m).2 !! (alloc c m).1 = Some c /\
  (alloc c m).1 = fresh m /\ fresh (alloc c m).2 = S (fresh m).
Proof.
  intros Hm. cbn. split_and!; try done.
  - intros a. cbn. destruct (decide (a = fresh m)) as [->|Hne]; [intros _; lia|].
    rewrite lookup_insert_ne by done. intros Ha%Hm. lia.
  - split; cbn; [lia|]. intros a Ha. rewrite lookup_insert_ne; [done|lia].
  - by rewrite lookup_insert_eq.
Qed.

Lemma at_addr_frame {A} (get : Cell -> option A) m m' a :
  (forall x, a = Some x -> m' !! x = m !! x) -> at_addr get m' a = at_addr get m a.
Proof. intros Hx. unfold at_addr. destruct a as [a|]; [|done]. cbn. by rewrite (Hx a). Qed.

Lemma elements_frame {A} (get : Cell -> option (list A)) m m' s :
  (forall x, sl_addr s = Some x -> m' !! x = m !! x) -> elements get m' s = elements get m s.
Proof. intros Hx. unfold elements. by rewrite (at_addr_frame get m m'). Qed.

Lemma value_frame m m' v :
  (forall a, reaches m v a -> m' !! a = m !! a) ->
  value m' v = value m v /\ forall a, reaches m' v a <-> reaches m v a.
Proof.
  unfold reaches. intros Hr.
  assert (Ho : at_addr as_registration m' (vs_OCPI v) = at_addr as_registration m (vs_OCPI v)).
  { apply at_addr_frame. intros x Hx. apply Hr. auto. }
  unfold value. rewrite Ho.
  rewrite (elements_frame _ m m' (vs_Reservations v)) by (intros x Hx; apply Hr; auto).
  rewrite (elements_frame _ m m' (vs_Transactions v)) by (intros x Hx; apply Hr; auto).
  split; [|intros a; unfold reg_reaches; by rewrite Ho].
  f_equal. destruct (at_addr as_registration m (vs_OCPI v)) as [r|] eqn:Er; [|done]. cbn. f_equal. unfold registration.
  f_equal; apply elements_frame; intros x Hx; apply Hr; do 3 right; exists r; auto.
Qed.

(** A copy has the elements, in an array of its own. *)
Lemma copy_slice_spec {A} (get : Cell -> option (list A)) (put : list A -> Cell) s m s' m' :
  (forall l, get (put l) = Some l) -> in_memory m -> copy_slice get put s m = (s', m') ->
  in_memory m' /\ extends m m' /\ elements get (cells m') s' = elements get (cells m) s /\
  (forall a, sl_addr s' = Some a -> (fresh m <= a < fresh m')%nat).
Proof.
  intros Hgp Hm. unfold copy_slice. destruct (elements get (cells m) s) as [|x l] eqn:E.
  { intros [= <- <-]. split; [done|]. split; [apply memory_extends_refl|]. by split. }
  pose proof (alloc_spec (put (x :: l)) m Hm) as (A1 & A2 & A3 & A4 & A5). destruct (alloc _ _) as [a m1]. cbn [fst snd] in *.
  intros [= <- <-]. split; [done|]. split; [done|]. split.
  - unfold elements, at_addr. cbn [sl_addr sl_len mbind option_bind]. rewrite A3. cbn [mbind option_bind]. rewrite Hgp.
    apply take_ge. done.
  - cbn. intros a' [= <-]. lia.
Qed.

Lemma elements_extends {A} (get : Cell -> option (list A)) m m' s :
  extends m m' -> (forall a, sl_addr s = Some a -> (a < fresh m)%nat) -> elements get (cells m') s = elements get (cells m) s.
Proof. intros [_ Hx] Hs. apply elements_frame. intros a Ha. apply Hx. by apply Hs. Qed.

(** The addresses of a state are of the memory. *)
Definition placed (m : Memory) (v : StateValue) : Prop := forall a, reaches (cells m) v a -> (a < fresh m)%nat.

Lemma at_addr_extends {A} (get : Cell -> option A) m m' a :
  extends m m' -> (forall x, a = Some x -> (x < fresh m)%nat) -> at_addr get (cells m') a = at_addr get (cells m) a.
Proof. intros [_ Hx] Ha. apply at_addr_frame. intros x Hx'. apply Hx. by apply Ha. Qed.

Lemma clone_registration_spec o m o' m' :
  in_memory m -> (forall a, o = Some a \/ reg_reaches (cells m) o a -> (a < fresh m)%nat) ->
  clone_registration o m = (o', m') ->
  in_memory m' /\ extends m m' /\
  registration (cells m') <$> at_addr as_registration (cells m') o' =
    registration (cells m) <$> at_addr as_registration (cells m) o /\
  (forall a, o' = Some a \/ reg_reaches (cells m') o' a -> (fresh m <= a < fresh m')%nat).
Proof.
  intros Hm Hp. unfold clone_registration. destruct (at_addr as_registration (cells m) o) as [r|] eqn:Er.
  2: { intros [= <- <-]. split; [done|]. split; [apply memory_extends_refl|]. split; [done|]. by intros a [?|(r & ? & _)]. }
  assert (Hr : forall a, sl_addr (rc_Endpoints r) = Some a \/ sl_addr (rc_Roles r) = Some a -> (a < fresh m)%nat).
  { intros a Ha. apply Hp. right. by exists r. }
  destruct (copy_slice as_endpoints _ _ m) as [es m1] eqn:E1.
  destruct (copy_slice_spec as_endpoints CEndpoints _ _ _ _ (fun l => eq_refl) Hm E1) as (M1 & X1 & V1 & R1).
  destruct (copy_slice as_roles _ _ m1) as [ros m2] eqn:E2.
  destruct (copy_slice_spec as_roles CRoles _ _ _ _ (fun l => eq_refl) M1 E2) as (M2 & X2 & V2 & R2).
  set (r' := mkRegistrationCell _ _ _ _ es ros).
  destruct (alloc_spec (CRegistration r') m2 M2) as (M3 & X3 & V3 & A3 & F3).
  destruct (alloc (CRegistration r') m2) as [a3 m3]. cbn [fst snd] in *. intros [= <- <-].
  assert (X13 : extends m1 m3) by (by eapply memory_extends_trans).
  pose proof X1 as [L1 _]. pose proof X2 as [L2 _]. pose proof X3 as [L3 _].
  split; [done|]. split; [by eapply memory_extends_trans|]. unfold at_addr at 1. cbn. rewrite V3. cbn. split.
  - f_equal. unfold registration, r'. cbn. f_equal.
    + rewrite (elements_extends _ m1 m3) by (try done; intros a Ha; by apply R1). done.
    + rewrite (elements_extends _ m2 m3) by (try done; intros a Ha; by apply R2). rewrite V2.
      apply elements_extends; [done|]. intros a Ha. apply Hr. by right.
  - intros a [[= <-]|(r0 & Hr0 & Ha)]; [lia|]. unfold at_addr in Hr0. cbn in Hr0. rewrite V3 in Hr0. cbn in Hr0.
    injection Hr0 as <-. cbn in Ha. destruct Ha as [Ha%R1|Ha%R2]; lia.
Qed.

(** [clone] gives the same value, and reaches nothing that was there before. *)
Lemma clone_spec v m v' m' :
  in_memory m -> placed m v -> clone v m = (v', m') ->
  in_memory m' /\ extends m m' /\ value (cells m') v' = value (cells m) v /\
  (forall a, reaches (cells m') v' a -> (fresh m <= a < fresh m')%nat).
Proof.
  intros Hm Hp. unfold clone.
  destruct (copy_slice as_reservations _ _ m) as [rs m1] eqn:E1.
  destruct (copy_slice_spec as_reservations CReservations _ _ _ _ (fun l => eq_refl) Hm E1) as (M1 & X1 & V1 & R1).
  destruct (copy_slice as_transactions _ _ m1) as [ts m2] eqn:E2.
  destruct (copy_slice_spec as_transactions CTransactions _ _ _ _ (fun l => eq_refl) M1 E2) as (M2 & X2 & V2 & R2).
  assert (X12 : extends m m2) by (by eapply memory_extends_trans).
  assert (Ho : at_addr as_registration (cells m2) (vs_OCPI v) = at_addr as_registration (cells m) (vs_OCPI v)).
  { apply at_addr_extends; [done|]. intros x Hx. apply Hp. right. right. by left. }
  destruct (clone_registration (vs_OCPI v) m2) as [o m3] eqn:E3.
  assert (Hpo : forall a, vs_OCPI v = Some a \/ reg_reaches (cells m2) (vs_OCPI v) a -> (a < fresh m2)%nat).
  { intros a Ha. apply Nat.lt_le_trans with (fresh m); [|apply X12]. apply Hp. right. right.
    destruct Ha as [?|(r & Hr & Ha)]; [by left|right]. exists r. by rewrite <- Ho. }
  destruct (clone_registration_spec (vs_OCPI v) m2 o m3 M2 Hpo E3) as (M3 & X3 & V3 & R3).
  intros [= <- <-]. pose proof X1 as [L1 _]. pose proof X2 as [L2 _]. pose proof X3 as [L3 _].
  split; [done|]. split; [by eapply memory_extends_trans|]. split.
  - unfold value.
    cbn [vs_Version vs_OCPI vs_NextReservationID vs_NextTransactionID vs_NextRemoteStartID vs_Reservations vs_Transactions].
    rewrite V3, Ho. f_equal.
    + destruct (at_addr as_registration (cells m) (vs_OCPI v)) as [r|] eqn:Er; [|done]. cbn. f_equal. unfold registration.
      f_equal; apply elements_extends; try done; intros a Ha; apply Hp; do 3 right; exists r; auto.
    + rewrite (elements_extends _ m1 m3); [done|by eapply memory_extends_trans|]. intros a Ha. by apply R1.
    + rewrite (elements_extends _ m2 m3) by (try done; intros a Ha; by apply R2). rewrite V2.
      apply elements_extends; [done|]. intros a Ha. apply Hp. right. by left.
  - intros a Ha. unfold reaches in Ha. cbn in Ha. destruct Ha as [Ha%R1|[Ha%R2|Ha%R3]]; lia.
Qed.

#[export] Instance reaches_dec m v a : Decision (reaches m v a).
Proof.
  unfold reaches. repeat (apply or_dec; [apply _|]). unfold reg_reaches.
  destruct (at_addr as_registration m (vs_OCPI v)) as [r|].
  - destruct (decide (sl_addr (rc_Endpoints r) = Some a \/ sl_addr (rc_Roles r) = Some a)) as [Hd|Hd]; [left; by exists r|].
    right. by intros (r' & [= <-] & ?).
  - right. by intros (r & ? & _).
Defined.

(** A cell of another kind stays what it was. *)
Lemma at_addr_insert {A B} (get : Cell -> option A) (g : Cell -> option B) m a c c' o :
  m !! a = Some c -> g c = None -> g c' = None -> at_addr g (<[a := c']> m) o = at_addr g m o.
Proof.
  intros Ha Hc Hc'. unfold at_addr. destruct o as [o|]; [|done]. cbn. destruct (decide (o = a)) as [->|Hne].
  - rewrite lookup_insert_eq, Ha. cbn. by rewrite Hc, Hc'.
  - by rewrite lookup_insert_ne.
Qed.

Section update.
Context {A : Type} (get : Cell -> option (list A)) (put : list A -> Cell) (f : A -> A) (s : Slice) (m : gmap nat Cell).
Hypothesis get_put : forall l, get (put l) = Some l.
Hypothesis get_Some : forall c l, get c = Some l -> c = put l.
#[local] Abbreviation m' := (update_elements get put f s m).

Lemma update_elements_self : elements get m' s = f <$> elements get m s.
Proof.
  unfold update_elements, elements, at_addr. destruct (sl_addr s) as [a|] eqn:Es; cbn; [|done].
  destruct (m !! a) as [c|] eqn:Ec; cbn; [|by rewrite Ec]. destruct (get c) as [l|] eqn:El; [|by rewrite Ec; cbn; rewrite El].
  rewrite lookup_insert_eq. cbn. rewrite get_put. destruct (decide (sl_len s <= length l)%nat) as [Hle|Hgt].
  - apply take_app_length'. rewrite length_fmap, length_take. lia.
  - rewrite drop_ge, app_nil_r by lia. apply take_ge. rewrite length_fmap, length_take. lia.
Qed.

Lemma update_elements_frame a : sl_addr s <> Some a -> m' !! a = m !! a.
Proof.
  unfold update_elements. intros Ha. destruct (sl_addr s) as [b|]; [|done]. destruct (at_addr get m _); [|done].
  rewrite lookup_insert_ne; [done|]. congruence.
Qed.

Lemma update_elements_other {B} (g : Cell -> option B) o : (forall l, g (put l) = None) -> at_addr g m' o = at_addr g m o.
Proof.
  intros Hg. unfold update_elements. destruct (sl_addr s) as [a|]; [|done]. destruct (at_addr get m (Some a)) as [l|] eqn:E; [|done].
  unfold at_addr in E. cbn in E. destruct (m !! a) as [c|] eqn:Ec; [|done]. cbn in E.
  eapply (at_addr_insert get g); [done| |by apply Hg]. by rewrite (get_Some _ _ E).
Qed.
End update.

Definition utc_cell (r : RegistrationCell) : RegistrationCell :=
  mkRegistrationCell (UTC (rc_RegisteredAt r)) (rc_TokenB r) (rc_VersionsURL r) (rc_Version r) (rc_Endpoints r) (rc_Roles r).

Lemma update_registration_self o m :
  at_addr as_registration (update_registration o m) o = utc_cell <$> at_addr as_registration m o.
Proof.
  unfold update_registration. destruct o as [a|]; [|done]. destruct (at_addr as_registration m (Some a)) as [r|] eqn:E; [|done].
  unfold at_addr. cbn. by rewrite lookup_insert_eq.
Qed.

Lemma update_registration_frame o m a : o <> Some a -> update_registration o m !! a = m !! a.
Proof.
  unfold update_registration. intros Ha. destruct o as [b|]; [|done]. destruct (at_addr _ m _); [|done].
  rewrite lookup_insert_ne; [done|]. congruence.
Qed.

Lemma update_registration_other {B} (g : Cell -> option B) o m a :
  (forall r, g (CRegistration r) = None) -> at_addr g (update_registration o m) a = at_addr g m a.
Proof.
  intros Hg. unfold update_registration. destruct o as [b|]; [|done].
  destruct (at_addr as_registration m (Some b)) as [r|] eqn:E; [|done]. unfold at_addr in E. cbn in E.
  destruct (m !! b) as [c|] eqn:Ec; [|done]. cbn in E.
  eapply (at_addr_insert as_registration g); [done| |by apply Hg]. destruct c; try done.
Qed.

(** [normalize] in place is State.v's, and writes only what the state reaches. *)
Lemma normalize_in_place_spec v m :
  let '(v', m') := normalize_in_place v m in
  value m' v' = State.normalize (value m v) /\
  (forall a, ~ reaches m v a -> m' !! a = m !! a) /\ (forall a, reaches m' v' a <-> reaches m v a).
Proof.
  unfold normalize_in_place. set (m1 := update_elements as_reservations _ _ _ m).
  set (m2 := update_elements as_transactions _ _ _ m1). set (m3 := update_registration _ m2).
  assert (G1 : forall c l, as_reservations c = Some l -> c = CReservations l) by (intros [] ?; by intros [= ->]).
  assert (G2 : forall c l, as_transactions c = Some l -> c = CTransactions l) by (intros [] ?; by intros [= ->]).
  assert (Ho : at_addr as_registration m2 (vs_OCPI v) = at_addr as_registration m (vs_OCPI v)).
  { unfold m2, m1. rewrite !update_elements_other; done. }
  assert (Ho3 : at_addr as_registration m3 (vs_OCPI v) = utc_cell <$> at_addr as_registration m (vs_OCPI v)).
  { unfold m3. by rewrite update_registration_self, Ho. }
  assert (Hot : forall (B : Type) (g : Cell -> option B), (forall l, g (CReservations l) = None) ->
            (forall l, g (CTransactions l) = None) -> (forall r, g (CRegistration r) = None) ->
            forall a, at_addr g m3 a = at_addr g m a).
  { intros B g H1 H2 H3 a. unfold m3, m2, m1. rewrite update_registration_other, !update_elements_other; done. }
  split; [|split].
  - unfold value, State.normalize.
    cbn [vs_Version vs_OCPI vs_NextReservationID vs_NextTransactionID vs_NextRemoteStartID vs_Reservations vs_Transactions
         ss_Version ss_OCPI ss_NextReservationID ss_NextTransactionID ss_NextRemoteStartID ss_Reservations ss_Transactions].
    rewrite Ho3. f_equal.
    + destruct (at_addr as_registration m (vs_OCPI v)) as [r|]; [|done]. cbn. f_equal.
      unfold registration, normalize_registration, utc_cell, elements. cbn. by rewrite !Hot.
    + unfold elements at 1, m3. rewrite update_registration_other by done. unfold m2.
      rewrite update_elements_other by done. by apply update_elements_self.
    + unfold elements at 1, m3. rewrite update_registration_other by done.
      change (elements as_transactions m2 (vs_Transactions v) = normalize_transaction <$> elements as_transactions m (vs_Transactions v)).
      unfold m2. rewrite update_elements_self by done. f_equal. unfold elements, m1. by rewrite update_elements_other.
  - intros a Ha. unfold reaches in Ha. unfold m3, m2, m1.
    rewrite update_registration_frame by tauto. rewrite !update_elements_frame by tauto. done.
  - intros a. unfold reaches, reg_reaches. cbn [vs_OCPI vs_Reservations vs_Transactions]. rewrite Ho3.
    destruct (at_addr as_registration m (vs_OCPI v)) as [r|]; [|done].
    split; intros [?|[?|[?|(r' & [= <-] & ?)]]]; auto; do 3 right; eexists; (split; [done|done]).
Qed.

(** ** The store and everybody else *)

(** The memory, the store in it, its file, and the addresses others hold: what
    [Get] gave out, what a callback of [Update] kept, and what they made. *)
Record memory_store := mkMemoryStore {
  me_mem : Memory;
  me_state : StateValue;
  me_path : string;
  me_disk : Disk;
  me_held : gset nat
}.

Definition store_of (s : memory_store) : Store := mkStore (me_path s) (value (cells (me_mem s)) (me_state s)) (me_disk s).

Record memory_ok (s : memory_store) : Prop := {
  mo_memory : in_memory (me_mem s);
  mo_placed : placed (me_mem s) (me_state s);
  mo_apart : forall a, reaches (cells (me_mem s)) (me_state s) a -> a ∉ me_held s;
  mo_held : forall a, a ∈ me_held s -> (a < fresh (me_mem s))%nat
}.

Inductive store_event :=
| EvGet (x : State.State)
| EvOutside
| EvUpdate (next : State.State + error) (r : WriteResult) (err : option error).

(** A callback turns the memory [m], in which it has been given the state [v],
    into [m']: it writes through what it was given and what others hold, and makes
    new cells; [held'] is held when it has returned. *)
Record callback (m0 : nat) (v : StateValue) (held : gset nat) (m m' : Memory) (held' : gset nat) : Prop := {
  cb_memory : in_memory m';
  cb_fresh : (fresh m <= fresh m')%nat;
  cb_confined : forall a, (a < fresh m)%nat -> ~ reaches (cells m) v a -> a ∉ held -> cells m' !! a = cells m !! a;
  cb_held : forall a, a ∈ held' -> a ∈ held \/ (m0 <= a < fresh m')%nat
}.

Inductive memory_step : store_event -> memory_store -> memory_store -> Prop :=
| me_get m v p d held held' v' m' : clone v m = (v', m') ->
    (forall a, a ∈ held' -> a ∈ held \/ reaches (cells m') v' a) ->
    memory_step (EvGet (value (cells m') v')) (mkMemoryStore m v p d held) (mkMemoryStore m' v p d held')
| me_write a c m v p d held : (a ∈ held) ->
    memory_step EvOutside (mkMemoryStore m v p d held) (mkMemoryStore (mkMemory (<[a := c]> (cells m)) (fresh m)) v p d held)
| me_make c m v p d held :
    memory_step EvOutside (mkMemoryStore m v p d held) (mkMemoryStore (alloc c m).2 v p d ({[fresh m]} ∪ held))
| me_refused e r m v p d held v1 m1 m2 held' : clone v m = (v1, m1) -> callback (fresh m) v1 held m1 m2 held' ->
    memory_step (EvUpdate (inr e) r (Some e)) (mkMemoryStore m v p d held) (mkMemoryStore m2 v p d held')
(* what the callback made of the state is its own, or was theirs, and is kept by nobody *)
| me_updated r err m v p d d' held v1 m1 v2 m2 held' v3 c3 : clone v m = (v1, m1) -> callback (fresh m) v1 held m1 m2 held' ->
    (forall a, reaches (cells m2) v2 a -> (a < fresh m2)%nat /\ (a ∉ held') /\ ((a ∈ held) \/ (fresh m <= a)%nat)) ->
    normalize_in_place v2 (cells m2) = (v3, c3) -> write p d (value c3 v3) r = (d', err) ->
    memory_step (EvUpdate (inl (value (cells m2) v2)) r err) (mkMemoryStore m v p d held)
      (mkMemoryStore (mkMemory c3 (fresh m2)) (match err with Some _ => v | None => v3 end) p d' held').

(** What State.v's store does at each event. *)
Definition store_does (ev : store_event) (st st' : Store) : Prop :=
  match ev with
  | EvGet x => x = State.Get st /\ st' = st
  | EvOutside => st' = st
  | EvUpdate next r err => Update (fun _ => next) r st = (st', err)
  end.

(** What is neither held nor reachable through a clone is not touched. *)
Lemma callback_frame m v v1 m1 held m2 held' :
  in_memory m -> placed m v -> (forall a, reaches (cells m) v a -> a ∉ held) ->
  clone v m = (v1, m1) -> callback (fresh m) v1 held m1 m2 held' ->
  (fresh m <= fresh m2)%nat /\ value (cells m2) v = value (cells m) v /\
  (forall a, reaches (cells m2) v a <-> reaches (cells m) v a).
Proof.
  intros Hm Hp Ha Hc [_ C2 C3 _]. destruct (clone_spec v m v1 m1 Hm Hp Hc) as (_ & [L Hx] & _ & Hr).
  split; [lia|]. apply value_frame. intros a Hin. pose proof (Hp a Hin) as Hlt. transitivity (cells m1 !! a); [|by apply Hx].
  apply C3; [lia| |by apply Ha]. intros Hin'%Hr. lia.
Qed.

Lemma memory_step_ok ev s s' : memory_ok s -> memory_step ev s s' -> memory_ok s' /\ store_does ev (store_of s) (store_of s').
Proof.
  intros [I1 I2 I3 I4] Hs. destruct Hs as [m v p d held held' v' m' Hc Hh|a c m v p d held Hin|c m v p d held
    |e r m v p d held v1 m1 m2 held' Hc Hcb|r err m v p d d' held v1 m1 v2 m2 held' v3 c3 Hc Hcb Hv2 Hn Hw]; cbn in *.
  - destruct (clone_spec v m v' m' I1 I2 Hc) as (M & [L Hx] & V & R).
    destruct (value_frame (cells m) (cells m') v) as [Ev Er]; [intros a Ha; apply Hx; by apply I2|].
    split; [|by unfold store_of; cbn; rewrite Ev].
    split; cbn; [done| | |].
    + intros a Ha%Er%I2. lia.
    + intros a Ha%Er Hin. destruct (Hh a Hin) as [Hin'|Hr]; [by eapply I3|]. apply R in Hr. apply I2 in Ha. lia.
    + intros a [Ha%I4|Ha%R]%Hh; lia.
  - destruct (value_frame (cells m) (<[a := c]> (cells m)) v) as [Ev Er].
    { intros b Hb. rewrite lookup_insert_ne; [done|]. intros ->. by apply (I3 b). }
    split; [|by unfold store_of; cbn; rewrite Ev]. split; cbn; [|intros b Hb%Er; by apply I2|intros b Hb%Er; by apply I3|done].
    intros b. cbn. destruct (decide (b = a)) as [->|Hne]; [intros _; by apply I4|]. rewrite lookup_insert_ne by done. apply I1.
  - destruct (alloc_spec c m I1) as (M & [L Hx] & _). cbn in *.
    destruct (value_frame (cells m) (<[fresh m := c]> (cells m)) v) as [Ev Er].
    { intros b Hb. apply Hx. by apply I2. }
    split; [|by unfold store_of; cbn; rewrite Ev]. split; cbn; [done|intros b Hb%Er%I2; cbn; lia| |].
    + intros b Hb%Er Hin. apply elem_of_union in Hin as [->%elem_of_singleton|Hin]; [apply I2 in Hb; lia|by eapply I3].
    + intros b [->%elem_of_singleton|Hb%I4]%elem_of_union; lia.
  - destruct (callback_frame m v v1 m1 held m2 held' I1 I2 I3 Hc Hcb) as (L & Ev & Er). pose proof Hcb as [C1 C2 C3 C4].
    split; [|by unfold store_of; cbn; rewrite Ev]. split; cbn; [done|intros a Ha%Er%I2; lia| |].
    + intros a Ha%Er Hin. destruct (C4 a Hin) as [Hin'|Hge]; [by eapply I3|]. apply I2 in Ha. lia.
    + intros a [Ha%I4|Ha]%C4; lia.
  - destruct (callback_frame m v v1 m1 held m2 held' I1 I2 I3 Hc Hcb) as (L & Ev & Er). pose proof Hcb as [C1 C2 C3 C4].
    pose proof (normalize_in_place_spec v2 (cells m2)) as HN. rewrite Hn in HN. destruct HN as (N1 & N2 & N3).
    assert (Hv : value c3 v = value (cells m2) v /\ forall a, reaches c3 v a <-> reaches (cells m2) v a).
    { apply value_frame. intros a Ha. apply N2. intros Ha2. apply Er in Ha. destruct (Hv2 a Ha2) as (_ & _ & [Hin|Hge]).
      - by eapply I3.
      - apply I2 in Ha. lia. }
    destruct Hv as [Ev3 Er3]. rewrite N1 in Hw.
    assert (Hsplit : forall a, reaches (cells m2) v2 a \/ ~ reaches (cells m2) v2 a) by (intros a; destruct (reaches_dec (cells m2) v2 a); tauto).
    assert (Hmem : in_memory (mkMemory c3 (fresh m2))).
    { intros a Hx. cbn in *. destruct (Hsplit a) as [Hr|Hr]; [by apply Hv2|]. apply C1. by rewrite <- N2. }
    split.
    + split; cbn [me_mem me_state me_path me_disk me_held cells fresh]; [done| | |].
      * destruct err; intros a Ha; cbn in *; [apply Er3, Er, I2 in Ha; lia|]. by apply N3, Hv2 in Ha as [? _].
      * destruct err; intros a Ha Hin; [|by apply N3, Hv2 in Ha as (_ & ? & _)].
        apply Er3, Er in Ha. destruct (C4 a Hin) as [Hin'|Hge]; [by eapply I3|]. apply I2 in Ha. lia.
      * intros a [Ha%I4|Ha]%C4; lia.
    + unfold Update, store_of, State.Get. cbn [me_mem me_state me_path me_disk state path disk]. rewrite Hw.
      destruct err; cbn; [by rewrite Ev3, Ev|by rewrite N1].
Qed.

Inductive memory_run (s0 : memory_store) : list store_event -> memory_store -> Prop :=
| mr_start : memory_run s0 [] s0
| mr_step evs ev s s' : memory_run s0 evs s -> memory_step ev s s' -> memory_run s0 (evs ++ [ev]) s'.

Inductive store_run (st0 : Store) : list store_event -> Store -> Prop :=
| sr_none : store_run st0 [] st0
| sr_more evs ev st st' : store_run st0 evs st -> store_does ev st st' -> store_run st0 (evs ++ [ev]) st'.

(** C17: nobody can change the store's state but through [Update].  Whatever is
    written through what [Get] has given out or [Update] has shown, by any number
    of others in any order, the store in memory does what the store of values
    does: [Get] gives the state, a callback that fails leaves it, one that
    succeeds replaces it by what it made of its copy, normalised, if the file
    could be written, and nothing else happens to it. *)
Theorem memory_refines_store s0 evs s :
  memory_ok s0 -> memory_run s0 evs s -> memory_ok s /\ store_run (store_of s0) evs (store_of s).
Proof.
  intros H0 Hr. induction Hr as [|evs ev s s' _ [IH1 IH2] Hs]; [split; [done|constructor]|].
  destruct (memory_step_ok ev s s' IH1 Hs) as [Hok Hd]. split; [done|]. by econstructor.
Qed.

(** A state with one reservation; a caller of [Get] empties the list it got. *)
Definition sample_memory : memory_store :=
  mkMemoryStore (mkMemory {[0%nat := CReservations [zero_reservation]]} 1)
    (mkStateValue Version None 2 0 0 (mkSlice (Some 0%nat) 1) (mkSlice None 0)) "state.json" no_file ∅.
Definition sample_copy : StateValue := (clone (me_state sample_memory) (me_mem sample_memory)).1.
Definition sample_got : memory_store :=
  mkMemoryStore (clone (me_state sample_memory) (me_mem sample_memory)).2 (me_state sample_memory) "state.json"
    no_file {[1%nat]}.
Definition sample_scribbled : memory_store :=
  mkMemoryStore (mkMemory (<[1%nat := CReservations []]> (cells (me_mem sample_got))) (fresh (me_mem sample_got)))
    (me_state sample_got) "state.json" no_file {[1%nat]}.

Lemma sample_memory_ok : memory_ok sample_memory.
Proof.
  split; cbn.
  - intros a. cbn. destruct (decide (a = 0%nat)) as [->|Hne]; [intros _; lia|]. rewrite lookup_singleton_ne by done. by intros [].
  - intros a [[= <-]|[?|[?|(r & ? & _)]]]; [cbn; lia|done..].
  - intros a _. apply not_elem_of_empty.
  - by intros a ?%elem_of_empty.
Qed.

Lemma memory_refines_store_witness :
  store_run (store_of sample_memory) [EvGet (value (cells (me_mem sample_got)) sample_copy); EvOutside]
    (store_of sample_scribbled).
Proof.
  apply (memory_refines_store sample_memory _ sample_scribbled sample_memory_ok).
  apply (mr_step _ [_] _ sample_got); [apply (mr_step _ [] _ sample_memory); [constructor|]|].
  - apply (me_get (me_mem sample_memory) _ _ _ ∅ {[1%nat]} sample_copy (me_mem sample_got)); [reflexivity|].
    intros a Ha%elem_of_singleton. right. left. subst a. reflexivity.
  - apply me_write. by apply elem_of_singleton.
Defined.

Example scribbling_is_local :
  ss_Reservations (state (store_of sample_scribbled)) = [zero_reservation].
Proof. vm_compute. reflexivity. Qed.
